(* ===== verification/_CoqProject ===== *)
-Q . S2P
Prelude.v
JsRuntime.v
Modules.v
Dedup.v
Diff.v
Classifier.v
Regex.v
RegexSem.v
Validator.v
Extractor.v
World.v
Json.v
JsonSpec.v
JsonPrint.v
Hoare.v
Script.v
Files.v
Glob.v
Manifest.v
Actions.v
Pipeline.v
Outcome.v
Protocol.v
Converge.v
Project.v
CodeUnits.v
