(* ===== verification/Prelude.v ===== *)
(** * auto-install: a verification development for [src/helpers.js]

    ** The program

    [src/helpers.js] is the helper module of a command-line tool that
    reconciles the dependencies a Node project declares in [package.json]
    with the modules its sources really [require].  The exported functions
    are [getInstalledModules], [getUsedModules], [filterRegistryModules],
    [installModule], [uninstallModule], [diff] and [reinstall]; the other
    functions of the file are their helpers.  The data that flows through
    all of them is the module object [{name, dev}].

    The parts of the program, leaves first, and how they interact:

    - reference extraction ([pattern], [getModulesFromFile]): the text of a
      file is matched against [/require\((.*?)\)/g]; every match is stripped
      of the call syntax with [replace] and two [substring] calls, offered to
      [isValidModule] and pushed on the result;
    - validation ([isValidModule]): a test of the [name] property of its
      argument against [^([a-z0-9-_]{1,})$];
    - classification ([filterRegistryModules], [removeBuiltInModules],
      [removeLocalFiles]): two [Array.prototype.filter] passes over module
      objects;
    - de-duplication ([deduplicate], [deduplicateSimilarModules]): a
      partition by [dev], then a loop that keeps the first module of each
      name, using a second array of the names seen so far;
    - the manifest reader ([getInstalledModules]): [JSON.parse] of the
      text of [package.json], then [for ... in] over the [dependencies]
      and the [devDependencies] of the value;
    - file discovery ([getFiles]): [glob.sync] with the pattern
      [**/*.js] and the pattern [node_modules/**/*] to ignore;
    - the difference ([diff], [getNamesFromModules]): the modules of the
      first array whose name is not a name of the second;
    - the effectful shell ([getUsedModules], [installModule],
      [uninstallModule], [reinstall], [runCommand], [startSpinner],
      [stopSpinner], [getFiles], [readFile], [isModulePopular],
      [secureMode]): file reads, [npm] commands and console output;
    - the exported object ([module.exports]), through which the calling
      script reaches seven of the functions.

    ** The development, file by file

    Every file models one part; a file requires this prelude and the files
    of the parts it calls.  All definitions are executable, so that every
    example and every witness of the development is checked by
    computation.

    - [Prelude] (this file): JavaScript strings as lists of UTF-16 code
      units ([jsstring], literals written [js "..."]), the strict-equality
      notations of scope [js_scope], the tactics and the hint databases
      [jsdb] and [jsrw] shared by the other files, and the lemmas on
      [List.filter] (the model of [Array.prototype.filter]), on sublists,
      suffixes and permutations that several components use.
    - [JsRuntime]: the built-in operations the sources call, defined from
      the ECMAScript specification, with the lemmas the components need:
      [String.prototype.substring], [indexOf], [endsWith], [replace] with a
      string pattern, [Array.prototype.indexOf], and [ToString] of a
      possibly undefined property.  Numbers that can be negative in the
      source ([match.length - 2], the result [-1] of [indexOf]) are [Z].
    - [Modules]: the record [ModuleRef] for [{name, dev}], with decidable
      equality and countability, and [getNamesFromModules].
    - [Dedup]: [deduplicateSimilarModules] as the source's loop (a left fold
      over the pair of arrays [dedupedModules], [dedupedModuleNames]) and
      [deduplicate]; the loop invariant that keeps the two arrays in step,
      the equivalence with a structurally recursive reference definition
      ([keep_first]), absence of duplicates, preservation of membership,
      idempotence, and the refinement of [deduplicate] to the finite set of
      its input.
    - [Diff]: [diff]; its characterisation by membership, the refinement to
      set difference on names, and its algebra (empty and self difference,
      preservation of order, of [dev] flags and of duplicate-freedom).
    - [Classifier]: [removeBuiltInModules], [removeLocalFiles] and
      [filterRegistryModules], over an interface [BuiltinOracle] for the
      external predicate [is-builtin-module]; what is kept, what is
      removed, that the two passes commute, and how classification
      interacts with [deduplicate] and [diff]; the well-formedness
      [used_set] of the lists that leave the classifier (no module twice,
      no built-in name, no name that starts with [./]) and the operations
      that keep it.
    - [Regex]: regular expressions as a syntax tree ([regex]) and the
      backtracking matcher of the ECMAScript specification in
      continuation-passing style ([rmatch], [repeat_matcher]), with
      [RegExp.prototype.test] and [String.prototype.match] for a global
      pattern; locality and progress of matchers, and the closed forms of
      the lazy and of the greedy star.
    - [RegexSem]: the language of a pattern ([matches], defined by
      recursion on the pattern, the quantifier by the iteration
      [repeats]); the matcher is sound and complete for it, [search]
      finds the leftmost match, [test] and [match] decide whether there is
      one.
    - [Validator]: [isValidModule], with the destructuring of its parameter
      ([jsarg], [prop_name]); the matcher on [^([a-z0-9-_]{1,})$] equals
      the direct test [valid_name], and the language of the pattern is
      the set of the valid names; on a module object the function decides
      the character set, on a string it answers [true] always.
    - [Extractor]: [pattern] and the body of [getModulesFromFile] after the
      read ([modulesFromContent], [extract_step], [strip_call]); the matcher
      on [pattern] equals the direct scanner [scan]; the language of
      [pattern]; what is returned on texts whose calls have quoted literal
      arguments ([requires_text]) and on other calls; the round trip with
      the printer [source_of].
    - [World]: the file system and the trace of events ([World], [event]),
      the values of [JSON.parse] ([json], a number being the decimal of
      its text), the interface [Env] of the packages, the monad [eff] of
      computations that change the world and may throw, the loops
      [for_of] and [for_of_fold], the predicates [quiet], [read_only]
      and [monotone], and the environment of the examples
      ([example_env]).
    - [Json]: [JSON.parse] ([JSON_parse]), written from the grammar of
      JSON and from the ECMAScript specification: white space, the
      literals, numbers ([read_number]), strings with their escapes
      ([read_string]), arrays and objects by recursive descent
      ([read_value], [read_elements], [read_members]), the definition of
      a property with the order of the keys of an object
      ([define_property], [array_index]); and a printer with a layout of
      white space ([print_at], [print], [print_indented]).
    - [JsonSpec]: every reader leaves less than it was given, so the fuel
      of [JSON_parse] is enough ([read_value_fuel]); the objects that the
      parser returns have no key twice and their array indices first, in
      ascending order ([ordered], [well_formed],
      [JSON_parse_well_formed]).
    - [JsonPrint]: the round trip: the parser reads back every
      well-formed value from the text the printer writes, whatever the
      white space of the layout ([JSON_parse_print_at]).
    - [Hoare]: a program logic for [eff]: total triples whose
      postcondition sees the exception ([triple], [post]), invariants
      ([preserves]), the rules for [mret], [mthrow], sequencing, [emit]
      and the loops, and the tactic [solve_preserves].
    - [Script]: the exported object as a record ([Exports.t]) and the
      script over any such object ([run]), written from section 4.9 of the
      specification because the calling script is not under [src/]; the
      classes [Contract] and [Resilient] of what the script relies on,
      and the theorems of [run] over any helpers that meet them; the
      helpers [dry_run], which act on nothing.
    - [Files]: [getFiles], [readFile], [getModulesFromFile], [isTestFile]
      and [getUsedModules]; the scan returns the de-duplicated references
      of all the files or throws at the first unreadable one
      ([first_unreadable]), and never changes the world.
    - [Glob]: the two patterns of [getFiles] ([source_pattern],
      [ignore_pattern]) and the way [minimatch] matches a pattern
      against a path ([match_parts], with [*], [**] and the option
      [dot]); the paths that the call asks for ([scanned]) are proved to
      be the source files outside the directory [node_modules] of the
      project ([scanned_source_file]); the laws of [glob.sync]
      ([GlobLaws]) and, against them, which files [getFiles] lists and
      which references [getUsedModules] returns; an environment that
      keeps the laws ([glob_env]).
    - [Manifest]: [getInstalledModules] over the parser of [Json], with
      property access and [for in] as the language defines them; its
      result on every world, that the declared modules are pairwise
      distinct, that the fuel of the parser is enough, and the round
      trip from a manifest that was printed.
    - [Actions]: [runCommand], [startSpinner], [stopSpinner],
      [installModule], [uninstallModule], [reinstall], [secureMode],
      [POPULARITY_THRESHOLD] and [isModulePopular] with its callback,
      which parses the body of the response and compares the number of
      downloads with the threshold ([greater_than], [number_greater]);
      the events and the commands of each, with secure mode off and on;
      that each of them keeps every property of the files that the
      commands keep.
    - [Pipeline]: the value of [module.exports] ([module_exports]) and the
      run of the program ([main], the script over it); the helpers meet
      the contract of [Script]; the commands of a run, that a run changes
      nothing when manifest and sources agree, that it changes the files
      through its commands only, and that the text of a source file
      reaches the command line.
    - [Outcome]: a pure function [outcome] of the world, and the theorem
      that [main] is this function on every world, errors included; the
      bound on the number of commands of a run; the independence of the
      differences from the order of the files.
    - [Protocol]: the events of the spinner and of the console as the
      transitions of a machine with two states ([step], [steps]); the
      events of the helpers and of a run follow it.
    - [Converge]: the laws the program needs from [npm] ([NpmLaws]), an
      environment that satisfies them ([npm_env], which rewrites the
      text of [package.json] as [npm] does), and the convergence of
      the program: after a run whose commands succeed the manifest
      declares the names in use and a second run does nothing; in secure
      mode a name that is missing stays missing, run after run.
    - [Project]: the laws of [glob] and of [npm] together: after a run
      the manifest declares a name exactly when a scanned file requires
      it and the classifier keeps it ([required],
      [main_declares_required]); the modules in use are those of the
      sorted list of the scanned files, up to their order
      ([used_of_glob_list]); an environment that keeps both classes of
      laws ([project_env]).
    - [CodeUnits]: adequacy of the encoding of strings, not a property
      of the program.  The strings of the language are sequences of
      16-bit code units and the strings of the model are lists of
      natural numbers; a run never leaves the strings of the language
      ([main_code_units]): the names are pieces of the texts of the
      sources ([modulesFromContent_sublist]) or keys of the manifest
      ([JSON_parse_units]), and the printer of [Json] writes code units.

    ** How the files are used together

    The pure components ([Dedup], [Diff], [Classifier], [Validator],
    [Extractor]) are proved first, each against a reference definition
    ([keep_first], set difference on [name_set], [registry_name],
    [valid_name], [scan]).  The effectful components are proved by
    equations of the form [f w = (result, world)] (lemmas [run_f]), which
    the tactic [eff_run] uses to step through a sequence, and, where a
    property of the world is carried through a computation, by the rules
    of [Hoare].  The script is proved against the classes [Contract] and
    [Resilient]; [Pipeline] proves that the exported helpers are
    instances and composes the equations and the lemmas of the pure
    components; [Outcome] collects them in one function.  The external
    packages are the fields of the class [Env]: every theorem holds for
    every instance, and the witnesses instantiate it with [example_env],
    [glob_env], [npm_env] or [unreachable_env].  Where a theorem needs
    more of a package than its type, the need is a class of laws
    ([GlobLaws], [NpmLaws]) and an instance is proved for one of these
    environments.  Each file states its main results
    after its lemmas; no other proof uses them, the lemmas are the
    library.

    ** What the main results show

    - data-structure invariants: the two arrays of the de-duplication loop
      stay in step; [deduplicate] returns no pair twice; what a run hands
      to [installModule] is a used set, and de-duplication, the
      classifier and [diff] keep a used set;
    - functional behaviour on every branch: [diff], the classifier, the
      validator on both kinds of argument, the extraction on quoted and
      on unquoted arguments, [getInstalledModules] and [getUsedModules] on
      every world, errors included, [installModule] with secure mode on
      and off, [uninstallModule], the callback of the popularity request
      on an answer of the registry;
    - equivalence with reference definitions: the loop and [keep_first],
      the matcher and [valid_name], the matcher and [scan]; the
      differences for two orders of the files;
    - refinement: [diff] to set difference, [deduplicate] to finite sets,
      the matcher to the language of a pattern, the exported helpers to
      the contract of the script, [main] to the function [outcome];
    - round trip: the names printed as calls are the names extracted; a
      manifest that is printed, in any layout of white space, is read
      back;
    - file discovery: which files are listed, and that the references
      returned are those of the listed files;
    - types: the modules that the manifest declares are pairwise
      distinct, the values of the parser are well formed;
    - safety: a run changes the files through its commands only, its
      events follow the protocol of the spinner, and it runs at most one
      command for every reference and every declared module;
    - convergence: a second run after a successful one does nothing; in
      secure mode a missing name stays missing for ever; the manifest
      that a run leaves declares the names that the scanned files
      require;
    - what the code does against its intent: the validation accepts every
      string, secure mode installs nothing, the registry is asked about
      [undefined], the text of a source file reaches the shell, a call
      with an empty argument runs [npm install] without a name, [../x] is
      treated as a registry module, an exception of the request leaves
      the spinner spinning, hidden files are not searched and the
      directories [node_modules] below the first level are.

    ** Bounds and fuel

    The loops of the modelled functions are traversals of finite arrays
    and are written as folds, filters or structural recursion.  Fuel is
    used in two places.  In [Regex], the matcher of a quantifier runs with
    [min + length s + 1] iterations on the input [s], because an iteration
    that consumes nothing is rejected by the matcher itself, so a match
    uses at most [min] iterations that may be empty and [length s] that
    are not.  [repeat_matcher_fuel] proves that any larger amount gives
    the same result, and [rmatch_fuel_eq] lifts this to whole patterns.
    In [Json], the three readers of the recursive descent take one unit
    of fuel for every value and every list of elements or members that
    they enter; [JSON_parse] gives [fuel_for n = 2 * n + 1] for a text of
    [n] code units.  This is enough because every reader consumes at
    least one code unit before it calls the next one, so a value that
    starts in a text of length [n] needs at most [2 * n + 1] units
    ([readers_fuel_S]); [read_value_fuel] proves that any larger amount
    gives the same result, so a [SyntaxError] of the model is never for
    lack of fuel.  The matching of a pattern against a path is
    structural.

    Code units are natural numbers without an upper bound, so that the
    theorems of the components hold for every list; no operation of the
    program depends on the bound [0xFFFF], and [CodeUnits] proves that
    the program keeps it: the one place where a number becomes a code
    unit is the escape [\uXXXX] of a JSON string, whose value is below
    [16 ^ 4].  The status of a
    command is an integer.  A number of JSON is kept as the decimal
    [m × 10 ^ e] that its text writes, exactly; the one operation of the
    program on a number, [downloads > POPULARITY_THRESHOLD], is decided
    on the decimals outside the open interval between 10000 and 10001,
    where rounding to the nearest double cannot change it, and left
    open inside ([number_greater_None]).  An array index is a key
    below [2 ^ 32 - 1].

    ** Not modelled

    - The packages the sources only call ([ora], [log-symbols], [yargs],
      [sync-exec], [sync-request], [is-builtin-module]): the
      development is parametric in their results.
    - Of [glob]: the walk of the directories, symbolic links and the
      order of the result; the syntax of patterns that the two patterns
      of [getFiles] do not use (braces, [?], classes, extglobs); paths
      with an empty segment, which [glob] does not build.  [glob.sync]
      is a function of the environment that keeps the laws [GlobLaws].
    - Of [JSON.parse]: the rounding of a number to a double, the
      reviver, and the limit of the engine on the depth of nesting.
      [JSON.stringify] is not called by the program; [print_at] is the
      printer of the round trip, not a model of it.
    - [npm]: a command is its status and its effect on the files; the
      theorems of [Converge] assume the laws of [NpmLaws], the others
      assume nothing of it.  The animation of the spinner.
    - Exceptions of [sync-exec] and of [glob.sync].
    - The comparison [downloads > POPULARITY_THRESHOLD] when [downloads]
      is a string, an array, an object or a number strictly between
      10000 and 10001 (its result is discarded by the program).
    - Captures of regular expressions, which the program never reads.
    - Which of several matches the matcher tries first is not part of
      the language [matches]; for the two patterns of the program it is
      fixed by the equivalences with [valid_name] and [scan].
    - The code of the calling script: [run] is written from the
      specification.  Everything else of [src/helpers.js] is modelled;
      the lines of the file that no definition translates are the
      directive ['use strict'], comments and blank lines. *)

From stdpp Require Export list gmap sets countable strings.
From Stdlib Require Export NArith ZArith.

#[export] Set Warnings "-clear-no-such-hyp".

(** ** JavaScript strings *)

(** A JavaScript string is a finite sequence of UTF-16 code units. *)
Abbreviation codeunit := N (only parsing).
Abbreviation jsstring := (list N) (only parsing).

(** [js "..."] is the JavaScript string with the code units of an ASCII
    literal. *)
Definition js (s : string) : jsstring :=
  Ascii.N_of_ascii <$> String.list_ascii_of_string s.
#[global] Arguments js : simpl never.

(** ** Strict equality *)

Declare Scope js_scope.
Delimit Scope js_scope with js.

Notation "x === y" := (bool_decide (x = y))
  (at level 70, no associativity) : js_scope.
Notation "x !== y" := (negb (bool_decide (x = y)))
  (at level 70, no associativity) : js_scope.

(** ** Tactics *)

(** Case analysis on every [bool_decide] and boolean [if] of the goal. *)
Ltac case_bools :=
  repeat first
    [ case_bool_decide
    | match goal with
      | |- context [if ?b then _ else _] => destruct b eqn:?
      end ];
  simplify_eq/=.

(** Proves a closed decidable proposition by evaluating its decision
    procedure. *)
Ltac decide_by_computation :=
  apply (bool_decide_eq_true_1 _); vm_compute; reflexivity.

(** Turn boolean facts into propositions. *)
Ltac bool_to_prop :=
  repeat match goal with
  | H : negb _ = true |- _ => apply negb_true_iff in H
  | H : negb _ = false |- _ => apply negb_false_iff in H
  | H : bool_decide _ = true |- _ => apply bool_decide_eq_true_1 in H
  | H : bool_decide _ = false |- _ => apply bool_decide_eq_false_1 in H
  | H : _ && _ = true |- _ => apply andb_true_iff in H as [? ?]
  | H : _ || _ = false |- _ => apply orb_false_iff in H as [? ?]
  end.

Create HintDb jsdb discriminated.
Create Rewrite HintDb jsrw.

(** ** [Array.prototype.filter]

    The callback of [filter] returns a boolean, so the model is
    [List.filter].  The lemmas below state its properties on stdpp's
    membership, for [set_solver] and for the components. *)

Section filter.
Context {A : Type}.
Implicit Types (f g : A → bool) (l k : list A) (x : A).

Lemma elem_of_filterb f l x : x ∈ List.filter f l ↔ x ∈ l ∧ f x = true.
Proof. rewrite !list_elem_of_In. apply filter_In. Qed.

#[global] Instance set_unfold_filterb f l x P :
  SetUnfoldElemOf x l P →
  SetUnfoldElemOf x (List.filter f l) (P ∧ f x = true).
Proof. intros [HP]. constructor. by rewrite elem_of_filterb, HP. Qed.

(** What holds of every element of a list holds of those of a
    sublist. *)
Lemma Forall_sublist (P : A → Prop) l k :
  k `sublist_of` l → Forall P l → Forall P k.
Proof.
  rewrite !Forall_forall. intros Hsub Hall x Hx.
  by eapply Hall, elem_of_sublist.
Qed.

Lemma NoDup_filterb f l : NoDup l → NoDup (List.filter f l).
Proof. rewrite !NoDup_ListNoDup. apply List.NoDup_filter. Qed.

Lemma filterb_cons f x l :
  List.filter f (x :: l) = if f x then x :: List.filter f l else List.filter f l.
Proof. done. Qed.

Lemma filterb_sublist f l : List.filter f l `sublist_of` l.
Proof.
  induction l as [|x l IH]; simpl; [done|].
  destruct (f x); by constructor.
Qed.

Lemma filterb_comm f g l :
  List.filter f (List.filter g l) = List.filter g (List.filter f l).
Proof.
  induction l as [|x l IH]; simpl; [done|].
  destruct (f x) eqn:Hf, (g x) eqn:Hg; simpl; rewrite ?Hf, ?Hg, ?IH; done.
Qed.

Lemma filterb_andb f g l :
  List.filter f (List.filter g l) = List.filter (λ x, g x && f x) l.
Proof.
  induction l as [|x l IH]; simpl; [done|].
  destruct (g x) eqn:Hg; simpl; rewrite ?IH; done.
Qed.

Lemma filterb_idemp f l : List.filter f (List.filter f l) = List.filter f l.
Proof.
  rewrite filterb_andb. apply filter_ext. intros x. by destruct (f x).
Qed.

Lemma filterb_id f l : (∀ x, x ∈ l → f x = true) → List.filter f l = l.
Proof.
  induction l as [|x l IH]; simpl; intros Hl; [done|].
  rewrite Hl by left. f_equal. apply IH. intros y Hy. apply Hl. by right.
Qed.

Lemma filterb_nil_iff f l : List.filter f l = [] ↔ ∀ x, x ∈ l → f x = false.
Proof.
  induction l as [|x l IH]; simpl.
  - split; [intros _ x Hx; by apply elem_of_nil in Hx|done].
  - destruct (f x) eqn:Hf.
    + split; [done|]. intros Hl. specialize (Hl x). rewrite Hf in Hl.
      discriminate Hl. left.
    + rewrite IH. split.
      * intros Hl y [->|Hy]%elem_of_cons; auto.
      * intros Hl y Hy. apply Hl. by right.
Qed.

#[global] Instance filterb_Permutation f :
  Proper ((≡ₚ) ==> (≡ₚ)) (List.filter f).
Proof.
  induction 1 as [|x l l' _ IH|x y l|l1 l2 l3 _ IH1 _ IH2]; simpl.
  - done.
  - destruct (f x); [by apply perm_skip|done].
  - destruct (f x), (f y); try done. apply perm_swap.
  - by trans (List.filter f l2).
Qed.

Lemma filterb_fmap {B} (h : B → A) f (k : list B) :
  List.filter f (h <$> k) = h <$> List.filter (f ∘ h) k.
Proof.
  induction k as [|y k IH]; [done|].
  rewrite fmap_cons, !filterb_cons, IH. simpl. by destruct (f (h y)).
Qed.
End filter.

(** Suffixes. *)
Lemma suffix_cons_inv_r {A} (u s : list A) c :
  u `suffix_of` c :: s → u = c :: s ∨ u `suffix_of` s.
Proof.
  intros [[|c' k] E]; [by left|]. right. simplify_eq/=. by apply suffix_app_r.
Qed.

Lemma suffix_same_length {A} (s u : list A) :
  u `suffix_of` s → length u = length s → u = s.
Proof.
  intros [pre ->]. rewrite length_app. destruct pre; [done|simpl; lia].
Qed.

(** Induction on the length of a list. *)
Lemma length_ind {A} (P : list A → Prop) :
  (∀ l, (∀ k, length k < length l → P k) → P l) → ∀ l, P l.
Proof. intros HP. apply (induction_ltof1 _ (@length A)), HP. Qed.

(** What holds of every element that has [P]. *)
Lemma Forall_mp {A} (P Q : A → Prop) (l : list A) :
  Forall (λ x, P x → Q x) l → Forall P l → Forall Q l.
Proof. induction 1; inversion_clear 1; constructor; auto. Qed.

Lemma forallb_Forall {A} (f : A → bool) (l : list A) :
  forallb f l = true ↔ Forall (λ x, f x = true) l.
Proof.
  induction l as [|x l IH]; simpl; [by split; [constructor|]|].
  by rewrite andb_true_iff, Forall_cons, IH.
Qed.

Lemma forallb_ext {A} (f g : A → bool) (l : list A) :
  (∀ x, f x = g x) → forallb f l = forallb g l.
Proof. intros Hfg. induction l as [|x l IH]; simpl; [done|]. by rewrite Hfg, IH. Qed.

#[export] Hint Rewrite @filterb_idemp @List.filter_app : jsrw.
#[export] Hint Resolve NoDup_filterb filterb_sublist : jsdb.
