(* ===== verification/JsRuntime.v ===== *)
(** * The JavaScript built-ins that [src/helpers.js] calls

    [JsArray.indexOf] is [Array.prototype.indexOf] on arrays whose elements
    are compared by strict equality (strings, in this program);
    [JsString] holds [String.prototype.substring], [indexOf], [endsWith]
    and [replace] with a string pattern; [to_string] is [ToString] applied
    to a property that may be [undefined].  The definitions follow the
    algorithms of the ECMAScript specification: indices are integers ([Z])
    wherever the source can produce a negative one, and [substring] clamps
    and swaps its arguments as the specification says. *)

From S2P Require Import Prelude.

#[local] Open Scope Z_scope.

(** ** Arrays *)

Module JsArray.
Section indexOf.
Context {A : Type} `{EqDecision A}.
Implicit Types (l k : list A) (x y : A).

(** [l.indexOf(x)]: the first index at which [x] occurs, or [-1]. *)
Definition indexOf l x : Z :=
  match list_find (λ y, y = x) l with
  | Some (i, _) => Z.of_nat i
  | None => -1
  end.

Lemma array_indexOf_ge l x : -1 ≤ indexOf l x.
Proof. unfold indexOf. destruct (list_find _ l) as [[??]|]; lia. Qed.

Lemma array_indexOf_lt l x : indexOf l x < Z.of_nat (length l).
Proof.
  unfold indexOf. destruct (list_find _ l) as [[i y]|] eqn:Hf; [|lia].
  apply list_find_Some in Hf as (Hi%lookup_lt_Some & _). lia.
Qed.

Lemma array_indexOf_absent l x : indexOf l x = -1 ↔ x ∉ l.
Proof.
  unfold indexOf. destruct (list_find _ l) as [[i y]|] eqn:Hf.
  - apply list_find_Some in Hf as (Hi%list_elem_of_lookup_2 & -> & _).
    split; [lia|done].
  - apply list_find_None in Hf. rewrite Forall_forall in Hf.
    split; [|done]. intros _ Hx. by apply (Hf x).
Qed.

Lemma array_indexOf_neg l x : indexOf l x < 0 ↔ x ∉ l.
Proof. rewrite <-array_indexOf_absent. pose proof (array_indexOf_ge l x). lia. Qed.

Lemma array_indexOf_present l x : 0 ≤ indexOf l x ↔ x ∈ l.
Proof.
  split.
  - intros Hi. destruct (decide (x ∈ l)) as [|Hn]; [done|].
    apply array_indexOf_neg in Hn. lia.
  - intros Hx. by destruct (Z.lt_ge_cases (indexOf l x) 0) as [Hn%array_indexOf_neg|].
Qed.

(** The index returned is the first one that holds [x]. *)
Lemma array_indexOf_first l x i :
  indexOf l x = Z.of_nat i ↔
  l !! i = Some x ∧ ∀ j, (j < i)%nat → l !! j ≠ Some x.
Proof.
  unfold indexOf. destruct (list_find _ l) as [[i' y]|] eqn:Hf.
  - apply list_find_Some in Hf as (Hi & -> & Hmin). split.
    + intros ->%(inj Z.of_nat). split; [done|].
      intros j Hj Hl. by apply (Hmin j x).
    + intros [Hl Hfirst]. f_equal.
      destruct (Nat.lt_trichotomy i' i) as [?|[?|?]]; [|done|].
      * by destruct (Hfirst i').
      * by destruct (Hmin i x).
  - apply list_find_None in Hf. rewrite Forall_forall in Hf.
    split; [lia|]. intros [Hl%list_elem_of_lookup_2 _]. by destruct (Hf x).
Qed.

Lemma array_indexOf_nil x : indexOf [] x = -1.
Proof. done. Qed.

Lemma array_indexOf_app_l l k x : x ∈ l → indexOf (l ++ k) x = indexOf l x.
Proof.
  intros Hx. unfold indexOf.
  destruct (list_find _ l) as [[i y]|] eqn:Hf.
  - by erewrite list_find_app_l.
  - apply list_find_None in Hf. rewrite Forall_forall in Hf. by destruct (Hf x).
Qed.
End indexOf.
End JsArray.

(** ** Strings *)

Module JsString.
Implicit Types (s t pat repl : jsstring) (a b : Z).

(** The clamping of an integer argument to the interval [0 .. len]. *)
Definition clamp (len : nat) (a : Z) : nat :=
  Z.to_nat (Z.min (Z.max a 0) (Z.of_nat len)).

(** [s.substring(a, b)]: both arguments are clamped to [0 .. s.length] and
    swapped when the first is greater. *)
Definition substring s a b : jsstring :=
  let len := length s in
  let finalStart := clamp len a in
  let finalEnd := clamp len b in
  let from := Nat.min finalStart finalEnd in
  let to := Nat.max finalStart finalEnd in
  take (to - from) (drop from s).

(** [s.substring(a)]: the end defaults to [s.length]. *)
Definition substring_from s a : jsstring :=
  substring s a (Z.of_nat (length s)).

(** [s.indexOf(pat)]: the least position at which [pat] occurs, or [-1];
    the loop starts at position [i]. *)
Fixpoint indexOf_from pat s (i : nat) : Z :=
  if bool_decide (pat `prefix_of` s) then Z.of_nat i
  else match s with
       | [] => -1
       | _ :: s' => indexOf_from pat s' (S i)
       end.

Definition indexOf s pat : Z := indexOf_from pat s 0.

(** [s.endsWith(t)] *)
Definition endsWith s t : bool := bool_decide (t `suffix_of` s).

(** [s.replace(pat, repl)] for a string [pat] (only the first occurrence is
    replaced) and a replacement without [$] patterns. *)
Definition replace s pat repl : jsstring :=
  let i := indexOf s pat in
  if bool_decide (i < 0) then s
  else take (Z.to_nat i) s ++ repl ++ drop (Z.to_nat i + length pat) s.

(** *** [substring] *)

Lemma clamp_le len a : (clamp len a ≤ len)%nat.
Proof. unfold clamp. lia. Qed.

Lemma clamp_in_range len a :
  0 ≤ a ≤ Z.of_nat len → clamp len a = Z.to_nat a.
Proof. unfold clamp. lia. Qed.

Lemma clamp_neg len a : a ≤ 0 → clamp len a = 0%nat.
Proof. unfold clamp. lia. Qed.

Lemma clamp_big len a : Z.of_nat len ≤ a → clamp len a = len.
Proof. unfold clamp. lia. Qed.

Lemma substring_length s a b : (length (substring s a b) ≤ length s)%nat.
Proof.
  unfold substring. rewrite length_take, length_drop.
  pose proof (clamp_le (length s) a). pose proof (clamp_le (length s) b). lia.
Qed.

Lemma substring_ordered s a b :
  0 ≤ a ≤ b → b ≤ Z.of_nat (length s) →
  substring s a b = take (Z.to_nat b - Z.to_nat a) (drop (Z.to_nat a) s).
Proof.
  intros Ha Hb. unfold substring.
  rewrite !clamp_in_range by lia.
  by rewrite Nat.min_l, Nat.max_r by lia.
Qed.

Lemma substring_swap s a b : substring s a b = substring s b a.
Proof. unfold substring. by rewrite Nat.min_comm, Nat.max_comm. Qed.

Lemma substring_from_drop s a : substring_from s a = drop (clamp (length s) a) s.
Proof.
  unfold substring_from, substring.
  rewrite (clamp_big _ (Z.of_nat _)) by lia.
  pose proof (clamp_le (length s) a).
  rewrite Nat.min_l, Nat.max_r by lia.
  apply take_ge. rewrite length_drop. lia.
Qed.

Lemma substring_0_take s b : substring s 0 b = take (clamp (length s) b) s.
Proof.
  unfold substring. rewrite (clamp_neg _ 0) by lia.
  by rewrite Nat.min_0_l, Nat.max_0_l, Nat.sub_0_r.
Qed.

(** *** [indexOf] *)

Lemma indexOf_from_shift pat s i :
  indexOf_from pat s i = -1 ∧ indexOf_from pat s 0 = -1 ∨
  0 ≤ indexOf_from pat s 0 ∧
    indexOf_from pat s i = Z.of_nat i + indexOf_from pat s 0.
Proof.
  revert i. induction s as [|c s IH]; intros i; simpl.
  - case_bool_decide; [right|left]; lia.
  - case_bool_decide; [right; lia|].
    destruct (IH (S i)) as [[-> ?]|[? ->]], (IH 1%nat) as [[-> ?]|[? ->]];
      first [left; lia | right; lia | lia].
Qed.

Lemma indexOf_ge s pat : -1 ≤ indexOf s pat.
Proof.
  unfold indexOf. generalize 0%nat.
  induction s as [|c s IH]; intros i; simpl; case_bool_decide; try lia.
  apply IH.
Qed.

(** [indexOf] answers [0] exactly when the string starts with the pattern. *)
Lemma indexOf_0_iff s pat : indexOf s pat = 0 ↔ pat `prefix_of` s.
Proof.
  unfold indexOf. destruct s as [|c s]; simpl; case_bool_decide as Hp;
    split; try done; try lia.
  destruct (indexOf_from_shift pat s 1) as [[-> _]|[? ->]]; lia.
Qed.

(** A non-negative answer is a position at which the pattern occurs, and no
    earlier position is one. *)
Lemma indexOf_from_found pat s i r :
  indexOf_from pat s i = Z.of_nat r →
  (i ≤ r)%nat ∧ pat `prefix_of` drop (r - i) s ∧
  ∀ j, (j < r - i)%nat → ¬ pat `prefix_of` drop j s.
Proof.
  revert i. induction s as [|c s IH]; intros i; simpl.
  - case_bool_decide as Hp; [|lia]. intros ->%(inj Z.of_nat).
    rewrite Nat.sub_diag. split_and!; [done|done|lia].
  - case_bool_decide as Hp.
    + intros ->%(inj Z.of_nat). rewrite Nat.sub_diag. split_and!; [done|done|lia].
    + intros (Hle & Hpre & Hmin)%IH.
      replace (r - i)%nat with (S (r - S i)) by lia. split_and!; [lia|done|].
      intros [|j] Hj; [done|]. apply Hmin. lia.
Qed.

Lemma indexOf_found s pat r :
  indexOf s pat = Z.of_nat r →
  pat `prefix_of` drop r s ∧ ∀ j, (j < r)%nat → ¬ pat `prefix_of` drop j s.
Proof.
  intros (_ & Hp & Hmin)%indexOf_from_found.
  rewrite Nat.sub_0_r in Hp, Hmin. done.
Qed.

Lemma indexOf_from_absent pat s i :
  indexOf_from pat s i = -1 ↔ ∀ j, ¬ pat `prefix_of` drop j s.
Proof.
  revert i. induction s as [|c s IH]; intros i; simpl.
  - case_bool_decide as Hp.
    + split; [lia|]. intros Hno. by destruct (Hno 0%nat).
    + split; [|done]. intros _ j. by rewrite drop_nil.
  - case_bool_decide as Hp.
    + split; [lia|]. intros Hno. by destruct (Hno 0%nat).
    + rewrite IH. split.
      * intros Hno [|j]; [done|]. apply Hno.
      * intros Hno j. apply (Hno (S j)).
Qed.

Lemma indexOf_absent s pat :
  indexOf s pat = -1 ↔ ∀ j, ¬ pat `prefix_of` drop j s.
Proof. apply indexOf_from_absent. Qed.

(** *** [endsWith] *)

Lemma endsWith_true s t : endsWith s t = true ↔ ∃ u, s = u ++ t.
Proof. unfold endsWith. by rewrite bool_decide_eq_true. Qed.

Lemma endsWith_app s t : endsWith (s ++ t) t = true.
Proof. apply endsWith_true. by exists s. Qed.

Lemma endsWith_short s t : (length s < length t)%nat → endsWith s t = false.
Proof.
  intros Hlen. apply bool_decide_eq_false. intros [u ->].
  rewrite length_app in Hlen. lia.
Qed.

(** *** [replace] *)

Lemma replace_prefix pat repl s : replace (pat ++ s) pat repl = repl ++ s.
Proof.
  unfold replace.
  assert (indexOf (pat ++ s) pat = 0) as -> by (apply indexOf_0_iff; by exists s).
  rewrite bool_decide_eq_false_2 by lia. simpl.
  by rewrite drop_app_length.
Qed.

Lemma replace_absent s pat repl :
  (∀ j, ¬ pat `prefix_of` drop j s) → replace s pat repl = s.
Proof.
  intros Hno%indexOf_absent. unfold replace. rewrite Hno.
  by rewrite bool_decide_eq_true_2 by lia.
Qed.
End JsString.

(** ** [ToString] of a property that may be [undefined] *)

(** A property read that finds nothing yields [undefined] ([None]); where a
    string is expected, [undefined] is converted to the string
    ["undefined"]. *)
Definition to_string (v : option jsstring) : jsstring :=
  default (js "undefined") v.
