(* ===== verification/Modules.v ===== *)
(** * Module objects

    The object [{name, dev}] that every function of [src/helpers.js]
    produces or consumes, as the record [ModuleRef], and
    [getNamesFromModules].  Arrays of modules are lists; equality of
    modules is decidable and modules are countable, so that finite sets of
    modules ([gset ModuleRef]) serve as abstract specifications. *)

From S2P Require Import Prelude.

(** [{name, dev}]: [name] is the identifier of the module, [dev] tells
    whether it belongs to the development dependencies. *)
Record ModuleRef : Type := mkModule { name : jsstring; dev : bool }.

#[global] Instance ModuleRef_eq_dec : EqDecision ModuleRef.
Proof. solve_decision. Defined.

#[global] Instance ModuleRef_countable : Countable ModuleRef.
Proof.
  apply (inj_countable' (λ m, (name m, dev m)) (λ p, mkModule p.1 p.2)).
  by intros [].
Defined.

(** [getNamesFromModules]: [modules.map(module => module.name)]. *)
Definition getNamesFromModules (modules : list ModuleRef) : list jsstring :=
  name <$> modules.

(** The set of names of an array of modules. *)
Definition name_set (modules : list ModuleRef) : gset jsstring :=
  list_to_set (getNamesFromModules modules).

Section lemmas.
Implicit Types (m : ModuleRef) (ms ks : list ModuleRef) (n : jsstring).

(** A module is determined by its two properties. *)
Lemma module_eq m1 m2 : name m1 = name m2 → dev m1 = dev m2 → m1 = m2.
Proof. destruct m1, m2; simpl; congruence. Qed.

Lemma getNamesFromModules_length ms :
  length (getNamesFromModules ms) = length ms.
Proof. apply length_fmap. Qed.

Lemma getNamesFromModules_app ms ks :
  getNamesFromModules (ms ++ ks) =
  getNamesFromModules ms ++ getNamesFromModules ks.
Proof. apply fmap_app. Qed.

Lemma elem_of_getNamesFromModules n ms :
  n ∈ getNamesFromModules ms ↔ ∃ m, m ∈ ms ∧ name m = n.
Proof.
  unfold getNamesFromModules. rewrite list_elem_of_fmap.
  split; [intros (m & -> & ?)|intros (m & ? & <-)]; eauto.
Qed.

Lemma elem_of_getNamesFromModules_2 m ms :
  m ∈ ms → name m ∈ getNamesFromModules ms.
Proof. intros. apply elem_of_getNamesFromModules. eauto. Qed.

Lemma getNamesFromModules_lookup ms i :
  getNamesFromModules ms !! i = name <$> ms !! i.
Proof. apply list_lookup_fmap. Qed.

Lemma elem_of_name_set n ms : n ∈ name_set ms ↔ ∃ m, m ∈ ms ∧ name m = n.
Proof.
  unfold name_set. by rewrite elem_of_list_to_set, elem_of_getNamesFromModules.
Qed.

Lemma name_set_app ms ks : name_set (ms ++ ks) = name_set ms ∪ name_set ks.
Proof.
  unfold name_set. by rewrite getNamesFromModules_app, list_to_set_app_L.
Qed.

Lemma name_set_cons m ms : name_set (m :: ms) = {[name m]} ∪ name_set ms.
Proof. done. Qed.

Lemma name_set_nil : name_set [] = ∅.
Proof. done. Qed.
End lemmas.

#[global] Instance set_unfold_name_set n ms P :
  (∀ m, SetUnfoldElemOf m ms (P m)) →
  SetUnfoldElemOf n (name_set ms) (∃ m, P m ∧ name m = n).
Proof.
  intros HP. constructor. rewrite elem_of_name_set.
  by setoid_rewrite (set_unfold_elem_of _ ms _).
Qed.

#[export] Hint Resolve elem_of_getNamesFromModules_2 : jsdb.
#[export] Hint Rewrite name_set_app name_set_cons name_set_nil : jsrw.
