(* ===== verification/Dedup.v ===== *)
(** * De-duplication of module arrays

    [deduplicateSimilarModules] and [deduplicate] of [src/helpers.js].
    The loop of [deduplicateSimilarModules] is a left fold over the state
    [dedup_state], the pair of arrays [dedupedModules] and
    [dedupedModuleNames] that the source updates side by side.  The
    reference definition [keep_first] states what the loop computes with a
    finite set of seen names in place of the second array; the loop is
    proved equal to it, and the properties of [deduplicate] follow from the
    lemmas on [keep_first]. *)

From S2P Require Import Prelude JsRuntime Modules.

#[local] Open Scope js_scope.

(** ** The source's definitions *)

(** The two arrays the loop of [deduplicateSimilarModules] maintains. *)
Record dedup_state : Type := mkDedup {
  dedupedModules : list ModuleRef;
  dedupedModuleNames : list jsstring
}.

(** One iteration of [for (let module of modules)]: the module is pushed,
    and its name recorded, when the name has not been recorded before. *)
Definition dedup_step (st : dedup_state) (module : ModuleRef) : dedup_state :=
  if JsArray.indexOf (dedupedModuleNames st) (name module) === (-1)%Z
  then mkDedup (dedupedModules st ++ [module])
               (dedupedModuleNames st ++ [name module])
  else st.

Definition deduplicateSimilarModules (modules : list ModuleRef)
    : list ModuleRef :=
  dedupedModules (foldl dedup_step (mkDedup [] []) modules).

Definition deduplicate (modules : list ModuleRef) : list ModuleRef :=
  let dedupedModules := [] in
  let testModules := List.filter (λ module, dev module) modules in
  let dedupedModules :=
    dedupedModules ++ deduplicateSimilarModules testModules in
  let prodModules := List.filter (λ module, negb (dev module)) modules in
  let dedupedModules :=
    dedupedModules ++ deduplicateSimilarModules prodModules in
  dedupedModules.

(** ** The reference definition *)

(** [keep_first seen modules] keeps, in order, the modules whose name is
    neither in [seen] nor the name of an earlier module of the array. *)
Fixpoint keep_first (seen : gset jsstring) (modules : list ModuleRef)
    : list ModuleRef :=
  match modules with
  | [] => []
  | m :: ms =>
      if decide (name m ∈ seen) then keep_first seen ms
      else m :: keep_first ({[name m]} ∪ seen) ms
  end.

(** The invariant of the loop: the second array holds the names of the
    first, in the same order. *)
Definition dedup_wf (st : dedup_state) : Prop :=
  dedupedModuleNames st = getNamesFromModules (dedupedModules st).

(** ** Lemmas on [keep_first] *)

Section keep_first.
Implicit Types (seen : gset jsstring) (m : ModuleRef) (ms : list ModuleRef).

Lemma elem_of_keep_first_1 seen ms m :
  m ∈ keep_first seen ms → m ∈ ms ∧ name m ∉ seen.
Proof.
  revert seen. induction ms as [|m' ms IH]; intros seen; simpl.
  - by intros ?%elem_of_nil.
  - case_decide as Hin.
    + intros [??]%IH. split; [by right|done].
    + intros [->|[??]%IH]%elem_of_cons; [split; [by left|done]|].
      split; [by right|set_solver].
Qed.

Lemma keep_first_sublist seen ms : keep_first seen ms `sublist_of` ms.
Proof.
  revert seen. induction ms as [|m ms IH]; intros seen; simpl; [done|].
  case_decide; by constructor.
Qed.

(** Every name of the input that is not in [seen] is the name of a kept
    module. *)
Lemma name_set_keep_first seen ms :
  name_set (keep_first seen ms) = name_set ms ∖ seen.
Proof.
  revert seen. induction ms as [|m ms IH]; intros seen; simpl.
  - set_solver.
  - case_decide as Hin; rewrite ?name_set_cons, IH; apply set_eq; intros n;
      destruct (decide (n = name m)); set_solver.
Qed.

(** No two kept modules have the same name. *)
Lemma keep_first_NoDup_names seen ms :
  NoDup (getNamesFromModules (keep_first seen ms)).
Proof.
  revert seen. induction ms as [|m ms IH]; intros seen; simpl.
  - constructor.
  - case_decide as Hin; [apply IH|]. simpl. constructor; [|apply IH].
    rewrite elem_of_getNamesFromModules.
    intros (m' & [_ Hm']%elem_of_keep_first_1 & Heq). set_solver.
Qed.

(** Only the membership in [seen] of the names of the array matters. *)
Lemma keep_first_ext seen1 seen2 ms :
  (∀ m, m ∈ ms → name m ∈ seen1 ↔ name m ∈ seen2) →
  keep_first seen1 ms = keep_first seen2 ms.
Proof.
  revert seen1 seen2. induction ms as [|m ms IH]; intros e1 e2 Heq; simpl; [done|].
  pose proof (Heq m (list_elem_of_here _ _)) as Hm.
  do 2 case_decide; try tauto; [|f_equal]; apply IH;
    intros m' Hm'; specialize (Heq m' (list_elem_of_further _ _ _ Hm'));
    set_solver.
Qed.

(** A list without repeated names that avoids [seen] is kept whole. *)
Lemma keep_first_id seen ms :
  NoDup (getNamesFromModules ms) → (∀ m, m ∈ ms → name m ∉ seen) →
  keep_first seen ms = ms.
Proof.
  revert seen. induction ms as [|m ms IH]; intros seen; simpl; [done|].
  intros [Hm Hnd]%NoDup_cons Hfresh.
  rewrite decide_False by (apply Hfresh; left). f_equal.
  apply IH; [done|]. intros m' Hm'.
  pose proof (Hfresh m' (list_elem_of_further _ _ _ Hm')).
  pose proof (elem_of_getNamesFromModules_2 _ _ Hm'). set_solver.
Qed.

(** [keep_first] on a concatenation: the names of the first part are seen
    when the second part is processed. *)
Lemma keep_first_app seen ms ks :
  keep_first seen (ms ++ ks) =
  keep_first seen ms ++ keep_first (name_set ms ∪ seen) ks.
Proof.
  revert seen. induction ms as [|m ms IH]; intros seen; simpl.
  - by rewrite name_set_nil, (left_id_L ∅ (∪)).
  - rewrite name_set_cons. case_decide as Hin; rewrite IH; simpl.
    + by replace ({[name m]} ∪ name_set ms ∪ seen)
        with (name_set ms ∪ seen) by set_solver.
    + by replace (name_set ms ∪ ({[name m]} ∪ seen))
        with ({[name m]} ∪ name_set ms ∪ seen) by set_solver.
Qed.
End keep_first.

(** ** The loop computes [keep_first] *)

Section loop.
Implicit Types (st : dedup_state) (m : ModuleRef) (ms : list ModuleRef).

Lemma dedup_step_fresh st m :
  name m ∉ dedupedModuleNames st →
  dedup_step st m = mkDedup (dedupedModules st ++ [m])
                            (dedupedModuleNames st ++ [name m]).
Proof.
  intros Hm%JsArray.array_indexOf_absent. unfold dedup_step.
  by rewrite bool_decide_eq_true_2.
Qed.

Lemma dedup_step_seen st m :
  name m ∈ dedupedModuleNames st → dedup_step st m = st.
Proof.
  intros Hm. unfold dedup_step. rewrite bool_decide_eq_false_2; [done|].
  by intros Hn%JsArray.array_indexOf_absent.
Qed.

Lemma dedup_step_wf st m : dedup_wf st → dedup_wf (dedup_step st m).
Proof.
  unfold dedup_wf. intros Hwf.
  destruct (decide (name m ∈ dedupedModuleNames st)).
  - by rewrite dedup_step_seen.
  - rewrite dedup_step_fresh by done. simpl.
    by rewrite getNamesFromModules_app, Hwf.
Qed.

Lemma dedup_loop_wf st ms : dedup_wf st → dedup_wf (foldl dedup_step st ms).
Proof.
  revert st. induction ms as [|m ms IH]; intros st Hwf; simpl; [done|].
  by apply IH, dedup_step_wf.
Qed.

Lemma dedup_loop_spec st ms :
  dedup_wf st →
  dedupedModules (foldl dedup_step st ms) =
  dedupedModules st ++ keep_first (name_set (dedupedModules st)) ms.
Proof.
  revert st. induction ms as [|m ms IH]; intros st Hwf; simpl.
  - by rewrite (right_id_L [] (++)).
  - rewrite IH by by apply dedup_step_wf.
    assert (name m ∈ dedupedModuleNames st ↔
            name m ∈ name_set (dedupedModules st)) as Hiff.
    { unfold name_set. by rewrite elem_of_list_to_set, Hwf. }
    case_decide as Hin.
    + by rewrite dedup_step_seen by by apply Hiff.
    + rewrite dedup_step_fresh by by rewrite Hiff. simpl.
      rewrite name_set_app, <-(assoc_L (++)). simpl.
      do 3 f_equal. set_solver.
Qed.
End loop.

(** ** First occurrences *)

(** [first_of ms m]: [m] stands in [ms] at a position before which no
    module has its name. *)
Definition first_of (ms : list ModuleRef) (m : ModuleRef) : Prop :=
  ∃ i, ms !! i = Some m ∧
    ∀ j m', (j < i)%nat → ms !! j = Some m' → name m' ≠ name m.

Section first_of.
Implicit Types (seen : gset jsstring) (m : ModuleRef) (ms : list ModuleRef).

Lemma first_of_nil m : ¬ first_of [] m.
Proof. by intros (i & ? & _). Qed.

Lemma first_of_cons m0 ms m :
  first_of (m0 :: ms) m ↔ m = m0 ∨ (name m0 ≠ name m ∧ first_of ms m).
Proof.
  split.
  - intros ([|i] & Hi & Hmin); simplify_eq/=; [by left|right]. split.
    + apply (Hmin 0%nat); [lia|done].
    + exists i. split; [done|]. intros j m' Hj Hm'.
      apply (Hmin (S j)); [lia|done].
  - intros [->|(Hne & i & Hi & Hmin)].
    + exists 0%nat. split; [done|]. intros; lia.
    + exists (S i). split; [done|]. intros [|j] m' Hj Hm'; simplify_eq/=;
        [done|]. apply (Hmin j); [lia|done].
Qed.

Lemma first_of_elem_of ms m : first_of ms m → m ∈ ms.
Proof. intros (i & Hi & _). by eapply list_elem_of_lookup_2. Qed.

(** The modules [keep_first] keeps are the first occurrences of the names
    that are not in [seen]. *)
Lemma elem_of_keep_first seen ms m :
  m ∈ keep_first seen ms ↔ (name m ∉ seen) ∧ first_of ms m.
Proof.
  revert seen. induction ms as [|m0 ms IH]; intros seen; simpl.
  - split; [by intros ?%elem_of_nil|]. by intros [_ ?%first_of_nil].
  - rewrite first_of_cons. case_decide as Hin.
    + rewrite IH. split; [intros [??]|intros [? [->|[??]]]]; try done.
      split; [done|]. right. split; [congruence|done].
    + rewrite elem_of_cons, IH, not_elem_of_union, not_elem_of_singleton.
      split; [intros [->|[[??] ?]]|intros [? [->|[??]]]]; auto.
Qed.
End first_of.

(** ** Properties of [deduplicateSimilarModules] *)

Section deduplicateSimilarModules.
Implicit Types (m : ModuleRef) (ms : list ModuleRef).

Lemma deduplicateSimilarModules_keep_first ms :
  deduplicateSimilarModules ms = keep_first ∅ ms.
Proof.
  unfold deduplicateSimilarModules. by rewrite dedup_loop_spec.
Qed.

Lemma deduplicateSimilarModules_names ms :
  name_set (deduplicateSimilarModules ms) = name_set ms.
Proof.
  rewrite deduplicateSimilarModules_keep_first, name_set_keep_first.
  apply difference_empty_L.
Qed.

Lemma deduplicateSimilarModules_elem_of ms m :
  m ∈ deduplicateSimilarModules ms ↔ first_of ms m.
Proof.
  rewrite deduplicateSimilarModules_keep_first, elem_of_keep_first.
  split; [by intros [_ ?]|]. split; [set_solver|done].
Qed.

Lemma deduplicateSimilarModules_id ms :
  NoDup (getNamesFromModules ms) → deduplicateSimilarModules ms = ms.
Proof.
  intros. rewrite deduplicateSimilarModules_keep_first.
  apply keep_first_id; [done|set_solver].
Qed.

(** In an array whose modules agree on [dev], a module is determined by
    its name, so every module of the input is in the output. *)
Lemma deduplicateSimilarModules_same_dev b ms m :
  (∀ m', m' ∈ ms → dev m' = b) →
  m ∈ deduplicateSimilarModules ms ↔ m ∈ ms.
Proof.
  intros Hdev. split.
  - by intros ?%deduplicateSimilarModules_elem_of%first_of_elem_of.
  - intros Hm.
    assert (name m ∈ name_set (deduplicateSimilarModules ms)) as Hn.
    { rewrite deduplicateSimilarModules_names. set_solver. }
    apply elem_of_name_set in Hn as (m' & Hm' & Hname).
    enough (m' = m) by by subst.
    apply module_eq; [done|].
    apply deduplicateSimilarModules_elem_of, first_of_elem_of in Hm'.
    by rewrite (Hdev m), (Hdev m').
Qed.
End deduplicateSimilarModules.

(** ** Properties of [deduplicate] *)

Section deduplicate.
Implicit Types (m : ModuleRef) (ms : list ModuleRef).

(** [deduplicate] is the concatenation of the two de-duplicated
    partitions, the development modules first. *)
Lemma deduplicate_unfold ms :
  deduplicate ms =
  deduplicateSimilarModules (List.filter dev ms) ++
  deduplicateSimilarModules (List.filter (λ m, negb (dev m)) ms).
Proof. done. Qed.

Lemma elem_of_deduplicate_test ms m :
  m ∈ deduplicateSimilarModules (List.filter dev ms) ↔ m ∈ ms ∧ dev m = true.
Proof.
  rewrite (deduplicateSimilarModules_same_dev true), elem_of_filterb; [done|].
  by intros m' [_ ?]%elem_of_filterb.
Qed.

Lemma elem_of_deduplicate_prod ms m :
  m ∈ deduplicateSimilarModules (List.filter (λ m, negb (dev m)) ms) ↔
  m ∈ ms ∧ dev m = false.
Proof.
  rewrite (deduplicateSimilarModules_same_dev false), elem_of_filterb.
  - by rewrite negb_true_iff.
  - by intros m' [_ ?%negb_true_iff]%elem_of_filterb.
Qed.

Lemma elem_of_deduplicate ms m : m ∈ deduplicate ms ↔ m ∈ ms.
Proof.
  rewrite deduplicate_unfold, elem_of_app,
    elem_of_deduplicate_test, elem_of_deduplicate_prod.
  destruct (dev m); naive_solver.
Qed.

Lemma deduplicateSimilarModules_NoDup ms :
  NoDup (deduplicateSimilarModules ms).
Proof.
  apply (NoDup_fmap_1 name). rewrite deduplicateSimilarModules_keep_first.
  apply keep_first_NoDup_names.
Qed.

Lemma deduplicate_NoDup ms : NoDup (deduplicate ms).
Proof.
  rewrite deduplicate_unfold. apply NoDup_app. split_and!.
  - apply deduplicateSimilarModules_NoDup.
  - intros m [_ Ht]%elem_of_deduplicate_test [_ Hp]%elem_of_deduplicate_prod.
    congruence.
  - apply deduplicateSimilarModules_NoDup.
Qed.

(** The development modules of the result are the de-duplicated
    development modules of the input, and likewise for the others. *)
Lemma filter_dev_deduplicate ms :
  List.filter dev (deduplicate ms) =
  deduplicateSimilarModules (List.filter dev ms).
Proof.
  rewrite deduplicate_unfold, List.filter_app.
  set (T := deduplicateSimilarModules (List.filter dev ms)).
  set (P := deduplicateSimilarModules (List.filter _ ms)).
  rewrite (filterb_id dev T), (proj2 (filterb_nil_iff dev P)).
  - apply (right_id_L [] (++)).
  - by intros m [_ ?]%elem_of_deduplicate_prod.
  - by intros m [_ ?]%elem_of_deduplicate_test.
Qed.

Lemma filter_prod_deduplicate ms :
  List.filter (λ m, negb (dev m)) (deduplicate ms) =
  deduplicateSimilarModules (List.filter (λ m, negb (dev m)) ms).
Proof.
  rewrite deduplicate_unfold, List.filter_app.
  set (T := deduplicateSimilarModules (List.filter dev ms)).
  set (P := deduplicateSimilarModules (List.filter _ ms)).
  rewrite (filterb_id _ P), (proj2 (filterb_nil_iff _ T)).
  - done.
  - by intros m [_ ->]%elem_of_deduplicate_test.
  - by intros m [_ ->]%elem_of_deduplicate_prod.
Qed.

Lemma deduplicate_idemp ms : deduplicate (deduplicate ms) = deduplicate ms.
Proof.
  rewrite (deduplicate_unfold (deduplicate ms)).
  rewrite filter_dev_deduplicate, filter_prod_deduplicate.
  rewrite !(deduplicateSimilarModules_id (deduplicateSimilarModules _)); [done|..];
    rewrite deduplicateSimilarModules_keep_first; apply keep_first_NoDup_names.
Qed.

Lemma deduplicate_length ms : (length (deduplicate ms) ≤ length ms)%nat.
Proof.
  rewrite deduplicate_unfold, length_app,
    !deduplicateSimilarModules_keep_first.
  pose proof (sublist_length _ _ (keep_first_sublist ∅ (List.filter dev ms))).
  pose proof (sublist_length _ _
    (keep_first_sublist ∅ (List.filter (λ m, negb (dev m)) ms))).
  pose proof (filter_length dev ms). lia.
Qed.

(** [deduplicate] implements the finite set of its input: it lists every
    element of the set exactly once. *)
Lemma deduplicate_set ms :
  list_to_set (deduplicate ms) =@{gset ModuleRef} list_to_set ms.
Proof. apply set_eq. intros m. by rewrite !elem_of_list_to_set, elem_of_deduplicate. Qed.

Lemma deduplicate_size ms :
  length (deduplicate ms) = size (list_to_set ms : gset ModuleRef).
Proof.
  rewrite <-deduplicate_set, size_list_to_set; [done|apply deduplicate_NoDup].
Qed.

End deduplicate.

(** ** Filters that look at names only

    [diff] and the passes of [filterRegistryModules] keep or drop a module
    by its name alone.  Such a filter commutes with de-duplication, so the
    order in which the pipeline applies them does not matter. *)

Section name_filters.
Implicit Types (p : jsstring → bool) (seen : gset jsstring).
Implicit Types (m : ModuleRef) (ms : list ModuleRef) (n : jsstring).

(** Seeing one more name removes the module of that name, if any. *)
Lemma keep_first_add_seen n seen ms :
  keep_first ({[n]} ∪ seen) ms =
  List.filter (λ m, bool_decide (name m ≠ n)) (keep_first seen ms).
Proof.
  revert seen. induction ms as [|m ms IH]; intros seen; simpl; [done|].
  destruct (decide (name m ∈ seen)) as [Hs|Hs].
  { rewrite decide_True by set_solver. apply IH. }
  destruct (decide (name m = n)) as [<-|Hn]; simpl.
  - rewrite decide_True, bool_decide_eq_false_2 by set_solver.
    symmetry. apply filterb_id.
    intros m' [_ Hm']%elem_of_keep_first_1. apply bool_decide_eq_true.
    set_solver.
  - rewrite decide_False, bool_decide_eq_true_2 by set_solver. f_equal.
    rewrite <-IH. f_equal. set_solver.
Qed.

Lemma keep_first_filter_names p seen ms :
  keep_first seen (List.filter (λ m, p (name m)) ms) =
  List.filter (λ m, p (name m)) (keep_first seen ms).
Proof.
  revert seen. induction ms as [|m ms IH]; intros seen; simpl; [done|].
  destruct (p (name m)) eqn:Hp; simpl.
  - case_decide; simpl; rewrite ?Hp, IH; done.
  - rewrite IH. case_decide; [done|]. simpl. rewrite Hp.
    rewrite keep_first_add_seen, filterb_andb. apply filter_ext.
    intros m'. destruct (p (name m')) eqn:Hp'; [|by rewrite andb_false_r].
    rewrite andb_true_r. symmetry. apply bool_decide_eq_true. congruence.
Qed.

Lemma deduplicateSimilarModules_filter_names p ms :
  deduplicateSimilarModules (List.filter (λ m, p (name m)) ms) =
  List.filter (λ m, p (name m)) (deduplicateSimilarModules ms).
Proof.
  rewrite !deduplicateSimilarModules_keep_first.
  apply keep_first_filter_names.
Qed.

Lemma deduplicate_filter_names p ms :
  deduplicate (List.filter (λ m, p (name m)) ms) =
  List.filter (λ m, p (name m)) (deduplicate ms).
Proof.
  rewrite !deduplicate_unfold, List.filter_app.
  rewrite <-!deduplicateSimilarModules_filter_names.
  by rewrite !(filterb_comm (λ m, p (name m))).
Qed.
End name_filters.

(** ** Main results *)

(** The modules used in the examples. *)
Definition ex_a_prod : ModuleRef := mkModule (js "a") false.
Definition ex_a_dev : ModuleRef := mkModule (js "a") true.
Definition ex_b_prod : ModuleRef := mkModule (js "b") false.

(** C1 [deduplicate] returns an array without duplicates: no two of its
    entries have the same [name] and the same [dev]. *)
Theorem deduplicate_no_duplicates (modules : list ModuleRef) :
  NoDup (deduplicate modules).
Proof. apply deduplicate_NoDup. Qed.

(** C32 The loop of [deduplicateSimilarModules] computes the reference
    definition [keep_first]: the array it returns holds the first module of
    every name, and the array of names it maintains holds their names. *)
Theorem deduplicateSimilarModules_refines (modules : list ModuleRef) :
  let final := foldl dedup_step (mkDedup [] []) modules in
  deduplicateSimilarModules modules = keep_first ∅ modules ∧
  dedupedModuleNames final = getNamesFromModules (keep_first ∅ modules).
Proof.
  split; [apply deduplicateSimilarModules_keep_first|].
  rewrite <-deduplicateSimilarModules_keep_first. by apply dedup_loop_wf.
Qed.

(** [deduplicateSimilarModules] keeps exactly the first occurrence of
    every name, whatever the [dev] flags are, and the names of the result
    are pairwise distinct. *)
Theorem deduplicateSimilarModules_first_occurrences
    (modules : list ModuleRef) (m : ModuleRef) :
  (m ∈ deduplicateSimilarModules modules ↔ first_of modules m) ∧
  NoDup (getNamesFromModules (deduplicateSimilarModules modules)).
Proof.
  split; [apply deduplicateSimilarModules_elem_of|].
  rewrite deduplicateSimilarModules_keep_first. apply keep_first_NoDup_names.
Qed.

(** The test of [dedup_step] keeps the two arrays of the loop in step:
    from a state in which [dedupedModuleNames] lists the names of
    [dedupedModules], any number of iterations leads to such a state. *)
Theorem dedup_loop_invariant (st : dedup_state) (modules : list ModuleRef) :
  dedup_wf st → dedup_wf (foldl dedup_step st modules).
Proof. apply dedup_loop_wf. Qed.

Lemma dedup_loop_invariant_witness :
  dedup_wf (foldl dedup_step (mkDedup [ex_b_prod] [js "b"])
              [ex_a_prod; ex_b_prod; ex_a_dev]).
Proof. apply dedup_loop_invariant. reflexivity. Defined.

(** C33 [deduplicate] neither loses nor invents a module: a module is in
    the result exactly when it is in the input.  The result lists the
    development modules before the others, each of the two parts in the
    order of the first occurrences of its names, and a second
    de-duplication changes nothing. *)
Theorem deduplicate_spec (modules : list ModuleRef) :
  (∀ m, m ∈ deduplicate modules ↔ m ∈ modules) ∧
  deduplicate modules =
    keep_first ∅ (List.filter dev modules) ++
    keep_first ∅ (List.filter (λ m, negb (dev m)) modules) ∧
  deduplicate (deduplicate modules) = deduplicate modules.
Proof.
  split_and!; [intros m; apply elem_of_deduplicate| |apply deduplicate_idemp].
  by rewrite deduplicate_unfold, !deduplicateSimilarModules_keep_first.
Qed.

(** [deduplicate] implements the finite set of its input: the result
    has the elements of that set, and as many entries as the set has
    elements. *)
Theorem deduplicate_refines_set (modules : list ModuleRef) :
  list_to_set (deduplicate modules) =@{gset ModuleRef} list_to_set modules ∧
  length (deduplicate modules) = size (list_to_set modules : gset ModuleRef).
Proof. split; [apply deduplicate_set|apply deduplicate_size]. Qed.

(** The example of the specification: two production entries and one
    development entry of the same name give one entry per partition, the
    development one first. *)
Example deduplicate_example :
  deduplicate [ex_a_prod; ex_a_prod; ex_a_dev] = [ex_a_dev; ex_a_prod].
Proof. reflexivity. Qed.

(** [deduplicateSimilarModules] compares names only: applied to an array
    that mixes the two kinds it drops a module whose name was seen with the
    other [dev] flag. *)
Example deduplicateSimilarModules_ignores_dev :
  deduplicateSimilarModules [ex_a_prod; ex_a_dev; ex_b_prod] =
  [ex_a_prod; ex_b_prod].
Proof. reflexivity. Qed.

(** ** Rewriting under [deduplicate] *)

(** The result depends on the order of the input only up to order. *)
Lemma deduplicate_Permutation (ms1 ms2 : list ModuleRef) :
  ms1 ≡ₚ ms2 → deduplicate ms1 ≡ₚ deduplicate ms2.
Proof.
  intros Hperm. apply NoDup_Permutation; [apply deduplicate_NoDup..|].
  intros m. by rewrite !elem_of_deduplicate, Hperm.
Qed.

#[global] Instance deduplicate_perm : Proper ((≡ₚ) ==> (≡ₚ)) deduplicate.
Proof. exact deduplicate_Permutation. Qed.
