(* ===== verification/Diff.v ===== *)
(** * The difference of two module arrays

    [diff] of [src/helpers.js]: the modules of the first array whose name
    is not the name of a module of the second.  Only names are compared;
    the [dev] flag of a module of the result is the one it has in the first
    array.  The abstract specification is the difference of the two sets of
    names ([name_set]). *)

From S2P Require Import Prelude JsRuntime Modules Dedup.

(** ** The source's definition *)

Definition diff (first second : list ModuleRef) : list ModuleRef :=
  let namesFromSecond := getNamesFromModules second in
  List.filter
    (λ module, (JsArray.indexOf namesFromSecond (name module) <? 0)%Z)
    first.

(** Two arrays are the same second argument of [diff] when they have the
    same names. *)
Definition same_names (ms ks : list ModuleRef) : Prop :=
  name_set ms = name_set ks.

#[global] Instance same_names_equivalence : Equivalence same_names.
Proof.
  unfold same_names. split; [by intros ?|by intros ??|by intros ??? ->].
Qed.

(** ** Lemmas *)

Section diff.
Implicit Types (m : ModuleRef) (a b c : list ModuleRef).

(** The callback of [diff] decides absence from the names of [second]. *)
#[global] Instance same_names_dec ms ks : Decision (same_names ms ks).
Proof. unfold same_names. apply _. Defined.

Lemma diff_test b m :
  (JsArray.indexOf (getNamesFromModules b) (name m) <? 0)%Z = true ↔
  name m ∉ name_set b.
Proof.
  rewrite Z.ltb_lt, JsArray.array_indexOf_neg. unfold name_set.
  by rewrite elem_of_list_to_set.
Qed.

Lemma elem_of_diff a b m : m ∈ diff a b ↔ m ∈ a ∧ name m ∉ name_set b.
Proof. unfold diff. by rewrite elem_of_filterb, diff_test. Qed.

Lemma diff_as_filter a b :
  diff a b = List.filter (λ m, bool_decide (name m ∉ name_set b)) a.
Proof.
  apply filter_ext. intros m. apply eq_true_iff_eq.
  by rewrite diff_test, bool_decide_eq_true.
Qed.

(** [diff] refines the difference of the sets of names. *)
Lemma name_set_diff a b : name_set (diff a b) = name_set a ∖ name_set b.
Proof.
  apply set_eq. intros n. rewrite elem_of_difference. split.
  - intros (m & [? ?]%elem_of_diff & <-)%elem_of_name_set.
    split; [|done]. apply elem_of_name_set; eauto.
  - intros [(m & ? & <-)%elem_of_name_set ?].
    apply elem_of_name_set. exists m. by rewrite elem_of_diff.
Qed.

(** [diff] reads its second argument through its set of names. *)
Lemma diff_same_names a b b' : same_names b b' → diff a b = diff a b'.
Proof. intros Hb. rewrite !diff_as_filter. by rewrite Hb. Qed.

Lemma diff_nil_l b : diff [] b = [].
Proof. done. Qed.

Lemma diff_nil_r a : diff a [] = a.
Proof. rewrite diff_as_filter. apply filterb_id. intros m _. done. Qed.

Lemma diff_app_l a a' b : diff (a ++ a') b = diff a b ++ diff a' b.
Proof. apply List.filter_app. Qed.

Lemma diff_app_r a b b' : diff a (b ++ b') = diff (diff a b) b'.
Proof.
  rewrite !diff_as_filter, filterb_andb. apply filter_ext. intros m.
  apply eq_true_iff_eq.
  rewrite andb_true_iff, !bool_decide_eq_true, name_set_app. set_solver.
Qed.

Lemma diff_sublist a b : diff a b `sublist_of` a.
Proof. apply filterb_sublist. Qed.

Lemma diff_NoDup a b : NoDup a → NoDup (diff a b).
Proof. apply NoDup_filterb. Qed.

Lemma diff_empty_iff a b : diff a b = [] ↔ name_set a ⊆ name_set b.
Proof.
  rewrite diff_as_filter, filterb_nil_iff. split.
  - intros Hall n (m & Hm & <-)%elem_of_name_set.
    specialize (Hall m Hm). by apply bool_decide_eq_false, dec_stable in Hall.
  - intros Hsub m Hm. apply bool_decide_eq_false. set_solver.
Qed.

Lemma diff_self a : diff a a = [].
Proof. by apply diff_empty_iff. Qed.

Lemma diff_empty_both a b :
  diff a b = [] ∧ diff b a = [] ↔ same_names a b.
Proof. rewrite !diff_empty_iff. unfold same_names. set_solver. Qed.

Lemma diff_idemp a b : diff (diff a b) b = diff a b.
Proof. unfold diff. apply filterb_idemp. Qed.

Lemma diff_disjoint a b : name_set (diff a b) ## name_set b.
Proof. rewrite name_set_diff. set_solver. Qed.
End diff.

(** ** [diff] and de-duplication *)

Section diff_dedup.
Implicit Types (a b : list ModuleRef).

Lemma diff_deduplicate_l a b : diff (deduplicate a) b = deduplicate (diff a b).
Proof.
  unfold diff. symmetry.
  apply (deduplicate_filter_names
    (λ n, (JsArray.indexOf (getNamesFromModules b) n <? 0)%Z)).
Qed.

Lemma same_names_deduplicate b : same_names (deduplicate b) b.
Proof.
  unfold same_names. apply set_eq. intros n. rewrite !elem_of_name_set.
  by setoid_rewrite elem_of_deduplicate.
Qed.

Lemma diff_deduplicate_r a b : diff a (deduplicate b) = diff a b.
Proof. apply diff_same_names, same_names_deduplicate. Qed.
End diff_dedup.

(** ** Main results *)

(** C2 A module is in [diff first second] exactly when it is in [first]
    and no module of [second] has its name; the [dev] flags of [second]
    play no part. *)
Theorem diff_membership (first second : list ModuleRef) (m : ModuleRef) :
  m ∈ diff first second ↔
  m ∈ first ∧ ∀ k, k ∈ second → name k ≠ name m.
Proof.
  rewrite elem_of_diff, elem_of_name_set. split; intros [? Hno]; split; eauto.
  by intros (k & ? & ?%Hno).
Qed.

(** [diff] implements set difference on names: the names of the result
    are the names of [first] that are not names of [second]. *)
Theorem diff_refines_set_difference (first second : list ModuleRef) :
  name_set (diff first second) = name_set first ∖ name_set second.
Proof. apply name_set_diff. Qed.

(** The result of [diff] depends on [second] through its set of names
    only: order, repetitions and [dev] flags of [second] are irrelevant. *)
Theorem diff_name_only (first second second' : list ModuleRef) :
  same_names second second' → diff first second = diff first second'.
Proof. apply diff_same_names. Qed.

Lemma diff_name_only_witness :
  diff [ex_a_prod; ex_b_prod] [ex_a_prod] =
  diff [ex_a_prod; ex_b_prod] [ex_a_dev; ex_a_dev].
Proof. apply diff_name_only. reflexivity. Defined.

(** Both differences are empty exactly when the two arrays have the
    same names: a project whose manifest declares the names its sources
    use has nothing to install and nothing to remove. *)
Theorem diff_reconciled (used installed : list ModuleRef) :
  diff used installed = [] ∧ diff installed used = [] ↔
  same_names used installed.
Proof. apply diff_empty_both. Qed.

(** [diff] commutes with [deduplicate] in its first argument and
    absorbs it in its second, so de-duplicating before or after taking the
    difference gives the same array. *)
Theorem diff_deduplicate (first second : list ModuleRef) :
  diff (deduplicate first) second = deduplicate (diff first second) ∧
  diff first (deduplicate second) = diff first second.
Proof. split; [apply diff_deduplicate_l|apply diff_deduplicate_r]. Qed.

(** [diff] keeps the modules of [first] in their order and with their
    [dev] flags: its result is a sublist of [first]. *)
Theorem diff_sublist_of_first (first second : list ModuleRef) :
  diff first second `sublist_of` first.
Proof. apply diff_sublist. Qed.

(** The examples of the specification. *)
Definition ex_c_prod : ModuleRef := mkModule (js "c") false.

Example diff_example_1 :
  diff [ex_a_prod; ex_b_prod; ex_c_prod] [ex_b_prod; ex_c_prod] = [ex_a_prod].
Proof. reflexivity. Qed.

Example diff_example_2 :
  diff [ex_b_prod; ex_c_prod] [ex_a_prod; ex_b_prod; ex_c_prod] = [].
Proof. reflexivity. Qed.

(** A module used by production code and declared as a development
    dependency only is not reported. *)
Example diff_ignores_partition : diff [ex_a_prod] [ex_a_dev] = [].
Proof. reflexivity. Qed.

(** ** Rewriting under [diff] *)

#[global] Instance diff_proper : Proper ((=) ==> same_names ==> (=)) diff.
Proof. intros a ? <- b b' Hb. by apply diff_same_names. Qed.
