(* ===== verification/Classifier.v ===== *)
(** * Classification of module references

    [removeBuiltInModules], [removeLocalFiles] and [filterRegistryModules]
    of [src/helpers.js].  The predicate [isBuiltInModule] comes from the
    package [is-builtin-module]; the development is parametric in it
    through the class [BuiltinOracle], and [node_builtins] is the instance
    used in the examples.  Both passes look at the name of a module only,
    so they commute with each other, with [deduplicate] and with [diff].
    [used_set] is the well-formedness of the lists that leave the
    classifier. *)

From S2P Require Import Prelude JsRuntime Modules Dedup Diff.

#[local] Open Scope js_scope.

(** ** The interface of [is-builtin-module] *)

(** [isBuiltInModule name]: whether [name] is a module of the runtime. *)
Class BuiltinOracle : Type := { isBuiltInModule : jsstring → bool }.

(** The modules of the runtime, as the package lists them. *)
Definition node_builtin_names : list string :=
  [ "assert"; "buffer"; "child_process"; "cluster"; "console"; "constants";
    "crypto"; "dgram"; "dns"; "domain"; "events"; "fs"; "http"; "https";
    "module"; "net"; "os"; "path"; "process"; "punycode"; "querystring";
    "readline"; "repl"; "stream"; "string_decoder"; "timers"; "tls"; "tty";
    "url"; "util"; "v8"; "vm"; "zlib" ]%string.

Definition node_builtins : BuiltinOracle :=
  {| isBuiltInModule n := bool_decide (n ∈ js <$> node_builtin_names) |}.

(** ** The source's definitions *)

Section classifier.
Context `{BuiltinOracle}.
Implicit Types (m : ModuleRef) (ms modules : list ModuleRef).

Definition removeBuiltInModules modules : list ModuleRef :=
  List.filter (λ module, negb (isBuiltInModule (name module))) modules.

Definition removeLocalFiles modules : list ModuleRef :=
  List.filter
    (λ module, JsString.indexOf (name module) (js "./") !== 0%Z) modules.

Definition filterRegistryModules modules : list ModuleRef :=
  let modules := removeBuiltInModules modules in
  let modules := removeLocalFiles modules in
  modules.

(** [is_local n]: the name [n] starts with ["./"]. *)
Definition is_local (n : jsstring) : Prop := js "./" `prefix_of` n.

(** The name-only predicate that [filterRegistryModules] applies. *)
Definition registry_name (n : jsstring) : bool :=
  negb (isBuiltInModule n) && (JsString.indexOf n (js "./") !== 0%Z).

(** The used set of the data model: no module occurs twice, and no name
    is that of a built-in module or starts with ["./"]. *)
Definition used_set ms : Prop :=
  NoDup ms ∧ Forall (λ m, registry_name (name m) = true) ms.

#[global] Instance used_set_dec ms : Decision (used_set ms).
Proof. unfold used_set. apply _. Defined.

(** ** Lemmas *)

Lemma local_test n :
  (JsString.indexOf n (js "./") !== 0%Z) = true ↔ ¬ is_local n.
Proof.
  by rewrite negb_true_iff, bool_decide_eq_false, JsString.indexOf_0_iff.
Qed.

Lemma elem_of_removeBuiltInModules ms m :
  m ∈ removeBuiltInModules ms ↔ m ∈ ms ∧ isBuiltInModule (name m) = false.
Proof.
  unfold removeBuiltInModules. by rewrite elem_of_filterb, negb_true_iff.
Qed.

Lemma elem_of_removeLocalFiles ms m :
  m ∈ removeLocalFiles ms ↔ m ∈ ms ∧ ¬ is_local (name m).
Proof. unfold removeLocalFiles. by rewrite elem_of_filterb, local_test. Qed.

Lemma filterRegistryModules_as_filter ms :
  filterRegistryModules ms = List.filter (λ m, registry_name (name m)) ms.
Proof.
  unfold filterRegistryModules, removeLocalFiles, removeBuiltInModules.
  apply filterb_andb.
Qed.

Lemma elem_of_filterRegistryModules ms m :
  m ∈ filterRegistryModules ms ↔
  m ∈ ms ∧ isBuiltInModule (name m) = false ∧ ¬ is_local (name m).
Proof.
  unfold filterRegistryModules.
  rewrite elem_of_removeLocalFiles, elem_of_removeBuiltInModules. tauto.
Qed.

Lemma remove_passes_comm ms :
  removeLocalFiles (removeBuiltInModules ms) =
  removeBuiltInModules (removeLocalFiles ms).
Proof. apply filterb_comm. Qed.

Lemma filterRegistryModules_idemp ms :
  filterRegistryModules (filterRegistryModules ms) = filterRegistryModules ms.
Proof. rewrite !filterRegistryModules_as_filter. apply filterb_idemp. Qed.

Lemma filterRegistryModules_sublist ms : filterRegistryModules ms `sublist_of` ms.
Proof. rewrite filterRegistryModules_as_filter. apply filterb_sublist. Qed.

Lemma filterRegistryModules_app ms ms' :
  filterRegistryModules (ms ++ ms') =
  filterRegistryModules ms ++ filterRegistryModules ms'.
Proof. rewrite !filterRegistryModules_as_filter. apply List.filter_app. Qed.

Lemma filterRegistryModules_deduplicate ms :
  filterRegistryModules (deduplicate ms) = deduplicate (filterRegistryModules ms).
Proof.
  rewrite !filterRegistryModules_as_filter. symmetry.
  apply (deduplicate_filter_names registry_name).
Qed.

Lemma filterRegistryModules_diff ms ks :
  filterRegistryModules (diff ms ks) = diff (filterRegistryModules ms) ks.
Proof. rewrite !filterRegistryModules_as_filter. apply filterb_comm. Qed.

(** Classification makes a used set of a list without duplicates, and
    the operations that only remove keep a used set. *)
Lemma used_set_filterRegistryModules ms :
  NoDup ms → used_set (filterRegistryModules ms).
Proof.
  intros Hms. rewrite filterRegistryModules_as_filter.
  split; [by apply NoDup_filterb|].
  apply Forall_forall. by intros m [_ ?]%elem_of_filterb.
Qed.

Lemma used_set_sublist ms ks : ks `sublist_of` ms → used_set ms → used_set ks.
Proof.
  intros Hsub [Hdup Hall]. split; [by eapply sublist_NoDup|].
  by eapply Forall_sublist.
Qed.

Lemma used_set_deduplicate ms : used_set ms → used_set (deduplicate ms).
Proof.
  intros [_ Hall]. split; [apply deduplicate_NoDup|].
  rewrite Forall_forall in Hall |- *.
  intros m Hm. by apply Hall, elem_of_deduplicate.
Qed.

Lemma used_set_diff ms ks : used_set ms → used_set (diff ms ks).
Proof. apply used_set_sublist, diff_sublist. Qed.

Lemma used_set_filter ms : used_set ms → filterRegistryModules ms = ms.
Proof.
  intros [_ Hall]. rewrite filterRegistryModules_as_filter.
  apply filterb_id. by apply Forall_forall.
Qed.

Lemma used_set_elem_of ms m :
  used_set ms → m ∈ ms →
  isBuiltInModule (name m) = false ∧ ¬ is_local (name m).
Proof.
  intros [_ Hall] Hm. rewrite Forall_forall in Hall. specialize (Hall m Hm).
  unfold registry_name in Hall.
  by rewrite andb_true_iff, negb_true_iff, local_test in Hall.
Qed.

(** A name that starts with ["../"], or with ["/"], does not start with
    ["./"]. *)
Lemma parent_path_not_local rest : ¬ is_local (js "../" ++ rest).
Proof. by intros [? [=]]. Qed.

Lemma absolute_path_not_local rest : ¬ is_local (js "/" ++ rest).
Proof. by intros [? [=]]. Qed.

(** ** Main results *)

(** C6 [filterRegistryModules] keeps exactly the modules of its argument
    whose name is not a built-in module and does not start with ["./"]. *)
Theorem filterRegistryModules_membership modules m :
  m ∈ filterRegistryModules modules ↔
  m ∈ modules ∧ isBuiltInModule (name m) = false ∧
  ¬ js "./" `prefix_of` name m.
Proof. apply elem_of_filterRegistryModules. Qed.

(** The two passes of [filterRegistryModules] commute, the function is
    idempotent, and it keeps the modules in their order. *)
Theorem filterRegistryModules_passes modules :
  removeLocalFiles (removeBuiltInModules modules) =
    removeBuiltInModules (removeLocalFiles modules) ∧
  filterRegistryModules (filterRegistryModules modules) =
    filterRegistryModules modules ∧
  filterRegistryModules modules `sublist_of` modules.
Proof.
  split_and!; [apply remove_passes_comm|apply filterRegistryModules_idemp|].
  apply filterRegistryModules_sublist.
Qed.

(** Classification commutes with de-duplication and with the
    difference: the pipeline may classify before or after either. *)
Theorem filterRegistryModules_commutes modules second :
  filterRegistryModules (deduplicate modules) =
    deduplicate (filterRegistryModules modules) ∧
  filterRegistryModules (diff modules second) =
    diff (filterRegistryModules modules) second.
Proof.
  split; [apply filterRegistryModules_deduplicate|apply filterRegistryModules_diff].
Qed.

(** [removeLocalFiles] removes the names that start with ["./"] only: a
    reference to a file of a parent directory (["../x"]) or an absolute
    path (["/x"]) is kept as if it were the name of a registry module. *)
Theorem removeLocalFiles_keeps_other_paths modules rest d :
  (mkModule (js "../" ++ rest) d ∈ removeLocalFiles modules ↔
   mkModule (js "../" ++ rest) d ∈ modules) ∧
  (mkModule (js "/" ++ rest) d ∈ removeLocalFiles modules ↔
   mkModule (js "/" ++ rest) d ∈ modules) ∧
  mkModule (js "./" ++ rest) d ∉ removeLocalFiles modules.
Proof.
  rewrite !elem_of_removeLocalFiles. split_and!.
  - pose proof (parent_path_not_local rest). tauto.
  - pose proof (absolute_path_not_local rest). tauto.
  - intros [_ []]. by exists rest.
Qed.

(** C40 The used set of the data model is what the classifier makes of a
    de-duplicated list, and the operations of the pipeline keep it:
    de-duplication, the difference with any list, and classification,
    which changes nothing of a used set. *)
Theorem used_set_operations modules second :
  used_set (filterRegistryModules (deduplicate modules)) ∧
  (used_set modules →
   used_set (deduplicate modules) ∧ used_set (diff modules second) ∧
   filterRegistryModules modules = modules).
Proof.
  split; [apply used_set_filterRegistryModules, deduplicate_NoDup|].
  intros Hms. split_and!;
    [by apply used_set_deduplicate|by apply used_set_diff|].
  by apply used_set_filter.
Qed.
End classifier.

(** ** Examples with the built-in modules of Node *)

#[local] Existing Instance node_builtins.

Example filterRegistryModules_example :
  filterRegistryModules
    [mkModule (js "fs") false; mkModule (js "lodash") false;
     mkModule (js "./utils") false; mkModule (js "chalk") true] =
  [mkModule (js "lodash") false; mkModule (js "chalk") true].
Proof. reflexivity. Qed.

Example filterRegistryModules_parent_path :
  filterRegistryModules [mkModule (js "../lib/utils") false] =
  [mkModule (js "../lib/utils") false].
Proof. reflexivity. Qed.
