(* ===== verification/Regex.v ===== *)
(** * The regular-expression matcher

    [src/helpers.js] uses two regular expressions: [/require\((.*?)\)/g]
    with [String.prototype.match], and [^([a-z0-9-_]{1,})$] with
    [RegExp.prototype.test].  This file defines the backtracking matcher of
    the ECMAScript specification for the constructs the two patterns use
    (characters, [.], character classes, sequences, groups, the
    quantifiers [{min,}] in their greedy and lazy forms, [^] and [$]
    without the multiline flag), in the continuation-passing style of the
    specification: a matcher takes the continuation that matches the rest
    of the pattern and the remaining input, and answers the input left
    after the whole match, or [None] for failure.  Capturing groups match
    like their body; what they capture is not recorded, since neither
    [match] with the [g] flag nor [test] returns it.

    The quantifier is the specification's RepeatMatcher.  It is defined by
    recursion on a fuel argument; [rmatch] supplies [min + remaining
    length + 1], and [repeat_matcher_fuel] shows that any larger amount
    gives the same answer, because an iteration either lowers [min] or
    consumes input. *)

From S2P Require Import Prelude.

(** ** Syntax *)

Inductive regex : Type :=
| Char (c : N)
| Dot
| Class (ranges : list (N * N))
| Seq (r1 r2 : regex)
| Group (r : regex)
| Quant (min : nat) (greedy : bool) (r : regex)
| Bol
| Eol.

(** The characters of a literal, followed by [r]. *)
Fixpoint lit (cs : jsstring) (r : regex) : regex :=
  match cs with
  | [] => r
  | c :: cs' => Seq (Char c) (lit cs' r)
  end.

(** ** Character tests *)

(** The line terminators, which [.] does not match: LF, CR, LS and PS. *)
Definition is_line_terminator (c : N) : bool :=
  bool_decide (c ∈ [10; 13; 8232; 8233]%N).

Definition dot_test (c : N) : bool := negb (is_line_terminator c).

(** Membership in a class given as inclusive ranges of code units. *)
Definition in_ranges (ranges : list (N * N)) (c : N) : bool :=
  existsb (λ '(lo, hi), (lo <=? c)%N && (c <=? hi)%N) ranges.

(** ** The matcher *)

(** A continuation: from the remaining input to the input left after the
    whole match. *)
Abbreviation cont := (jsstring → option jsstring) (only parsing).

(** A matcher for one code unit. *)
Definition match_char (test : N → bool) (k : cont) (s : jsstring)
    : option jsstring :=
  match s with
  | c :: s' => if test c then k s' else None
  | [] => None
  end.

(** RepeatMatcher for a quantifier without upper bound.  The continuation
    [d] runs one more iteration; once [min] is exhausted it refuses an
    iteration that did not consume input. *)
Fixpoint repeat_matcher (m : cont → cont) (greedy : bool) (k : cont)
    (fuel min : nat) (s : jsstring) : option jsstring :=
  match fuel with
  | 0 => None
  | S fuel' =>
      let d t :=
        if (min =? 0) && (length t =? length s) then None
        else repeat_matcher m greedy k fuel' (pred min) t in
      if negb (min =? 0) then m d s
      else if greedy then
        match m d s with Some z => Some z | None => k s end
      else
        match k s with Some z => Some z | None => m d s end
  end.

(** [rmatch n r k s]: match [r] at the position of an input of length [n]
    at which [s] remains, then continue with [k]. *)
Fixpoint rmatch (n : nat) (r : regex) (k : cont) (s : jsstring)
    : option jsstring :=
  match r with
  | Char c => match_char (λ c', bool_decide (c' = c)) k s
  | Dot => match_char dot_test k s
  | Class ranges => match_char (in_ranges ranges) k s
  | Seq r1 r2 => rmatch n r1 (rmatch n r2 k) s
  | Group r1 => rmatch n r1 k s
  | Quant min greedy r1 =>
      repeat_matcher (rmatch n r1) greedy k (min + length s + 1) min s
  | Bol => if length s =? n then k s else None
  | Eol => match s with [] => k s | _ :: _ => None end
  end.

(** [rmatch] with [extra] more fuel in every quantifier; used to state that
    the fuel of [rmatch] is enough ([rmatch_fuel_eq]). *)
Fixpoint rmatch_fuel (extra n : nat) (r : regex) (k : cont) (s : jsstring)
    : option jsstring :=
  match r with
  | Char c => match_char (λ c', bool_decide (c' = c)) k s
  | Dot => match_char dot_test k s
  | Class ranges => match_char (in_ranges ranges) k s
  | Seq r1 r2 => rmatch_fuel extra n r1 (rmatch_fuel extra n r2 k) s
  | Group r1 => rmatch_fuel extra n r1 k s
  | Quant min greedy r1 =>
      repeat_matcher (rmatch_fuel extra n r1) greedy k
        (min + length s + 1 + extra) min s
  | Bol => if length s =? n then k s else None
  | Eol => match s with [] => k s | _ :: _ => None end
  end.

(** ** [exec], [test] and [match] *)

(** The search of [RegExp.prototype.exec]: the first position, from the
    current one, at which the pattern matches; the answer is the input at
    that position and the input left after the match. *)
Fixpoint search (n : nat) (r : regex) (s : jsstring)
    : option (jsstring * jsstring) :=
  match rmatch n r Some s with
  | Some rest => Some (s, rest)
  | None => match s with [] => None | _ :: s' => search n r s' end
  end.

(** [r.test(s)] for a pattern without the [g] and [y] flags. *)
Definition regex_test (r : regex) (s : jsstring) : bool :=
  bool_decide (is_Some (search (length s) r s)).

(** The loop of [s.match(r)] for a pattern with the [g] flag: the matched
    substrings, from left to right.  [skip] counts the code units of the
    previous match that are still to be passed; after an empty match the
    search resumes one position further. *)
Fixpoint match_all_from (n : nat) (r : regex) (skip : nat) (s : jsstring)
    : list jsstring :=
  match skip, s with
  | S skip', _ :: s' => match_all_from n r skip' s'
  | S _, [] => []
  | 0, _ =>
      match rmatch n r Some s with
      | Some rest =>
          let len := length s - length rest in
          take len s ::
            match s with
            | [] => []
            | _ :: s' => match_all_from n r (len - 1) s'
            end
      | None =>
          match s with [] => [] | _ :: s' => match_all_from n r 0 s' end
      end
  end.

(** [s.match(r)] for a pattern with the [g] flag: [null] ([None]) when
    nothing matches. *)
Definition string_match (s : jsstring) (r : regex) : option (list jsstring) :=
  match match_all_from (length s) r 0 s with
  | [] => None
  | matches => Some matches
  end.

(** ** Locality: a matcher consults its continuation on suffixes only *)

Definition local (m : cont → cont) : Prop :=
  ∀ (k k' : cont) s,
    (∀ t, t `suffix_of` s → k t = k' t) → m k s = m k' s.

(** The answer of a matcher is an answer of its continuation on a
    suffix. *)
Definition progressive (m : cont → cont) : Prop :=
  ∀ (k : cont) s z, m k s = Some z → ∃ t, t `suffix_of` s ∧ k t = Some z.

Section generic.
Implicit Types (m : cont → cont) (k : cont) (s t z : jsstring).
Implicit Types (test : N → bool) (r : regex).

Lemma match_char_local test : local (match_char test).
Proof.
  intros k k' [|c s] Hk; simpl; [done|].
  destruct (test c); [|done]. apply Hk. by apply suffix_cons_r.
Qed.

Lemma match_char_progressive test : progressive (match_char test).
Proof.
  intros k [|c s] z; simpl; [done|].
  destruct (test c); [|done]. intros Hz. exists s.
  split; [by apply suffix_cons_r|done].
Qed.

Lemma repeat_matcher_local m greedy fuel min :
  local m → local (λ k, repeat_matcher m greedy k fuel min).
Proof.
  intros Hm. revert min.
  induction fuel as [|fuel IH]; intros min k k' s Hk; simpl; [done|].
  assert (m (λ t, if (min =? 0) && (length t =? length s) then None
                  else repeat_matcher m greedy k fuel (pred min) t) s =
          m (λ t, if (min =? 0) && (length t =? length s) then None
                  else repeat_matcher m greedy k' fuel (pred min) t) s) as ->.
  { apply Hm. intros t Ht. destruct (_ && _); [done|].
    apply IH. intros u Hu. apply Hk. by etrans. }
  by rewrite (Hk s).
Qed.

Lemma repeat_matcher_ext m greedy k k' fuel min s :
  local m → (∀ t, k t = k' t) →
  repeat_matcher m greedy k fuel min s = repeat_matcher m greedy k' fuel min s.
Proof. intros Hm Hk. apply (repeat_matcher_local m greedy fuel min Hm). auto. Qed.

(** The fuel that [rmatch] supplies is enough: more fuel does not change
    the answer. *)
Lemma repeat_matcher_fuel m greedy k fuel1 fuel2 min s :
  local m →
  min + length s < fuel1 → min + length s < fuel2 →
  repeat_matcher m greedy k fuel1 min s =
  repeat_matcher m greedy k fuel2 min s.
Proof.
  intros Hm. revert fuel2 min s.
  induction fuel1 as [|fuel1 IH]; intros [|fuel2] min s H1 H2; try lia.
  simpl.
  assert (m (λ t, if (min =? 0) && (length t =? length s) then None
                  else repeat_matcher m greedy k fuel1 (pred min) t) s =
          m (λ t, if (min =? 0) && (length t =? length s) then None
                  else repeat_matcher m greedy k fuel2 (pred min) t) s) as ->;
    [|done].
  apply Hm. intros t Ht%suffix_length.
  destruct (Nat.eqb_spec min 0) as [->|?],
    (Nat.eqb_spec (length t) (length s)); simpl; try done; apply IH; lia.
Qed.

Lemma repeat_matcher_progressive m greedy fuel min :
  progressive m → progressive (λ k, repeat_matcher m greedy k fuel min).
Proof.
  intros Hm. revert min.
  induction fuel as [|fuel IH]; intros min k s z; simpl; [done|].
  assert (∀ z', m (λ t, if (min =? 0) && (length t =? length s) then None
                    else repeat_matcher m greedy k fuel (pred min) t) s
                = Some z' → ∃ t, t `suffix_of` s ∧ k t = Some z') as Hiter.
  { intros z' (t & Ht & Hd)%Hm. destruct (_ && _); [done|].
    apply IH in Hd as (u & Hu & Hz). exists u. split; [by etrans|done]. }
  destruct (negb (min =? 0)); [apply Hiter|]. destruct greedy.
  - destruct (m _ s) as [z'|] eqn:Hiter'; [intros [= <-]; by apply Hiter|].
    intros Hz. by exists s.
  - destruct (k s) as [z'|] eqn:Hk; [intros [= <-]; by exists s|].
    apply Hiter.
Qed.

Lemma rmatch_local n r : local (rmatch n r).
Proof.
  induction r as [c| |rs|r1 IH1 r2 IH2|r1 IH1|min greedy r1 IH1| |];
    intros k k' s Hk; simpl.
  - by apply match_char_local.
  - by apply match_char_local.
  - by apply match_char_local.
  - apply IH1. intros t Ht. apply IH2. intros u Hu. apply Hk. by etrans.
  - by apply IH1.
  - by apply repeat_matcher_local.
  - by rewrite (Hk s).
  - destruct s; [|done]. by apply Hk.
Qed.

Lemma rmatch_progressive n r : progressive (rmatch n r).
Proof.
  induction r as [c| |rs|r1 IH1 r2 IH2|r1 IH1|min greedy r1 IH1| |];
    intros k s z; simpl.
  - apply match_char_progressive.
  - apply match_char_progressive.
  - apply match_char_progressive.
  - intros (t & Ht & (u & Hu & Hz)%IH2)%IH1. exists u. split; [by etrans|done].
  - apply IH1.
  - by apply repeat_matcher_progressive.
  - destruct (length s =? n); [|done]. intros Hz. by exists s.
  - destruct s; [|done]. intros Hz. by exists [].
Qed.

(** RepeatMatcher depends on the matcher of its body pointwise. *)
Lemma repeat_matcher_body m m' greedy k fuel min s :
  local m' → (∀ k' t, m k' t = m' k' t) →
  repeat_matcher m greedy k fuel min s = repeat_matcher m' greedy k fuel min s.
Proof.
  intros Hm' Hmm'. revert min s.
  induction fuel as [|fuel IH]; intros min s; simpl; [done|].
  rewrite Hmm'.
  assert (m' (λ t, if (min =? 0) && (length t =? length s) then None
                   else repeat_matcher m greedy k fuel (pred min) t) s =
          m' (λ t, if (min =? 0) && (length t =? length s) then None
                   else repeat_matcher m' greedy k fuel (pred min) t) s) as ->;
    [|done].
  apply Hm'. intros t _. by rewrite IH.
Qed.

(** More fuel in the quantifiers does not change what a pattern matches. *)
Lemma rmatch_fuel_eq extra n r k s :
  rmatch_fuel extra n r k s = rmatch n r k s.
Proof.
  revert k s.
  induction r as [c| |rs|r1 IH1 r2 IH2|r1 IH1|min greedy r1 IH1| |];
    intros k s; simpl; try done.
  - rewrite IH1. apply rmatch_local. intros t _. apply IH2.
  - rewrite (repeat_matcher_body _ (rmatch n r1)) by (apply rmatch_local || done).
    apply repeat_matcher_fuel; [apply rmatch_local|lia..].
Qed.

(** What is left after a match is a suffix of the input. *)
Lemma rmatch_suffix n r s rest :
  rmatch n r Some s = Some rest → rest `suffix_of` s.
Proof. by intros (t & Ht & [= ->])%rmatch_progressive. Qed.
End generic.

(** ** Equations for the shapes the two patterns have *)

(** The continuation [$] passes to the final continuation. *)
Definition at_end (s : jsstring) : option jsstring :=
  match s with [] => Some [] | _ :: _ => None end.
#[global] Arguments at_end : simpl never.

Lemma rmatch_Eol n s : rmatch n Eol Some s = at_end s.
Proof. by destruct s. Qed.

(** The lazy star of a one-character matcher: try the continuation first,
    consume one more character when it fails. *)
Fixpoint lazy_star (test : N → bool) (k : cont) (s : jsstring)
    : option jsstring :=
  match k s with
  | Some z => Some z
  | None =>
      match s with
      | c :: s' => if test c then lazy_star test k s' else None
      | [] => None
      end
  end.

(** The greedy star of a one-character matcher: consume as long as the
    test holds, then give back one character at a time until the
    continuation succeeds. *)
Fixpoint greedy_star (test : N → bool) (k : cont) (s : jsstring)
    : option jsstring :=
  match s with
  | c :: s' =>
      if test c then
        match greedy_star test k s' with Some z => Some z | None => k s end
      else k s
  | [] => k []
  end.

Section shapes.
Implicit Types (k : cont) (s t z cs : jsstring) (test : N → bool).

Lemma rmatch_lit n cs r k s :
  rmatch n (lit cs r) k s =
  if bool_decide (cs `prefix_of` s) then rmatch n r k (drop (length cs) s)
  else None.
Proof.
  revert s. induction cs as [|c cs IH]; intros s; simpl; [done|].
  destruct s as [|c' s]; simpl; [done|].
  case_bool_decide as Hc; subst.
  - assert (cs `prefix_of` s ↔ c :: cs `prefix_of` c :: s) as Hiff
      by (split; [apply prefix_cons|apply prefix_cons_inv_2]).
    by rewrite IH, (bool_decide_ext _ _ Hiff).
  - rewrite bool_decide_eq_false_2; [done|]. by intros ?%prefix_cons_inv_1.
Qed.

Lemma repeat_lazy test k fuel s :
  length s < fuel →
  repeat_matcher (match_char test) false k fuel 0 s = lazy_star test k s.
Proof.
  revert fuel. induction s as [|c s IH]; intros [|fuel] Hfuel; simpl in *;
    try lia; destruct (k _); try done.
  destruct (test c); [|done].
  rewrite (proj2 (Nat.eqb_neq _ _)) by lia. apply IH. lia.
Qed.

Lemma repeat_greedy test k fuel s :
  length s < fuel →
  repeat_matcher (match_char test) true k fuel 0 s = greedy_star test k s.
Proof.
  revert fuel. induction s as [|c s IH]; intros [|fuel] Hfuel; simpl in *;
    try lia; [done|].
  destruct (test c); [|done].
  rewrite (proj2 (Nat.eqb_neq _ _)) by lia. rewrite IH by lia. done.
Qed.

Lemma repeat_greedy_plus test k fuel s :
  S (length s) < fuel →
  repeat_matcher (match_char test) true k fuel 1 s =
  match_char test (greedy_star test k) s.
Proof.
  intros Hfuel. destruct fuel as [|fuel]; [lia|]. simpl.
  destruct s as [|c s]; simpl; [done|].
  destruct (test c); [|done]. apply repeat_greedy. simpl in *. lia.
Qed.

(** The greedy star followed by the end of input succeeds exactly on the
    inputs that pass the test throughout. *)
Lemma greedy_star_to_end test s :
  greedy_star test at_end s = if forallb test s then Some [] else None.
Proof.
  induction s as [|c s IH]; simpl; [done|].
  destruct (test c); simpl; [|done]. rewrite IH. by destruct (forallb test s).
Qed.

End shapes.

(** ** Anchored patterns *)

Section anchored.
Implicit Types (k : cont) (s : jsstring) (r : regex).

(** A pattern that starts with [^] matches at the first position only. *)
Lemma search_Bol_later n r s :
  length s < n → search n (Seq Bol r) s = None.
Proof.
  induction s as [|c s IH]; intros Hlen; cbn [search rmatch];
    rewrite (proj2 (Nat.eqb_neq _ n)) by lia; [done|].
  apply IH. simpl in Hlen. lia.
Qed.

Lemma regex_test_Bol r s :
  regex_test (Seq Bol r) s = bool_decide (is_Some (rmatch (length s) r Some s)).
Proof.
  unfold regex_test. apply bool_decide_ext.
  destruct s as [|c s]; cbn [search rmatch]; rewrite Nat.eqb_refl.
  - destruct (rmatch _ r Some []); split; intros [??]; by eauto.
  - destruct (rmatch _ r Some (c :: s)); [split; by eauto|].
    rewrite search_Bol_later by (simpl; lia). done.
Qed.
End anchored.
