(* ===== verification/RegexSem.v ===== *)
(** * The language of a pattern

    [matches n r s t] is the declarative reading of the patterns of
    [Regex.v]: in an input of [n] code units, [r] matches what [s] has
    before its suffix [t].  It is defined by recursion on the pattern,
    the quantifier by the iteration [repeats]; it knows neither
    continuations nor fuel, and does not say which of several matches is
    tried first.

    The backtracking matcher is sound and complete for it
    ([rmatch_matches]): [rmatch n r k s] succeeds exactly when [r]
    matches [s] up to some [t] that the continuation accepts.  The
    refusal of an empty iteration by RepeatMatcher loses no match, since
    an iteration that consumes nothing can be left out.  It follows that
    [search] finds the leftmost position at which the pattern matches
    ([search_leftmost]), and that [regex_test] decides whether there is
    one ([regex_test_matches]). *)

From S2P Require Import Prelude Regex.

(** ** Definitions *)

(** [repeats R min s t]: at least [min] steps of [R] lead from [s] to
    [t]. *)
Inductive repeats (R : jsstring → jsstring → Prop)
    : nat → jsstring → jsstring → Prop :=
| repeats_end s : repeats R 0 s s
| repeats_step min s u t :
    R s u → repeats R (pred min) u t → repeats R min s t.

Fixpoint matches (n : nat) (r : regex) (s t : jsstring) : Prop :=
  match r with
  | Char c => s = c :: t
  | Dot => ∃ c, dot_test c = true ∧ s = c :: t
  | Class ranges => ∃ c, in_ranges ranges c = true ∧ s = c :: t
  | Seq r1 r2 => ∃ u, matches n r1 s u ∧ matches n r2 u t
  | Group r1 => matches n r1 s t
  | Quant min _ r1 => repeats (matches n r1) min s t
  | Bol => length s = n ∧ t = s
  | Eol => s = [] ∧ t = []
  end.

(** [r] matches somewhere in [s], an input of [n] code units of which [s]
    remains. *)
Definition matches_in (n : nat) (r : regex) (s : jsstring) : Prop :=
  ∃ u t, u `suffix_of` s ∧ matches n r u t.

(** ** The iteration *)

Section repeats.
Context (R : jsstring → jsstring → Prop).
Context (m : cont → cont).
Implicit Types (k : cont) (s t u z : jsstring) (min fuel : nat).

Hypothesis R_suffix : ∀ s u, R s u → u `suffix_of` s.

Lemma repeats_suffix min s t : repeats R min s t → t `suffix_of` s.
Proof.
  induction 1 as [|min s u t Hstep _ IH]; [done|].
  etrans; [done|by apply R_suffix].
Qed.

Lemma repeats_more min min' s t :
  min' ≤ min → repeats R min s t → repeats R min' s t.
Proof.
  intros Hle Hrep. revert min' Hle.
  induction Hrep as [|min s u t Hstep _ IH]; intros min' Hle.
  - replace min' with 0 by lia. constructor.
  - eapply repeats_step; [done|]. apply IH. lia.
Qed.

Hypothesis m_sound :
  ∀ k s z, m k s = Some z → ∃ u, R s u ∧ k u = Some z.

Lemma repeat_matcher_sound greedy k fuel min s z :
  repeat_matcher m greedy k fuel min s = Some z →
  ∃ t, repeats R min s t ∧ k t = Some z.
Proof.
  revert min s z. induction fuel as [|fuel IH]; intros min s z; simpl; [done|].
  assert (∀ z', m (λ t, if (min =? 0) && (length t =? length s) then None
                    else repeat_matcher m greedy k fuel (pred min) t) s
                = Some z' → ∃ t, repeats R min s t ∧ k t = Some z') as Hiter.
  { intros z' (u & Hu & Hd)%m_sound. destruct (_ && _); [done|].
    apply IH in Hd as (t & Ht & Hz). exists t.
    split; [by eapply repeats_step|done]. }
  destruct (Nat.eqb_spec min 0) as [->|Hmin]; simpl; [|apply Hiter].
  destruct greedy.
  - destruct (m _ s) as [z'|] eqn:Hiter'; [intros [= <-]; by apply Hiter|].
    intros Hz. exists s. split; [constructor|done].
  - destruct (k s) as [z'|] eqn:Hk; [|apply Hiter].
    intros [= <-]. exists s. split; [constructor|done].
Qed.

Hypothesis m_complete :
  ∀ k s u, R s u → is_Some (k u) → is_Some (m k s).

Lemma repeat_matcher_complete greedy k fuel min s t :
  repeats R min s t → is_Some (k t) → min + length s < fuel →
  is_Some (repeat_matcher m greedy k fuel min s).
Proof.
  intros Hrep Hk. revert fuel.
  induction Hrep as [s|min s u t Hstep Hrep IH]; intros [|fuel] Hfuel;
    try lia; simpl.
  { destruct greedy; [by destruct (m _ s)|by destruct (k s)]. }
  specialize (IH Hk). pose proof (R_suffix _ _ Hstep) as Hsuf.
  pose proof (suffix_length _ _ Hsuf) as Hlen.
  destruct (Nat.eqb_spec min 0) as [->|Hmin]; simpl.
  - destruct (decide (length u = length s)) as [Heq|Hne].
    { apply (suffix_same_length _ _ Hsuf) in Heq as ->.
      apply (IH (S fuel)). simpl. lia. }
    assert (is_Some (m (λ t, if length t =? length s then None
                             else repeat_matcher m greedy k fuel 0 t) s))
      as [z Hz].
    { eapply m_complete; [done|].
      rewrite (proj2 (Nat.eqb_neq _ _) Hne). apply IH. simpl. lia. }
    rewrite Hz. destruct greedy; [done|by destruct (k s)].
  - eapply m_complete; [done|]. apply IH. lia.
Qed.
End repeats.

(** ** The matcher is sound and complete *)

Section matcher.
Implicit Types (r : regex) (k : cont) (s t u z : jsstring) (n : nat).

Lemma match_char_Some test k s z :
  match_char test k s = Some z ↔
  ∃ c t, s = c :: t ∧ test c = true ∧ k t = Some z.
Proof.
  destruct s as [|c s]; simpl.
  { split; [done|]. by intros (? & ? & [=] & _). }
  destruct (test c) eqn:Htest; split; try done.
  - intros ?. by exists c, s.
  - by intros (? & ? & [= <- <-] & _ & ?).
  - intros (? & ? & [= <- <-] & ? & _). congruence.
Qed.

Lemma matches_suffix n r s t : matches n r s t → t `suffix_of` s.
Proof.
  revert s t. induction r as [c| |rs|r1 IH1 r2 IH2|r1 IH1|min greedy r1 IH1| |];
    intros s t; simpl.
  - intros ->. by apply suffix_cons_r.
  - intros (c & _ & ->). by apply suffix_cons_r.
  - intros (c & _ & ->). by apply suffix_cons_r.
  - intros (u & ?%IH1 & ?%IH2). by etrans.
  - apply IH1.
  - by apply repeats_suffix.
  - by intros [_ ->].
  - by intros [-> ->].
Qed.

Lemma rmatch_sound n r k s z :
  rmatch n r k s = Some z → ∃ t, matches n r s t ∧ k t = Some z.
Proof.
  revert k s z.
  induction r as [c| |rs|r1 IH1 r2 IH2|r1 IH1|min greedy r1 IH1| |];
    intros k s z; simpl.
  - intros (c' & t & -> & ?%bool_decide_eq_true & ?)%match_char_Some.
    subst. by exists t.
  - intros (c' & t & -> & ? & ?)%match_char_Some. exists t. eauto.
  - intros (c' & t & -> & ? & ?)%match_char_Some. exists t. eauto.
  - intros (u & ? & (t & ? & ?)%IH2)%IH1. exists t. eauto.
  - apply IH1.
  - by apply repeat_matcher_sound.
  - destruct (Nat.eqb_spec (length s) n); [|done]. intros ?. by exists s.
  - destruct s; [|done]. intros ?. by exists [].
Qed.

Lemma rmatch_complete n r k s t :
  matches n r s t → is_Some (k t) → is_Some (rmatch n r k s).
Proof.
  revert k s t.
  induction r as [c| |rs|r1 IH1 r2 IH2|r1 IH1|min greedy r1 IH1| |];
    intros k s t; simpl.
  - intros -> ?. simpl. by rewrite bool_decide_eq_true_2.
  - intros (c & Hc & ->) ?. simpl. by rewrite Hc.
  - intros (c & Hc & ->) ?. simpl. by rewrite Hc.
  - intros (u & H1 & H2) ?. eapply IH1; [done|]. by eapply IH2.
  - apply IH1.
  - intros Hrep Hk.
    eapply (repeat_matcher_complete (matches n r1)); [|done..|lia].
    apply matches_suffix.
  - intros [<- ->] ?. by rewrite Nat.eqb_refl.
  - by intros [-> ->] ?.
Qed.

(** [rmatch] succeeds exactly when the pattern matches up to a rest that
    the continuation accepts. *)
Lemma rmatch_matches n r k s :
  is_Some (rmatch n r k s) ↔ ∃ t, matches n r s t ∧ is_Some (k t).
Proof.
  split.
  - intros [z (t & ? & ?)%rmatch_sound]. exists t. eauto.
  - intros (t & ? & ?). by eapply rmatch_complete.
Qed.

Lemma rmatch_None n r s : rmatch n r Some s = None ↔ ∀ t, ¬ matches n r s t.
Proof.
  rewrite eq_None_not_Some, rmatch_matches. split.
  - intros Hno t Ht. apply Hno. exists t. eauto.
  - intros Hno (t & Ht & _). by eapply Hno.
Qed.

(** ** The search *)

Lemma matches_in_nil n r : matches_in n r [] ↔ ∃ t, matches n r [] t.
Proof.
  split; [|intros [t ?]; by exists [], t].
  by intros (u & t & ->%suffix_nil_inv & ?); exists t.
Qed.

Lemma matches_in_cons n r c s :
  matches_in n r (c :: s) ↔ (∃ t, matches n r (c :: s) t) ∨ matches_in n r s.
Proof.
  split.
  - intros (u & t & [->|Hu]%suffix_cons_inv_r & Hm); [left; eauto|].
    right. by exists u, t.
  - intros [[t Ht]|(u & t & Hu & Hm)]; [by exists (c :: s), t|].
    exists u, t. split; [by apply suffix_cons_r|done].
Qed.

(** [search] answers the leftmost position at which the pattern matches,
    with a rest of the match there. *)
Lemma search_leftmost n r s u rest :
  search n r s = Some (u, rest) →
  ∃ pre, s = pre ++ u ∧ matches n r u rest ∧
         ∀ i t, i < length pre → ¬ matches n r (drop i s) t.
Proof.
  induction s as [|c s IH]; cbn [search].
  - destruct (rmatch n r Some []) as [z|] eqn:Hz; [|done].
    intros [= <- <-]. apply rmatch_sound in Hz as (t & ? & [= ->]).
    exists []. split_and!; [done..|]. simpl. lia.
  - destruct (rmatch n r Some (c :: s)) as [z|] eqn:Hz.
    + intros [= <- <-]. apply rmatch_sound in Hz as (t & ? & [= ->]).
      exists []. split_and!; [done..|]. simpl. lia.
    + intros (pre & -> & Hm & Hno)%IH. exists (c :: pre).
      split_and!; [done..|]. intros [|i] t Hi.
      * by apply rmatch_None.
      * apply Hno. simpl in Hi. lia.
Qed.

Lemma search_matches n r s : is_Some (search n r s) ↔ matches_in n r s.
Proof.
  induction s as [|c s IH]; cbn [search].
  - rewrite matches_in_nil. destruct (rmatch n r Some []) as [z|] eqn:Hz.
    + apply rmatch_sound in Hz as (t & ? & _). split; [eauto|by eexists].
    + rewrite rmatch_None in Hz. split; [by intros [? [=]]|].
      intros [t ?]. by destruct (Hz t).
  - rewrite matches_in_cons, <-IH.
    destruct (rmatch n r Some (c :: s)) as [z|] eqn:Hz.
    + apply rmatch_sound in Hz as (t & ? & _). split; [eauto|by eexists].
    + rewrite rmatch_None in Hz. split; [by right|].
      by intros [[t ?%Hz]|?].
Qed.

#[global] Instance matches_in_dec n r s : Decision (matches_in n r s).
Proof.
  refine (cast_if (decide (is_Some (search n r s))));
    by rewrite <-search_matches.
Defined.

(** [regex_test] decides whether the pattern matches somewhere in the
    text. *)
Lemma regex_test_matches r s :
  regex_test r s = true ↔ matches_in (length s) r s.
Proof. unfold regex_test. by rewrite bool_decide_eq_true, search_matches. Qed.

(** [match] with the flag [g] answers [null] exactly when the pattern
    matches nowhere. *)
Lemma match_all_from_nil n r s :
  match_all_from n r 0 s = [] ↔ ¬ matches_in n r s.
Proof.
  induction s as [|c s IH]; cbn [match_all_from].
  - rewrite matches_in_nil. destruct (rmatch n r Some []) as [z|] eqn:Hz.
    + apply rmatch_sound in Hz as (t & ? & _). split; [done|].
      intros []. eauto.
    + rewrite rmatch_None in Hz. split; [|done]. intros _ [t ?].
      by eapply Hz.
  - rewrite matches_in_cons.
    destruct (rmatch n r Some (c :: s)) as [z|] eqn:Hz.
    + apply rmatch_sound in Hz as (t & ? & _). split; [done|].
      intros []. eauto.
    + rewrite IH. rewrite rmatch_None in Hz. split; [|tauto].
      intros Hno [[t ?]|?]; [by eapply Hz|done].
Qed.

Lemma string_match_matches s r :
  is_Some (string_match s r) ↔ matches_in (length s) r s.
Proof.
  unfold string_match.
  destruct (match_all_from _ r 0 s) as [|x xs] eqn:Hall.
  - apply match_all_from_nil in Hall. split; [by intros [? [=]]|done].
  - split; [|by eexists]. intros _.
    destruct (decide (matches_in (length s) r s)) as [|Hno]; [done|].
    apply match_all_from_nil in Hno. congruence.
Qed.
End matcher.

(** ** The languages of the shapes the two patterns have *)

Section shapes.
Implicit Types (r : regex) (s t u cs pre : jsstring) (n min : nat)
  (test : N → bool).

(** A literal followed by a pattern. *)
Lemma matches_lit n cs r s t :
  matches n (lit cs r) s t ↔ ∃ u, s = cs ++ u ∧ matches n r u t.
Proof.
  revert s. induction cs as [|c cs IH]; intros s; cbn [lit matches].
  - split; [by exists s|by intros (u & -> & ?)].
  - split.
    + intros (u & -> & (u' & -> & ?)%IH). by exists u'.
    + intros (u & -> & ?). exists (cs ++ u). split; [done|].
      apply IH. by exists u.
Qed.

(** The iteration of a test of one code unit. *)
Lemma repeats_test test min s t :
  repeats (λ s u, ∃ c, test c = true ∧ s = c :: u) min s t ↔
  ∃ pre, s = pre ++ t ∧ min ≤ length pre ∧ Forall (λ c, test c = true) pre.
Proof.
  split.
  - induction 1 as [s|min s u t (c & Hc & ->) _ (pre & -> & Hmin & Hpre)].
    + by exists [].
    + exists (c :: pre). split_and!; [done|simpl; lia|by constructor].
  - intros (pre & -> & Hmin & Hpre). revert min Hmin.
    induction Hpre as [|c pre Hc _ IH]; intros min Hmin.
    + replace min with 0 by (simpl in Hmin; lia). constructor.
    + eapply repeats_step; [by exists c|]. apply IH. simpl in Hmin. lia.
Qed.
End shapes.
