(* ===== verification/Validator.v ===== *)
(** * Validation of module names

    [isValidModule] of [src/helpers.js].  The function destructures its
    argument ([({name, dev}) => ...]) and tests the [name] property
    against the regular expression [^([a-z0-9-_]{1,})$].  Its only caller,
    [getModulesFromFile], passes a string; a string has no [name] property,
    so the test is applied to [undefined], which [RegExp.prototype.test]
    converts to the string ["undefined"].  The argument is therefore
    modelled as a value that is a string or a module object ([jsarg]), and
    both cases are characterised: on module objects the function decides
    the character set of the specification ([valid_name]); on strings it
    answers [true] whatever the string. *)

From S2P Require Import Prelude JsRuntime Modules Regex RegexSem.

(** ** The source's definitions *)

(** The values [isValidModule] and [isModulePopular] are applied to. *)
Inductive jsarg : Type :=
| ArgString (s : jsstring)
| ArgModule (m : ModuleRef).

(** The [name] property of an argument: a string has none. *)
Definition prop_name (v : jsarg) : option jsstring :=
  match v with
  | ArgString _ => None
  | ArgModule m => Some (name m)
  end.

(** The character class [[a-z0-9-_]]: two ranges and two characters. *)
Definition name_class : list (N * N) :=
  [(97, 122); (48, 57); (45, 45); (95, 95)]%N.

(** [new RegExp("^([a-z0-9-_]{1,})$")] *)
Definition validRegex : regex :=
  Seq Bol (Seq (Group (Quant 1 true (Class name_class))) Eol).

Definition isValidModule (v : jsarg) : bool :=
  let name := prop_name v in
  let regex := validRegex in
  regex_test regex (to_string name).

(** ** The reference definition *)

(** [a-z], [0-9], [-] or [_]. *)
Definition valid_char (c : N) : bool :=
  ((97 <=? c) && (c <=? 122) || (48 <=? c) && (c <=? 57) ||
   bool_decide (c = 45) || bool_decide (c = 95))%N.

(** A non-empty string of valid characters. *)
Definition valid_name (s : jsstring) : bool :=
  match s with
  | [] => false
  | _ :: _ => forallb valid_char s
  end.

(** ** Lemmas *)

Section validator.
Implicit Types (s : jsstring) (c : N) (m : ModuleRef).

(** A range of one character is a test for that character. *)
Lemma range_singleton (a c : N) :
  ((a <=? c) && (c <=? a))%N = bool_decide (c = a).
Proof.
  case_bool_decide as Hc; [subst; by rewrite N.leb_refl|].
  destruct (N.leb_spec a c), (N.leb_spec c a); simpl; try done. lia.
Qed.

Lemma in_ranges_name_class c : in_ranges name_class c = valid_char c.
Proof.
  unfold in_ranges, valid_char, name_class. simpl.
  by rewrite orb_false_r, !orb_assoc, !range_singleton.
Qed.

(** The matcher on the body of [validRegex]. *)
Lemma rmatch_valid_body n s :
  rmatch n (Seq (Group (Quant 1 true (Class name_class))) Eol) Some s =
  if valid_name s then Some [] else None.
Proof.
  change (rmatch n _ Some s) with
    (repeat_matcher (match_char (in_ranges name_class)) true
       (rmatch n Eol Some) (1 + length s + 1) 1 s).
  rewrite (repeat_matcher_ext _ _ _ at_end)
    by first [apply match_char_local|apply rmatch_Eol].
  rewrite repeat_greedy_plus by lia.
  destruct s as [|c s]; [done|]. cbn [match_char valid_name forallb].
  rewrite greedy_star_to_end, in_ranges_name_class.
  rewrite (forallb_ext _ valid_char) by apply in_ranges_name_class.
  by destruct (valid_char c).
Qed.

(** [validRegex.test] decides [valid_name]. *)
Lemma regex_test_validRegex s : regex_test validRegex s = valid_name s.
Proof.
  unfold validRegex. rewrite regex_test_Bol, rmatch_valid_body.
  destruct (valid_name s); [by apply bool_decide_eq_true_2|].
  apply bool_decide_eq_false_2. by intros [??].
Qed.

Lemma valid_name_spec s :
  valid_name s = true ↔ s ≠ [] ∧ ∀ c, c ∈ s → valid_char c = true.
Proof.
  destruct s as [|c s]; [by split; [|intros [[] _]]|].
  unfold valid_name. rewrite forallb_forall.
  setoid_rewrite <-list_elem_of_In. split; [by intros|by intros [_ ?]].
Qed.

Lemma valid_char_spec c :
  valid_char c = true ↔
  (97 ≤ c ≤ 122 ∨ 48 ≤ c ≤ 57 ∨ c = 45 ∨ c = 95)%N.
Proof.
  unfold valid_char.
  rewrite !orb_true_iff, !andb_true_iff, !bool_decide_eq_true, !N.leb_le.
  tauto.
Qed.

(** The language of [validRegex]: the whole input, when it is a
    non-empty string of valid characters. *)
Lemma matches_validRegex n s t :
  matches n validRegex s t ↔
  length s = n ∧ t = [] ∧ s ≠ [] ∧ Forall (λ c, valid_char c = true) s.
Proof.
  unfold validRegex. cbn [matches]. split.
  - intros (u & [Hn ->] & u' & Hrep & -> & ->).
    apply repeats_test in Hrep as (pre & -> & Hmin & Hpre).
    rewrite (right_id_L [] (++)) in *. split_and!; [done..| |].
    + destruct pre; simpl in Hmin; [lia|done].
    + eapply Forall_impl; [done|]. intros c Hc. by rewrite <-in_ranges_name_class.
  - intros (Hn & -> & Hs & Hall). exists s. split; [done|]. exists [].
    split; [|done]. apply repeats_test. exists s.
    rewrite (right_id_L [] (++)).
    split_and!; [done|destruct s; simpl; [done|lia]|].
    eapply Forall_impl; [done|]. intros c Hc. by rewrite in_ranges_name_class.
Qed.

Lemma isValidModule_module m : isValidModule (ArgModule m) = valid_name (name m).
Proof. apply regex_test_validRegex. Qed.

Lemma isValidModule_string s : isValidModule (ArgString s) = true.
Proof. unfold isValidModule. simpl. by rewrite regex_test_validRegex. Qed.
End validator.

(** ** Main results *)

(** C5 On a module object, [isValidModule] decides the character set of
    the specification: the name is not empty and each of its characters is
    a lower-case letter, a digit, [-] or [_]. *)
Theorem isValidModule_decides_charset (m : ModuleRef) :
  isValidModule (ArgModule m) = true ↔
  name m ≠ [] ∧
  ∀ c, c ∈ name m → (97 ≤ c ≤ 122 ∨ 48 ≤ c ≤ 57 ∨ c = 45 ∨ c = 95)%N.
Proof.
  rewrite isValidModule_module, valid_name_spec.
  by setoid_rewrite valid_char_spec.
Qed.

(** C20 Applied to a string, as [getModulesFromFile] applies it,
    [isValidModule] answers [true] for every string: the pattern is tested
    against the missing [name] property of the string, that is against
    ["undefined"], and no candidate is ever rejected. *)
Theorem isValidModule_accepts_every_string (s : jsstring) :
  isValidModule (ArgString s) = true ∧
  to_string (prop_name (ArgString s)) = js "undefined".
Proof. split; [apply isValidModule_string|done]. Qed.

(** C24 The matcher implements the language of the pattern of
    [isValidModule]: [test] answers [true] exactly when the pattern
    matches somewhere in the text, and what the pattern matches is the
    whole input, when it is a non-empty string of the letters [a-z], the
    digits, [-] and [_]. *)
Theorem validRegex_language n s t :
  (regex_test validRegex s = true ↔ matches_in (length s) validRegex s) ∧
  (matches n validRegex s t ↔
   length s = n ∧ t = [] ∧ s ≠ [] ∧ Forall (λ c, valid_char c = true) s).
Proof. split; [apply regex_test_matches|apply matches_validRegex]. Qed.

(** The matcher of the ECMAScript specification, run on
    [^([a-z0-9-_]{1,})$], agrees with the direct definition [valid_name]
    on every string. *)
Theorem validRegex_equiv_valid_name (s : jsstring) :
  regex_test validRegex s = valid_name s.
Proof. apply regex_test_validRegex. Qed.

(** The examples of the specification, on module objects. *)
Example isValidModule_rejects :
  isValidModule (ArgModule (mkModule (js "Foo") false)) = false ∧
  isValidModule (ArgModule (mkModule (js "@scope/pkg") false)) = false ∧
  isValidModule (ArgModule (mkModule (js "../x") false)) = false ∧
  isValidModule (ArgModule (mkModule [] false)) = false.
Proof. by vm_compute. Qed.

Example isValidModule_accepts :
  isValidModule (ArgModule (mkModule (js "lodash") false)) = true ∧
  isValidModule (ArgModule (mkModule (js "my-lib_2") true)) = true.
Proof. by vm_compute. Qed.

(** The same names as strings: all accepted. *)
Example isValidModule_strings :
  isValidModule (ArgString (js "Foo")) = true ∧
  isValidModule (ArgString (js "../x")) = true ∧
  isValidModule (ArgString []) = true.
Proof. by vm_compute. Qed.
