(* ===== verification/Extractor.v ===== *)
(** * Extraction of module references from the text of a file

    [pattern] and the body of [getModulesFromFile] of [src/helpers.js]
    that follows the file read ([modulesFromContent]; the read itself is
    an effect and is modelled with the other effects).  [pattern] is the
    syntax tree of [/require\((.*?)\)/g] and [content.match(pattern)] is
    the matcher of [Regex]; [strip_call] is the sequence of [replace] and
    [substring] calls that recovers the argument from a match.  The
    pattern object is shared by all the calls, but [match] with a global
    pattern starts at index 0 and leaves [lastIndex] at 0, so that a call
    does not depend on the calls before it.

    The reference definition is the direct scanner [scan]: at every
    position that starts with ["require("] it looks for the first [")"] of
    the line.  The matcher on [pattern] is proved equal to it, and the
    behaviour of [modulesFromContent] is stated on the scanner: on a text
    whose calls all have a quoted literal argument ([requires_text]) it
    returns the arguments; on other calls it returns what the blind
    removal of two characters leaves. *)

From S2P Require Import Prelude JsRuntime Modules Regex RegexSem Validator.

(** ** The source's definitions *)

(** [/require\((.*?)\)/g] *)
Definition pattern : regex :=
  lit (js "require(") (Seq (Group (Quant 0 false Dot)) (Char 41)).

(** The three assignments to [match] in the loop of
    [getModulesFromFile]. *)
Definition strip_call (match_ : jsstring) : jsstring :=
  let match_ := JsString.replace match_ (js "require") [] in
  let match_ := JsString.substring_from match_ 2 in
  let match_ := JsString.substring match_ 0 (Z.of_nat (length match_) - 2) in
  match_.

(** One iteration of the loop over [matches]. *)
Definition extract_step (modules : list jsstring) (match_ : jsstring)
    : list jsstring :=
  let match_ := strip_call match_ in
  if isValidModule (ArgString match_) then modules ++ [match_] else modules.

(** [getModulesFromFile] from the text of the file on. *)
Definition modulesFromContent (content : jsstring) : list jsstring :=
  let modules := [] in
  match string_match content pattern with
  | None => modules
  | Some matches => foldl extract_step modules matches
  end.

(** ** The reference definitions *)

(** [find_close s]: the text of [s] before the first [")"] and the text
    after it, when no line terminator comes before that [")"]. *)
Fixpoint find_close (s : jsstring) : option (jsstring * jsstring) :=
  match s with
  | [] => None
  | c :: s' =>
      if bool_decide (c = 41%N) then Some ([], s')
      else if is_line_terminator c then None
      else prod_map (cons c) id <$> find_close s'
  end.

(** [call_at s]: when [s] starts with a call, its argument text and what
    follows the call. *)
Definition call_at (s : jsstring) : option (jsstring * jsstring) :=
  if bool_decide (js "require(" `prefix_of` s) then find_close (drop 8 s)
  else None.

(** The argument texts of the calls of [s], from left to right; a call
    that starts inside an earlier one is not seen ([skip] code units are
    passed first). *)
Fixpoint scan (skip : nat) (s : jsstring) : list jsstring :=
  match skip, s with
  | S skip', _ :: s' => scan skip' s'
  | S _, [] => []
  | 0, _ =>
      match call_at s with
      | Some (arg, _) =>
          arg :: match s with
                 | [] => []
                 | _ :: s' => scan (8 + length arg) s'
                 end
      | None => match s with [] => [] | _ :: s' => scan 0 s' end
      end
  end.

(** The text of a call with argument text [arg]. *)
Definition call_text (arg : jsstring) : jsstring :=
  js "require(" ++ arg ++ [41%N].

(** What [strip_call] leaves of an argument text: its first and its last
    code unit are removed. *)
Definition unquote (arg : jsstring) : jsstring :=
  take (length arg - 2) (drop 1 arg).

(** ** The matcher on [pattern] is the scanner *)

Section matcher.
Implicit Types (s t arg rest : jsstring) (n skip : nat).

Lemma find_close_Some s arg rest :
  find_close s = Some (arg, rest) →
  s = arg ++ 41%N :: rest ∧ (41%N ∉ arg) ∧
  Forall (λ c, is_line_terminator c = false) arg.
Proof.
  revert arg. induction s as [|c s IH]; intros arg; simpl; [done|].
  case_bool_decide as Hc; subst.
  { intros [= <- <-]. split_and!; [done|apply not_elem_of_nil|done]. }
  destruct (is_line_terminator c) eqn:Hlt; [done|].
  destruct (find_close s) as [[arg' rest']|]; [|done].
  intros [= <- <-]. destruct (IH arg' eq_refl) as (-> & Hnotin & Hall).
  split_and!; [done| |by constructor]. by intros [?|?]%elem_of_cons.
Qed.

Lemma find_close_app arg rest :
  41%N ∉ arg → Forall (λ c, is_line_terminator c = false) arg →
  find_close (arg ++ 41%N :: rest) = Some (arg, rest).
Proof.
  induction arg as [|c arg IH]; simpl; [done|].
  intros [Hc Hnotin]%not_elem_of_cons [Hlt Hall]%Forall_cons.
  rewrite bool_decide_eq_false_2, Hlt, IH by done. done.
Qed.

Lemma lazy_star_find_close t :
  lazy_star dot_test (match_char (λ c, bool_decide (c = 41%N)) Some) t =
  snd <$> find_close t.
Proof.
  induction t as [|c t IH]; simpl; [done|].
  case_bool_decide; [done|]. unfold dot_test at 1.
  destruct (is_line_terminator c); simpl; [done|].
  rewrite IH. by destruct (find_close t) as [[??]|].
Qed.

Lemma rmatch_pattern n s : rmatch n pattern Some s = snd <$> call_at s.
Proof.
  unfold pattern, call_at. rewrite rmatch_lit.
  case_bool_decide; [|done].
  change (length (js "require(")) with 8.
  change (rmatch n _ Some ?t) with
    (repeat_matcher (match_char dot_test) false
       (match_char (λ c, bool_decide (c = 41%N)) Some) (0 + length t + 1) 0 t).
  rewrite repeat_lazy by lia. apply lazy_star_find_close.
Qed.

Lemma call_at_Some s arg rest :
  call_at s = Some (arg, rest) → s = call_text arg ++ rest.
Proof.
  unfold call_at, call_text. case_bool_decide as Hpre; [|done].
  destruct Hpre as [t ->]. change (drop 8 (js "require(" ++ t)) with t.
  intros (-> & _)%find_close_Some. by rewrite <-!(assoc_L (++)).
Qed.

Lemma call_at_call_text arg rest :
  41%N ∉ arg → Forall (λ c, is_line_terminator c = false) arg →
  call_at (call_text arg ++ rest) = Some (arg, rest).
Proof.
  intros Hnotin Hall. unfold call_at, call_text.
  rewrite <-!(assoc_L (++)).
  rewrite bool_decide_eq_true_2 by by eexists.
  by apply find_close_app.
Qed.

(** [content.match(pattern)] lists the calls the scanner finds. *)
Lemma match_all_pattern n skip s :
  match_all_from n pattern skip s = call_text <$> scan skip s.
Proof.
  revert skip. induction s as [|c s IH]; intros [|skip];
    cbn [match_all_from scan]; try done.
  rewrite rmatch_pattern.
  destruct (call_at (c :: s)) as [[arg rest]|] eqn:Hcall;
    cbn [fmap option_fmap option_map snd]; [|apply IH].
  rewrite IH, fmap_cons. apply call_at_Some in Hcall.
  assert (length (c :: s) - length rest = length (call_text arg)) as ->.
  { rewrite Hcall, length_app. lia. }
  f_equal.
  - by rewrite Hcall, take_app_length.
  - do 2 f_equal. unfold call_text. rewrite !length_app. simpl. lia.
Qed.

Lemma string_match_pattern s :
  string_match s pattern =
  match scan 0 s with [] => None | args => Some (call_text <$> args) end.
Proof.
  unfold string_match. rewrite match_all_pattern. by destruct (scan 0 s).
Qed.

(** The language of [pattern]: a call whose argument text has no line
    terminator; the argument may hold a [")"]. *)
Lemma matches_pattern n s t :
  matches n pattern s t ↔
  ∃ arg, s = call_text arg ++ t ∧
         Forall (λ c, is_line_terminator c = false) arg.
Proof.
  unfold pattern, call_text. rewrite matches_lit. cbn [matches]. split.
  - intros (u & -> & u' & (arg & -> & _ & Harg)%repeats_test & ->).
    exists arg. rewrite <-!(assoc_L (++)). split; [done|].
    eapply Forall_impl; [done|]. by intros c ?%negb_true_iff.
  - intros (arg & -> & Harg). exists (arg ++ 41%N :: t).
    rewrite <-!(assoc_L (++)). split; [done|]. exists (41%N :: t).
    split; [|done]. apply repeats_test. exists arg.
    split_and!; [done|lia|]. eapply Forall_impl; [done|].
    by intros c ?%negb_true_iff.
Qed.
End matcher.

(** ** Stripping the call syntax *)

Section strip.
Implicit Types (arg mt : jsstring) (modules : list jsstring).

(** From the text of a call, [strip_call] removes ["require("], the first
    code unit of the argument text, its last code unit and [")"]. *)
Lemma strip_call_text arg : strip_call (call_text arg) = unquote arg.
Proof.
  unfold strip_call, call_text, unquote.
  change (js "require(" ++ arg ++ [41%N])
    with (js "require" ++ 40%N :: arg ++ [41%N]).
  rewrite JsString.replace_prefix. cbn [app].
  rewrite JsString.substring_from_drop, JsString.substring_0_take.
  rewrite (JsString.clamp_in_range _ 2)
    by (cbn [length]; rewrite length_app; simpl; lia).
  change (drop (Z.to_nat 2) (40%N :: arg ++ [41%N]))
    with (drop 1 (arg ++ [41%N])).
  destruct arg as [|a arg]; [done|]. cbn [drop app length].
  rewrite !drop_0. unfold JsString.clamp. rewrite length_app. simpl length.
  rewrite take_app_le by lia. f_equal. lia.
Qed.

Lemma extract_step_push modules mt :
  extract_step modules mt = modules ++ [strip_call mt].
Proof. unfold extract_step. by rewrite isValidModule_string. Qed.

Lemma foldl_extract_step modules (matches : list jsstring) :
  foldl extract_step modules matches = modules ++ (strip_call <$> matches).
Proof.
  revert modules. induction matches as [|m ms IH]; intros modules; simpl.
  - by rewrite (right_id_L [] (++)).
  - by rewrite IH, extract_step_push, <-(assoc_L (++)).
Qed.

(** [modulesFromContent] returns, for every call the scanner finds, the
    argument text without its first and last code unit. *)
Lemma modulesFromContent_scan content :
  modulesFromContent content = unquote <$> scan 0 content.
Proof.
  unfold modulesFromContent. rewrite string_match_pattern.
  destruct (scan 0 content) as [|arg args] eqn:Hscan; [done|].
  rewrite foldl_extract_step, <-list_fmap_compose. simpl. f_equal.
  - apply strip_call_text.
  - apply list_fmap_ext. intros _ arg' _. apply strip_call_text.
Qed.
End strip.

(** ** Texts whose calls have a quoted literal argument *)

(** [quoted q x]: the literal [x] between two quotes [q]. *)
Definition quoted (q : N) (x : jsstring) : jsstring := q :: x ++ [q].

(** An argument text that the pattern can match: no [")"] and no line
    terminator. *)
Definition clean (arg : jsstring) : Prop :=
  (41%N ∉ arg) ∧ Forall (λ c, is_line_terminator c = false) arg.

(** [requires_text names content]: [content] is made of code units at
    which no call starts and of calls [require(q x q)] with a quoted
    literal; [names] lists the literals in order. *)
Inductive requires_text : list jsstring → jsstring → Prop :=
| requires_nil : requires_text [] []
| requires_skip c s names :
    ¬ js "require(" `prefix_of` c :: s →
    requires_text names s →
    requires_text names (c :: s)
| requires_call q x rest names :
    clean (quoted q x) →
    requires_text names rest →
    requires_text (x :: names) (call_text (quoted q x) ++ rest).

(** The text of a program that requires [names]: one statement
    [require(q x q);] a line, with the quote [q]. *)
Definition source_of (q : N) (names : list jsstring) : jsstring :=
  names ≫= λ x, call_text (quoted q x) ++ [59; 10]%N.

#[global] Instance clean_dec arg : Decision (clean arg).
Proof. unfold clean. apply _. Defined.

Section requires_text.
Implicit Types (arg rest s x : jsstring) (names : list jsstring).

Lemma unquote_quoted q x : unquote (quoted q x) = x.
Proof.
  unfold unquote, quoted. cbn [drop length]. rewrite drop_0, length_app.
  simpl. replace (length x + 1 - 1) with (length x) by lia.
  by rewrite take_app_length.
Qed.

Lemma scan_skip_app pre rest : scan (length pre) (pre ++ rest) = scan 0 rest.
Proof. induction pre as [|c pre IH]; [done|apply IH]. Qed.

Lemma call_text_cons arg :
  call_text arg = 114%N :: js "equire(" ++ arg ++ [41%N].
Proof. done. Qed.

(** The scanner on a text that starts with a call. *)
Lemma scan_call_at s arg rest :
  call_at s = Some (arg, rest) → scan 0 s = arg :: scan 0 rest.
Proof.
  intros Hcall. pose proof (call_at_Some _ _ _ Hcall) as Heq.
  rewrite call_text_cons in Heq. destruct s as [|c s]; [done|].
  cbn [scan]. rewrite Hcall. f_equal. injection Heq as _ ->.
  rewrite <-(scan_skip_app (js "equire(" ++ arg ++ [41%N]) rest).
  f_equal. rewrite !length_app. change (length (js "equire(")) with 7.
  simpl. lia.
Qed.

Lemma scan_call arg rest :
  clean arg → scan 0 (call_text arg ++ rest) = arg :: scan 0 rest.
Proof. intros [??]. by apply scan_call_at, call_at_call_text. Qed.

Lemma scan_no_call c s :
  ¬ js "require(" `prefix_of` c :: s → scan 0 (c :: s) = scan 0 s.
Proof.
  intros Hno. cbn [scan]. unfold call_at.
  by rewrite bool_decide_eq_false_2.
Qed.

Lemma scan_requires_text names s :
  requires_text names s → unquote <$> scan 0 s = names.
Proof.
  induction 1 as [|c s names Hno _ IH|q x rest names Hclean _ IH]; [done|..].
  - by rewrite scan_no_call.
  - rewrite scan_call, fmap_cons, unquote_quoted, IH; done.
Qed.

Lemma requires_text_source_of q names :
  Forall (λ x, clean (quoted q x)) names →
  requires_text names (source_of q names).
Proof.
  induction 1 as [|x names Hx _ IH]; [constructor|].
  unfold source_of. rewrite bind_cons, <-(assoc_L (++)).
  apply requires_call; [done|].
  do 2 (apply requires_skip; [by intros [? [=]]|]). apply IH.
Qed.

(** Every argument text the scanner returns is clean. *)
Lemma scan_clean skip s arg : arg ∈ scan skip s → clean arg.
Proof.
  revert skip. induction s as [|c s IH]; intros [|skip]; cbn [scan];
    try apply IH; try by intros ?%elem_of_nil.
  destruct (call_at (c :: s)) as [[arg' rest]|] eqn:Hcall; [|apply IH].
  intros [->|?]%elem_of_cons; [|by eapply IH].
  unfold call_at in Hcall. case_bool_decide; [|done].
  by apply find_close_Some in Hcall as (_ & ? & ?).
Qed.
End requires_text.

Lemma clean_sublist arg arg' : arg' `sublist_of` arg → clean arg → clean arg'.
Proof.
  intros Hsub [Hnotin Hall]. split.
  - intros Hin. apply Hnotin. by eapply elem_of_sublist.
  - rewrite Forall_forall in Hall |- *. intros c Hc. apply Hall.
    by eapply elem_of_sublist.
Qed.

Lemma unquote_clean arg : clean arg → clean (unquote arg).
Proof.
  apply clean_sublist. unfold unquote.
  etrans; [apply sublist_take|apply sublist_drop].
Qed.

(** An argument text that the scanner returns is a piece of the text. *)
Lemma scan_sublist skip s arg : arg ∈ scan skip s → arg `sublist_of` s.
Proof.
  revert skip. induction s as [|c s IH]; intros [|skip]; cbn [scan];
    try (by intros ?%elem_of_nil);
    try (by intros ?%IH; apply sublist_cons).
  destruct (call_at (c :: s)) as [[arg' rest]|] eqn:Hcall;
    [|by intros ?%IH; apply sublist_cons].
  intros [->|?%IH]%elem_of_cons; [|by apply sublist_cons].
  unfold call_at in Hcall. case_bool_decide; [|done].
  apply find_close_Some in Hcall as (Hs & _).
  rewrite <-(take_drop 8 (c :: s)), Hs.
  apply sublist_inserts_l, sublist_inserts_r. done.
Qed.

(** A name that [getModulesFromFile] returns is a piece of the text of
    the file. *)
Lemma modulesFromContent_sublist content name :
  name ∈ modulesFromContent content → name `sublist_of` content.
Proof.
  rewrite modulesFromContent_scan.
  intros (arg & -> & Harg%scan_sublist)%list_elem_of_fmap.
  etrans; [|done]. unfold unquote.
  etrans; [apply sublist_take|apply sublist_drop].
Qed.

Lemma modulesFromContent_call_text arg :
  clean arg → modulesFromContent (call_text arg) = [unquote arg].
Proof.
  intros Hclean. rewrite modulesFromContent_scan.
  rewrite <-(right_id_L [] (++) (call_text arg)). by rewrite scan_call.
Qed.

(** ** Main results *)

(** C22 The regular-expression matcher on [pattern], as
    [content.match(pattern)] runs it, finds exactly the calls of the
    direct scanner: at every position that starts with ["require("], the
    text up to the first [")"] of the line, the search resuming after
    that [")"]; and [null] when there is no call. *)
Theorem pattern_match_equiv_scan content :
  string_match content pattern =
  match scan 0 content with
  | [] => None
  | args => Some (call_text <$> args)
  end.
Proof. unfold string_match. rewrite match_all_pattern. by destruct scan. Qed.

(** C23 The matcher implements the language of [pattern]: [match] answers
    an array exactly when the pattern matches somewhere in the text, and
    what the pattern matches is a call [require(arg)] whose argument
    text has no line terminator. *)
Theorem pattern_language n s t :
  (is_Some (string_match s pattern) ↔ matches_in (length s) pattern s) ∧
  (matches n pattern s t ↔
   ∃ arg, s = call_text arg ++ t ∧
          Forall (λ c, is_line_terminator c = false) arg).
Proof. split; [apply string_match_matches|apply matches_pattern]. Qed.

(** C21 The body of [getModulesFromFile] returns one entry for every call
    the scanner finds, in the order of the text: the argument text
    without its first and its last code unit.  No entry is dropped: the
    test [isValidModule(match)] never fails. *)
Theorem modulesFromContent_spec content :
  modulesFromContent content = unquote <$> scan 0 content.
Proof. apply modulesFromContent_scan. Qed.

(** C3 On a text in which every call has a quoted literal argument, the
    body of [getModulesFromFile] returns the literals, in order and with
    their repetitions. *)
Theorem modulesFromContent_quoted_literals names content :
  requires_text names content → modulesFromContent content = names.
Proof. intros H. rewrite modulesFromContent_scan. by apply scan_requires_text. Qed.

Lemma modulesFromContent_quoted_literals_witness :
  modulesFromContent (js "var _ = require('lodash');require('chalk')") =
  [js "lodash"; js "chalk"].
Proof.
  apply (modulesFromContent_quoted_literals [js "lodash"; js "chalk"]).
  change (js "var _ = require('lodash');require('chalk')") with
    (js "var _ = " ++ call_text (quoted 39 (js "lodash")) ++
     59%N :: call_text (quoted 39 (js "chalk")) ++ []).
  change (js "var _ = ") with [118; 97; 114; 32; 95; 32; 61; 32]%N.
  cbn [app].
  do 8 (apply requires_skip; [decide_by_computation|]).
  apply requires_call; [decide_by_computation|].
  apply requires_skip; [decide_by_computation|].
  apply requires_call; [decide_by_computation|apply requires_nil].
Defined.

(** C31 Printing and extracting: from the text that requires [names] one
    call a line, between quotes [q], the body of [getModulesFromFile]
    returns [names], whenever no name holds a [")"] or a line terminator
    and [q] is neither. *)
Theorem modulesFromContent_source_of q names :
  Forall (λ x, clean (quoted q x)) names →
  modulesFromContent (source_of q names) = names.
Proof.
  intros Hnames. rewrite modulesFromContent_scan.
  by apply scan_requires_text, requires_text_source_of.
Qed.

Lemma modulesFromContent_source_of_witness :
  modulesFromContent (source_of 39 [js "lodash"; js "./util"; js "@babel/core"]) =
  [js "lodash"; js "./util"; js "@babel/core"].
Proof.
  apply (modulesFromContent_source_of 39
           [js "lodash"; js "./util"; js "@babel/core"]).
  decide_by_computation.
Defined.

(** A call whose argument is not a quoted literal yields an entry all
    the same: the argument text without its first and its last code
    unit, so [require(someVariable)] yields [omeVariabl]. *)
Theorem modulesFromContent_unquoted_argument arg :
  clean arg → modulesFromContent (call_text arg) = [unquote arg].
Proof. apply modulesFromContent_call_text. Qed.

Lemma modulesFromContent_unquoted_argument_witness :
  modulesFromContent (js "require(someVariable)") = [js "omeVariabl"].
Proof.
  apply (modulesFromContent_unquoted_argument (js "someVariable")).
  decide_by_computation.
Defined.

(** No entry that the body of [getModulesFromFile] returns holds a
    [")"] or a line terminator; nothing else is excluded (spaces, quotes,
    [;], [&] and [|] pass). *)
Theorem modulesFromContent_clean content :
  Forall clean (modulesFromContent content).
Proof.
  rewrite modulesFromContent_scan. apply Forall_fmap, Forall_forall.
  intros arg Harg. by eapply unquote_clean, scan_clean.
Qed.

(** The fuel of the matcher is enough for both patterns of the
    program: with any amount of additional fuel in its quantifier,
    [pattern] and the pattern of [isValidModule] match the same texts
    with the same results. *)
Theorem patterns_fuel_enough extra n k s :
  rmatch_fuel extra n pattern k s = rmatch n pattern k s ∧
  rmatch_fuel extra n validRegex k s = rmatch n validRegex k s.
Proof. split; apply rmatch_fuel_eq. Qed.

Example modulesFromContent_example :
  modulesFromContent
    (js "const a = require('lodash'), b = require('./lib/util'); require(x)") =
  [js "lodash"; js "./lib/util"; []].
Proof. vm_compute. reflexivity. Qed.

Example modulesFromContent_shell_text :
  modulesFromContent (js "require('x; touch /tmp/y')") = [js "x; touch /tmp/y"].
Proof. vm_compute. reflexivity. Qed.

Example modulesFromContent_no_call :
  modulesFromContent (js "import fs from 'fs'") = [].
Proof. vm_compute. reflexivity. Qed.
