(* ===== verification/World.v ===== *)
(** * The world of the program: files, commands, console, exceptions

    The functions of [src/helpers.js] that are not pure read files
    ([fs.readFileSync], [glob.sync]), run commands ([sync-exec]), send a
    request ([sync-request]), drive a spinner ([ora]) and print
    ([console.log]); some of them throw.  This file holds what they share:

    - [json]: the values [JSON.parse] returns;
    - [World]: the file system and the trace of the events the program
      has caused so far ([event]);
    - [Env]: the interface of the packages and of the runtime, a class
      whose fields are the results of their calls; the functions of the
      program are defined, and their theorems proved, for every instance;
    - [eff]: the monad of computations that change the world and may
      throw ([error]).  An exception keeps the world as it is when it is
      thrown: what was printed or run before stays in the trace.
    - [for_of]: the loop [for (let x of xs) body]. *)

From S2P Require Import Prelude JsRuntime Modules Classifier.

(** ** Values of [JSON.parse] *)

(** The properties of an object are listed in the order in which [for in]
    visits them.  A number is the decimal its text wrote, [m × 10 ^ e]:
    the language rounds it to a double, and the program compares one
    number with a threshold and reads no other. *)
#[local] Set Warnings "-register-all".
Inductive json : Type :=
| JNull
| JBool (b : bool)
| JNumber (m e : Z)
| JString (s : jsstring)
| JArray (xs : list json)
| JObject (props : list (jsstring * json)).

(** Induction on a value, with the hypothesis for every element of an
    array and every property of an object. *)
Lemma json_ind' (P : json → Prop) :
  P JNull → (∀ b, P (JBool b)) → (∀ m e, P (JNumber m e)) →
  (∀ s, P (JString s)) →
  (∀ xs, Forall P xs → P (JArray xs)) →
  (∀ props, Forall (λ kv, P kv.2) props → P (JObject props)) →
  ∀ v, P v.
Proof.
  intros Hnull Hbool Hnum Hstr Harr Hobj. fix IH 1. intros [| | | |xs|props].
  - done.
  - apply Hbool.
  - apply Hnum.
  - apply Hstr.
  - apply Harr. induction xs as [|x xs IHxs]; constructor; [apply IH|done].
  - apply Hobj.
    induction props as [|[k x] props IHprops]; constructor; [apply IH|done].
Qed.

(** ** Exceptions *)

Inductive error : Type :=
| ReadError (path : jsstring)      (* fs.readFileSync: no such file *)
| SyntaxError                      (* JSON.parse *)
| TypeError                        (* a property of null *)
| RequestError (url : jsstring).   (* sync-request *)

#[global] Instance error_eq_dec : EqDecision error.
Proof. solve_decision. Defined.

(** ** Events *)

(** [logSymbols.error], [logSymbols.warning], [logSymbols.success] *)
Inductive symbol : Type := SymError | SymWarning | SymSuccess.

#[global] Instance symbol_eq_dec : EqDecision symbol.
Proof. solve_decision. Defined.

Inductive event : Type :=
| SpinnerStart (text color : jsstring)
| SpinnerStop
| ConsoleLog (sym : symbol) (message : jsstring)
| Exec (command : jsstring)
| Request (url : jsstring).

#[global] Instance event_eq_dec : EqDecision event.
Proof. solve_decision. Defined.

(** ** The world *)

Abbreviation fs := (gmap jsstring jsstring) (only parsing).

Record World : Type := mkWorld {
  files : fs;             (* path ↦ text *)
  trace : list event;     (* oldest event first *)
}.

(** ** The packages and the runtime *)

(** What a call of [request] does with its callback. *)
Inductive request_outcome : Type :=
| RequestThrows
| RequestReturns
| RequestCalls (body : jsstring).

Class Env : Type := {
  env_builtins :: BuiltinOracle;
  (* glob.sync("**/*.js", {ignore: ['node_modules/**/*']}) *)
  glob_sync : fs → list jsstring;
  (* syncExec(command): the status of the command and what it leaves of
     the files *)
  sync_exec : jsstring → fs → Z * fs;
  (* request('GET', url, callback) *)
  sync_request : jsstring → request_outcome;
  (* argv.secure *)
  argv_secure : bool;
}.

(** ** Computations *)

Inductive result (A : Type) : Type :=
| Ok (a : A)
| Throw (e : error).
#[global] Arguments Ok {A} a.
#[global] Arguments Throw {A} e.

Definition eff (A : Type) : Type := World → result A * World.

#[global] Instance eff_ret : MRet eff := λ A a w, (Ok a, w).

#[global] Instance eff_bind : MBind eff := λ A B f m w,
  match m w with
  | (Ok a, w') => f a w'
  | (Throw e, w') => (Throw e, w')
  end.

#[global] Instance eff_throw : MThrow error eff := λ A e w, (Throw e, w).

(** Adds an event to the trace. *)
Definition emit (e : event) : eff unit :=
  λ w, (Ok (), mkWorld (files w) (trace w ++ [e])).

(** The file system as it is now. *)
Definition get_files : eff fs := λ w, (Ok (files w), w).

Definition put_files (f : fs) : eff unit :=
  λ w, (Ok (), mkWorld f (trace w)).

(** [for (let x of xs) body], where [body] updates the variables [s] of
    the enclosing function. *)
Fixpoint for_of_fold {A S} (xs : list A) (body : S → A → eff S) (s : S)
    : eff S :=
  match xs with
  | [] => mret s
  | x :: xs' => s' ← body s x; for_of_fold xs' body s'
  end.

(** [for (let x of xs) body] *)
Definition for_of {A} (xs : list A) (body : A → eff unit) : eff unit :=
  for_of_fold xs (λ _ x, body x) ().

(** Unfolds the operations of the monad. *)
Ltac eff_unfold :=
  unfold mbind, eff_bind, mret, eff_ret, mthrow, eff_throw in *.

(** The events a computation adds to the trace of [w]. *)
Definition events {A} (m : eff A) (w : World) : list event :=
  drop (length (trace w)) (trace (m w).2).

(** The commands of a trace. *)
Definition commands (evs : list event) : list jsstring :=
  omap (λ e, match e with Exec c => Some c | _ => None end) evs.

(** [quiet m]: [m] neither throws nor changes the world. *)
Definition quiet {A} (m : eff A) : Prop := ∀ w, ∃ a, m w = (Ok a, w).

(** [read_only m]: [m] leaves the world as it is, also when it throws. *)
Definition read_only {A} (m : eff A) : Prop := ∀ w, (m w).2 = w.

(** [monotone m]: [m] only adds events to the trace. *)
Definition monotone {A} (m : eff A) : Prop :=
  ∀ w, trace w `prefix_of` trace (m w).2.

(** ** Lemmas *)

Section eff.
Context {A : Type}.
Implicit Types (m : eff A) (w : World) (a : A) (err : error).

Lemma run_ret a w : (mret a : eff A) w = (Ok a, w).
Proof. done. Qed.

Lemma run_throw err w : (mthrow err : eff A) w = (Throw err, w).
Proof. done. Qed.

Lemma quiet_ret a : quiet (mret a : eff A).
Proof. intros w. by exists a. Qed.

Lemma monotone_ret a : monotone (mret a : eff A).
Proof. by intros w. Qed.

Lemma monotone_throw err : monotone (mthrow err : eff A).
Proof. by intros w. Qed.

Lemma read_only_ret a : read_only (mret a : eff A).
Proof. done. Qed.

Lemma read_only_throw err : read_only (mthrow err : eff A).
Proof. done. Qed.

Lemma read_only_monotone m : read_only m → monotone m.
Proof. intros Hm w. by rewrite Hm. Qed.

(** What a computation that reads only returns determines its run. *)
Lemma read_only_run m w : read_only m → m w = ((m w).1, w).
Proof. intros Hm. specialize (Hm w). by destruct (m w); simplify_eq/=. Qed.

Lemma quiet_monotone m : quiet m → monotone m.
Proof. intros Hm w. destruct (Hm w) as [a ->]. done. Qed.

Lemma events_quiet m w : quiet m → events m w = [].
Proof.
  intros Hm. unfold events. destruct (Hm w) as [a ->]. apply drop_all.
Qed.

(** The trace after a computation is the trace before it and its
    events. *)
Lemma trace_events m w :
  monotone m → trace (m w).2 = trace w ++ events m w.
Proof.
  intros Hm. destruct (Hm w) as [evs Hevs]. unfold events.
  by rewrite Hevs, drop_app_length.
Qed.
End eff.

Section bind.
Context {A B : Type}.
Implicit Types (m : eff A) (f : A → eff B) (w : World) (err : error).

Lemma run_bind_ok m f w a w' : m w = (Ok a, w') → (m ≫= f) w = f a w'.
Proof. unfold mbind, eff_bind. by intros ->. Qed.

Lemma run_bind_throw m f w err w' :
  m w = (Throw err, w') → (m ≫= f) w = (Throw err, w').
Proof. unfold mbind, eff_bind. by intros ->. Qed.

Lemma quiet_bind m f : quiet m → (∀ a, quiet (f a)) → quiet (m ≫= f).
Proof.
  intros Hm Hf w. destruct (Hm w) as [a Ha], (Hf a w) as [b Hb].
  exists b. by rewrite (run_bind_ok _ _ _ _ _ Ha).
Qed.

Lemma monotone_bind m f :
  monotone m → (∀ a, monotone (f a)) → monotone (m ≫= f).
Proof.
  intros Hm Hf w. specialize (Hm w). unfold mbind, eff_bind.
  destruct (m w) as [[a|err] w']; [|done].
  etrans; [done|apply Hf].
Qed.

Lemma events_bind_ok m f w a w' :
  monotone m → monotone (f a) → m w = (Ok a, w') →
  events (m ≫= f) w = events m w ++ events (f a) w'.
Proof.
  intros Hm Hf Hrun. unfold events at 1.
  rewrite (run_bind_ok _ _ _ _ _ Hrun), (trace_events (f a) w' Hf).
  pose proof (trace_events m w Hm) as Htr. rewrite Hrun in Htr.
  simpl in Htr. by rewrite Htr, <-(assoc_L (++)), drop_app_length.
Qed.

Lemma read_only_bind m f :
  read_only m → (∀ a, read_only (f a)) → read_only (m ≫= f).
Proof.
  intros Hm Hf w. specialize (Hm w). unfold mbind, eff_bind.
  destruct (m w) as [[a|err] w']; simpl in *; subst; [apply Hf|done].
Qed.

Lemma events_bind_throw m f w err w' :
  m w = (Throw err, w') → events (m ≫= f) w = events m w.
Proof.
  intros Hrun. unfold events. by rewrite (run_bind_throw _ _ _ _ _ Hrun), Hrun.
Qed.
End bind.

Section basic.
Implicit Types (w : World) (e : event) (evs : list event).

Lemma world_app_nil w : mkWorld (files w) (trace w ++ []) = w.
Proof. destruct w. by rewrite (right_id_L [] (++)). Qed.

Lemma commands_app evs evs' :
  commands (evs ++ evs') = commands evs ++ commands evs'.
Proof. apply omap_app. Qed.

Lemma monotone_emit e : monotone (emit e).
Proof. intros w. by eexists. Qed.

Lemma events_emit e w : events (emit e) w = [e].
Proof. unfold events, emit. simpl. by rewrite drop_app_length. Qed.

Lemma quiet_get_files : quiet get_files.
Proof. intros w. by eexists. Qed.

Lemma monotone_put_files f : monotone (put_files f).
Proof. by intros w. Qed.

Lemma for_of_fold_app {A S} (xs ys : list A) (body : S → A → eff S) s w :
  for_of_fold (xs ++ ys) body s w =
  (s' ← for_of_fold xs body s; for_of_fold ys body s') w.
Proof.
  revert s w. induction xs as [|x xs IH]; intros s w; simpl; [done|].
  eff_unfold. destruct (body s x w) as [[s'|err] w']; [apply IH|done].
Qed.

Lemma monotone_for_of_fold {A S} (xs : list A) (body : S → A → eff S) s :
  (∀ s x, x ∈ xs → monotone (body s x)) → monotone (for_of_fold xs body s).
Proof.
  revert s. induction xs as [|x xs IH]; intros s Hbody; simpl;
    [apply monotone_ret|].
  apply monotone_bind; [apply Hbody; left|]. intros s'. apply IH.
  intros s'' y Hy. apply Hbody. by right.
Qed.

Lemma monotone_for_of {A} (xs : list A) body :
  (∀ x, x ∈ xs → monotone (body x)) → monotone (for_of xs body).
Proof. intros Hbody. apply monotone_for_of_fold. intros _. apply Hbody. Qed.

(** A loop whose iterations neither throw nor change the world is a left
    fold. *)
Lemma for_of_fold_pure {A S} (xs : list A) (body : S → A → eff S)
    (step : S → A → S) s w :
  (∀ s x, x ∈ xs → body s x w = (Ok (step s x), w)) →
  for_of_fold xs body s w = (Ok (foldl step s xs), w).
Proof.
  revert s. induction xs as [|x xs IH]; intros s Hbody; simpl; [done|].
  rewrite (run_bind_ok _ _ _ _ _ (Hbody s x ltac:(left))).
  apply IH. intros s' y Hy. apply Hbody. by right.
Qed.

End basic.

(** Proves [monotone m] for a computation built from the operations of
    the monad, conditionals and computations with a hint in [jsdb]. *)
Ltac solve_monotone :=
  repeat first
    [ progress intros
    | solve [eauto with jsdb]
    | match goal with
      | |- monotone (if ?b then _ else _) => destruct b
      | |- monotone (match ?x with _ => _ end) => destruct x
      end
    | apply monotone_bind
    | apply monotone_for_of | apply monotone_for_of_fold ].

(** Runs the first computation of a sequence with its equation [lem]. *)
Tactic Notation "eff_run" uconstr(lem) :=
  first [ rewrite (run_bind_ok _ _ _ _ _ lem)
        | rewrite (run_bind_throw _ _ _ _ _ lem)
        | rewrite lem ].

#[export] Hint Resolve monotone_ret monotone_throw monotone_emit
  monotone_put_files quiet_ret quiet_get_files quiet_monotone : jsdb.

(** ** An environment and a world for the examples *)

(** A text between double quotes. *)
Definition quote_text (s : string) : jsstring := 34%N :: js s ++ [34%N].

(** The text of a manifest with one dependency, [lodash]. *)
Definition example_manifest : jsstring :=
  js "{" ++ quote_text "dependencies" ++ js ":{" ++ quote_text "lodash" ++
  js ":" ++ quote_text "*" ++ js "}}".

Definition example_content : json :=
  JObject [(js "dependencies", JObject [(js "lodash", JString (js "*"))])].

(** One source file, commands that succeed and change no file, a
    registry that answers. *)
Definition example_env (secure : bool) : Env := {|
  env_builtins := node_builtins;
  glob_sync fsys := [js "index.js"];
  sync_exec command fsys := (0%Z, fsys);
  sync_request url := RequestReturns;
  argv_secure := secure;
|}.

(** The world with source text [source] and manifest text [manifest]. *)
Definition example_world (source manifest : jsstring) : World :=
  mkWorld {[ js "index.js" := source; js "package.json" := manifest ]} [].
