(* ===== verification/Json.v ===== *)
(** * JSON texts

    [JSON.parse] of the language, for the texts the program reads: the
    manifest and the body of a response.  A text is a list of code
    units; its grammar is the one of ECMA-404, with the four white-space
    characters of JSON around every token.

    - [read_string], [read_number]: the literals.  A number keeps the
      decimal that the text wrote.
    - [define_property]: what the definition of a property does to an
      object.  A key that the object has keeps its place and takes the
      new value; a new key that is an array index goes among the
      indices, in ascending order; any other new key goes last.  This is
      the order in which [for in] visits the keys.
    - [read_value], [read_elements], [read_members]: the values, by
      recursive descent.  The three functions take fuel, one unit for
      every value and every list of elements or members; [JSON_parse]
      gives them twice the length of the text, which is enough
      ([JsonSpec.v]).
    - [print_at]: a printer of values with a layout, the reference of
      the round trip; [print] writes no white space, [print_indented]
      writes as [npm] does. *)

From Stdlib Require Import Decimal.
From S2P Require Import Prelude World.

#[local] Open Scope N_scope.

(** ** String literals *)

(** The hexadecimal digit of a number below 16, in lower case. *)
Definition hex_digit (n : N) : N := if n <? 10 then 48 + n else 87 + n.

(** The value of a hexadecimal digit. *)
Definition hex_value (c : N) : option N :=
  if (48 <=? c) && (c <=? 57) then Some (c - 48)
  else if (97 <=? c) && (c <=? 102) then Some (c - 87)
  else if (65 <=? c) && (c <=? 70) then Some (c - 55)
  else None.

(** A code unit inside a literal. *)
Definition escape (c : N) : jsstring :=
  if c =? 34 then [92; 34]
  else if c =? 92 then [92; 92]
  else if c <? 32 then
    [92; 117; 48; 48; hex_digit (c / 16); hex_digit (c mod 16)]
  else [c].

(** The literal of a string. *)
Definition quote (s : jsstring) : jsstring := 34 :: (s ≫= escape) ++ [34].

(** The code unit of the escape [\e], for the escapes of one character. *)
Definition simple_escape (e : N) : option N :=
  if e =? 34 then Some 34
  else if e =? 92 then Some 92
  else if e =? 47 then Some 47
  else if e =? 98 then Some 8
  else if e =? 102 then Some 12
  else if e =? 110 then Some 10
  else if e =? 114 then Some 13
  else if e =? 116 then Some 9
  else None.

(** The code unit of four hexadecimal digits. *)
Definition hex4 (h1 h2 h3 h4 : N) : option N :=
  v1 ← hex_value h1; v2 ← hex_value h2;
  v3 ← hex_value h3; v4 ← hex_value h4;
  Some (((v1 * 16 + v2) * 16 + v3) * 16 + v4).

(** [read_string s]: the string of the literal whose opening quote has
    been read, and what follows its closing quote. *)
Fixpoint read_string (s : jsstring) : option (jsstring * jsstring) :=
  match s with
  | [] => None
  | c :: rest =>
      if c =? 34 then Some ([], rest)
      else if c =? 92 then
        match rest with
        | [] => None
        | e :: rest' =>
            if e =? 117 then
              match rest' with
              | h1 :: h2 :: h3 :: h4 :: rest'' =>
                  u ← hex4 h1 h2 h3 h4;
                  prod_map (cons u) id <$> read_string rest''
              | _ => None
              end
            else
              u ← simple_escape e;
              prod_map (cons u) id <$> read_string rest'
        end
      else if c <? 32 then None
      else prod_map (cons c) id <$> read_string rest
  end.

(** ** Numbers *)

(** The digit that a code unit writes. *)
Definition digit (c : N) : option (uint → uint) :=
  if c =? 48 then Some D0 else if c =? 49 then Some D1
  else if c =? 50 then Some D2 else if c =? 51 then Some D3
  else if c =? 52 then Some D4 else if c =? 53 then Some D5
  else if c =? 54 then Some D6 else if c =? 55 then Some D7
  else if c =? 56 then Some D8 else if c =? 57 then Some D9
  else None.

(** The digits that [s] starts with, and what follows them. *)
Fixpoint read_digits (s : jsstring) : uint * jsstring :=
  match s with
  | [] => (Nil, [])
  | c :: s' =>
      match digit c with
      | Some d => let '(u, rest) := read_digits s' in (d u, rest)
      | None => (Nil, s)
      end
  end.

(** The text of a decimal. *)
Fixpoint uint_text (u : uint) : jsstring :=
  match u with
  | Nil => []
  | D0 u => 48 :: uint_text u | D1 u => 49 :: uint_text u
  | D2 u => 50 :: uint_text u | D3 u => 51 :: uint_text u
  | D4 u => 52 :: uint_text u | D5 u => 53 :: uint_text u
  | D6 u => 54 :: uint_text u | D7 u => 55 :: uint_text u
  | D8 u => 56 :: uint_text u | D9 u => 57 :: uint_text u
  end.

(** One or more digits. *)
Definition read_digits1 (s : jsstring) : option (uint * jsstring) :=
  match read_digits s with
  | (Nil, _) => None
  | (u, rest) => Some (u, rest)
  end.

(** The integer part: [0], or digits that do not start with [0]. *)
Definition read_int (s : jsstring) : option (uint * jsstring) :=
  match s with
  | c :: s' => if c =? 48 then Some (D0 Nil, s') else read_digits1 s
  | [] => None
  end.

(** The fraction, when there is one: [.] and digits. *)
Definition read_fraction (s : jsstring) : option (uint * jsstring) :=
  match s with
  | c :: s' => if c =? 46 then read_digits1 s' else Some (Nil, s)
  | [] => Some (Nil, s)
  end.

(** A sign, when there is one; [plus] says whether [+] is one. *)
Definition read_sign (plus : bool) (s : jsstring) : bool * jsstring :=
  match s with
  | c :: s' =>
      if c =? 45 then (true, s')
      else if plus && (c =? 43) then (false, s')
      else (false, s)
  | [] => (false, s)
  end.

Definition signed (negative : bool) (n : N) : Z :=
  if negative then (- Z.of_N n)%Z else Z.of_N n.

(** The exponent, when there is one: [e] or [E], a sign, digits. *)
Definition read_exponent (s : jsstring) : option (Z * jsstring) :=
  match s with
  | c :: s' =>
      if (c =? 101) || (c =? 69) then
        let '(negative, s1) := read_sign true s' in
        '(u, s2) ← read_digits1 s1;
        Some (signed negative (N.of_uint u), s2)
      else Some (0%Z, s)
  | [] => Some (0%Z, s)
  end.

(** A number: the decimal [m × 10 ^ e] of its text. *)
Definition read_number (s : jsstring) : option (Z * Z * jsstring) :=
  let '(negative, s1) := read_sign false s in
  '(int, s2) ← read_int s1;
  '(frac, s3) ← read_fraction s2;
  '(exp, s4) ← read_exponent s3;
  Some (signed negative (N.of_uint (Decimal.app int frac)),
        (exp - Z.of_nat (Decimal.nb_digits frac))%Z, s4).

(** ** Objects *)

(** The index of a key that is an array index: the decimal text of a
    number below [2 ^ 32 - 1]. *)
Definition array_index (k : jsstring) : option N :=
  let i := N.of_uint (read_digits k).1 in
  if bool_decide (uint_text (N.to_uint i) = k) && (i <? 4294967295)
  then Some i else None.

(** [props] with [v] as the value of its key [k]. *)
Fixpoint set_value (k : jsstring) (v : json) (props : list (jsstring * json))
    : list (jsstring * json) :=
  match props with
  | [] => []
  | (k', v') :: props' =>
      if bool_decide (k' = k) then (k, v) :: props'
      else (k', v') :: set_value k v props'
  end.

(** [props] with the new key [k], of index [i], after the indices below
    [i]. *)
Fixpoint insert_index (i : N) (k : jsstring) (v : json)
    (props : list (jsstring * json)) : list (jsstring * json) :=
  match props with
  | [] => [(k, v)]
  | (k', v') :: props' =>
      match array_index k' with
      | Some j =>
          if j <? i then (k', v') :: insert_index i k v props'
          else (k, v) :: props
      | None => (k, v) :: props
      end
  end.

(** The properties of an object after the definition of [k] with value
    [v]. *)
Definition define_property (k : jsstring) (v : json)
    (props : list (jsstring * json)) : list (jsstring * json) :=
  if bool_decide (k ∈ props.*1) then set_value k v props
  else
    match array_index k with
    | Some i => insert_index i k v props
    | None => props ++ [(k, v)]
    end.

(** The properties of the object of a list of members. *)
Definition define_all (members : list (jsstring * json))
    : list (jsstring * json) :=
  foldl (λ props kv, define_property kv.1 kv.2 props) [] members.

(** ** Values *)

(** The white space of JSON: space, tab, line feed, carriage return. *)
Definition is_ws (c : N) : bool :=
  (c =? 32) || (c =? 9) || (c =? 10) || (c =? 13).

Fixpoint skip_ws (s : jsstring) : jsstring :=
  match s with
  | c :: s' => if is_ws c then skip_ws s' else s
  | [] => []
  end.

(** What follows [p] in [s], when [s] starts with [p]. *)
Fixpoint strip_prefix (p s : jsstring) : option jsstring :=
  match p, s with
  | [], _ => Some s
  | c :: p', d :: s' => if c =? d then strip_prefix p' s' else None
  | _ :: _, [] => None
  end.

(** What follows the token [c], when it is next in [s]. *)
Definition token (c : N) (s : jsstring) : option jsstring :=
  match skip_ws s with
  | c' :: s' => if c' =? c then Some s' else None
  | [] => None
  end.

Fixpoint read_value (fuel : nat) (s : jsstring) : option (json * jsstring) :=
  match fuel with
  | O => None
  | S fuel' =>
      match skip_ws s with
      | [] => None
      | c :: s1 =>
          if c =? 123 then
            match token 125 s1 with
            | Some s2 => Some (JObject [], s2)
            | None =>
                '(members, s2) ← read_members fuel' s1;
                Some (JObject (define_all members), s2)
            end
          else if c =? 91 then
            match token 93 s1 with
            | Some s2 => Some (JArray [], s2)
            | None =>
                '(xs, s2) ← read_elements fuel' s1;
                Some (JArray xs, s2)
            end
          else if c =? 34 then
            '(str, s2) ← read_string s1; Some (JString str, s2)
          else if c =? 110 then
            s2 ← strip_prefix (js "ull") s1; Some (JNull, s2)
          else if c =? 116 then
            s2 ← strip_prefix (js "rue") s1; Some (JBool true, s2)
          else if c =? 102 then
            s2 ← strip_prefix (js "alse") s1; Some (JBool false, s2)
          else
            '(m, e, s2) ← read_number (c :: s1); Some (JNumber m e, s2)
      end
  end
with read_elements (fuel : nat) (s : jsstring)
    : option (list json * jsstring) :=
  match fuel with
  | O => None
  | S fuel' =>
      '(v, s1) ← read_value fuel' s;
      match token 44 s1 with
      | Some s2 =>
          '(xs, s3) ← read_elements fuel' s2; Some (v :: xs, s3)
      | None => s2 ← token 93 s1; Some ([v], s2)
      end
  end
with read_members (fuel : nat) (s : jsstring)
    : option (list (jsstring * json) * jsstring) :=
  match fuel with
  | O => None
  | S fuel' =>
      s1 ← token 34 s;
      '(k, s2) ← read_string s1;
      s3 ← token 58 s2;
      '(v, s4) ← read_value fuel' s3;
      match token 44 s4 with
      | Some s5 =>
          '(members, s6) ← read_members fuel' s5;
          Some ((k, v) :: members, s6)
      | None => s5 ← token 125 s4; Some ([(k, v)], s5)
      end
  end.

(** The fuel for a text of [n] code units. *)
Definition fuel_for (n : nat) : nat := 2 * n + 1.

(** [JSON.parse(text)]; [None] when it throws a [SyntaxError]. *)
Definition JSON_parse (text : jsstring) : option json :=
  '(v, rest) ← read_value (fuel_for (length text)) text;
  match skip_ws rest with
  | [] => Some v
  | _ :: _ => None
  end.

(** ** The printer *)

(** The texts [ts], separated by [sep]. *)
Fixpoint join (sep : jsstring) (ts : list jsstring) : jsstring :=
  match ts with
  | [] => []
  | [t] => t
  | t :: ts' => t ++ sep ++ join sep ts'
  end.

Definition int_text (z : Z) : jsstring :=
  (if (z <? 0)%Z then [45] else []) ++ uint_text (N.to_uint (Z.abs_N z)).

Section layout.
(** The white space after an opening bracket or a comma and before a
    closing bracket, at a depth of nesting; the white space after a
    colon. *)
Context (gap : nat → jsstring) (colon : jsstring).

(** The texts [ts] between the brackets [o] and [c], at depth [d]. *)
Definition bracket (o c : N) (d : nat) (ts : list jsstring) : jsstring :=
  match ts with
  | [] => [o; c]
  | _ :: _ => o :: gap (S d) ++ join (44 :: gap (S d)) ts ++ gap d ++ [c]
  end.

Definition member_text (k t : jsstring) : jsstring :=
  quote k ++ 58 :: colon ++ t.

Fixpoint print_at (d : nat) (v : json) : jsstring :=
  match v with
  | JNull => js "null"
  | JBool b => if b then js "true" else js "false"
  | JNumber m e => int_text m ++ 101 :: int_text e
  | JString s => quote s
  | JArray xs => bracket 91 93 d (print_at (S d) <$> xs)
  | JObject props =>
      bracket 123 125 d
        ((λ kv, member_text kv.1 (print_at (S d) kv.2)) <$> props)
  end.
End layout.

(** The text without white space. *)
Definition print : json → jsstring := print_at (λ _, []) [] 0.

(** The text on several lines, two spaces deeper at every level: the
    layout of a manifest that [npm] wrote. *)
Definition print_indented : json → jsstring :=
  print_at (λ d, 10 :: replicate (2 * d) 32) [32] 0.

#[local] Close Scope N_scope.

(** ** Lemmas *)

Section strings.
Implicit Types (c : N) (s rest p : jsstring).

(** The two digits of a control character give it back. *)
Lemma hex4_control c :
  (c < 32)%N → hex4 48 48 (hex_digit (c / 16)) (hex_digit (c mod 16)) = Some c.
Proof.
  intros Hc. assert (∃ i, (i < 32)%nat ∧ c = N.of_nat i) as (i & Hi & ->).
  { exists (N.to_nat c). split; lia. }
  do 32 (destruct i as [|i]; [vm_compute; reflexivity|]). lia.
Qed.

(** Reading an escaped code unit. *)
Lemma read_string_escape c rest :
  read_string (escape c ++ rest) = prod_map (cons c) id <$> read_string rest.
Proof.
  unfold escape.
  destruct (N.eqb_spec c 34) as [->|H34]; [done|].
  destruct (N.eqb_spec c 92) as [->|H92]; [done|].
  destruct (N.ltb_spec c 32) as [H32|H32].
  - cbn [app read_string]. change (92 =? 34)%N with false.
    change (92 =? 92)%N with true. change (117 =? 117)%N with true.
    cbv iota. by rewrite hex4_control.
  - cbn [app read_string].
    rewrite (proj2 (N.eqb_neq _ _) H34), (proj2 (N.eqb_neq _ _) H92).
    by rewrite (proj2 (N.ltb_ge _ _) H32).
Qed.

Lemma read_string_body s rest :
  read_string ((s ≫= escape) ++ 34%N :: rest) = Some (s, rest).
Proof.
  induction s as [|c s IH]; [done|].
  by rewrite bind_cons, <-(assoc_L (++)), read_string_escape, IH.
Qed.
End strings.

(** ** Examples *)

(** The escapes of a name that holds a quote, a backslash and a line
    feed. *)
Example quote_example :
  quote [97; 34; 92; 10]%N =
  [34; 97; 92; 34; 92; 92; 92; 117; 48; 48; 48; 97; 34]%N.
Proof. reflexivity. Qed.

Example read_string_escapes :
  read_string [104; 92; 110; 92; 117; 48; 48; 52; 49; 34; 125]%N =
  Some ([104; 10; 65]%N, [125]%N).
Proof. reflexivity. Qed.
