(* ===== verification/JsonSpec.v ===== *)
(** * The parser of JSON texts: termination and the shape of its results

    - What a reader leaves of its input is shorter than the input
      ([read_value_shorter]); from this, the fuel that [JSON_parse]
      gives is enough: more fuel gives the same result
      ([read_value_fuel]).
    - [define_property] keeps the keys of an object in the order of
      [for in]: no key twice, the array indices first and in ascending
      order ([ordered]).  Every value that the parser returns is built of
      such objects ([well_formed]). *)

From Stdlib Require Import Decimal.
From stdpp Require Import sorting.
From S2P Require Import Prelude World Json.

(** ** What a reader leaves *)

(** The rest of a result is shorter than [s]. *)
Definition shorter {A} (s : jsstring) (r : option (A * jsstring)) : Prop :=
  match r with
  | Some (_, rest) => length rest < length s
  | None => True
  end.

Section readers.
Implicit Types (s rest k p : jsstring) (c : N) (u : uint).

Lemma skip_ws_cons s c rest :
  skip_ws s = c :: rest → length rest < length s ∧ is_ws c = false.
Proof.
  induction s as [|c' s IH]; simpl; [done|]. destruct (is_ws c') eqn:Hc'.
  - intros [??]%IH. split; [lia|done].
  - intros [= -> ->]. split; [lia|done].
Qed.

Lemma token_length c s rest : token c s = Some rest → length rest < length s.
Proof.
  unfold token. destruct (skip_ws s) as [|c' s'] eqn:Hs; [done|].
  apply skip_ws_cons in Hs as [? _]. case_match; naive_solver.
Qed.

Lemma strip_prefix_length p s rest :
  strip_prefix p s = Some rest → length rest ≤ length s.
Proof.
  revert s. induction p as [|c p IH]; intros [|d s]; simpl; try naive_solver.
  case_match; [|done]. intros ?%IH. lia.
Qed.

Lemma read_string_shorter s : shorter s (read_string s).
Proof.
  induction s as [s IH] using length_ind. destruct s as [|c s]; [done|].
  cbn [read_string].
  repeat (case_match; try done); simplify_eq/=.
  all: repeat match goal with
    | |- context [read_string ?t] =>
        let H := fresh in
        assert (shorter t (read_string t)) as H by (apply IH; simpl; lia);
        destruct (read_string t) as [[??]|]; simpl in *
    end; try done.
  all: repeat (match goal with
               | |- context [mbind _ ?x] => destruct x as [?|]
               end; simpl);
    try done; simpl in *; lia.
Qed.

(** *** Numbers *)

Lemma digit_nb c d u : digit c = Some d → nb_digits (d u) = S (nb_digits u).
Proof. unfold digit. repeat case_match; naive_solver. Qed.

Lemma read_digits_nb s :
  length (read_digits s).2 + nb_digits (read_digits s).1 = length s.
Proof.
  induction s as [|c s IH]; [done|]. cbn [read_digits].
  destruct (digit c) as [d|] eqn:Hd; [|simpl; lia].
  destruct (read_digits s) as [u rest]. cbn [fst snd] in *.
  rewrite (digit_nb _ _ _ Hd). simpl. lia.
Qed.

Lemma read_digits1_shorter s : shorter s (read_digits1 s).
Proof.
  unfold read_digits1. pose proof (read_digits_nb s) as Hs.
  destruct (read_digits s) as [[] rest]; simpl in *; lia.
Qed.

Lemma read_sign_length plus s : length (read_sign plus s).2 ≤ length s.
Proof. unfold read_sign. repeat case_match; simpl; lia. Qed.

Lemma read_int_shorter s : shorter s (read_int s).
Proof.
  destruct s as [|c s]; [done|]. cbn [read_int]. case_match; [simpl; lia|].
  apply read_digits1_shorter.
Qed.

Lemma read_fraction_length s u rest :
  read_fraction s = Some (u, rest) → length rest ≤ length s.
Proof.
  destruct s as [|c s]; cbn [read_fraction]; [naive_solver|].
  pose proof (read_digits1_shorter s). case_match; [|naive_solver].
  intros Heq. rewrite Heq in *. simpl in *. lia.
Qed.

Lemma read_exponent_length s z rest :
  read_exponent s = Some (z, rest) → length rest ≤ length s.
Proof.
  destruct s as [|c s]; cbn [read_exponent]; [naive_solver|].
  case_match; [|naive_solver].
  pose proof (read_sign_length true s) as Hsign.
  destruct (read_sign true s) as [negative s1].
  pose proof (read_digits1_shorter s1) as Hs1.
  destruct (read_digits1 s1) as [[u s2]|]; [|done].
  simpl in *. intros [= _ <-]. lia.
Qed.

Lemma read_number_shorter s : shorter s (read_number s).
Proof.
  unfold read_number. pose proof (read_sign_length false s) as Hsign.
  destruct (read_sign false s) as [negative s1].
  pose proof (read_int_shorter s1) as Hint.
  destruct (read_int s1) as [[int s2]|]; [|done]. cbn [mbind option_bind].
  destruct (read_fraction s2) as [[frac s3]|] eqn:Hfrac; [|done].
  apply read_fraction_length in Hfrac. cbn [mbind option_bind].
  destruct (read_exponent s3) as [[exp s4]|] eqn:Hexp; [|done].
  apply read_exponent_length in Hexp. simpl in *. lia.
Qed.

(** Uses what is known of the readers that the goal runs. *)
Ltac reader_step IHv IHe IHm :=
  match goal with
  | |- context [token ?c ?s] =>
      let H := fresh in
      destruct (token c s) eqn:H; [apply token_length in H|]
  | |- context [strip_prefix ?p ?s] =>
      let H := fresh in
      destruct (strip_prefix p s) eqn:H; [apply strip_prefix_length in H|]
  | |- context [read_string ?s] =>
      pose proof (read_string_shorter s); destruct (read_string s) as [[??]|]
  | |- context [read_number ?s] =>
      pose proof (read_number_shorter s);
      destruct (read_number s) as [[[??]?]|]
  | |- context [read_value ?f ?s] =>
      pose proof (IHv f s); destruct (read_value f s) as [[??]|]
  | |- context [read_elements ?f ?s] =>
      pose proof (IHe f s); destruct (read_elements f s) as [[??]|]
  | |- context [read_members ?f ?s] =>
      pose proof (IHm f s); destruct (read_members f s) as [[??]|]
  end; cbn [mbind option_bind shorter] in *.

Lemma readers_shorter f :
  (∀ s, shorter s (read_value f s)) ∧
  (∀ s, shorter s (read_elements f s)) ∧
  (∀ s, shorter s (read_members f s)).
Proof.
  induction f as [|f (IHv & IHe & IHm)]; [done|]. split_and!; intros s.
  - cbn [read_value]. destruct (skip_ws s) as [|c s1] eqn:Hs; [done|].
    apply skip_ws_cons in Hs as [Hs _].
    repeat first [reader_step (λ _ : nat, IHv) (λ _ : nat, IHe)
                    (λ _ : nat, IHm) | case_match]; simpl in *;
      try done; lia.
  - cbn [read_elements].
    repeat reader_step (λ _ : nat, IHv) (λ _ : nat, IHe) (λ _ : nat, IHm);
      simpl in *; try done; lia.
  - cbn [read_members].
    repeat reader_step (λ _ : nat, IHv) (λ _ : nat, IHe) (λ _ : nat, IHm);
      simpl in *; try done; lia.
Qed.

Lemma read_value_shorter f s : shorter s (read_value f s).
Proof. apply readers_shorter. Qed.

Lemma read_elements_shorter f s : shorter s (read_elements f s).
Proof. apply readers_shorter. Qed.

Lemma read_members_shorter f s : shorter s (read_members f s).
Proof. apply readers_shorter. Qed.

Ltac reader_facts :=
  reader_step read_value_shorter read_elements_shorter read_members_shorter.

(** ** Fuel *)

Lemma readers_fuel_S f :
  (∀ s, 2 * length s + 1 ≤ f → read_value (S f) s = read_value f s) ∧
  (∀ s, 2 * length s + 2 ≤ f → read_elements (S f) s = read_elements f s) ∧
  (∀ s, 2 * length s + 2 ≤ f → read_members (S f) s = read_members f s).
Proof.
  induction f as [|f (IHv & IHe & IHm)]; [split_and!; intros; lia|].
  split_and!; intros s Hf; set (g := S f) at 1;
    cbn [read_value read_elements read_members]; subst g;
    [destruct (skip_ws s) as [|c s1] eqn:Hs; [done|];
     apply skip_ws_cons in Hs as [Hs _]|..];
    repeat first [rewrite IHv by lia | rewrite IHe by lia | rewrite IHm by lia
                 | reader_facts | case_match]; done.
Qed.
End readers.

(** More fuel gives the same result. *)
Lemma read_value_fuel f s :
  fuel_for (length s) ≤ f → read_value f s = read_value (fuel_for (length s)) s.
Proof.
  unfold fuel_for. induction 1 as [|f Hle IH]; [done|].
  by rewrite (proj1 (readers_fuel_S f)) by lia.
Qed.

(** ** What a reader leaves is the end of its input *)

Section suffix.
Implicit Types (s rest p : jsstring) (c : N).

Lemma skip_ws_suffix s : skip_ws s `suffix_of` s.
Proof.
  induction s as [|c s IH]; [done|]. cbn [skip_ws].
  case_match; [by apply suffix_cons_r|done].
Qed.

Lemma token_suffix c s rest : token c s = Some rest → rest `suffix_of` s.
Proof.
  unfold token. pose proof (skip_ws_suffix s) as Hs.
  destruct (skip_ws s) as [|c' s']; [done|]. case_match; [|done].
  intros [= <-]. etrans; [|done]. by apply suffix_cons_r.
Qed.

Lemma strip_prefix_suffix p s rest :
  strip_prefix p s = Some rest → rest `suffix_of` s.
Proof.
  revert s. induction p as [|c p IH]; intros [|d s]; cbn [strip_prefix];
    try naive_solver.
  case_match; [|done]. intros ?%IH. by apply suffix_cons_r.
Qed.

Lemma read_digits_suffix s : (read_digits s).2 `suffix_of` s.
Proof.
  induction s as [|c s IH]; [done|]. cbn [read_digits].
  destruct (digit c); [|done]. destruct (read_digits s).
  by apply suffix_cons_r.
Qed.

Lemma read_digits1_suffix s u rest :
  read_digits1 s = Some (u, rest) → rest `suffix_of` s.
Proof.
  unfold read_digits1. pose proof (read_digits_suffix s).
  destruct (read_digits s) as [[] ?]; naive_solver.
Qed.

Lemma read_sign_suffix plus s : (read_sign plus s).2 `suffix_of` s.
Proof.
  unfold read_sign. repeat case_match; try done; by apply suffix_cons_r.
Qed.

Lemma read_int_suffix s u rest :
  read_int s = Some (u, rest) → rest `suffix_of` s.
Proof.
  destruct s as [|c s]; [done|]. cbn [read_int]. case_match.
  - intros [= _ <-]. by apply suffix_cons_r.
  - apply read_digits1_suffix.
Qed.

Lemma read_fraction_suffix s u rest :
  read_fraction s = Some (u, rest) → rest `suffix_of` s.
Proof.
  destruct s as [|c s]; cbn [read_fraction]; [naive_solver|].
  case_match; [|naive_solver].
  intros ?%read_digits1_suffix. by apply suffix_cons_r.
Qed.

Lemma read_exponent_suffix s z rest :
  read_exponent s = Some (z, rest) → rest `suffix_of` s.
Proof.
  destruct s as [|c s]; cbn [read_exponent]; [naive_solver|].
  case_match; [|naive_solver]. pose proof (read_sign_suffix true s).
  destruct (read_sign true s) as [negative s1].
  destruct (read_digits1 s1) as [[u s2]|] eqn:Hs1; [|done].
  apply read_digits1_suffix in Hs1. intros [= _ <-].
  apply suffix_cons_r. by etrans.
Qed.

Lemma read_number_suffix s m e rest :
  read_number s = Some (m, e, rest) → rest `suffix_of` s.
Proof.
  unfold read_number. pose proof (read_sign_suffix false s).
  destruct (read_sign false s) as [negative s1].
  destruct (read_int s1) as [[int s2]|] eqn:Hint; [|done].
  cbn [mbind option_bind].
  destruct (read_fraction s2) as [[frac s3]|] eqn:Hfrac; [|done].
  cbn [mbind option_bind].
  destruct (read_exponent s3) as [[exp s4]|] eqn:Hexp; [|done].
  apply read_int_suffix in Hint. apply read_fraction_suffix in Hfrac.
  apply read_exponent_suffix in Hexp. intros [= _ _ <-].
  by repeat (etrans; [eassumption|]).
Qed.
End suffix.

(** ** The order of the keys *)

(** [k1] comes before [k2] in an object: the two keys differ, an array
    index comes before a key that is none, and two indices come in
    ascending order. *)
Definition key_order (k1 k2 : jsstring) : Prop :=
  k1 ≠ k2 ∧
  match array_index k1, array_index k2 with
  | Some i, Some j => (i < j)%N
  | None, Some _ => False
  | _, None => True
  end.

#[global] Instance key_order_dec k1 k2 : Decision (key_order k1 k2).
Proof.
  unfold key_order. destruct (array_index k1), (array_index k2); apply _.
Defined.

(** The properties of an object are in the order of [for in]. *)
Definition ordered (props : list (jsstring * json)) : Prop :=
  StronglySorted key_order props.*1.

Section order.
Implicit Types (k : jsstring) (v : json) (props : list (jsstring * json))
  (i j : N).

Lemma array_index_Some k i :
  array_index k = Some i → k = uint_text (N.to_uint i).
Proof.
  unfold array_index. case_match; [|done]. intros [= <-].
  by destruct (andb_prop _ _ ltac:(eassumption)) as [?%bool_decide_eq_true _].
Qed.

Lemma array_index_inj k1 k2 i :
  array_index k1 = Some i → array_index k2 = Some i → k1 = k2.
Proof. by intros ->%array_index_Some ->%array_index_Some. Qed.

Lemma key_order_index k1 k2 i j :
  array_index k1 = Some i → array_index k2 = Some j →
  key_order k1 k2 ↔ (i < j)%N.
Proof.
  intros H1 H2. unfold key_order. rewrite H1, H2. split; [naive_solver|].
  intros Hlt. split; [|done]. intros ->. simplify_eq. lia.
Qed.

Lemma key_order_last k1 k2 :
  array_index k2 = None → key_order k1 k2 ↔ k1 ≠ k2.
Proof.
  intros H2. unfold key_order. rewrite H2.
  destruct (array_index k1); naive_solver.
Qed.

Lemma keys_set_value k v props : (set_value k v props).*1 = props.*1.
Proof.
  induction props as [|[k' v'] props IH]; [done|]. cbn [set_value].
  case_bool_decide; simplify_eq/=; [done|by rewrite IH].
Qed.

Lemma elem_of_keys_insert_index i k v props x :
  x ∈ (insert_index i k v props).*1 ↔ x = k ∨ x ∈ props.*1.
Proof.
  induction props as [|[k' v'] props IH]; cbn [insert_index].
  - set_solver.
  - repeat case_match; cbn [fmap list_fmap fst] in *; set_solver.
Qed.

Lemma ordered_insert_index i k v props :
  array_index k = Some i → k ∉ props.*1 →
  ordered props → ordered (insert_index i k v props).
Proof.
  intros Hk. unfold ordered.
  induction props as [|[k' v'] props IH]; cbn [insert_index fmap list_fmap fst];
    intros Hnotin Hord.
  { repeat constructor. }
  apply not_elem_of_cons in Hnotin as [Hne Hnotin].
  apply StronglySorted_inv in Hord as [Hord Hall].
  assert (∀ x, x ∈ props.*1 → key_order k' x → k ≠ x) as Hfresh by set_solver.
  destruct (array_index k') as [j|] eqn:Hk'; [destruct (N.ltb_spec j i)|].
  - constructor; [by apply IH|]. apply Forall_forall.
    intros x [->|Hx]%elem_of_keys_insert_index.
    + by apply (key_order_index _ _ j i).
    + by eapply Forall_forall in Hall.
  - cbn [fmap list_fmap fst]. constructor; [by constructor|].
    assert (key_order k k') as Hkk'.
    { apply (key_order_index _ _ i j); [done..|].
      assert (i ≠ j) by (intros ->; by eapply Hne, array_index_inj). lia. }
    constructor; [done|]. apply Forall_forall. intros x Hx.
    pose proof (proj1 (Forall_forall _ _) Hall x Hx) as Hkx.
    pose proof Hkx as [_ Hx']. split; [by apply Hfresh|].
    rewrite Hk' in Hx'. rewrite Hk.
    destruct (array_index x); [lia|done].
  - cbn [fmap list_fmap fst]. constructor; [by constructor|].
    constructor; [by apply (key_order_last k k')|]. apply Forall_forall.
    intros x Hx.
    pose proof (proj1 (Forall_forall _ _) Hall x Hx) as Hkx.
    pose proof Hkx as [_ Hx']. rewrite Hk' in Hx'.
    destruct (array_index x) eqn:?; [done|].
    apply key_order_last; [done|]. by apply Hfresh.
Qed.

Lemma ordered_snoc k v props :
  array_index k = None → k ∉ props.*1 →
  ordered props → ordered (props ++ [(k, v)]).
Proof.
  intros Hk Hnotin Hord. unfold ordered. rewrite fmap_app.
  apply StronglySorted_app_2; [|done|repeat constructor].
  intros x ? Hx ->%list_elem_of_singleton. apply key_order_last; [done|].
  by intros ->.
Qed.

Lemma ordered_define_property k v props :
  ordered props → ordered (define_property k v props).
Proof.
  intros Hord. unfold define_property. case_bool_decide.
  - unfold ordered. by rewrite keys_set_value.
  - destruct (array_index k) eqn:?;
      [by apply ordered_insert_index|by apply ordered_snoc].
Qed.

(** The keys after a definition are the keys before it and the new
    one. *)
Lemma elem_of_keys_define_property k v props x :
  x ∈ (define_property k v props).*1 ↔ x = k ∨ x ∈ props.*1.
Proof.
  unfold define_property. case_bool_decide.
  - rewrite keys_set_value. set_solver.
  - destruct (array_index k); [apply elem_of_keys_insert_index|].
    rewrite fmap_app. set_solver.
Qed.

Lemma define_all_snoc members k v :
  define_all (members ++ [(k, v)]) = define_property k v (define_all members).
Proof. unfold define_all. by rewrite foldl_app. Qed.

Lemma ordered_define_all members : ordered (define_all members).
Proof.
  induction members as [|[k v] members IH] using rev_ind; [constructor|].
  rewrite define_all_snoc. by apply ordered_define_property.
Qed.

Lemma elem_of_keys_define_all members x :
  x ∈ (define_all members).*1 ↔ x ∈ members.*1.
Proof.
  induction members as [|[k v] members IH] using rev_ind; [done|].
  rewrite define_all_snoc, elem_of_keys_define_property, fmap_app. set_solver.
Qed.

Lemma ordered_NoDup props : ordered props → NoDup props.*1.
Proof.
  unfold ordered. induction 1 as [|k keys _ IH Hall]; constructor; [|done].
  intros Hk. by destruct (proj1 (Forall_forall _ _) Hall k Hk).
Qed.

(** A key that comes after every key of an object is defined last. *)
Lemma insert_index_snoc i k v props :
  array_index k = Some i → Forall (λ x, key_order x k) props.*1 →
  insert_index i k v props = props ++ [(k, v)].
Proof.
  intros Hk. induction props as [|[k' v'] props IH]; [done|].
  cbn [fmap list_fmap fst insert_index]. intros [[_ Hk'] Hall]%Forall_cons.
  rewrite Hk in Hk'. destruct (array_index k') as [j|]; [|done].
  rewrite (proj2 (N.ltb_lt j i)) by done. by rewrite IH.
Qed.

Lemma define_property_snoc k v props :
  ordered (props ++ [(k, v)]) →
  define_property k v props = props ++ [(k, v)].
Proof.
  unfold ordered. rewrite fmap_app. intros (Hlt & _ & _)%StronglySorted_app.
  assert (Forall (λ x, key_order x k) props.*1) as Hall.
  { apply Forall_forall. intros x Hx. apply Hlt; [done|]. by left. }
  unfold define_property. rewrite bool_decide_eq_false_2.
  - destruct (array_index k) eqn:?; [by apply insert_index_snoc|done].
  - intros Hk. by destruct (proj1 (Forall_forall _ _) Hall k Hk).
Qed.

(** The members of an ordered object define it. *)
Lemma define_all_ordered props : ordered props → define_all props = props.
Proof.
  induction props as [|[k v] props IH] using rev_ind; [done|]. intros Hord.
  rewrite define_all_snoc, IH; [by apply define_property_snoc|].
  unfold ordered in *. rewrite fmap_app in Hord.
  by apply StronglySorted_app_1_l in Hord.
Qed.
End order.

(** ** The values of the parser *)

(** Every object of the value has its properties in order. *)
#[local] Set Warnings "-register-all".
Inductive well_formed : json → Prop :=
| wf_null : well_formed JNull
| wf_bool b : well_formed (JBool b)
| wf_number m e : well_formed (JNumber m e)
| wf_string s : well_formed (JString s)
| wf_array xs : Forall well_formed xs → well_formed (JArray xs)
| wf_object props :
    ordered props → Forall (λ kv, well_formed kv.2) props →
    well_formed (JObject props).

Section well_formed.
Implicit Types (k s rest : jsstring) (v : json)
  (props members : list (jsstring * json)) (P : jsstring * json → Prop).

Lemma Forall_set_value P k v props :
  P (k, v) → Forall P props → Forall P (set_value k v props).
Proof.
  intros Hv.
  induction 1 as [|[k' v'] props Hv' Hall IH]; cbn [set_value]; [done|].
  case_bool_decide; by constructor.
Qed.

Lemma Forall_insert_index P i k v props :
  P (k, v) → Forall P props → Forall P (insert_index i k v props).
Proof.
  intros Hv. induction 1 as [|[k' v'] props Hv' Hall IH]; cbn [insert_index].
  - by repeat constructor.
  - repeat case_match; repeat constructor; done.
Qed.

Lemma Forall_define_property P k v props :
  P (k, v) → Forall P props → Forall P (define_property k v props).
Proof.
  intros Hv Hall. unfold define_property. repeat case_match.
  - by apply Forall_set_value.
  - by apply Forall_insert_index.
  - apply Forall_app. by repeat constructor.
Qed.

Lemma Forall_define_all P members :
  Forall P members → Forall P (define_all members).
Proof.
  induction members as [|[k v] members IH] using rev_ind; [done|].
  intros [Hall Hv]%Forall_app. rewrite define_all_snoc.
  apply Forall_define_property; [by inversion Hv|by apply IH].
Qed.

(** The cases of a run of the parser that succeeds. *)
Ltac parse_cases :=
  repeat first
    [ progress simplify_option_eq
    | case_match
    | match goal with p : _ * _ |- _ => destruct p end ].

Lemma readers_well_formed f :
  (∀ s v rest, read_value f s = Some (v, rest) → well_formed v) ∧
  (∀ s xs rest, read_elements f s = Some (xs, rest) → Forall well_formed xs) ∧
  (∀ s members rest, read_members f s = Some (members, rest) →
     Forall (λ kv, well_formed kv.2) members).
Proof.
  induction f as [|f (IHv & IHe & IHm)]; [done|].
  split_and!; intros s ? rest; cbn [read_value read_elements read_members];
    intros; parse_cases;
    repeat match goal with
    | H : read_value _ _ = Some _ |- _ => apply IHv in H
    | H : read_elements _ _ = Some _ |- _ => apply IHe in H
    | H : read_members _ _ = Some _ |- _ => apply IHm in H
    end; repeat constructor; try done.
  - apply ordered_define_all.
  - by apply Forall_define_all.
Qed.

Lemma JSON_parse_well_formed text v : JSON_parse text = Some v → well_formed v.
Proof.
  unfold JSON_parse. intros. parse_cases.
  by eapply readers_well_formed.
Qed.
End well_formed.
