(* ===== verification/JsonPrint.v ===== *)
(** * Printing and reading a JSON text

    [print_at] writes a value with the white space of a layout between
    its tokens.  Whatever the layout, [JSON_parse] reads the value back
    from the text when its objects have their keys in the order of
    [for in] ([JSON_parse_print_at]); [print] and [print_indented] are
    two layouts.  Since the values of the parser are well formed, a
    value that was read is read again from its text
    ([JSON_parse_print_parse]). *)

From Stdlib Require Import Decimal DecimalFacts DecimalN.
From S2P Require Import Prelude World Json JsonSpec.

(** ** Numbers *)

(** [s] does not start with a digit. *)
Definition no_digit (s : jsstring) : Prop :=
  match s with
  | c :: _ => digit c = None
  | [] => True
  end.

Section numbers.
Implicit Types (s rest : jsstring) (c : N) (u : uint) (n : N) (z : Z).

Lemma read_digits_text u rest :
  no_digit rest → read_digits (uint_text u ++ rest) = (u, rest).
Proof.
  intros Hrest. induction u; cbn [uint_text app read_digits];
    [|by rewrite IHu..].
  destruct rest as [|c rest]; [done|]. cbn [read_digits]. simpl in Hrest.
  by rewrite Hrest.
Qed.

(** The decimal of a number is [0] or starts with another digit. *)
Lemma to_uint_head n u : N.to_uint n = D0 u → u = Nil.
Proof.
  rewrite <-(Unsigned.of_to n) at 1. rewrite Unsigned.to_of. unfold unorm.
  destruct (nzhead (N.to_uint n)) eqn:Hhead; try done; [by intros [= <-]|].
  by apply nzhead_nonzero in Hhead.
Qed.

Lemma to_uint_nonnil n : N.to_uint n ≠ Nil.
Proof.
  rewrite <-(Unsigned.of_to n) at 1. rewrite Unsigned.to_of. apply unorm_nonnil.
Qed.

Lemma read_digits1_text u rest :
  u ≠ Nil → no_digit rest → read_digits1 (uint_text u ++ rest) = Some (u, rest).
Proof.
  intros Hu Hrest. unfold read_digits1. rewrite read_digits_text by done.
  by destruct u.
Qed.

Lemma read_int_text n rest :
  no_digit rest →
  read_int (uint_text (N.to_uint n) ++ rest) = Some (N.to_uint n, rest).
Proof.
  intros Hrest. pose proof (to_uint_head n) as Hhead.
  pose proof (to_uint_nonnil n) as Hnil.
  pose proof (read_digits1_text (N.to_uint n) rest Hnil Hrest) as Hread.
  destruct (N.to_uint n) as [|u|u|u|u|u|u|u|u|u|u]; [done|..|done]; [|done..].
  by rewrite (Hhead u).
Qed.

Lemma signed_abs z : signed (z <? 0)%Z (Z.abs_N z) = z.
Proof. unfold signed. case_match; lia. Qed.

(** The text of an integer starts with its sign or with a digit. *)
Lemma read_sign_text plus z rest :
  read_sign plus (int_text z ++ rest) =
  ((z <? 0)%Z, uint_text (N.to_uint (Z.abs_N z)) ++ rest).
Proof.
  unfold int_text. destruct (z <? 0)%Z; [done|]. cbn [app].
  pose proof (to_uint_nonnil (Z.abs_N z)).
  by destruct (N.to_uint _), plus.
Qed.

Lemma read_number_text m e rest :
  no_digit rest →
  read_number (int_text m ++ 101%N :: int_text e ++ rest) = Some (m, e, rest).
Proof.
  intros Hrest. unfold read_number.
  rewrite read_sign_text, read_int_text by done.
  cbn [mbind option_bind read_fraction]. change (101 =? 46)%N with false.
  cbn [mbind option_bind read_exponent].
  change ((101 =? 101)%N || _) with true. cbv iota.
  rewrite read_sign_text, read_digits1_text by (done || apply to_uint_nonnil).
  cbn [mbind option_bind nb_digits].
  rewrite DecimalFacts.app_nil_r, !Unsigned.of_to.
  rewrite !signed_abs. do 3 f_equal. lia.
Qed.
End numbers.

(** ** Tokens and white space *)

Section tokens.
Implicit Types (s rest : jsstring) (c : N).

Lemma skip_ws_here c s : is_ws c = false → skip_ws (c :: s) = c :: s.
Proof. intros Hc. cbn [skip_ws]. by rewrite Hc. Qed.

Lemma token_here c s : is_ws c = false → token c (c :: s) = Some s.
Proof. intros Hc. unfold token. by rewrite skip_ws_here, N.eqb_refl. Qed.

Lemma token_other c c' s :
  is_ws c' = false → c' ≠ c → token c (c' :: s) = None.
Proof.
  intros Hc Hne. unfold token. rewrite skip_ws_here by done.
  by rewrite (proj2 (N.eqb_neq _ _) Hne).
Qed.

(** What a number starts with: a sign or a digit. *)
Lemma read_number_head c s m e rest :
  read_number (c :: s) = Some (m, e, rest) → c = 45%N ∨ is_Some (digit c).
Proof.
  unfold read_number, read_sign. destruct (N.eqb_spec c 45); [by left|].
  cbn [andb read_int]. destruct (N.eqb_spec c 48) as [->|]; [by right|].
  unfold read_digits1. cbn [read_digits]. destruct (digit c); [by right|done].
Qed.

(** A number is a value. *)
Lemma read_value_number f s m e rest :
  read_number s = Some (m, e, rest) →
  read_value (S f) s = Some (JNumber m e, rest).
Proof.
  destruct s as [|c s]; [done|]. intros Hnum.
  assert (is_ws c = false ∧ (c =? 123)%N = false ∧ (c =? 91)%N = false ∧
          (c =? 34)%N = false ∧ (c =? 110)%N = false ∧
          (c =? 116)%N = false ∧ (c =? 102)%N = false)
    as (Hws & ? & ? & ? & ? & ? & ?).
  { destruct (read_number_head _ _ _ _ _ Hnum) as [->|[d Hd]]; [done|].
    unfold digit in Hd. repeat case_match; try done;
      match goal with
      | H : (c =? _)%N = true |- _ => apply N.eqb_eq in H as ->
      end; done. }
  cbn [read_value]. rewrite skip_ws_here by done.
  repeat match goal with
         | H : (_ =? _)%N = false |- _ => rewrite H; clear H
         end.
  by rewrite Hnum.
Qed.

Lemma is_ws_digit c : is_ws c = true → digit c = None.
Proof.
  unfold is_ws. intros Hc. repeat (apply orb_prop in Hc as [Hc|Hc]);
    by apply N.eqb_eq in Hc as ->.
Qed.

(** [ws] is white space. *)
Definition white (ws : jsstring) : Prop := Forall (λ c, is_ws c = true) ws.

Lemma skip_ws_app ws s : white ws → skip_ws (ws ++ s) = skip_ws s.
Proof.
  induction 1 as [|c ws' Hc _ IH]; [done|]. cbn [app skip_ws].
  cbv beta in Hc. by rewrite Hc.
Qed.

Lemma token_ws c ws s : white ws → token c (ws ++ s) = token c s.
Proof. intros Hws. unfold token. by rewrite skip_ws_app. Qed.

Lemma read_value_ws f ws s :
  white ws → read_value f (ws ++ s) = read_value f s.
Proof.
  intros Hws. destruct f; [done|]. cbn [read_value]. by rewrite skip_ws_app.
Qed.

Lemma read_elements_ws f ws s :
  white ws → read_elements f (ws ++ s) = read_elements f s.
Proof.
  intros Hws. destruct f; [done|]. cbn [read_elements].
  by rewrite read_value_ws.
Qed.

Lemma read_members_ws f ws s :
  white ws → read_members f (ws ++ s) = read_members f s.
Proof.
  intros Hws. destruct f; [done|]. cbn [read_members]. by rewrite token_ws.
Qed.

Lemma no_digit_ws ws c s : white ws → digit c = None → no_digit (ws ++ c :: s).
Proof. intros [|c' ws' Hc' _] Hc; [done|]. by apply is_ws_digit. Qed.
End tokens.

(** ** Values *)

(** Arithmetic on the lengths of texts. *)
Ltac length_lia :=
  cbv zeta in *;
  repeat progress
    (rewrite ?length_app in *; cbn [length app fmap list_fmap] in * );
  lia.

Section round_trip.
Context (gap : nat → jsstring) (colon : jsstring).
Context (gap_ws : ∀ d, white (gap d)) (colon_ws : white colon).
Implicit Types (s rest k : jsstring) (c : N) (v : json) (xs : list json)
  (props : list (jsstring * json)) (ts : list jsstring) (d : nat).

#[local] Abbreviation print_at := (Json.print_at gap colon).

(** [v] is read back from its text at depth [d], whatever follows it. *)
Definition reads_back (d : nat) (v : json) : Prop :=
  ∀ f rest, no_digit rest → 2 * length (print_at d v ++ rest) + 1 ≤ f →
    read_value f (print_at d v ++ rest) = Some (v, rest).

Lemma join_cons sep t ts :
  join sep (t :: ts) =
  t ++ match ts with [] => [] | _ :: _ => sep ++ join sep ts end.
Proof. destruct ts; [by rewrite (right_id_L [] (++))|done]. Qed.

(** The first code unit of a text is not white space and closes no
    array or object. *)
Lemma print_head d v :
  ∃ c s, print_at d v = c :: s ∧ is_ws c = false ∧ c ≠ 93%N ∧ c ≠ 125%N.
Proof.
  destruct v as [|[]|m e| |[]|[]]; try by eexists _, _.
  cbn [Json.print_at]. unfold int_text. destruct (m <? 0)%Z; [by eexists _, _|].
  pose proof (to_uint_nonnil (Z.abs_N m)).
  destruct (N.to_uint _); try done; by eexists _, _.
Qed.

Lemma read_elements_print d xs f rest :
  xs ≠ [] → Forall (reads_back (S d)) xs →
  let text := join (44%N :: gap (S d)) (print_at (S d) <$> xs) in
  2 * length (text ++ gap d ++ 93%N :: rest) + 2 ≤ f →
  read_elements f (text ++ gap d ++ 93%N :: rest) = Some (xs, rest).
Proof.
  intros Hxs Hall. cbv zeta. revert f.
  induction Hall as [|x xs Hx Hall IH]; [done|].
  intros [|f] Hf; [lia|]. cbn [fmap list_fmap] in *. rewrite join_cons in *.
  rewrite <-(assoc_L (++)) in *. cbn [read_elements].
  rewrite Hx; [|destruct xs; by try apply no_digit_ws|clear IH; length_lia].
  cbn [mbind option_bind]. destruct xs as [|x' xs].
  - cbn [fmap list_fmap app]. by rewrite !token_ws, token_other, token_here.
  - cbn [fmap list_fmap app] in *. rewrite token_here by done.
    rewrite <-(assoc_L (++)), read_elements_ws by done.
    rewrite IH; [done..|clear -Hf; length_lia].
Qed.

Lemma read_members_print d props f rest :
  props ≠ [] → Forall (λ kv, reads_back (S d) kv.2) props →
  let text :=
    join (44%N :: gap (S d))
      ((λ kv, member_text colon kv.1 (print_at (S d) kv.2)) <$> props) in
  2 * length (text ++ gap d ++ 125%N :: rest) + 2 ≤ f →
  read_members f (text ++ gap d ++ 125%N :: rest) = Some (props, rest).
Proof.
  intros Hprops Hall. cbv zeta. revert f.
  induction Hall as [|[k v] props Hv Hall IH]; [done|].
  intros [|f] Hf; [lia|]. cbn [fmap list_fmap fst snd] in *.
  rewrite join_cons in *. unfold member_text at 1, quote.
  unfold member_text at 1, quote in Hf.
  rewrite <-!(assoc_L (++)). cbn [app read_members].
  rewrite token_here by done. cbn [mbind option_bind].
  rewrite <-!(assoc_L (++)). cbn [app]. rewrite read_string_body.
  cbn [mbind option_bind]. rewrite token_here by done. cbn [mbind option_bind].
  rewrite read_value_ws by done.
  rewrite Hv; [|destruct props; by try apply no_digit_ws|clear IH; length_lia].
  cbn [mbind option_bind]. destruct props as [|kv props].
  - cbn [fmap list_fmap app]. by rewrite !token_ws, token_other, token_here.
  - cbn [fmap list_fmap app] in *. rewrite token_here by done.
    rewrite <-(assoc_L (++)), read_members_ws by done.
    rewrite IH; [done..|clear -Hf; length_lia].
Qed.

(** The value that a text starts, by its first code unit. *)
Lemma read_value_string f s :
  read_value (S f) (34%N :: s) =
  '(str, rest) ← read_string s; Some (JString str, rest).
Proof. done. Qed.

Lemma read_value_array f s :
  read_value (S f) (91%N :: s) =
  match token 93 s with
  | Some rest => Some (JArray [], rest)
  | None => '(xs, rest) ← read_elements f s; Some (JArray xs, rest)
  end.
Proof. done. Qed.

Lemma read_value_object f s :
  read_value (S f) (123%N :: s) =
  match token 125 s with
  | Some rest => Some (JObject [], rest)
  | None =>
      '(members, rest) ← read_members f s;
      Some (JObject (define_all members), rest)
  end.
Proof. done. Qed.

(** Reading what [print_at] wrote. *)
Lemma read_value_print v : well_formed v → ∀ d, reads_back d v.
Proof.
  induction v as [|b|m e|s|xs IH|props IH] using json_ind';
    intros Hwf d [|f] rest Hrest Hf; try (simpl in Hf; lia).
  - done.
  - by destruct b.
  - cbn [Json.print_at]. rewrite <-(assoc_L (++)). cbn [app].
    by apply read_value_number, read_number_text.
  - cbn [Json.print_at]. unfold quote. cbn [app].
    rewrite read_value_string, <-(assoc_L (++)). cbn [app].
    by rewrite read_string_body.
  - inversion_clear Hwf as [| | | |? Hall|].
    assert (Forall (reads_back (S d)) xs) as Hxs
      by (eapply Forall_impl; [exact (Forall_mp _ _ _ IH Hall)|]; auto).
    cbn [Json.print_at] in *. destruct xs as [|x xs].
    { cbn [fmap list_fmap bracket app].
      by rewrite read_value_array, token_here. }
    unfold bracket in *. cbn [fmap list_fmap] in *. cbn [app] in *.
    rewrite read_value_array, <-!(assoc_L (++)), token_ws by done.
    rewrite read_elements_ws by done. cbn [app].
    rewrite (read_elements_print d (x :: xs)) by (done || clear -Hf; length_lia).
    rewrite join_cons, <-!(assoc_L (++)).
    destruct (print_head (S d) x) as (c & s & -> & ? & ? & ?). cbn [app].
    by rewrite token_other.
  - inversion_clear Hwf as [| | | | |? Hord Hall].
    assert (Forall (λ kv, reads_back (S d) kv.2) props) as Hprops
      by (eapply Forall_impl; [exact (Forall_mp _ _ _ IH Hall)|]; auto).
    cbn [Json.print_at] in *. destruct props as [|[k v] props].
    { cbn [fmap list_fmap bracket app].
      by rewrite read_value_object, token_here. }
    unfold bracket in *. cbn [fmap list_fmap] in *. cbn [app] in *.
    rewrite read_value_object, <-!(assoc_L (++)), token_ws by done.
    rewrite read_members_ws by done. cbn [app].
    rewrite (read_members_print d ((k, v) :: props))
      by (done || clear -Hf; length_lia).
    cbn [mbind option_bind]. rewrite define_all_ordered by done.
    rewrite join_cons. unfold member_text at 1, quote. cbn [app fst].
    by rewrite token_other.
Qed.

(** The round trip of a value through its text, with white space
    around the text. *)
Lemma JSON_parse_print_at v before after :
  well_formed v → white before → white after →
  JSON_parse (before ++ print_at 0 v ++ after) = Some v.
Proof.
  intros Hwf Hbefore Hafter. unfold JSON_parse.
  rewrite read_value_ws by done. rewrite (read_value_print v Hwf).
  - cbn [mbind option_bind]. rewrite <-(right_id_L [] (++) after).
    by rewrite skip_ws_app.
  - destruct Hafter; [done|by apply is_ws_digit].
  - unfold fuel_for. length_lia.
Qed.
End round_trip.

Lemma white_nil : white [].
Proof. constructor. Qed.

Lemma white_space : white [32%N].
Proof. by constructor. Qed.

Lemma white_indent d : white (10%N :: replicate (2 * d) 32%N).
Proof. constructor; [done|]. by apply Forall_replicate. Qed.

Lemma JSON_parse_print v : well_formed v → JSON_parse (print v) = Some v.
Proof.
  intros Hwf. rewrite <-(right_id_L [] (++) (print v)).
  by apply (JSON_parse_print_at _ _ (λ _, white_nil) white_nil v []);
    try constructor.
Qed.

(** A text that [npm] wrote: the indented layout and a line feed. *)
Lemma JSON_parse_print_indented v :
  well_formed v → JSON_parse (print_indented v ++ [10%N]) = Some v.
Proof.
  intros Hwf.
  by apply (JSON_parse_print_at _ _ white_indent white_space v []);
    repeat constructor.
Qed.

(** What was read is read again from its text. *)
Lemma JSON_parse_print_parse text v :
  JSON_parse text = Some v → JSON_parse (print v) = Some v.
Proof. intros Hv%JSON_parse_well_formed. by apply JSON_parse_print. Qed.
