(* ===== verification/Hoare.v ===== *)
(** * A program logic for the effects

    Triples over the computations of [World.v].  A computation always
    ends, in a value or in an exception, so [triple P m Q] is total: from
    every world that satisfies [P], the result and the world that [m]
    ends in satisfy [Q].  The postcondition sees the exception, which is
    how the rules cover the error paths of the helpers.

    [preserves I m] is the triple of an invariant: [I] holds after [m],
    however [m] ends, when it held before.  The rules follow the
    statements of the source: [mret], [mthrow], sequencing, [emit] and the
    loop [for ... of].  [read_only] and [monotone] of [World.v] are
    instances. *)

From S2P Require Import Prelude World.

(** ** Definitions *)

Definition triple {A} (P : World → Prop) (m : eff A)
    (Q : result A → World → Prop) : Prop :=
  ∀ w, P w → Q (m w).1 (m w).2.

(** The postcondition [Q] of a value and [E] of an exception. *)
Definition post {A} (Q : A → World → Prop) (E : error → World → Prop)
    : result A → World → Prop :=
  λ r w, match r with Ok a => Q a w | Throw e => E e w end.

Definition preserves {A} (I : World → Prop) (m : eff A) : Prop :=
  triple I m (λ _, I).

(** ** The rules *)

Section rules.
Context {A : Type}.
Implicit Types (m : eff A) (w : World) (a : A) (err : error)
  (P I : World → Prop) (Q : result A → World → Prop).

Lemma triple_ret P Q a : (∀ w, P w → Q (Ok a) w) → triple P (mret a) Q.
Proof. intros HQ w. apply HQ. Qed.

Lemma triple_throw P Q err :
  (∀ w, P w → Q (Throw err) w) → triple P (mthrow err) Q.
Proof. intros HQ w. apply HQ. Qed.

(** The rule of consequence. *)
Lemma triple_consequence P P' Q Q' m :
  (∀ w, P' w → P w) → (∀ r w, Q r w → Q' r w) →
  triple P m Q → triple P' m Q'.
Proof. intros HP HQ Hm w Hw. by apply HQ, Hm, HP. Qed.

Lemma triple_conj P Q Q' m :
  triple P m Q → triple P m Q' → triple P m (λ r w, Q r w ∧ Q' r w).
Proof. intros Hm Hm' w Hw. split; [by apply Hm|by apply Hm']. Qed.

(** A computation that only reads keeps every property of the world. *)
Lemma preserves_read_only I m : read_only m → preserves I m.
Proof. intros Hm w Hw. by rewrite Hm. Qed.

Lemma preserves_ret I a : preserves I (mret a : eff A).
Proof. by apply triple_ret. Qed.

Lemma preserves_throw I err : preserves I (mthrow err : eff A).
Proof. by apply triple_throw. Qed.

(** [monotone] is the invariance of what the trace starts with. *)
Lemma monotone_preserves m :
  monotone m ↔ ∀ t, preserves (λ w, t `prefix_of` trace w) m.
Proof.
  split.
  - intros Hm t w Hw. by etrans; [|apply Hm].
  - intros Hm w. by apply (Hm (trace w) w).
Qed.
End rules.

Section sequence.
Context {A B : Type}.
Implicit Types (m : eff A) (f : A → eff B) (P I : World → Prop).

(** Sequencing: the exception of the first part is the exception of the
    whole. *)
Lemma triple_bind P (Q : A → World → Prop) (R : result B → World → Prop) m f :
  triple P m (post Q (λ e, R (Throw e))) →
  (∀ a, triple (Q a) (f a) R) →
  triple P (m ≫= f) R.
Proof.
  intros Hm Hf w Hw. specialize (Hm w Hw). unfold mbind, eff_bind.
  destruct (m w) as [[a|e] w']; [by apply Hf|done].
Qed.

Lemma preserves_bind I m f :
  preserves I m → (∀ a, preserves I (f a)) → preserves I (m ≫= f).
Proof.
  intros Hm Hf. apply (triple_bind I (λ _, I)); [|done].
  intros w Hw. specialize (Hm w Hw). by destruct (m w) as [[]].
Qed.
End sequence.

Section loops.
Context {A S : Type}.
Implicit Types (xs : list A) (I : World → Prop).

(** The loop: an invariant of every iteration is an invariant of the
    loop, also when an iteration throws. *)
Lemma preserves_for_of_fold I xs (body : S → A → eff S) s :
  (∀ s x, x ∈ xs → preserves I (body s x)) →
  preserves I (for_of_fold xs body s).
Proof.
  revert s. induction xs as [|x xs IH]; intros s Hbody; [apply preserves_ret|].
  cbn [for_of_fold]. apply preserves_bind; [apply Hbody; left|].
  intros s'. apply IH. intros s'' y Hy. apply Hbody. by right.
Qed.

(** The loop with a postcondition of its iterations: when no iteration
    throws, the loop does not, and [I] has held after each of them. *)
Lemma triple_for_of_fold I xs (body : S → A → eff S) s :
  (∀ s x, x ∈ xs → triple I (body s x) (post (λ _, I) (λ _ _, False))) →
  triple I (for_of_fold xs body s) (post (λ _, I) (λ _ _, False)).
Proof.
  revert s. induction xs as [|x xs IH]; intros s Hbody; [by apply triple_ret|].
  cbn [for_of_fold]. eapply triple_bind; [apply Hbody; left|].
  intros s'. apply IH. intros s'' y Hy. apply Hbody. by right.
Qed.
End loops.

Lemma preserves_for_of {A} I (xs : list A) body :
  (∀ x, x ∈ xs → preserves I (body x)) → preserves I (for_of xs body).
Proof. intros Hbody. apply preserves_for_of_fold. intros _. apply Hbody. Qed.

Lemma triple_for_of {A} I (xs : list A) body :
  (∀ x, x ∈ xs → triple I (body x) (post (λ _, I) (λ _ _, False))) →
  triple I (for_of xs body) (post (λ _, I) (λ _ _, False)).
Proof. intros Hbody. apply triple_for_of_fold. intros _. apply Hbody. Qed.

(** [emit] and the file system. *)
Lemma triple_emit P Q e :
  (∀ w, P w → Q (Ok ()) (mkWorld (files w) (trace w ++ [e]))) →
  triple P (emit e) Q.
Proof. intros HQ w. apply HQ. Qed.

Lemma preserves_emit I e :
  (∀ w, I w → I (mkWorld (files w) (trace w ++ [e]))) → preserves I (emit e).
Proof. intros HI. by apply triple_emit. Qed.

#[export] Hint Resolve preserves_ret preserves_throw : jsdb.

(** Proves [preserves I m] for a computation built from the operations
    whose rules are hints of [jsdb]. *)
Ltac solve_preserves :=
  repeat first
    [ solve [eauto with jsdb]
    | apply preserves_bind; [|intros ?]
    | apply preserves_for_of; intros ? ?
    | match goal with
      | |- preserves _ (if ?b then _ else _) => destruct b
      | |- preserves _ (match ?x with _ => _ end) => destruct x
      end ].
