(* ===== verification/Script.v ===== *)
(** * The script and the contract of the helpers

    The script that calls the helpers is not part of [src/]: it sees them
    through the object [module.exports] of [src/helpers.js] ([Exports.t]).
    [run] is the script, written from section 4.9 of the specification
    over any such object: the used modules are scanned and classified,
    the manifest is read, the two differences are computed, every module
    to install goes through [installModule] and every module to remove
    through [uninstallModule].

    [Contract] states what the script relies on, from sections 4.4 to 4.7
    of the specification: the two readers leave the world as it is, the
    used modules are pairwise distinct, the classifier only removes, and
    [diff] is the difference by name.  [Resilient] adds that an action
    never throws (section 4.9).  The theorems of this file are proved of
    [run] over any helpers that meet the contract; [Pipeline.v] shows that
    the helpers of [src/helpers.js] do. *)

From S2P Require Import Prelude Modules Dedup Diff World Hoare.

(** ** The exported helpers *)

(** The object [module.exports]: the functions of [src/helpers.js] that
    the script can call. *)
Module Exports.
Record t : Type := make {
  getInstalledModules : eff (list ModuleRef);
  getUsedModules : eff (list ModuleRef);
  filterRegistryModules : list ModuleRef → list ModuleRef;
  installModule : ModuleRef → eff unit;
  uninstallModule : ModuleRef → eff unit;
  diff : list ModuleRef → list ModuleRef → list ModuleRef;
  reinstall : eff unit;
}.
End Exports.

(** ** The orchestrator *)

(** A run of the script over helpers [helpers]. *)
Definition run (helpers : Exports.t) : eff unit :=
  usedModules ← Exports.getUsedModules helpers;
  let usedModules := Exports.filterRegistryModules helpers usedModules in
  installedModules ← Exports.getInstalledModules helpers;
  let toInstall := Exports.diff helpers usedModules installedModules in
  let toRemove := Exports.diff helpers installedModules usedModules in
  for_of toInstall (Exports.installModule helpers);;
  for_of toRemove (Exports.uninstallModule helpers).

(** ** The contract *)

Class Contract (h : Exports.t) : Prop := {
  contract_used_read_only : read_only (Exports.getUsedModules h);
  contract_installed_read_only : read_only (Exports.getInstalledModules h);
  contract_used_NoDup w ms :
    (Exports.getUsedModules h w).1 = Ok ms → NoDup ms;
  contract_filter_sublist ms :
    Exports.filterRegistryModules h ms `sublist_of` ms;
  contract_diff_sublist a b : Exports.diff h a b `sublist_of` a;
  contract_elem_of_diff a b m :
    m ∈ Exports.diff h a b ↔ m ∈ a ∧ name m ∉ name_set b;
}.

(** An action reports its failure and returns. *)
Class Resilient (h : Exports.t) : Prop := {
  resilient_install m w : (Exports.installModule h m w).1 = Ok ();
  resilient_uninstall m w : (Exports.uninstallModule h m w).1 = Ok ();
}.

(** ** The reference definitions *)

(** The modules a run hands to [installModule], and to
    [uninstallModule], when the readers return [used] and [installed]. *)
Definition to_install (h : Exports.t) (used installed : list ModuleRef)
    : list ModuleRef :=
  Exports.diff h (Exports.filterRegistryModules h used) installed.

Definition to_remove (h : Exports.t) (used installed : list ModuleRef)
    : list ModuleRef :=
  Exports.diff h installed (Exports.filterRegistryModules h used).

(** Helpers that act on nothing: the readers return [used] and
    [installed], an action prints the name of its module. *)
Definition dry_run (used installed : list ModuleRef) : Exports.t := {|
  Exports.getInstalledModules := mret installed;
  Exports.getUsedModules := mret (deduplicate used);
  Exports.filterRegistryModules := id;
  Exports.installModule m := emit (ConsoleLog SymSuccess (name m));
  Exports.uninstallModule m := emit (ConsoleLog SymError (name m));
  Exports.diff := diff;
  Exports.reinstall := mret ();
|}.

(** ** The script over helpers that meet the contract *)

Section client.
Context (h : Exports.t) `{!Contract h}.
Implicit Types (w : World) (used installed : list ModuleRef) (m : ModuleRef)
  (I : World → Prop).

Lemma run_used w used :
  (Exports.getUsedModules h w).1 = Ok used →
  Exports.getUsedModules h w = (Ok used, w).
Proof. intros <-. apply read_only_run, contract_used_read_only. Qed.

Lemma run_installed w installed :
  (Exports.getInstalledModules h w).1 = Ok installed →
  Exports.getInstalledModules h w = (Ok installed, w).
Proof. intros <-. apply read_only_run, contract_installed_read_only. Qed.

(** A run up to its two loops. *)
Lemma run_loops w used installed :
  (Exports.getUsedModules h w).1 = Ok used →
  (Exports.getInstalledModules h w).1 = Ok installed →
  run h w =
  (for_of (to_install h used installed) (Exports.installModule h);;
   for_of (to_remove h used installed) (Exports.uninstallModule h)) w.
Proof.
  intros Hused Hinst. unfold run.
  rewrite (run_bind_ok _ _ _ _ _ (run_used _ _ Hused)).
  by rewrite (run_bind_ok _ _ _ _ _ (run_installed _ _ Hinst)).
Qed.

(** A run whose readers throw. *)
Lemma run_throw_used w e :
  (Exports.getUsedModules h w).1 = Throw e → run h w = (Throw e, w).
Proof.
  intros He. unfold run. eapply run_bind_throw.
  rewrite <-He. apply read_only_run, contract_used_read_only.
Qed.

Lemma run_throw_installed w used e :
  (Exports.getUsedModules h w).1 = Ok used →
  (Exports.getInstalledModules h w).1 = Throw e → run h w = (Throw e, w).
Proof.
  intros Hused He. unfold run.
  rewrite (run_bind_ok _ _ _ _ _ (run_used _ _ Hused)).
  eapply run_bind_throw.
  rewrite <-He. apply read_only_run, contract_installed_read_only.
Qed.

(** The difference is empty when every name is present. *)
Lemma contract_diff_nil a b :
  name_set a ⊆ name_set b → Exports.diff h a b = [].
Proof.
  intros Hsub. apply elem_of_nil_inv. intros m.
  rewrite contract_elem_of_diff. set_solver.
Qed.

Lemma run_noop w used installed :
  (Exports.getUsedModules h w).1 = Ok used →
  (Exports.getInstalledModules h w).1 = Ok installed →
  same_names (Exports.filterRegistryModules h used) installed →
  run h w = (Ok (), w).
Proof.
  intros Hused Hinst Hsame. rewrite (run_loops w used installed) by done.
  unfold to_install, to_remove, same_names in *.
  by rewrite !contract_diff_nil by set_solver.
Qed.

(** What a run installs is in use and not declared; what it removes is
    declared and not in use. *)
Lemma elem_of_to_install used installed m :
  m ∈ to_install h used installed →
  m ∈ used ∧ name m ∉ name_set installed.
Proof.
  unfold to_install. rewrite contract_elem_of_diff. intros [Hm ?].
  split; [|done]. eapply elem_of_sublist; [done|apply contract_filter_sublist].
Qed.

Lemma elem_of_to_remove used installed m :
  m ∈ to_remove h used installed → m ∈ installed.
Proof. unfold to_remove. rewrite contract_elem_of_diff. by intros []. Qed.

Lemma to_install_NoDup w used installed :
  (Exports.getUsedModules h w).1 = Ok used →
  NoDup (to_install h used installed).
Proof.
  intros Hused%contract_used_NoDup.
  eapply sublist_NoDup, contract_diff_sublist.
  by eapply sublist_NoDup, contract_filter_sublist.
Qed.

Lemma to_install_remove_disjoint used installed :
  name_set (to_install h used installed) ##
  name_set (to_remove h used installed).
Proof.
  intros n (m & Hm & <-)%elem_of_name_set (m' & Hm' & Hn)%elem_of_name_set.
  apply elem_of_to_install in Hm as [_ []].
  apply elem_of_to_remove in Hm'. apply elem_of_name_set. eauto.
Qed.

(** An invariant of the actions is an invariant of a run. *)
Lemma preserves_run I :
  (∀ m, preserves I (Exports.installModule h m)) →
  (∀ m, preserves I (Exports.uninstallModule h m)) →
  preserves I (run h).
Proof.
  intros Hinst Hrem. unfold run.
  apply preserves_bind;
    [apply preserves_read_only, contract_used_read_only|intros used].
  apply preserves_bind;
    [apply preserves_read_only, contract_installed_read_only|intros inst].
  apply preserves_bind; [|intros _]; by apply preserves_for_of.
Qed.

(** The loops of actions that return. *)
Lemma for_of_returns {A} (xs : list A) (body : A → eff unit) w :
  (∀ x w, (body x w).1 = Ok ()) → (for_of xs body w).1 = Ok ().
Proof.
  intros Hbody.
  assert (triple (λ _, True) (for_of xs body)
            (post (λ _ _, True) (λ _ _, False))) as Hloop.
  { apply triple_for_of. intros x _ w' _. specialize (Hbody x w').
    by destruct (body x w') as [[[]|]]. }
  specialize (Hloop w Logic.I). by destruct (for_of xs body w) as [[[]|]].
Qed.

Lemma run_returns `{!Resilient h} w used installed :
  (Exports.getUsedModules h w).1 = Ok used →
  (Exports.getInstalledModules h w).1 = Ok installed →
  (run h w).1 = Ok ().
Proof.
  intros Hused Hinst. rewrite (run_loops w used installed) by done.
  unfold mbind, eff_bind.
  pose proof (for_of_returns (to_install h used installed)
    (Exports.installModule h) w resilient_install) as Hloop.
  destruct (for_of _ (Exports.installModule h) w) as [[[]|] w'];
    [|done].
  apply for_of_returns, resilient_uninstall.
Qed.
End client.

(** ** Helpers that meet the contract *)

#[global] Instance dry_run_contract used installed :
  Contract (dry_run used installed).
Proof.
  split; simpl; try done.
  - intros _ ms [= <-]. apply deduplicate_NoDup.
  - apply diff_sublist.
  - apply elem_of_diff.
Qed.

#[global] Instance dry_run_resilient used installed :
  Resilient (dry_run used installed).
Proof. by split. Qed.

(** ** Main results *)

(** Over helpers that meet the contract, a run whose readers return
    lists that have the same names (after the classifier) does nothing:
    it returns, and the world is the one it started in. *)
Theorem run_reconciled (h : Exports.t) `{!Contract h} w used installed :
  (Exports.getUsedModules h w).1 = Ok used →
  (Exports.getInstalledModules h w).1 = Ok installed →
  same_names (Exports.filterRegistryModules h used) installed →
  run h w = (Ok (), w).
Proof. intros. by eapply run_noop. Qed.

(** Over helpers that meet the contract, a property of the world that
    every installation and every removal keeps is kept by a run, however
    the run ends. *)
Theorem run_keeps_invariant (h : Exports.t) `{!Contract h}
    (I : World → Prop) w :
  (∀ m, preserves I (Exports.installModule h m)) →
  (∀ m, preserves I (Exports.uninstallModule h m)) →
  I w → I (run h w).2.
Proof. intros Hinst Hrem. by apply preserves_run. Qed.

(** ** Witnesses *)

#[local] Open Scope js_scope.

Definition ex_lodash : ModuleRef := mkModule (js "lodash") false.
Definition ex_chalk : ModuleRef := mkModule (js "chalk") false.
Definition ex_mocha : ModuleRef := mkModule (js "mocha") true.

Lemma run_reconciled_witness :
  run (dry_run [ex_lodash; ex_lodash] [ex_lodash]) (mkWorld ∅ []) =
  (Ok (), mkWorld ∅ []).
Proof.
  apply (run_reconciled (dry_run [ex_lodash; ex_lodash] [ex_lodash])
           (mkWorld ∅ []) [ex_lodash] [ex_lodash]);
    [done|done|decide_by_computation].
Defined.

Lemma run_keeps_invariant_witness :
  files (run (dry_run [ex_chalk] [ex_mocha]) (mkWorld ∅ [])).2 = ∅.
Proof.
  apply (run_keeps_invariant (dry_run [ex_chalk] [ex_mocha])
           (λ w, files w = ∅) (mkWorld ∅ []));
    [by intros m w|by intros m w|done].
Defined.

(** A dry run over a manifest that lacks [chalk] and declares [mocha]
    prints the two names, the installation first. *)
Example dry_run_scenario :
  run (dry_run [ex_lodash; ex_chalk] [ex_lodash; ex_mocha]) (mkWorld ∅ []) =
  (Ok (), mkWorld ∅ [ ConsoleLog SymSuccess (js "chalk");
                      ConsoleLog SymError (js "mocha") ]).
Proof. vm_compute. reflexivity. Qed.
