(* ===== verification/Files.v ===== *)
(** * Reading the source files

    [getFiles], [readFile], [getModulesFromFile], [isTestFile] and
    [getUsedModules] of [src/helpers.js], as computations on the world.
    [fs.readFileSync] reads the file system of the world and throws on a
    path that holds no text; [glob.sync] is the function [glob_sync] of
    the environment.

    The reference definition is [scan_files]: the references of every
    file, in the order of the files.  [getUsedModules] is proved to
    return its de-duplication when every file can be read, and to throw
    at the first file that cannot; in both cases it leaves the world as
    it is. *)

From S2P Require Import Prelude JsRuntime Modules Dedup Regex Validator.
From S2P Require Import Extractor Classifier World.

(** ** The source's definitions *)

Section files.
Context `{Env}.
Implicit Types (w : World) (path fileName name : jsstring).

(** [fs.readFileSync(path, 'utf8')] *)
Definition readFileSync path : eff jsstring := λ w,
  match files w !! path with
  | Some content => (Ok content, w)
  | None => (Throw (ReadError path), w)
  end.

(** [getFiles]; its parameter is not used. *)
Definition getFiles (path : option jsstring) : eff (list jsstring) :=
  fsys ← get_files;
  mret (glob_sync fsys).

Definition readFile path : eff jsstring :=
  content ← readFileSync path;
  mret content.

Definition getModulesFromFile path : eff (list jsstring) :=
  content ← readFileSync path;
  mret (modulesFromContent content).

Definition isTestFile name : bool :=
  JsString.endsWith name (js ".spec.js") ||
  JsString.endsWith name (js ".test.js").

(** The inner loop of [getUsedModules]:
    [for (let name of modulesFromFile) usedModules.push({name, dev})]. *)
Definition push_modules (dev : bool) (usedModules : list ModuleRef)
    (modulesFromFile : list jsstring) : list ModuleRef :=
  foldl (λ usedModules name, usedModules ++ [mkModule name dev])
    usedModules modulesFromFile.

(** One iteration of the loop of [getUsedModules] over the files. *)
Definition used_step (usedModules : list ModuleRef) fileName
    : eff (list ModuleRef) :=
  modulesFromFile ← getModulesFromFile fileName;
  let dev := isTestFile fileName in
  mret (push_modules dev usedModules modulesFromFile).

Definition getUsedModules : eff (list ModuleRef) :=
  files ← getFiles None;
  let usedModules := [] in
  usedModules ← for_of_fold files used_step usedModules;
  let usedModules := deduplicate usedModules in
  mret usedModules.

(** ** The reference definitions *)

(** The references of the file [fileName] with text [content]. *)
Definition refs_of_file fileName (content : jsstring) : list ModuleRef :=
  (λ name, mkModule name (isTestFile fileName)) <$> modulesFromContent content.

(** The references of the files [paths] of [fsys], file after file. *)
Definition scan_files (fsys : gmap jsstring jsstring)
    (paths : list jsstring) : list ModuleRef :=
  paths ≫= λ path, refs_of_file path (default [] (fsys !! path)).

(** Every path of [paths] holds a text. *)
Definition readable (fsys : gmap jsstring jsstring)
    (paths : list jsstring) : Prop :=
  Forall (λ path, is_Some (fsys !! path)) paths.

(** The first path of [paths] that holds no text. *)
Definition first_unreadable (fsys : gmap jsstring jsstring)
    (paths : list jsstring) : option jsstring :=
  List.find (λ path, bool_decide (fsys !! path = None)) paths.

(** ** Lemmas *)

Lemma run_readFileSync_ok path w content :
  files w !! path = Some content → readFileSync path w = (Ok content, w).
Proof. unfold readFileSync. by intros ->. Qed.

Lemma run_readFileSync_throw path w :
  files w !! path = None → readFileSync path w = (Throw (ReadError path), w).
Proof. unfold readFileSync. by intros ->. Qed.

Lemma run_readFile path w : readFile path w = readFileSync path w.
Proof.
  unfold readFile, readFileSync. eff_unfold. by destruct (files w !! path).
Qed.

Lemma run_getFiles (arg : option jsstring) w :
  getFiles arg w = (Ok (glob_sync (files w)), w).
Proof. done. Qed.

Lemma run_getModulesFromFile_ok path w content :
  files w !! path = Some content →
  getModulesFromFile path w = (Ok (modulesFromContent content), w).
Proof.
  intros Hfile. unfold getModulesFromFile.
  by rewrite (run_bind_ok _ _ _ _ _ (run_readFileSync_ok _ _ _ Hfile)).
Qed.

Lemma run_getModulesFromFile_throw path w :
  files w !! path = None →
  getModulesFromFile path w = (Throw (ReadError path), w).
Proof.
  intros Hfile. unfold getModulesFromFile.
  by rewrite (run_bind_throw _ _ _ _ _ (run_readFileSync_throw _ _ Hfile)).
Qed.

Lemma push_modules_fmap dev (usedModules : list ModuleRef)
    (names : list jsstring) :
  push_modules dev usedModules names =
  usedModules ++ ((λ name, mkModule name dev) <$> names).
Proof.
  unfold push_modules. revert usedModules.
  induction names as [|n names IH]; intros usedModules; simpl.
  - by rewrite (right_id_L [] (++)).
  - by rewrite IH, <-(assoc_L (++)).
Qed.

Lemma run_used_step_ok usedModules fileName w content :
  files w !! fileName = Some content →
  used_step usedModules fileName w =
  (Ok (usedModules ++ refs_of_file fileName content), w).
Proof.
  intros Hfile. unfold used_step.
  rewrite (run_bind_ok _ _ _ _ _ (run_getModulesFromFile_ok _ _ _ Hfile)).
  by rewrite run_ret, push_modules_fmap.
Qed.

Lemma run_used_step_throw usedModules fileName w :
  files w !! fileName = None →
  used_step usedModules fileName w = (Throw (ReadError fileName), w).
Proof.
  intros Hfile. unfold used_step.
  by rewrite (run_bind_throw _ _ _ _ _ (run_getModulesFromFile_throw _ _ Hfile)).
Qed.

(** The loop over readable files. *)
Lemma run_used_loop_ok paths usedModules w :
  readable (files w) paths →
  for_of_fold paths used_step usedModules w =
  (Ok (usedModules ++ scan_files (files w) paths), w).
Proof.
  revert usedModules. induction paths as [|p paths IH];
    intros usedModules Hread; simpl.
  - by rewrite (right_id_L [] (++)).
  - apply Forall_cons in Hread as [[content Hp] Hread].
    rewrite (run_bind_ok _ _ _ _ _ (run_used_step_ok _ _ _ _ Hp)).
    rewrite IH by done. unfold scan_files. simpl.
    by rewrite Hp, <-(assoc_L (++)).
Qed.

(** The loop stops at the first path that cannot be read. *)
Lemma run_used_loop_throw pre p post usedModules w :
  readable (files w) pre → files w !! p = None →
  for_of_fold (pre ++ p :: post) used_step usedModules w =
  (Throw (ReadError p), w).
Proof.
  intros Hread Hp. rewrite for_of_fold_app.
  rewrite (run_bind_ok _ _ _ _ _ (run_used_loop_ok _ _ _ Hread)). simpl.
  by rewrite (run_bind_throw _ _ _ _ _ (run_used_step_throw _ _ _ Hp)).
Qed.

Lemma run_getUsedModules_ok w :
  readable (files w) (glob_sync (files w)) →
  getUsedModules w =
  (Ok (deduplicate (scan_files (files w) (glob_sync (files w)))), w).
Proof.
  intros Hread. unfold getUsedModules.
  rewrite (run_bind_ok _ _ _ _ _ (run_getFiles None w)).
  by rewrite (run_bind_ok _ _ _ _ _ (run_used_loop_ok _ [] _ Hread)).
Qed.

Lemma run_getUsedModules_throw w pre p post :
  glob_sync (files w) = pre ++ p :: post →
  readable (files w) pre → files w !! p = None →
  getUsedModules w = (Throw (ReadError p), w).
Proof.
  intros Hglob Hread Hp. unfold getUsedModules.
  rewrite (run_bind_ok _ _ _ _ _ (run_getFiles None w)), Hglob.
  by rewrite (run_bind_throw _ _ _ _ _ (run_used_loop_throw _ _ _ [] _ Hread Hp)).
Qed.

(** A list of paths is readable, or has a first path that is not. *)
Lemma readable_or_not fsys paths :
  readable fsys paths ∨
  ∃ pre p post, paths = pre ++ p :: post ∧ readable fsys pre ∧ fsys !! p = None.
Proof.
  induction paths as [|p paths IH]; [left; constructor|].
  destruct (fsys !! p) as [content|] eqn:Hp;
    [|right; exists [], p, paths; split_and!; [done|constructor|done]].
  destruct IH as [IH|(pre & q & post & -> & Hpre & Hq)].
  - left. constructor; [by eexists|done].
  - right. exists (p :: pre), q, post. split_and!; [done| |done].
    constructor; [by eexists|done].
Qed.

Lemma elem_of_refs_of_file fileName content m :
  m ∈ refs_of_file fileName content ↔
  name m ∈ modulesFromContent content ∧ dev m = isTestFile fileName.
Proof.
  unfold refs_of_file. rewrite list_elem_of_fmap. split.
  - by intros (n & -> & ?).
  - intros [Hn Hd]. exists (name m). split; [|done]. destruct m. simpl in *.
    by subst.
Qed.

Lemma elem_of_scan_files fsys paths m :
  m ∈ scan_files fsys paths ↔
  ∃ path, path ∈ paths ∧ m ∈ refs_of_file path (default [] (fsys !! path)).
Proof. unfold scan_files. rewrite list_elem_of_bind. naive_solver. Qed.

Lemma scan_files_singleton fsys path content :
  fsys !! path = Some content →
  scan_files fsys [path] = refs_of_file path content.
Proof.
  intros Hfile. unfold scan_files. cbn [mbind list_bind].
  by rewrite Hfile, (right_id_L [] (++)).
Qed.

Lemma isTestFile_spec name :
  isTestFile name = true ↔
  js ".spec.js" `suffix_of` name ∨ js ".test.js" `suffix_of` name.
Proof.
  unfold isTestFile. by rewrite orb_true_iff, !JsString.endsWith_true.
Qed.

Lemma first_unreadable_None fsys paths :
  first_unreadable fsys paths = None ↔ readable fsys paths.
Proof.
  unfold first_unreadable, readable. induction paths as [|p paths IH]; simpl.
  { split; [constructor|done]. }
  rewrite Forall_cons, <-IH, <-not_eq_None_Some. case_bool_decide; naive_solver.
Qed.

Lemma first_unreadable_Some fsys paths p :
  first_unreadable fsys paths = Some p →
  ∃ pre post, paths = pre ++ p :: post ∧ readable fsys pre ∧ fsys !! p = None.
Proof.
  unfold first_unreadable. induction paths as [|q paths IH]; simpl; [done|].
  case_bool_decide as Hq.
  - intros [= ->]. exists [], paths. split_and!; [done|constructor|done].
  - intros (pre & post & -> & Hpre & Hp)%IH. exists (q :: pre), post.
    split_and!; [done| |done]. constructor; [|done].
    by apply not_eq_None_Some.
Qed.

(** [getUsedModules] on every world, as a function of the files. *)
Lemma run_getUsedModules w :
  getUsedModules w =
  (match first_unreadable (files w) (glob_sync (files w)) with
   | Some p => Throw (ReadError p)
   | None => Ok (deduplicate (scan_files (files w) (glob_sync (files w))))
   end, w).
Proof.
  destruct (first_unreadable _ _) as [p|] eqn:Hfirst.
  - apply first_unreadable_Some in Hfirst as (pre & post & ? & ? & ?).
    by eapply run_getUsedModules_throw.
  - by apply run_getUsedModules_ok, first_unreadable_None.
Qed.

(** [getUsedModules] on every world. *)
Lemma getUsedModules_cases w :
  ∃ r, getUsedModules w = (r, w) ∧
       (r = Ok (deduplicate (scan_files (files w) (glob_sync (files w)))) ∨
        ∃ p, p ∈ glob_sync (files w) ∧ r = Throw (ReadError p)).
Proof.
  destruct (readable_or_not (files w) (glob_sync (files w)))
    as [Hread|(pre & p & post & Hglob & Hread & Hp)].
  - eexists. split; [by apply run_getUsedModules_ok|by left].
  - eexists. split; [by eapply run_getUsedModules_throw|].
    right. exists p. split; [|done]. rewrite Hglob. set_solver.
Qed.

Lemma read_only_getUsedModules : read_only getUsedModules.
Proof. intros w. by destruct (getUsedModules_cases w) as (r & -> & _). Qed.

(** The reads only add to the trace (they add nothing). *)
Lemma monotone_readFileSync path : monotone (readFileSync path).
Proof. intros w. unfold readFileSync. by destruct (files w !! path). Qed.
#[local] Hint Resolve monotone_readFileSync : jsdb.

Lemma monotone_getUsedModules : monotone getUsedModules.
Proof.
  unfold getUsedModules, used_step, getModulesFromFile, getFiles.
  solve_monotone.
Qed.
#[local] Hint Resolve monotone_getUsedModules : jsdb.

#[global] Instance readable_dec fsys paths : Decision (readable fsys paths).
Proof. unfold readable. apply _. Defined.

(** ** Main results *)

(** C7 When every file that [getFiles] lists can be read,
    [getUsedModules] returns the de-duplicated references of the files,
    taken file after file in the order of the list, each with the flag
    [dev] of its file, and leaves the world as it is. *)
Theorem getUsedModules_reads_all w :
  readable (files w) (glob_sync (files w)) →
  getUsedModules w =
  (Ok (deduplicate (scan_files (files w) (glob_sync (files w)))), w).
Proof. apply run_getUsedModules_ok. Qed.

(** [getUsedModules] stops at the first file of the list that cannot
    be read: it throws the error of that read and returns no module, also
    none of the files read before. *)
Theorem getUsedModules_aborts_on_unreadable w pre p post :
  glob_sync (files w) = pre ++ p :: post →
  readable (files w) pre → files w !! p = None →
  getUsedModules w = (Throw (ReadError p), w).
Proof. apply run_getUsedModules_throw. Qed.

(** C35 [getUsedModules] always ends and never changes the files or the
    trace: it throws the read error of the first listed file that cannot
    be read, and returns the de-duplicated references of all the files
    when there is none. *)
Theorem getUsedModules_read_only w :
  getUsedModules w =
  (match first_unreadable (files w) (glob_sync (files w)) with
   | Some p => Throw (ReadError p)
   | None => Ok (deduplicate (scan_files (files w) (glob_sync (files w))))
   end, w) ∧
  (∀ p, first_unreadable (files w) (glob_sync (files w)) = Some p →
        p ∈ glob_sync (files w) ∧ files w !! p = None).
Proof.
  split; [apply run_getUsedModules|].
  intros p (pre & post & -> & _ & Hp)%first_unreadable_Some.
  split; [set_solver|done].
Qed.

(** A module is marked [dev] exactly when the path of its file ends
    with [.spec.js] or [.test.js]: a reference of the text of [fileName]
    is a name that the extraction finds, with that flag. *)
Theorem refs_of_file_dev fileName content m :
  m ∈ refs_of_file fileName content ↔
  name m ∈ modulesFromContent content ∧
  (dev m = true ↔ js ".spec.js" `suffix_of` fileName ∨
                  js ".test.js" `suffix_of` fileName).
Proof.
  rewrite elem_of_refs_of_file, <-isTestFile_spec.
  destruct (dev m), (isTestFile fileName); naive_solver.
Qed.
End files.

#[export] Hint Resolve monotone_readFileSync monotone_getUsedModules : jsdb.

Lemma getUsedModules_reads_all_witness :
  @getUsedModules (example_env false)
    (example_world (js "require('lodash');require('chalk');require('lodash')")
       example_manifest) =
  (Ok [mkModule (js "lodash") false; mkModule (js "chalk") false],
   example_world (js "require('lodash');require('chalk');require('lodash')")
     example_manifest).
Proof.
  rewrite (@getUsedModules_reads_all (example_env false))
    by decide_by_computation.
  vm_compute. reflexivity.
Defined.

Lemma getUsedModules_aborts_on_unreadable_witness :
  @getUsedModules (example_env false) (mkWorld ∅ []) =
  (Throw (ReadError (js "index.js")), mkWorld ∅ []).
Proof.
  apply (@getUsedModules_aborts_on_unreadable (example_env false) _
           [] (js "index.js") []); [done|constructor|apply lookup_empty].
Defined.
