(* ===== verification/Glob.v ===== *)
(** * The files that a run scans

    [getFiles] of [src/helpers.js] asks [glob] for the paths that match
    the pattern [**/*.js] and do not match the pattern
    [node_modules/**/*].  This file holds the two patterns
    ([source_pattern], [ignore_pattern]), the way [minimatch] matches a
    pattern against a path ([match_parts]), and what the program needs
    of [glob.sync], as laws on the environment ([GlobLaws]): the
    paths it lists are scanned paths, and every file with such a path is
    listed.  The order of the list is left to the environment;
    [glob_list] lists the files in the order of their paths.

    A path is relative to the directory of the run, as [glob] builds it:
    segments separated by [/], none of them empty.  On such paths the
    two patterns are proved to say what [source_file] and [ignored] say
    directly ([scanned_source_file]).

    Against the laws, the modules that [getUsedModules] returns are the
    references of the files whose path is scanned
    ([getUsedModules_scanned]): the search leaves out the directory
    [node_modules] of the project, hidden files and directories, and
    the files that do not end with [.js], and nothing else; the
    directories [node_modules] further down are searched. *)

From stdpp Require Import sorting lexico.
From S2P Require Import Prelude JsRuntime Modules Dedup Classifier Extractor.
From S2P Require Import World Files.

#[local] Open Scope N_scope.

(** ** Paths *)

(** The segments of a path: what [/] separates. *)
Fixpoint segments (path : jsstring) : list jsstring :=
  match path with
  | [] => [[]]
  | c :: path' =>
      if c =? 47 then [] :: segments path'
      else
        match segments path' with
        | seg :: segs => (c :: seg) :: segs
        | [] => [[c]]
        end
  end.

(** The path of a list of segments. *)
Fixpoint path_of (segs : list jsstring) : jsstring :=
  match segs with
  | [] => []
  | [seg] => seg
  | seg :: segs' => seg ++ 47 :: path_of segs'
  end.

(** A segment that starts with a dot. *)
Definition hidden (seg : jsstring) : bool :=
  match seg with
  | c :: _ => c =? 46
  | [] => false
  end.

(** The segments [.] and [..]. *)
Definition dots (seg : jsstring) : bool :=
  bool_decide (seg = [46]) || bool_decide (seg = [46; 46]).

(** ** Patterns, as [minimatch] reads them *)

(** A pattern is a list of parts, one for a segment, or [**] for any
    number of them; a part is made of characters and of [*]. *)
Inductive glob_atom : Type :=
| GStar
| GChar (c : N).

Inductive glob_part : Type :=
| Globstar
| Part (atoms : list glob_atom).

(** [*] before what [rest] matches: any characters, then [rest]. *)
Fixpoint star (rest : jsstring → bool) (name : jsstring) : bool :=
  rest name ||
  match name with
  | _ :: name' => star rest name'
  | [] => false
  end.

(** The atoms against a name. *)
Fixpoint match_atoms (atoms : list glob_atom) (name : jsstring) : bool :=
  match atoms with
  | [] => match name with [] => true | _ :: _ => false end
  | GChar c :: atoms' =>
      match name with
      | d :: name' => (c =? d) && match_atoms atoms' name'
      | [] => false
      end
  | GStar :: atoms' => star (match_atoms atoms') name
  end.

(** A part against a segment.  A part that starts with [*] matches no
    empty segment, and no hidden segment unless the option [dot] is set;
    with the option it still does not match [.] and [..]. *)
Definition match_part (dot : bool) (atoms : list glob_atom)
    (seg : jsstring) : bool :=
  match atoms, seg with
  | GStar :: _, [] => false
  | GStar :: _, _ :: _ =>
      negb (if dot then dots seg else hidden seg) && match_atoms atoms seg
  | _, _ => match_atoms atoms seg
  end.

(** The segments that [**] goes through. *)
Definition swallowable (dot : bool) (seg : jsstring) : bool :=
  negb (dots seg) && (dot || negb (hidden seg)).

(** [**] before what [rest] matches: it goes through segments, one
    after the other, until [rest] matches what follows; [rest] is not
    tried when no segment is left. *)
Fixpoint swallow (dot : bool) (rest : list jsstring → bool)
    (segs : list jsstring) : bool :=
  match segs with
  | [] => false
  | seg :: segs' => rest segs || (swallowable dot seg && swallow dot rest segs')
  end.

(** The parts against the segments of a path.  [**] at the end takes
    what is left.  A path may end with a [/]. *)
Fixpoint match_parts (dot : bool) (pattern : list glob_part)
    (segs : list jsstring) : bool :=
  match pattern with
  | [] => match segs with [] | [[]] => true | _ => false end
  | Globstar :: pattern' =>
      match pattern' with
      | [] => forallb (swallowable dot) segs
      | _ :: _ => swallow dot (match_parts dot pattern') segs
      end
  | Part atoms :: pattern' =>
      match segs with
      | seg :: segs' =>
          match_part dot atoms seg && match_parts dot pattern' segs'
      | [] => false
      end
  end.

Definition minimatch (dot : bool) (pattern : list glob_part)
    (path : jsstring) : bool :=
  match_parts dot pattern (segments path).

(** ** The patterns of [getFiles] *)

Definition literal (s : string) : list glob_atom := GChar <$> js s.

(** [**/*.js] *)
Definition source_pattern : list glob_part :=
  [Globstar; Part (GStar :: literal ".js")].

(** [node_modules/**/*] *)
Definition ignore_pattern : list glob_part :=
  [Part (literal "node_modules"); Globstar; Part [GStar]].

(** The paths that [glob.sync("**/*.js", {ignore: ['node_modules/**/*']})]
    lists: they match the pattern, and do not match the pattern to
    ignore, which is read with the option [dot]. *)
Definition scanned (path : jsstring) : bool :=
  minimatch false source_pattern path &&
  negb (minimatch true ignore_pattern path).

(** ** The reference definitions *)

(** A source file: no directory of the path is hidden, and the name is
    not hidden and ends with [.js]. *)
Definition source_file (path : jsstring) : bool :=
  forallb (λ seg, negb (hidden seg)) (segments path) &&
  JsString.endsWith (List.last (segments path) []) (js ".js").

(** What is inside the directory [node_modules] of the project. *)
Definition ignored (path : jsstring) : bool :=
  match segments path with
  | seg :: _ :: _ => bool_decide (seg = js "node_modules")
  | _ => false
  end.

#[local] Close Scope N_scope.

(** ** The laws of [glob.sync] *)

Class GlobLaws `{Env} : Prop := {
  glob_scanned fsys path : path ∈ glob_sync fsys → scanned path = true;
  glob_complete fsys path :
    is_Some (fsys !! path) → scanned path = true → path ∈ glob_sync fsys;
}.
#[global] Arguments GlobLaws _ : clear implicits.

(** ** A [glob.sync] that keeps the laws *)

Section lexico_le.
Context `{Lexico A, !StrictOrder (@lexico A _), !TrichotomyT (@lexico A _)}.
Implicit Types x y z : A.

(** [x] is not after [y], in the lexicographic order. *)
Definition lexico_le x y : Prop := ¬ lexico y x.

#[global] Instance lexico_le_dec : RelDecision lexico_le.
Proof. intros x y. unfold lexico_le. apply _. Defined.

#[global] Instance lexico_le_total : Total lexico_le.
Proof.
  intros x y. unfold lexico_le.
  destruct (trichotomy lexico x y) as [Hxy|[->|Hyx]].
  - left. intros Hyx. by apply (irreflexivity lexico x); trans y.
  - left. apply irreflexivity, _.
  - right. intros Hxy. by apply (irreflexivity lexico x); trans y.
Qed.

#[global] Instance lexico_le_trans : Transitive lexico_le.
Proof.
  intros x y z Hxy Hyz Hzx. unfold lexico_le in *.
  destruct (trichotomy lexico x y) as [Hlt|[->|Hgt]]; [|done..].
  apply Hyz. by trans x.
Qed.

#[global] Instance lexico_le_antisymm : AntiSymm (=) lexico_le.
Proof.
  intros x y Hxy Hyx. by destruct (trichotomy lexico x y) as [?|[?|?]].
Qed.
End lexico_le.

(** The scanned files of a file system, sorted by their code units. *)
Definition glob_list (fsys : gmap jsstring jsstring) : list jsstring :=
  merge_sort lexico_le (List.filter scanned (map_to_list fsys).*1).

(** ** Lemmas *)

Section paths.
Implicit Types (path seg name s : jsstring) (segs : list jsstring) (c : N)
  (atoms : list glob_atom) (dot : bool).

Lemma segments_nonempty path : segments path ≠ [].
Proof. destruct path as [|c path]; [done|]. simpl. by repeat case_match. Qed.

Lemma segments_cons c path :
  c ≠ 47%N →
  segments (c :: path) =
  (c :: default [] (head (segments path))) :: tail (segments path).
Proof.
  intros Hc. cbn [segments]. rewrite (proj2 (N.eqb_neq _ _) Hc).
  pose proof (segments_nonempty path). by destruct (segments path).
Qed.

(** A name and the segments after it. *)
Lemma segments_app seg path :
  47%N ∉ seg → segments (seg ++ 47%N :: path) = seg :: segments path.
Proof.
  induction seg as [|c seg IH]; [done|]. intros [Hc Hseg]%not_elem_of_cons.
  cbn [app]. rewrite segments_cons by done. by rewrite IH.
Qed.

Lemma segments_name seg : 47%N ∉ seg → segments seg = [seg].
Proof.
  induction seg as [|c seg IH]; [done|]. intros [Hc Hseg]%not_elem_of_cons.
  rewrite segments_cons by done. by rewrite IH.
Qed.

(** The segments of the path of a list of names. *)
Lemma segments_path_of segs :
  segs ≠ [] → Forall (λ seg, 47%N ∉ seg) segs → segments (path_of segs) = segs.
Proof.
  intros Hsegs Hall. induction Hall as [|seg segs Hseg Hall IH]; [done|].
  destruct segs as [|seg' segs]; [by apply segments_name|].
  change (path_of (seg :: seg' :: segs))
    with (seg ++ 47%N :: path_of (seg' :: segs)).
  by rewrite segments_app, IH.
Qed.

Lemma path_of_segments path : path_of (segments path) = path.
Proof.
  induction path as [|c path IH]; [done|]. cbn [segments].
  pose proof (segments_nonempty path) as Hne.
  destruct (N.eqb_spec c 47) as [->|Hc].
  - destruct (segments path) as [|seg segs] eqn:Hsegs; [done|].
    by rewrite <-IH.
  - destruct (segments path) as [|seg [|seg' segs]]; [done|..];
      simpl in *; by rewrite <-IH.
Qed.

#[global] Instance segments_inj : Inj (=) (=) segments.
Proof.
  intros p q Hpq. by rewrite <-(path_of_segments p), Hpq, path_of_segments.
Qed.

(** *** The matcher *)

(** Characters match themselves. *)
Lemma match_atoms_chars s name :
  match_atoms (GChar <$> s) name = bool_decide (name = s).
Proof.
  revert name. induction s as [|c s IH]; intros [|d name]; simpl; try done.
  rewrite IH. destruct (N.eqb_spec c d) as [->|]; simpl;
    repeat case_bool_decide; naive_solver.
Qed.

(** [*] and characters: the names that end with the characters. *)
Lemma match_atoms_star_chars s name :
  match_atoms (GStar :: (GChar <$> s)) name = JsString.endsWith name s.
Proof.
  cbn [match_atoms]. unfold JsString.endsWith.
  induction name as [|d name IH]; cbn [star]; rewrite match_atoms_chars.
  - rewrite orb_false_r.
    apply bool_decide_ext. split; [by intros <-|]. by intros ->%suffix_nil_inv.
  - rewrite IH. clear IH. destruct (decide (d :: name = s)) as [<-|Hne].
    + rewrite (bool_decide_eq_true_2 (d :: name = d :: name)) by done.
      symmetry. by apply bool_decide_eq_true_2.
    + rewrite (bool_decide_eq_false_2 _ Hne). cbn [orb].
      apply bool_decide_ext. split; [apply suffix_cons_r|].
      by intros [?|?]%suffix_cons_inv_r.
Qed.

Lemma match_part_chars dot s seg :
  match_part dot (GChar <$> s) seg = bool_decide (seg = s).
Proof. rewrite <-match_atoms_chars. by destruct s, seg. Qed.

Lemma match_atoms_star name : match_atoms [GStar] name = true.
Proof.
  cbn [match_atoms]. induction name as [|d name IH]; [done|].
  cbn [star]. by rewrite IH, orb_true_r.
Qed.

Lemma dots_hidden seg : dots seg = true → hidden seg = true.
Proof.
  unfold dots. intros [Hd|Hd]%orb_prop; apply bool_decide_eq_true in Hd;
    by subst.
Qed.

Lemma swallowable_hidden seg : swallowable false seg = negb (hidden seg).
Proof.
  unfold swallowable. pose proof (dots_hidden seg).
  destruct (dots seg), (hidden seg); naive_solver.
Qed.

Lemma match_parts_globstar dot part pattern segs :
  match_parts dot (Globstar :: part :: pattern) segs =
  swallow dot (match_parts dot (part :: pattern)) segs.
Proof. done. Qed.

Lemma match_parts_part dot atoms pattern seg segs :
  match_parts dot (Part atoms :: pattern) (seg :: segs) =
  match_part dot atoms seg && match_parts dot pattern segs.
Proof. done. Qed.

(** The pattern [**/*.js] on the segments of a path. *)
Lemma match_source_pattern segs :
  Forall (λ seg, seg ≠ []) segs →
  match_parts false source_pattern segs =
  match segs with
  | [] => false
  | _ :: _ =>
      forallb (λ seg, negb (hidden seg)) segs &&
      JsString.endsWith (List.last segs []) (js ".js")
  end.
Proof.
  unfold source_pattern. cbn [match_parts].
  induction 1 as [|seg segs Hseg Hsegs IH]; [done|]. cbn [swallow forallb].
  rewrite IH, swallowable_hidden. clear IH. unfold match_part, literal.
  destruct seg as [|c seg]; [done|]. rewrite match_atoms_star_chars.
  destruct Hsegs as [|seg' segs Hseg' _].
  - cbn [forallb List.last]. generalize (hidden (c :: seg)).
    generalize (JsString.endsWith (c :: seg) (js ".js")). by intros [] [].
  - destruct seg' as [|c' seg']; [done|]. rewrite andb_false_r. cbn [orb].
    change (List.last ((c :: seg) :: (c' :: seg') :: segs) [])
      with (List.last ((c' :: seg') :: segs) []).
    by rewrite andb_assoc.
Qed.

(** The pattern [node_modules/**/*] on the segments of a path. *)
Lemma match_ignore_pattern segs :
  Forall (λ seg, seg ≠ [] ∧ dots seg = false) segs →
  match_parts true ignore_pattern segs =
  match segs with
  | seg :: _ :: _ => bool_decide (seg = js "node_modules")
  | _ => false
  end.
Proof.
  unfold ignore_pattern. intros Hall.
  destruct Hall as [|seg segs _ Hsegs]; [done|].
  rewrite match_parts_part, match_parts_globstar. unfold literal.
  rewrite match_part_chars.
  assert (swallow true (match_parts true [Part [GStar]]) segs =
          match segs with [] => false | _ :: _ => true end) as ->.
  { induction Hsegs as [|seg' segs [Hne Hdots] Hsegs IH]; [done|].
    cbn [swallow]. rewrite match_parts_part. unfold match_part, swallowable.
    rewrite IH, Hdots, match_atoms_star. destruct seg'; [done|].
    destruct Hsegs; [done|]. cbn [negb andb orb]. by rewrite orb_true_r. }
  by destruct segs; rewrite ?andb_true_r, ?andb_false_r.
Qed.

(** The two patterns say what [source_file] and [ignored] say. *)
Lemma scanned_source_file path :
  Forall (λ seg, seg ≠ []) (segments path) →
  scanned path = source_file path && negb (ignored path).
Proof.
  intros Hsegs. unfold scanned, minimatch, source_file, ignored.
  rewrite match_source_pattern by done.
  destruct (segments path) as [|seg segs]; [done|].
  destruct (forallb _ _) eqn:Hhidden; [|done].
  rewrite match_ignore_pattern; [done|].
  apply forallb_Forall in Hhidden.
  eapply Forall_impl; [apply Forall_and; split; [exact Hsegs|exact Hhidden]|].
  intros x [Hne Hx]. split; [done|]. pose proof (dots_hidden x).
  destruct (dots x), (hidden x); naive_solver.
Qed.

(** The scanned paths, by their directories and their name. *)
Lemma scanned_path_of dirs file :
  Forall (λ seg, seg ≠ [] ∧ 47%N ∉ seg) (dirs ++ [file]) →
  scanned (path_of (dirs ++ [file])) = true ↔
  Forall (λ dir, hidden dir = false) dirs ∧ hidden file = false ∧
  js ".js" `suffix_of` file ∧ head dirs ≠ Some (js "node_modules").
Proof.
  intros [Hne Hsegs]%Forall_and.
  assert (segments (path_of (dirs ++ [file])) = dirs ++ [file]) as Heq
    by (apply segments_path_of; [by destruct dirs|done]).
  rewrite scanned_source_file by (by rewrite Heq).
  unfold source_file, ignored. rewrite Heq.
  rewrite List.last_last, !andb_true_iff, negb_true_iff, forallb_Forall.
  rewrite Forall_app, Forall_singleton, JsString.endsWith_true.
  assert (match dirs ++ [file] with
          | seg :: _ :: _ => bool_decide (seg = js "node_modules")
          | _ => false
          end = false ↔ head dirs ≠ Some (js "node_modules")) as ->.
  { destruct dirs as [|dir [|dir' dirs]]; simpl;
      rewrite ?bool_decide_eq_false; naive_solver. }
  setoid_rewrite negb_true_iff. unfold suffix. naive_solver.
Qed.
End paths.

(** ** The modules in use, against the laws *)

Section laws.
Context `{Env} `{!GlobLaws _}.
Implicit Types (w : World) (m : ModuleRef) (ms : list ModuleRef)
  (path text : jsstring).

(** The files that are listed, when all of them can be read. *)
Lemma elem_of_glob_sync fsys path :
  readable fsys (glob_sync fsys) →
  path ∈ glob_sync fsys ↔ is_Some (fsys !! path) ∧ scanned path = true.
Proof.
  intros Hread. split.
  - intros Hpath. split; [|by eapply glob_scanned].
    by apply (proj1 (Forall_forall _ _) Hread).
  - intros [??]. by apply glob_complete.
Qed.

Lemma elem_of_scan_glob fsys m :
  readable fsys (glob_sync fsys) →
  m ∈ scan_files fsys (glob_sync fsys) ↔
  ∃ path text, fsys !! path = Some text ∧ scanned path = true ∧
               m ∈ refs_of_file path text.
Proof.
  intros Hread. rewrite elem_of_scan_files. split.
  - intros (path & [[text Htext] ?]%elem_of_glob_sync & Hm); [|done].
    rewrite Htext in Hm. by exists path, text.
  - intros (path & text & Htext & Hpath & Hm). exists path.
    rewrite Htext. split; [|done]. by apply glob_complete.
Qed.
End laws.

(** ** An environment that keeps the laws *)

Lemma elem_of_glob_list fsys path :
  path ∈ glob_list fsys ↔ is_Some (fsys !! path) ∧ scanned path = true.
Proof.
  unfold glob_list.
  rewrite merge_sort_Permutation, elem_of_filterb, list_elem_of_fmap. split.
  - intros [([p text] & -> & Hp%elem_of_map_to_list) ?]. by split; [eexists|].
  - intros [[text Htext] ?]. split; [|done]. exists (path, text).
    by rewrite elem_of_map_to_list.
Qed.

Lemma NoDup_glob_list fsys : NoDup (glob_list fsys).
Proof.
  unfold glob_list. rewrite merge_sort_Permutation.
  apply NoDup_filterb, NoDup_fst_map_to_list.
Qed.

(** A file that is not scanned does not change the list. *)
Lemma glob_list_insert fsys path text :
  scanned path = false → glob_list (<[path := text]> fsys) = glob_list fsys.
Proof.
  intros Hpath.
  apply (Sorted_unique lexico_le); [apply Sorted_merge_sort, _..|].
  apply NoDup_Permutation; [apply NoDup_glob_list..|]. intros p.
  rewrite !elem_of_glob_list. destruct (decide (p = path)) as [->|Hne].
  - rewrite Hpath. naive_solver.
  - by rewrite lookup_insert_ne by congruence.
Qed.

(** The environment of the examples, with the files that [glob_list]
    lists. *)
Definition glob_env (secure : bool) : Env := {|
  env_builtins := node_builtins;
  glob_sync := glob_list;
  sync_exec command fsys := (0%Z, fsys);
  sync_request url := RequestReturns;
  argv_secure := secure;
|}.

#[global] Instance glob_env_lawful secure : GlobLaws (glob_env secure).
Proof.
  split; cbn [glob_sync glob_env]; intros fsys path.
  - by intros [_ ?]%elem_of_glob_list.
  - intros. by apply elem_of_glob_list.
Qed.

(** The laws leave the order of the list open, and nothing else: a
    [glob.sync] that keeps them and lists no file twice lists the files
    of [glob_list]. *)
Lemma glob_sync_glob_list `{Env} `{!GlobLaws _} fsys :
  readable fsys (glob_sync fsys) → NoDup (glob_sync fsys) →
  glob_sync fsys ≡ₚ glob_list fsys.
Proof.
  intros Hread Hdup. apply NoDup_Permutation; [done|apply NoDup_glob_list|].
  intros path. by rewrite elem_of_glob_sync, elem_of_glob_list.
Qed.

(** ** Main results *)

Section results.
Context `{Env} `{!GlobLaws _}.
Implicit Types (w : World) (m : ModuleRef) (ms : list ModuleRef)
  (path text file : jsstring) (dirs : list jsstring).

(** C17 With a [glob] that keeps its laws and files that can be read,
    [getUsedModules] returns, leaves the world as it is, and its modules
    are pairwise distinct and are the references of the files whose path
    is scanned, each with the flag of its file: a name in the text of
    such a file, [dev] when the path ends with [.spec.js] or [.test.js].
    A file inside [node_modules], a hidden file or a file that does not
    end with [.js] contributes nothing. *)
Theorem getUsedModules_scanned w :
  readable (files w) (glob_sync (files w)) →
  ∃ ms, getUsedModules w = (Ok ms, w) ∧ NoDup ms ∧
    ∀ m, m ∈ ms ↔
         ∃ path text, files w !! path = Some text ∧ scanned path = true ∧
                      name m ∈ modulesFromContent text ∧
                      dev m = isTestFile path.
Proof.
  intros Hread. eexists. split_and!; [by apply run_getUsedModules_ok|..].
  - apply deduplicate_NoDup.
  - intros m. rewrite elem_of_deduplicate, elem_of_scan_glob by done.
    by setoid_rewrite elem_of_refs_of_file.
Qed.

(** C16 With a [glob] that keeps its laws, [getFiles] lists a file of
    the project exactly when none of its directories is hidden, its
    name is not hidden and ends with [.js], and its first directory is
    not [node_modules].  The directories [node_modules] further down
    are searched. *)
Theorem getFiles_lists w dirs file text arg :
  Forall (λ seg, seg ≠ [] ∧ 47%N ∉ seg) (dirs ++ [file]) →
  files w !! path_of (dirs ++ [file]) = Some text →
  ∃ paths, getFiles arg w = (Ok paths, w) ∧
    (path_of (dirs ++ [file]) ∈ paths ↔
     Forall (λ dir, hidden dir = false) dirs ∧ hidden file = false ∧
     js ".js" `suffix_of` file ∧ head dirs ≠ Some (js "node_modules")).
Proof.
  intros Hsegs Hfile. eexists. split; [apply run_getFiles|].
  rewrite <-scanned_path_of by done. split; [apply glob_scanned|].
  by apply glob_complete.
Qed.
End results.

(** A project with a source file, a test, a hidden configuration file,
    a dependency, and a package with a dependency of its own. *)
Definition glob_world : World :=
  mkWorld
    {[ js "index.js" := js "require('chalk')";
       js "test/index.test.js" := js "require('mocha')";
       js ".eslintrc.js" := js "require('eslint')";
       js "README.md" := js "require('readme')";
       js "node_modules/chalk/index.js" := js "require('ansi')";
       js "packages/cli/node_modules/yargs/index.js" := js "require('y18n')";
       js "package.json" := example_manifest ]} [].

Lemma getUsedModules_scanned_witness :
  ∃ ms, @getUsedModules (glob_env false) glob_world = (Ok ms, glob_world) ∧
    NoDup ms ∧
    ∀ m, m ∈ ms ↔
         ∃ path text, files glob_world !! path = Some text ∧
                      scanned path = true ∧
                      name m ∈ modulesFromContent text ∧
                      dev m = isTestFile path.
Proof.
  apply (@getUsedModules_scanned (glob_env false) _ glob_world).
  decide_by_computation.
Defined.

(** The modules in use in that project. *)
Example glob_world_modules :
  @getUsedModules (glob_env false) glob_world =
  (Ok [mkModule (js "mocha") true; mkModule (js "chalk") false;
       mkModule (js "y18n") false], glob_world).
Proof. vm_compute. reflexivity. Qed.

Lemma getFiles_lists_witness :
  ∃ paths, @getFiles (glob_env false) None glob_world = (Ok paths, glob_world) ∧
    (js "packages/cli/node_modules/yargs/index.js" ∈ paths ↔
     Forall (λ dir, hidden dir = false)
       [js "packages"; js "cli"; js "node_modules"; js "yargs"] ∧
     hidden (js "index.js") = false ∧ js ".js" `suffix_of` js "index.js" ∧
     head [js "packages"; js "cli"; js "node_modules"; js "yargs"] ≠
       Some (js "node_modules")).
Proof.
  apply (@getFiles_lists (glob_env false) _ glob_world
           [js "packages"; js "cli"; js "node_modules"; js "yargs"]
           (js "index.js") (js "require('y18n')") None);
    [decide_by_computation|vm_compute; reflexivity].
Defined.

(** The files of that project that are searched: the dependency of the
    package is one of them, the dependency of the project is not. *)
Example glob_world_files :
  @getFiles (glob_env false) None glob_world =
  (Ok [js "index.js"; js "packages/cli/node_modules/yargs/index.js";
       js "test/index.test.js"], glob_world).
Proof. vm_compute. reflexivity. Qed.

Example scanned_examples :
  scanned <$> [js "a.js"; js "lib/a.js"; js ".a.js"; js ".git/a.js";
               js "a.jsx"; js "a.JS"; js "node_modules/a.js";
               js "node_modules.js"; js "lib/node_modules/a.js"] =
  [true; true; false; false; false; false; false; true; true].
Proof. vm_compute. reflexivity. Qed.
