(* ===== verification/Manifest.v ===== *)
(** * Reading the manifest

    [getInstalledModules] of [src/helpers.js]: the text of
    [package.json] is read and parsed, and the keys of its [dependencies]
    and [devDependencies] are listed with [for in].  [JSON.parse] is
    [JSON_parse] of [Json.v]; property access ([get_prop]) and the
    keys [for in] visits ([for_in_keys]) follow the language: a property
    of [null] throws, a value that is not an object has no [dependencies],
    a loop over [undefined], [null], a number or a boolean has no
    iteration, and a loop over a string or an array visits its indices. *)

From Stdlib Require Import Decimal DecimalN.
From S2P Require Import Prelude JsRuntime Modules Dedup Classifier World Json.
From S2P Require Import JsonSpec JsonPrint Files.

(** ** The language *)

(** The decimal text of an index. *)
Definition index_key (i : nat) : jsstring :=
  uint_text (N.to_uint (N.of_nat i)).

(** The value of [props] at [key]. *)
Fixpoint lookup_prop (key : jsstring) (props : list (jsstring * json))
    : option json :=
  match props with
  | [] => None
  | (k, v) :: props' =>
      if bool_decide (k = key) then Some v else lookup_prop key props'
  end.

(** [v.key], for a [key] that strings and arrays do not have; [None] is
    [undefined]. *)
Definition get_prop (v : json) (key : jsstring) : eff (option json) :=
  match v with
  | JNull => mthrow TypeError
  | JObject props => mret (lookup_prop key props)
  | _ => mret None
  end.

(** The keys that [for (let key in v)] visits. *)
Definition for_in_keys (v : option json) : list jsstring :=
  match v with
  | Some (JObject props) => props.*1
  | Some (JArray xs) => index_key <$> seq 0 (length xs)
  | Some (JString s) => index_key <$> seq 0 (length s)
  | _ => []
  end.

Section manifest.
Implicit Types (w : World) (v content : json) (key : jsstring).

(** [JSON.parse(text)] *)
Definition parse (text : jsstring) : eff json :=
  match JSON_parse text with
  | Some v => mret v
  | None => mthrow SyntaxError
  end.

(** ** The source's definition *)

(** [for (let key in section) installedModules.push({name: key, dev})] *)
Definition push_keys (dev : bool) (installedModules : list ModuleRef)
    (section : option json) : list ModuleRef :=
  foldl (λ installedModules key, installedModules ++ [mkModule key dev])
    installedModules (for_in_keys section).

Definition getInstalledModules : eff (list ModuleRef) :=
  text ← readFile (js "package.json");
  content ← parse text;
  let installedModules := [] in
  dependencies ← get_prop content (js "dependencies");
  let installedModules := push_keys false installedModules dependencies in
  devDependencies ← get_prop content (js "devDependencies");
  let installedModules := push_keys true installedModules devDependencies in
  mret installedModules.

(** ** The reference definition *)

(** The modules that a manifest with value [content] declares. *)
Definition declared (content : json) : list ModuleRef :=
  match content with
  | JObject props =>
      (flip mkModule false <$>
         for_in_keys (lookup_prop (js "dependencies") props)) ++
      (flip mkModule true <$>
         for_in_keys (lookup_prop (js "devDependencies") props))
  | _ => []
  end.

(** The value of the manifest of a file system, when it can be read and
    parsed. *)
Definition manifest_of (fsys : gmap jsstring jsstring) : option json :=
  fsys !! js "package.json" ≫= JSON_parse.

(** ** Lemmas *)

Lemma push_keys_fmap dev (installedModules : list ModuleRef) section :
  push_keys dev installedModules section =
  installedModules ++ (flip mkModule dev <$> for_in_keys section).
Proof.
  unfold push_keys. revert installedModules.
  induction (for_in_keys section) as [|k ks IH]; intros ms; simpl.
  - by rewrite (right_id_L [] (++)).
  - by rewrite IH, <-(assoc_L (++)).
Qed.

Lemma run_parse_ok text v w :
  JSON_parse text = Some v → parse text w = (Ok v, w).
Proof. unfold parse. by intros ->. Qed.

Lemma run_parse_throw text w :
  JSON_parse text = None → parse text w = (Throw SyntaxError, w).
Proof. unfold parse. by intros ->. Qed.

(** What follows the parse in [getInstalledModules]. *)
Lemma run_sections content w :
  (dependencies ← get_prop content (js "dependencies");
   devDependencies ← get_prop content (js "devDependencies");
   mret (push_keys true (push_keys false [] dependencies) devDependencies))
    w =
  (match content with
   | JNull => Throw TypeError
   | _ => Ok (declared content)
   end, w).
Proof.
  destruct content as [| | | | |props]; try done.
  cbn [get_prop declared]. eff_unfold. by rewrite !push_keys_fmap.
Qed.

Lemma run_getInstalledModules_read w text :
  files w !! js "package.json" = Some text →
  getInstalledModules w =
  match JSON_parse text with
  | None => (Throw SyntaxError, w)
  | Some JNull => (Throw TypeError, w)
  | Some content => (Ok (declared content), w)
  end.
Proof.
  intros Hfile. unfold getInstalledModules.
  rewrite (run_bind_ok _ _ _ text w)
    by (by rewrite run_readFile, (run_readFileSync_ok _ _ _ Hfile)).
  destruct (JSON_parse text) as [content|] eqn:Hparse.
  - rewrite (run_bind_ok _ _ _ _ _ (run_parse_ok _ _ _ Hparse)).
    rewrite run_sections. by destruct content.
  - by rewrite (run_bind_throw _ _ _ _ _ (run_parse_throw _ _ Hparse)).
Qed.

Lemma run_getInstalledModules_unread w :
  files w !! js "package.json" = None →
  getInstalledModules w = (Throw (ReadError (js "package.json")), w).
Proof.
  intros Hfile. unfold getInstalledModules.
  by rewrite (run_bind_throw _ _ _ (ReadError (js "package.json")) w)
    by (by rewrite run_readFile, (run_readFileSync_throw _ _ Hfile)).
Qed.

Lemma run_getInstalledModules_ok w content :
  manifest_of (files w) = Some content → content ≠ JNull →
  getInstalledModules w = (Ok (declared content), w).
Proof.
  unfold manifest_of. destruct (files w !! js "package.json") as [text|] eqn:Hfile;
    [|done].
  simpl. intros Hparse Hnull.
  rewrite (run_getInstalledModules_read _ _ Hfile), Hparse. by destruct content.
Qed.

Lemma elem_of_declared props m :
  m ∈ declared (JObject props) ↔
  name m ∈ for_in_keys
    (lookup_prop (js (if dev m then "devDependencies" else "dependencies"))
       props).
Proof.
  unfold declared. rewrite elem_of_app, !list_elem_of_fmap.
  destruct m as [n [|]]; simpl; split.
  - intros [(k & [=] & _)|(k & [= ->] & ?)]; done.
  - intros ?. right. by exists n.
  - intros [(k & [= ->] & ?)|(k & [=] & _)]; done.
  - intros ?. left. by exists n.
Qed.

(** [getInstalledModules] on every world. *)
Lemma getInstalledModules_cases w :
  getInstalledModules w =
  (match files w !! js "package.json" with
   | None => Throw (ReadError (js "package.json"))
   | Some text =>
       match JSON_parse text with
       | None => Throw SyntaxError
       | Some JNull => Throw TypeError
       | Some content => Ok (declared content)
       end
   end, w).
Proof.
  destruct (files w !! js "package.json") as [text|] eqn:Hfile.
  - rewrite (run_getInstalledModules_read _ _ Hfile).
    by destruct (JSON_parse text) as [[]|].
  - by apply run_getInstalledModules_unread.
Qed.

Lemma read_only_getInstalledModules : read_only getInstalledModules.
Proof. intros w. by rewrite getInstalledModules_cases. Qed.

Lemma monotone_parse text : monotone (parse text).
Proof. unfold parse. solve_monotone. Qed.
#[local] Hint Resolve monotone_parse : jsdb.

Lemma monotone_get_prop v key : monotone (get_prop v key).
Proof. unfold get_prop. solve_monotone. Qed.
#[local] Hint Resolve monotone_get_prop : jsdb.

Lemma monotone_getInstalledModules : monotone getInstalledModules.
Proof.
  unfold getInstalledModules, readFile.
  solve_monotone.
Qed.
#[local] Hint Resolve monotone_getInstalledModules : jsdb.

#[global] Instance flip_mkModule_inj d : Inj (=) (=) (flip mkModule d).
Proof. by intros ?? [=]. Qed.

(** The modules a manifest declares are pairwise distinct when the keys
    of each of its two sections are. *)
Lemma declared_NoDup props :
  NoDup (for_in_keys (lookup_prop (js "dependencies") props)) →
  NoDup (for_in_keys (lookup_prop (js "devDependencies") props)) →
  NoDup (declared (JObject props)).
Proof.
  intros Hdeps Hdevs. unfold declared. apply NoDup_app. split_and!.
  - by apply (NoDup_fmap_2 _).
  - intros m (k & -> & _)%list_elem_of_fmap (k' & [=] & _)%list_elem_of_fmap.
  - by apply (NoDup_fmap_2 _).
Qed.

(** *** The keys of a value that was parsed *)

Lemma uint_text_inj : Inj (=) (=) uint_text.
Proof.
  intros u. induction u; intros []; intros; simplify_eq/=; f_equal; auto.
Qed.

#[global] Instance index_key_inj : Inj (=) (=) index_key.
Proof.
  intros i j Hij%uint_text_inj. apply (f_equal N.of_uint) in Hij.
  rewrite !Unsigned.of_to in Hij. lia.
Qed.

(** [for in] visits no key twice. *)
Lemma for_in_keys_NoDup v : well_formed v → NoDup (for_in_keys (Some v)).
Proof.
  destruct v; cbn [for_in_keys]; try by constructor.
  - intros _. apply (NoDup_fmap_2 _), NoDup_seq.
  - intros _. apply (NoDup_fmap_2 _), NoDup_seq.
  - inversion_clear 1. by apply ordered_NoDup.
Qed.

Lemma lookup_prop_Forall (P : json → Prop) key props v :
  Forall (λ kv, P kv.2) props → lookup_prop key props = Some v → P v.
Proof.
  induction 1 as [|[k x] props Hx _ IH]; cbn [lookup_prop]; [done|].
  case_bool_decide; naive_solver.
Qed.

Lemma declared_well_formed content :
  well_formed content → NoDup (declared content).
Proof.
  destruct content as [| | | | |props]; try by constructor.
  inversion_clear 1 as [| | | | |? _ Hall]. apply declared_NoDup.
  - destruct (lookup_prop _ props) as [v|] eqn:Hv; [|constructor].
    by eapply for_in_keys_NoDup, lookup_prop_Forall.
  - destruct (lookup_prop (js "devDependencies") props) as [v|] eqn:Hv;
      [|constructor].
    by eapply for_in_keys_NoDup, lookup_prop_Forall.
Qed.

(** ** Main results *)

(** C8 [getInstalledModules] on every world: it throws the read error
    when [package.json] cannot be read, a syntax error when its text does
    not parse, a type error when it parses to [null]; otherwise it
    returns the modules the manifest declares.  It never changes the
    files or the trace. *)
Theorem getInstalledModules_spec w :
  getInstalledModules w =
  (match files w !! js "package.json" with
   | None => Throw (ReadError (js "package.json"))
   | Some text =>
       match JSON_parse text with
       | None => Throw SyntaxError
       | Some JNull => Throw TypeError
       | Some content => Ok (declared content)
       end
   end, w).
Proof. apply getInstalledModules_cases. Qed.

(** The modules a manifest declares are the keys of its
    [dependencies], with [dev] false, followed by the keys of its
    [devDependencies], with [dev] true; a section that is absent
    contributes nothing. *)
Theorem declared_sections props m :
  m ∈ declared (JObject props) ↔
  (dev m = false ∧
   name m ∈ for_in_keys (lookup_prop (js "dependencies") props)) ∨
  (dev m = true ∧
   name m ∈ for_in_keys (lookup_prop (js "devDependencies") props)).
Proof. rewrite elem_of_declared. destruct (dev m); naive_solver. Qed.

(** C18 The modules that [getInstalledModules] returns are pairwise
    distinct, whatever the text of [package.json]: [JSON.parse] keeps
    one property for a key that the text writes twice, so a section
    lists a name once, and the two sections differ in [dev].
    [deduplicate] keeps all of them. *)
Theorem getInstalledModules_distinct w ms w' :
  getInstalledModules w = (Ok ms, w') →
  NoDup ms ∧ deduplicate ms ≡ₚ ms.
Proof.
  rewrite getInstalledModules_cases. intros Hrun.
  assert (NoDup ms) as Hnodup.
  { destruct (files w !! js "package.json") as [text|]; [|done].
    destruct (JSON_parse text) as [content|] eqn:Hparse; [|done].
    apply JSON_parse_well_formed, declared_well_formed in Hparse.
    by destruct content; simplify_eq. }
  split; [done|]. apply NoDup_Permutation; [apply deduplicate_NoDup|done|].
  intros m. apply elem_of_deduplicate.
Qed.

(** C19 The parser always ends, and the fuel that [JSON.parse] gives it
    is enough: with any larger amount [f], the parser reads the same
    value from the text of [package.json], and [getInstalledModules]
    returns the same result.  No [SyntaxError] is for lack of fuel. *)
Theorem getInstalledModules_fuel w text f :
  files w !! js "package.json" = Some text → fuel_for (length text) ≤ f →
  getInstalledModules w =
  (match read_value f text with
   | Some (content, rest) =>
       match skip_ws rest, content with
       | _ :: _, _ => Throw SyntaxError
       | [], JNull => Throw TypeError
       | [], _ => Ok (declared content)
       end
   | None => Throw SyntaxError
   end, w).
Proof.
  intros Hfile Hf. rewrite getInstalledModules_cases, Hfile. unfold JSON_parse.
  rewrite (read_value_fuel f) by done.
  destruct (read_value _ text) as [[content rest]|]; [|done].
  cbn [mbind option_bind]. by destruct (skip_ws rest), content.
Qed.

(** C15 Writing and reading the manifest: when [package.json] holds the
    text of a value that is not [null] and whose objects have their
    keys in the order of [for in], written with any white space between
    its tokens, before it and after it, [getInstalledModules] returns
    the modules that the value declares. *)
Theorem getInstalledModules_print w content gap colon before after :
  (∀ d, white (gap d)) → white colon → white before → white after →
  well_formed content → content ≠ JNull →
  files w !! js "package.json" =
    Some (before ++ print_at gap colon 0 content ++ after) →
  getInstalledModules w = (Ok (declared content), w).
Proof.
  intros Hgap Hcolon Hbefore Hafter Hwf Hnull Hfile.
  apply run_getInstalledModules_ok; [|done]. unfold manifest_of.
  rewrite Hfile. by apply JSON_parse_print_at.
Qed.
End manifest.

#[export] Hint Resolve monotone_parse monotone_get_prop monotone_getInstalledModules : jsdb.

Lemma getInstalledModules_distinct_witness :
  NoDup [mkModule (js "lodash") false] ∧
  deduplicate [mkModule (js "lodash") false] ≡ₚ [mkModule (js "lodash") false].
Proof.
  apply (getInstalledModules_distinct (example_world [] example_manifest)
           [mkModule (js "lodash") false] (example_world [] example_manifest)).
  vm_compute. reflexivity.
Defined.

Lemma getInstalledModules_fuel_witness :
  getInstalledModules (example_world [] example_manifest) =
  (match read_value 1000 example_manifest with
   | Some (content, rest) =>
       match skip_ws rest, content with
       | _ :: _, _ => Throw SyntaxError
       | [], JNull => Throw TypeError
       | [], _ => Ok (declared content)
       end
   | None => Throw SyntaxError
   end, example_world [] example_manifest).
Proof.
  apply (getInstalledModules_fuel (example_world [] example_manifest)
           example_manifest 1000); [done|vm_compute; lia].
Defined.

(** The manifest of the examples, on several lines. *)
Lemma getInstalledModules_print_witness :
  getInstalledModules
    (mkWorld {[ js "package.json" := print_indented example_content ++ [10%N] ]}
       []) =
  (Ok (declared example_content),
   mkWorld {[ js "package.json" := print_indented example_content ++ [10%N] ]}
     []).
Proof.
  apply (getInstalledModules_print _ example_content
           (λ d, 10%N :: replicate (2 * d) 32%N) [32%N] [] [10%N]);
    [apply white_indent|apply white_space|apply white_nil
    |exact (white_indent 0)|by repeat constructor|done
    |apply lookup_singleton_eq].
Defined.

(** A section that is an array or a string declares its indices. *)
Example declared_array_section :
  declared (JObject [(js "dependencies", JArray [JString (js "lodash")])]) =
  [mkModule (js "0") false].
Proof. vm_compute. reflexivity. Qed.

Example getInstalledModules_example :
  getInstalledModules
    (example_world [] example_manifest) =
  (Ok [mkModule (js "lodash") false], example_world [] example_manifest).
Proof. vm_compute. reflexivity. Qed.
