(* ===== verification/Actions.v ===== *)
(** * Commands, spinner and trust gate

    [runCommand], [startSpinner], [stopSpinner], [installModule],
    [uninstallModule], [reinstall], [secureMode], [POPULARITY_THRESHOLD]
    and [isModulePopular] of [src/helpers.js].  A command that runs is an
    event [Exec] of the trace and changes the files as [sync_exec] says;
    the spinner and the console are events.

    [isModulePopular] has no [return] of its own: the comparison with the
    threshold is the result of the callback it hands to [request], so the
    function returns [undefined] whenever it returns.  It also reads the
    property [name] of its argument, which is a string in its only call.
    Both are modelled as written; the theorems state what follows for
    [installModule] in secure mode.  What the callback itself computes
    from an answer of the registry is [popularity_callback_downloads]. *)

From S2P Require Import Prelude JsRuntime Modules Validator Classifier.
From S2P Require Import World Json JsonSpec JsonPrint Hoare Files Manifest.

#[local] Open Scope js_scope.

(** ** The source's definitions *)

(** The object [ora()] returns, with the two properties the program
    sets. *)
Record Spinner : Type := mkSpinner { text : jsstring; color : jsstring }.

(** [!message] for a message that is a string or [undefined]. *)
Definition falsy (message : option jsstring) : bool :=
  match message with
  | None | Some [] => true
  | Some (_ :: _) => false
  end.

(** The truth value of a boolean or [undefined]. *)
Definition truthy (v : option bool) : bool := default false v.

Section actions.
Context `{Env}.
Implicit Types (w : World) (name command message : jsstring)
  (module : ModuleRef).

(** [syncExec(command)]; the result is the [status] of the response. *)
Definition syncExec command : eff Z := λ w,
  let '(status, fsys) := sync_exec command (files w) in
  (Ok status, mkWorld fsys (trace w ++ [Exec command])).

Definition runCommand command : eff bool :=
  response ← syncExec command;
  mret (response =? 0)%Z.

Definition startSpinner message (type : jsstring) : eff Spinner :=
  let spinner := mkSpinner message type in
  emit (SpinnerStart (text spinner) (color spinner));;
  mret spinner.

Definition stopSpinner (spinner : Spinner) (message type : option jsstring)
    : eff unit :=
  emit SpinnerStop;;
  if falsy message then mret ()
  else
    let symbol :=
      if type === Some (js "red") then SymError
      else if type === Some (js "yellow") then SymWarning
      else SymSuccess in
    emit (ConsoleLog symbol (default [] message)).

Definition reinstall : eff unit :=
  spinner ← startSpinner (js "Cleaning up") (js "green");
  runCommand (js "npm install");;
  stopSpinner spinner None None.

Definition secureMode : bool :=
  let secureMode := false in
  if argv_secure then true else secureMode.

Definition POPULARITY_THRESHOLD : Z := 10000.

(** [m × 10 ^ e ≤ n] *)
Definition decimal_le (m e n : Z) : bool :=
  if (0 <=? e)%Z then (m * 10 ^ e <=? n)%Z else (m <=? n * 10 ^ (- e))%Z.

(** [n ≤ m × 10 ^ e] *)
Definition decimal_ge (m e n : Z) : bool :=
  if (0 <=? e)%Z then (n <=? m * 10 ^ e)%Z else (n * 10 ^ (- e) <=? m)%Z.

(** [d > n], for the double [d] nearest to [m × 10 ^ e] and an integer
    [n] that a double holds exactly, as it holds [n + 1].  Rounding is
    monotone and keeps these two integers, so the comparison is decided
    for every decimal that is not strictly between them; [None] is for
    the others. *)
Definition number_greater (m e n : Z) : option bool :=
  if decimal_le m e n then Some false
  else if decimal_ge m e (n + 1) then Some true
  else None.

(** [downloads > POPULARITY_THRESHOLD]; [None] where the comparison
    converts a string, an array or an object to a number first. *)
Definition greater_than (downloads : option json) (n : Z) : option bool :=
  match downloads with
  | None => Some false
  | Some JNull => Some (0 >? n)%Z
  | Some (JBool b) => Some ((if b then 1 else 0) >? n)%Z
  | Some (JNumber m e) => number_greater m e n
  | Some _ => None
  end.

(** The callback of [isModulePopular]. *)
Definition popularity_callback (body : jsstring) : eff (option bool) :=
  parsed ← parse body;
  downloads ← get_prop parsed (js "downloads");
  mret (greater_than downloads POPULARITY_THRESHOLD).

(** [request('GET', url, callback)] *)
Definition request {A} (url : jsstring) (callback : jsstring → eff A)
    : eff unit :=
  emit (Request url);;
  match sync_request url with
  | RequestThrows => mthrow (RequestError url)
  | RequestReturns => mret ()
  | RequestCalls body => callback body;; mret ()
  end.

Definition isModulePopular (arg : jsarg) : eff (option bool) :=
  let name := prop_name arg in
  let url :=
    js "https://apa.npmjs.org/downloads/point/last-month/" ++ to_string name in
  request url popularity_callback;;
  mret None.

Definition installModule module : eff unit :=
  let name := Modules.name module in
  let dev := Modules.dev module in
  spinner ← startSpinner (js "Installing " ++ name) (js "green");
  untrusted ←
    (if secureMode
     then popular ← isModulePopular (ArgString name);
          mret (negb (truthy popular))
     else mret false);
  if untrusted : bool
  then stopSpinner spinner (Some (name ++ js " not trusted"))
         (Some (js "yellow"))
  else
    let command := js "npm install " ++ name ++ js " --save" in
    let message := name ++ js " installed" in
    let command := if dev then command ++ js "-dev" else command in
    let message :=
      if dev then message ++ js " in devDependencies" else message in
    success ← runCommand command;
    if success : bool then stopSpinner spinner (Some message) (Some (js "green"))
    else stopSpinner spinner (Some (name ++ js " installation failed"))
           (Some (js "yellow")).

Definition uninstallModule module : eff unit :=
  let name := Modules.name module in
  let dev := Modules.dev module in
  spinner ← startSpinner (js "Uninstalling " ++ name) (js "red");
  let command := js "npm uninstall " ++ name ++ js " --save" in
  let message := name ++ js " removed" in
  let command := if dev then command ++ js "-dev" else command in
  let message :=
    if dev then message ++ js " from devDependencies" else message in
  runCommand command;;
  stopSpinner spinner (Some message) (Some (js "red")).

(** ** The reference definitions *)

(** The command line that installs, or removes, a module. *)
Definition npm_command (verb : string) module : jsstring :=
  js "npm " ++ js verb ++ js " " ++ name module ++
  js (if dev module then " --save-dev" else " --save").

(** The events of an installation whose command ends with [status]. *)
Definition install_events module (status : Z) : list event :=
  [ SpinnerStart (js "Installing " ++ name module) (js "green");
    Exec (npm_command "install" module);
    SpinnerStop;
    if bool_decide (status = 0%Z)
    then ConsoleLog SymSuccess
           (name module ++
            js (if dev module then " installed in devDependencies"
                else " installed"))
    else ConsoleLog SymWarning (name module ++ js " installation failed") ].

(** The events of a removal. *)
Definition uninstall_events module : list event :=
  [ SpinnerStart (js "Uninstalling " ++ name module) (js "red");
    Exec (npm_command "uninstall" module);
    SpinnerStop;
    ConsoleLog SymError
      (name module ++
       js (if dev module then " removed from devDependencies"
           else " removed")) ].

(** The address [isModulePopular] asks, whatever the module. *)
Definition popularity_url : jsstring :=
  js "https://apa.npmjs.org/downloads/point/last-month/undefined".

(** The exception of [isModulePopular], if it throws. *)
Definition popularity_error (url : jsstring) : option error :=
  match sync_request url with
  | RequestThrows => Some (RequestError url)
  | RequestReturns => None
  | RequestCalls body =>
      match JSON_parse body with
      | None => Some SyntaxError
      | Some JNull => Some TypeError
      | Some _ => None
      end
  end.

(** The events of an installation in secure mode. *)
Definition refused_events module : list event :=
  [ SpinnerStart (js "Installing " ++ name module) (js "green");
    Request popularity_url ] ++
  match popularity_error popularity_url with
  | Some _ => []
  | None =>
      [ SpinnerStop;
        ConsoleLog SymWarning (name module ++ js " not trusted") ]
  end.

(** [w] after a command. *)
Definition after_exec command w (evs : list event) : World :=
  mkWorld (sync_exec command (files w)).2 (trace w ++ evs).


(** ** Lemmas *)

Lemma falsy_app (s t : jsstring) : t ≠ [] → falsy (Some (s ++ t)) = false.
Proof. by destruct s, t. Qed.

Lemma npm_command_unfold verb module :
  npm_command verb module =
  let command := js "npm " ++ js verb ++ js " " ++ name module ++ js " --save" in
  if dev module then command ++ js "-dev" else command.
Proof.
  unfold npm_command. destruct (dev module); cbv zeta; [|done].
  by rewrite <-!(assoc_L (++)).
Qed.

Lemma run_syncExec command w :
  syncExec command w =
  (Ok (sync_exec command (files w)).1, after_exec command w [Exec command]).
Proof. unfold syncExec, after_exec. by destruct sync_exec. Qed.

Lemma run_runCommand command w :
  runCommand command w =
  (Ok ((sync_exec command (files w)).1 =? 0)%Z,
   after_exec command w [Exec command]).
Proof.
  unfold runCommand. by rewrite (run_bind_ok _ _ _ _ _ (run_syncExec _ _)).
Qed.

Lemma run_startSpinner message type w :
  startSpinner message type w =
  (Ok (mkSpinner message type),
   mkWorld (files w) (trace w ++ [SpinnerStart message type])).
Proof. done. Qed.

Lemma run_stopSpinner spinner (msg type : option jsstring) w :
  stopSpinner spinner msg type w =
  (Ok (),
   mkWorld (files w)
     (trace w ++ SpinnerStop ::
      if falsy msg then []
      else [ConsoleLog
              (if type === Some (js "red") then SymError
               else if type === Some (js "yellow") then SymWarning
               else SymSuccess) (default [] msg)])).
Proof.
  unfold stopSpinner, emit. eff_unfold. destruct (falsy msg); simpl;
    [done|].
  by rewrite <-(assoc_L (++)).
Qed.

(** A number without a fraction is compared as the integer it is. *)
Lemma number_greater_integer m e n :
  (0 ≤ e)%Z → number_greater m e n = Some (m * 10 ^ e >? n)%Z.
Proof.
  intros He. unfold number_greater, decimal_le, decimal_ge.
  rewrite (proj2 (Z.leb_le 0 e) He), Z.gtb_ltb.
  destruct (Z.leb_spec (m * 10 ^ e) n), (Z.leb_spec (n + 1) (m * 10 ^ e)),
    (Z.ltb_spec n (m * 10 ^ e)); (done || lia).
Qed.

(** The comparison is left open for the decimals strictly between [n]
    and [n + 1] only. *)
Lemma number_greater_None m e n :
  number_greater m e n = None ↔
  (e < 0 ∧ n * 10 ^ (- e) < m < (n + 1) * 10 ^ (- e))%Z.
Proof.
  unfold number_greater, decimal_le, decimal_ge.
  destruct (Z.leb_spec 0 e); repeat case_match;
    rewrite ?Z.leb_le, ?Z.leb_gt in *; split; try done; try lia.
Qed.

Lemma run_popularity_callback body w :
  ∃ r, popularity_callback body w = (r, w) ∧
       match r, JSON_parse body with
       | Throw e, None => e = SyntaxError
       | Throw e, Some JNull => e = TypeError
       | Ok _, Some v => v ≠ JNull
       | _, _ => False
       end.
Proof.
  unfold popularity_callback, parse. destruct (JSON_parse body) as [v|];
    [|by eexists].
  destruct v; by eexists.
Qed.

Lemma run_isModulePopular arg w :
  let url := js "https://apa.npmjs.org/downloads/point/last-month/" ++
             to_string (prop_name arg) in
  isModulePopular arg w =
  (match popularity_error url with Some e => Throw e | None => Ok None end,
   mkWorld (files w) (trace w ++ [Request url])).
Proof.
  intros url. unfold isModulePopular, request, popularity_error. fold url.
  eff_unfold. unfold emit. destruct (sync_request url) as [| |body]; try done.
  destruct (run_popularity_callback body
    (mkWorld (files w) (trace w ++ [Request url]))) as (r & -> & Hr).
  destruct r as [b|e], (JSON_parse body) as [[]|]; by subst.
Qed.

Lemma run_installModule_open module w :
  secureMode = false →
  installModule module w =
  (Ok (),
   after_exec (npm_command "install" module) w
     (install_events module
        (sync_exec (npm_command "install" module) (files w)).1)).
Proof.
  intros Hsec. unfold installModule. rewrite Hsec.
  eff_run (run_startSpinner (js "Installing " ++ name module) (js "green") w).
  rewrite (run_bind_ok _ _ _ false _ eq_refl). cbv zeta.
  rewrite <-(npm_command_unfold "install"). eff_run (run_runCommand _ _).
  unfold after_exec, install_events. cbn [files trace].
  destruct (Z.eqb_spec (sync_exec (npm_command "install" module) (files w)).1 0)
    as [->|Hst]; destruct (dev module);
    rewrite run_stopSpinner, falsy_app by done;
    cbn [files trace]; rewrite <-!(assoc_L (++));
    by rewrite ?(bool_decide_eq_false_2 _ Hst).
Qed.

(** The test [secureMode && !isModulePopular(name)] in secure mode. *)
Lemma run_untrusted name w :
  (popular ← isModulePopular (ArgString name);
   mret (negb (truthy popular))) w =
  (match popularity_error popularity_url with
   | Some e => Throw e
   | None => Ok true
   end, mkWorld (files w) (trace w ++ [Request popularity_url])).
Proof.
  unfold mbind, eff_bind. rewrite run_isModulePopular.
  change (js _ ++ to_string (prop_name (ArgString name))) with popularity_url.
  by destruct (popularity_error popularity_url).
Qed.

Lemma run_installModule_secure module w :
  secureMode = true →
  installModule module w =
  (match popularity_error popularity_url with
   | Some e => Throw e
   | None => Ok ()
   end, mkWorld (files w) (trace w ++ refused_events module)).
Proof.
  intros Hsec. unfold installModule, refused_events. rewrite Hsec.
  eff_run (run_startSpinner (js "Installing " ++ name module) (js "green") w).
  pose proof (run_untrusted (name module)
    (mkWorld (files w) (trace w ++
       [SpinnerStart (js "Installing " ++ name module) (js "green")])))
    as Hrun.
  destruct (popularity_error popularity_url) as [e|]; eff_run Hrun;
    cbn [files trace]; [by rewrite <-!(assoc_L (++))|].
  rewrite run_stopSpinner, falsy_app by done. cbn [files trace].
  by rewrite <-!(assoc_L (++)).
Qed.

Lemma run_uninstallModule module w :
  uninstallModule module w =
  (Ok (),
   after_exec (npm_command "uninstall" module) w (uninstall_events module)).
Proof.
  unfold uninstallModule.
  eff_run (run_startSpinner (js "Uninstalling " ++ name module) (js "red") w).
  cbv zeta. rewrite <-(npm_command_unfold "uninstall"). eff_run (run_runCommand _ _).
  unfold after_exec, uninstall_events. cbn [files trace].
  rewrite run_stopSpinner. cbn [files trace]. rewrite <-!(assoc_L (++)).
  by destruct (dev module); rewrite falsy_app.
Qed.

Lemma run_reinstall w :
  reinstall w =
  (Ok (),
   after_exec (js "npm install") w
     [SpinnerStart (js "Cleaning up") (js "green"); Exec (js "npm install");
      SpinnerStop]).
Proof.
  unfold reinstall.
  eff_run (run_startSpinner (js "Cleaning up") (js "green") w).
  eff_run (run_runCommand _ _). rewrite run_stopSpinner. unfold after_exec.
  cbn [files trace falsy]. by rewrite <-!(assoc_L (++)).
Qed.
(** ** The actions only add to the trace *)

Lemma monotone_syncExec command : monotone (syncExec command).
Proof. intros w. unfold syncExec. destruct sync_exec. by eexists. Qed.
#[local] Hint Resolve monotone_syncExec : jsdb.

Lemma monotone_runCommand command : monotone (runCommand command).
Proof. unfold runCommand. solve_monotone. Qed.
#[local] Hint Resolve monotone_runCommand : jsdb.

Lemma monotone_startSpinner message type : monotone (startSpinner message type).
Proof. unfold startSpinner. solve_monotone. Qed.
#[local] Hint Resolve monotone_startSpinner : jsdb.

Lemma monotone_stopSpinner spinner (msg type : option jsstring) :
  monotone (stopSpinner spinner msg type).
Proof. unfold stopSpinner. solve_monotone. Qed.
#[local] Hint Resolve monotone_stopSpinner : jsdb.

Lemma monotone_isModulePopular arg : monotone (isModulePopular arg).
Proof.
  unfold isModulePopular, request, popularity_callback. solve_monotone.
Qed.
#[local] Hint Resolve monotone_isModulePopular : jsdb.

Lemma monotone_installModule module : monotone (installModule module).
Proof.
  unfold installModule. solve_monotone.
Qed.
#[local] Hint Resolve monotone_installModule : jsdb.

Lemma monotone_uninstallModule module : monotone (uninstallModule module).
Proof.
  unfold uninstallModule. solve_monotone.
Qed.
#[local] Hint Resolve monotone_uninstallModule : jsdb.

Lemma monotone_reinstall : monotone reinstall.
Proof.
  unfold reinstall. solve_monotone.
Qed.
#[local] Hint Resolve monotone_reinstall : jsdb.

(** ** Properties of the files that the commands keep

    The helpers change the files through [syncExec] only: a property of
    the file system that every command keeps is an invariant of each of
    them, however it ends. *)

Section files_invariant.
Context (P : gmap jsstring jsstring → Prop).
Context (P_exec : ∀ command fsys, P fsys → P (sync_exec command fsys).2).

Lemma preserves_files_emit e : preserves (λ w, P (files w)) (emit e).
Proof. by apply preserves_emit. Qed.

Lemma preserves_files_syncExec command :
  preserves (λ w, P (files w)) (syncExec command).
Proof. intros w Hw. rewrite run_syncExec. by apply P_exec. Qed.

#[local] Hint Resolve preserves_files_emit preserves_files_syncExec : jsdb.

Lemma preserves_files_runCommand command :
  preserves (λ w, P (files w)) (runCommand command).
Proof. unfold runCommand. solve_preserves. Qed.

Lemma preserves_files_startSpinner message type :
  preserves (λ w, P (files w)) (startSpinner message type).
Proof. unfold startSpinner. solve_preserves. Qed.

Lemma preserves_files_stopSpinner spinner (msg type : option jsstring) :
  preserves (λ w, P (files w)) (stopSpinner spinner msg type).
Proof. unfold stopSpinner. solve_preserves. Qed.

Lemma preserves_files_isModulePopular arg :
  preserves (λ w, P (files w)) (isModulePopular arg).
Proof.
  unfold isModulePopular, request, popularity_callback, parse, get_prop.
  solve_preserves.
Qed.

#[local] Hint Resolve preserves_files_runCommand preserves_files_startSpinner
  preserves_files_stopSpinner preserves_files_isModulePopular : jsdb.

Lemma preserves_files_installModule module :
  preserves (λ w, P (files w)) (installModule module).
Proof. unfold installModule. solve_preserves. Qed.

Lemma preserves_files_uninstallModule module :
  preserves (λ w, P (files w)) (uninstallModule module).
Proof. unfold uninstallModule. solve_preserves. Qed.

Lemma preserves_files_reinstall : preserves (λ w, P (files w)) reinstall.
Proof. unfold reinstall. solve_preserves. Qed.
End files_invariant.

(** ** Main results *)

(** C4 In secure mode [installModule] runs no command and changes no
    file, whatever the module and whatever the registry answers: the
    request is sent, then the function throws the error of the request or
    reports the module as not trusted. *)
Theorem installModule_secure_never_installs module w :
  secureMode = true →
  installModule module w =
    (match popularity_error popularity_url with
     | Some e => Throw e
     | None => Ok ()
     end, mkWorld (files w) (trace w ++ refused_events module)) ∧
  commands (refused_events module) = [] ∧
  (popularity_error popularity_url = None →
   ConsoleLog SymWarning (name module ++ js " not trusted")
     ∈ refused_events module).
Proof.
  intros Hsec. split; [by apply run_installModule_secure|].
  unfold refused_events.
  destruct (popularity_error popularity_url); split; try done.
  intros _. set_solver.
Qed.

(** C9 When secure mode is off, [installModule] runs the command
    [npm install <name> --save], or [--save-dev] for a development
    module, once; it reports success when the status of the command is
    0 and failure otherwise, and never throws. *)
Theorem installModule_open module w :
  secureMode = false →
  installModule module w =
  (Ok (),
   after_exec (npm_command "install" module) w
     (install_events module
        (sync_exec (npm_command "install" module) (files w)).1)).
Proof. apply run_installModule_open. Qed.

(** C36 [uninstallModule] runs [npm uninstall <name> --save], or
    [--save-dev], once, and reports the module as removed whatever the
    status of the command. *)
Theorem uninstallModule_always_removed module w :
  uninstallModule module w =
    (Ok (),
     after_exec (npm_command "uninstall" module) w (uninstall_events module)) ∧
  commands (uninstall_events module) = [npm_command "uninstall" module] ∧
  last (uninstall_events module) =
    Some (ConsoleLog SymError
            (name module ++
             js (if dev module then " removed from devDependencies"
                 else " removed"))).
Proof. split; [apply run_uninstallModule|done]. Qed.

(** C37 [reinstall] runs [npm install] once, under the spinner, and
    prints nothing, whatever the status of the command: a failure of the
    command is not reported. *)
Theorem reinstall_spec w :
  reinstall w =
    (Ok (),
     mkWorld (sync_exec (js "npm install") (files w)).2
       (trace w ++
        [ SpinnerStart (js "Cleaning up") (js "green");
          Exec (js "npm install"); SpinnerStop ])) ∧
  ∀ sym message, ConsoleLog sym message ∉ events reinstall w.
Proof.
  split; [apply run_reinstall|]. intros sym message. unfold events.
  rewrite run_reinstall. unfold after_exec. cbn [snd trace].
  rewrite drop_app_length. set_solver.
Qed.

(** C38 [isModulePopular] never answers [true]: when it returns, it
    returns [undefined].  Called with a string, it asks the address that
    ends with [undefined], whatever the string. *)
Theorem isModulePopular_undefined name w :
  isModulePopular (ArgString name) w =
  (match popularity_error popularity_url with
   | Some e => Throw e
   | None => Ok None
   end, mkWorld (files w) (trace w ++ [Request popularity_url])).
Proof. apply (run_isModulePopular (ArgString name)). Qed.

(** C39 The callback of [isModulePopular] on an answer of the registry:
    when the body is the text of an object, in any layout, whose
    property [downloads] is a number without a fraction, the callback
    answers whether that number is above 10000, and 10000 itself is
    not; it leaves the world as it is. *)
Theorem popularity_callback_downloads gap colon before after props m e w :
  (∀ d, white (gap d)) → white colon → white before → white after →
  well_formed (JObject props) →
  lookup_prop (js "downloads") props = Some (JNumber m e) → (0 ≤ e)%Z →
  popularity_callback
    (before ++ print_at gap colon 0 (JObject props) ++ after) w =
  (Ok (Some (m * 10 ^ e >? 10000)%Z), w).
Proof.
  intros Hgap Hcolon Hbefore Hafter Hwf Hdownloads He.
  unfold popularity_callback, parse.
  rewrite (JSON_parse_print_at gap colon) by done.
  eff_unfold. cbn [get_prop]. eff_unfold.
  rewrite Hdownloads. cbn [greater_than].
  by rewrite number_greater_integer.
Qed.
End actions.

#[export] Hint Resolve monotone_syncExec monotone_runCommand monotone_startSpinner monotone_stopSpinner monotone_isModulePopular monotone_installModule monotone_uninstallModule monotone_reinstall : jsdb.

Lemma installModule_secure_never_installs_witness :
  (@installModule (example_env true) (mkModule (js "lodash") false)
     (mkWorld ∅ [])).2 =
  mkWorld ∅
    [ SpinnerStart (js "Installing lodash") (js "green");
      Request popularity_url; SpinnerStop;
      ConsoleLog SymWarning (js "lodash not trusted") ].
Proof.
  destruct (@installModule_secure_never_installs (example_env true)
              (mkModule (js "lodash") false) (mkWorld ∅ []) eq_refl)
    as [-> _].
  vm_compute. reflexivity.
Defined.

Lemma installModule_open_witness :
  @installModule (example_env false) (mkModule (js "mocha") true)
    (mkWorld ∅ []) =
  (Ok (),
   mkWorld ∅
     [ SpinnerStart (js "Installing mocha") (js "green");
       Exec (js "npm install mocha --save-dev"); SpinnerStop;
       ConsoleLog SymSuccess (js "mocha installed in devDependencies") ]).
Proof.
  rewrite (@installModule_open (example_env false)) by done.
  vm_compute. reflexivity.
Defined.

(** The answer of the registry for a package of 10000 downloads, as the
    registry writes it: the package is not popular. *)
Definition registry_answer : list (jsstring * json) :=
  [ (js "downloads", JNumber 10000 0);
    (js "start", JString (js "2026-10-01"));
    (js "end", JString (js "2026-10-31"));
    (js "package", JString (js "lodash")) ].

Lemma popularity_callback_downloads_witness :
  popularity_callback (print (JObject registry_answer)) (mkWorld ∅ []) =
  (Ok (Some false), mkWorld ∅ []).
Proof.
  rewrite <-(right_id_L [] (++) (print _)).
  apply (popularity_callback_downloads (λ _, []) [] [] [] registry_answer
           10000 0 (mkWorld ∅ []));
    [intros _; apply white_nil|apply white_nil|apply white_nil
    |apply white_nil|by repeat constructor|done|done].
Defined.

(** What the callback computes from the answer of the registry, for some
    texts of the number of downloads. *)
Example popularity_callback_examples w :
  (λ number, (popularity_callback
     (js "{" ++ quote (js "downloads") ++ js ": " ++ js number ++ js "}") w).1)
    <$> ["12345"; "1e4"; "100010e-1"; "1.00001E+04"; "-0"; "true";
         "[12345]"; "012345"; "12345."]%string =
  [Ok (Some true); Ok (Some false); Ok (Some true); Ok None; Ok (Some false);
   Ok (Some false); Ok None; Throw SyntaxError; Throw SyntaxError].
Proof. vm_compute. reflexivity. Qed.
