(* ===== verification/Pipeline.v ===== *)
(** * The run of the program

    [module_exports] is the object that [src/helpers.js] exports, and
    [main] is the script of [Script.v] over it: a run of the program.
    The helpers meet the contract of [Script.v]
    ([module_exports_contract]), and their actions return when secure mode
    is off or the registry answers ([module_exports_resilient]), so the
    theorems of the script hold of [main].

    The reference definitions are pure: [used_of] and [plan] compute the
    two differences from the files, [install_all] and [uninstall_all]
    thread the file system through the commands.  The theorems relate
    [main] to them: what it runs when the gate is open, that it runs no
    installation in secure mode, that nothing is run when the scan or the
    manifest fails, and that a manifest that declares the names in use
    leaves nothing to do. *)

From S2P Require Import Prelude JsRuntime Modules Dedup Diff Classifier.
From S2P Require Import Validator Extractor World Json Hoare Script Files Manifest.
From S2P Require Import Actions.

Section pipeline.
Context `{Env}.
Implicit Types (w : World) (m module : ModuleRef) (ms : list ModuleRef)
  (fsys : gmap jsstring jsstring) (content : json).

Definition module_exports : Exports.t := {|
  Exports.getInstalledModules := getInstalledModules;
  Exports.getUsedModules := getUsedModules;
  Exports.filterRegistryModules := filterRegistryModules;
  Exports.installModule := installModule;
  Exports.uninstallModule := uninstallModule;
  Exports.diff := diff;
  Exports.reinstall := reinstall;
|}.

(** The run of the program: the script over the helpers of
    [src/helpers.js]. *)
Definition main : eff unit := run module_exports.

(** ** The reference definitions *)

(** The registry modules in use in the files. *)
Definition used_of fsys : list ModuleRef :=
  filterRegistryModules (deduplicate (scan_files fsys (glob_sync fsys))).

(** The modules to install and the modules to remove. *)
Definition plan fsys content : list ModuleRef * list ModuleRef :=
  (diff (used_of fsys) (declared content),
   diff (declared content) (used_of fsys)).

(** The files after the commands [verb] of [ms], and the events of these
    commands. *)
Fixpoint apply_all (verb : string)
    (evs : ModuleRef → Z → list event) ms fsys
    : gmap jsstring jsstring * list event :=
  match ms with
  | [] => (fsys, [])
  | m :: ms' =>
      let '(status, fsys') := sync_exec (npm_command verb m) fsys in
      let '(fsys'', rest) := apply_all verb evs ms' fsys' in
      (fsys'', evs m status ++ rest)
  end.

Definition install_all := apply_all "install" install_events.
Definition uninstall_all := apply_all "uninstall" (λ m _, uninstall_events m).

(** ** Lemmas *)

Lemma main_unfold :
  main =
  (usedModules ← getUsedModules;
   let usedModules := filterRegistryModules usedModules in
   installedModules ← getInstalledModules;
   let toInstall := diff usedModules installedModules in
   let toRemove := diff installedModules usedModules in
   for_of toInstall installModule;;
   for_of toRemove uninstallModule).
Proof. done. Qed.

(** The helpers meet the contract of the script. *)
Lemma module_exports_contract : Contract module_exports.
Proof.
  split; cbn [module_exports Exports.getUsedModules
    Exports.getInstalledModules Exports.filterRegistryModules Exports.diff].
  - apply read_only_getUsedModules.
  - apply read_only_getInstalledModules.
  - intros w ms. destruct (getUsedModules_cases w) as (r & -> & Hr).
    destruct Hr as [Hr|(p & _ & Hr)]; rewrite Hr; intros ?; simplify_eq/=.
    apply deduplicate_NoDup.
  - apply filterRegistryModules_sublist.
  - apply diff_sublist.
  - apply elem_of_diff.
Qed.

(** Their actions return when secure mode is off, and in secure mode
    when the request and the parse of its answer do not throw. *)
Lemma module_exports_resilient :
  secureMode = false ∨ popularity_error popularity_url = None →
  Resilient module_exports.
Proof.
  intros Hopen. split; intros m w; cbn [module_exports Exports.installModule
    Exports.uninstallModule]; [|by rewrite run_uninstallModule].
  destruct secureMode eqn:Hsec; [|by rewrite run_installModule_open].
  rewrite run_installModule_secure by done. by destruct Hopen as [?| ->].
Qed.

Lemma run_for_of_cons {A} (x : A) xs body w :
  for_of (x :: xs) body w = (body x;; for_of xs body) w.
Proof.
  unfold for_of. cbn [for_of_fold]. eff_unfold.
  by destruct (body x w) as [[[]|] ?].
Qed.

Lemma run_install_loop_open ms w :
  secureMode = false →
  for_of ms installModule w =
  (Ok (), mkWorld (install_all ms (files w)).1
            (trace w ++ (install_all ms (files w)).2)).
Proof.
  intros Hsec. revert w. induction ms as [|m ms IH]; intros w.
  - by rewrite <-(world_app_nil w) at 1.
  - rewrite run_for_of_cons. eff_run (run_installModule_open m w Hsec).
    rewrite IH. unfold install_all, after_exec. cbn [apply_all files trace].
    destruct (sync_exec (npm_command "install" m) (files w)) as [st fsys'].
    cbn [fst snd]. destruct (apply_all _ _ ms fsys') as [fsys'' rest].
    cbn [fst snd]. by rewrite <-(assoc_L (++)).
Qed.

Lemma run_uninstall_loop ms w :
  for_of ms uninstallModule w =
  (Ok (), mkWorld (uninstall_all ms (files w)).1
            (trace w ++ (uninstall_all ms (files w)).2)).
Proof.
  revert w. induction ms as [|m ms IH]; intros w.
  - by rewrite <-(world_app_nil w) at 1.
  - rewrite run_for_of_cons. eff_run (run_uninstallModule m w).
    rewrite IH. unfold uninstall_all, after_exec. cbn [apply_all files trace].
    destruct (sync_exec (npm_command "uninstall" m) (files w)) as [st fsys'].
    cbn [fst snd]. destruct (apply_all _ _ ms fsys') as [fsys'' rest].
    cbn [fst snd]. by rewrite <-(assoc_L (++)).
Qed.

(** The commands of [apply_all] are one command for every module, in
    order, whatever the status of the commands before. *)
Lemma commands_apply_all verb evs ms fsys :
  (∀ m st, commands (evs m st) = [npm_command verb m]) →
  commands (apply_all verb evs ms fsys).2 = npm_command verb <$> ms.
Proof.
  intros Hevs. revert fsys. induction ms as [|m ms IH]; intros fsys; [done|].
  cbn [apply_all]. destruct (sync_exec _ fsys) as [st fsys'].
  specialize (IH fsys'). destruct (apply_all _ _ ms fsys') as [fsys'' rest].
  cbn [snd] in *. by rewrite commands_app, Hevs, IH.
Qed.

Lemma commands_install_events m st :
  commands (install_events m st) = [npm_command "install" m].
Proof. unfold install_events. by case_bool_decide. Qed.

Lemma commands_uninstall_events m :
  commands (uninstall_events m) = [npm_command "uninstall" m].
Proof. done. Qed.

(** In secure mode the loop of installations runs no command and leaves
    the files as they are; it prints or asks something as soon as there
    is a module. *)
Lemma run_install_loop_secure ms w :
  secureMode = true →
  ∃ r evs, for_of ms installModule w = (r, mkWorld (files w) (trace w ++ evs)) ∧
           commands evs = [] ∧ (ms ≠ [] → evs ≠ []).
Proof.
  intros Hsec. revert w. induction ms as [|m ms IH]; intros w.
  - exists (Ok ()), []. by rewrite world_app_nil.
  - rewrite run_for_of_cons. pose proof (run_installModule_secure m w Hsec) as Hm.
    unfold refused_events in Hm.
    destruct (popularity_error popularity_url) as [e|]; eff_run Hm.
    + by eexists _, _.
    + edestruct IH as (r & evs & -> & Hevs & _). cbn [files trace].
      eexists r, _. rewrite <-(assoc_L (++)). split; [done|].
      by rewrite commands_app, Hevs.
Qed.

(** [main] up to the two loops. *)
Lemma run_main_plan w content :
  readable (files w) (glob_sync (files w)) →
  manifest_of (files w) = Some content → content ≠ JNull →
  main w =
  (for_of (plan (files w) content).1 installModule;;
   for_of (plan (files w) content).2 uninstallModule) w.
Proof.
  intros Hread Hman Hnull.
  apply (@run_loops module_exports module_exports_contract w
           (deduplicate (scan_files (files w) (glob_sync (files w))))
           (declared content)); cbn [module_exports Exports.getUsedModules
             Exports.getInstalledModules].
  - by rewrite run_getUsedModules_ok.
  - by rewrite (run_getInstalledModules_ok w content).
Qed.

(** [main] when the scan or the manifest fails. *)
Lemma run_main_unreadable w pre p post :
  glob_sync (files w) = pre ++ p :: post →
  readable (files w) pre → files w !! p = None →
  main w = (Throw (ReadError p), w).
Proof.
  intros Hglob Hread Hp. apply (@run_throw_used module_exports module_exports_contract).
  cbn [module_exports Exports.getUsedModules].
  by rewrite (run_getUsedModules_throw w pre p post).
Qed.

Lemma run_main_no_manifest w :
  readable (files w) (glob_sync (files w)) →
  files w !! js "package.json" = None →
  main w = (Throw (ReadError (js "package.json")), w).
Proof.
  intros Hread Hfile. rewrite main_unfold. eff_run (run_getUsedModules_ok w Hread).
  by eff_run (run_getInstalledModules_unread w Hfile).
Qed.

Lemma run_main_bad_manifest w text :
  readable (files w) (glob_sync (files w)) →
  files w !! js "package.json" = Some text →
  JSON_parse text = None ∨ JSON_parse text = Some JNull →
  ∃ e, main w = (Throw e, w).
Proof.
  intros Hread Hfile Hparse. rewrite main_unfold.
  eff_run (run_getUsedModules_ok w Hread).
  pose proof (run_getInstalledModules_read w text Hfile) as Hrun.
  destruct Hparse as [Hparse|Hparse]; rewrite Hparse in Hrun;
    eexists; by eff_run Hrun.
Qed.
Lemma plan_reconciled fsys content :
  same_names (used_of fsys) (declared content) → plan fsys content = ([], []).
Proof.
  intros Hsame. unfold plan.
  by destruct (proj2 (diff_empty_both _ _) Hsame) as [-> ->].
Qed.

(** [main] from the plan on, when secure mode is off. *)
Lemma run_main_open w content :
  secureMode = false →
  readable (files w) (glob_sync (files w)) →
  manifest_of (files w) = Some content → content ≠ JNull →
  let fsys := (install_all (plan (files w) content).1 (files w)).1 in
  main w =
  (Ok (),
   mkWorld (uninstall_all (plan (files w) content).2 fsys).1
     (trace w ++ (install_all (plan (files w) content).1 (files w)).2 ++
      (uninstall_all (plan (files w) content).2 fsys).2)).
Proof.
  intros Hsec Hread Hman Hnull fsys.
  rewrite (run_main_plan w content) by done.
  eff_run (run_install_loop_open (plan (files w) content).1 w Hsec).
  rewrite run_uninstall_loop. cbn [files trace].
  by rewrite <-(assoc_L (++)).
Qed.

Lemma commands_main_open w content :
  secureMode = false →
  readable (files w) (glob_sync (files w)) →
  manifest_of (files w) = Some content → content ≠ JNull →
  (main w).1 = Ok () ∧
  commands (events main w) =
    (npm_command "install" <$> (plan (files w) content).1) ++
    (npm_command "uninstall" <$> (plan (files w) content).2).
Proof.
  intros Hsec Hread Hman Hnull. unfold events.
  rewrite (run_main_open w content) by done. split; [done|]. cbn [snd trace].
  rewrite drop_app_length, commands_app. unfold install_all, uninstall_all.
  rewrite !commands_apply_all; [done|by intros|].
  apply commands_install_events.
Qed.

(** [main] in secure mode: the files are left as they are or as the
    removals leave them, and something is printed or asked when there is
    a module to install. *)
Lemma run_main_secure w content :
  secureMode = true →
  readable (files w) (glob_sync (files w)) →
  manifest_of (files w) = Some content → content ≠ JNull →
  ∃ evs, trace (main w).2 = trace w ++ evs ∧
         ((plan (files w) content).1 ≠ [] → evs ≠ []) ∧
         (files (main w).2 = files w ∨
          files (main w).2 =
            (uninstall_all (plan (files w) content).2 (files w)).1).
Proof.
  intros Hsec Hread Hman Hnull. rewrite (run_main_plan w content) by done.
  destruct (run_install_loop_secure (plan (files w) content).1 w Hsec)
    as ([[]|e] & evs & Hrun & _ & Hevs); eff_run Hrun.
  - rewrite run_uninstall_loop. cbn [snd files trace].
    rewrite <-(assoc_L (++)). eexists. split_and!; [done| |by right].
    intros Hne [? _]%app_eq_nil. by apply Hevs.
  - eexists. split_and!; [done..|by left].
Qed.

(** The registry modules in use in a single file that holds one call. *)
Lemma used_of_single_call fsys path q x :
  glob_sync fsys = [path] →
  fsys !! path = Some (call_text (quoted q x)) →
  clean (quoted q x) →
  isBuiltInModule x = false → ¬ js "./" `prefix_of` x →
  used_of fsys = [mkModule x (isTestFile path)].
Proof.
  intros Hglob Hfile Hclean Hbuiltin Hlocal. unfold used_of.
  rewrite Hglob, (scan_files_singleton _ _ _ Hfile). unfold refs_of_file.
  rewrite modulesFromContent_call_text, unquote_quoted by done.
  rewrite filterRegistryModules_deduplicate, filterRegistryModules_as_filter.
  rewrite filterb_id; [by destruct (isTestFile path)|].
  intros m ->%list_elem_of_singleton. unfold registry_name. cbn [name].
  rewrite Hbuiltin. by apply local_test.
Qed.

(** A property of the files that the commands keep is an invariant of a
    run. *)
Lemma preserves_files_main (P : gmap jsstring jsstring → Prop) :
  (∀ command fsys, P fsys → P (sync_exec command fsys).2) →
  preserves (λ w, P (files w)) main.
Proof.
  intros HP. apply (@preserves_run module_exports module_exports_contract).
  - by apply preserves_files_installModule.
  - by apply preserves_files_uninstallModule.
Qed.

(** A run only adds to the trace: what was printed or run before it
    stays, in its order. *)
Lemma monotone_main : monotone main.
Proof.
  rewrite main_unfold. solve_monotone.
Qed.

(** The trace after a run is the trace before it followed by the events
    of the run. *)
Lemma trace_main w : trace (main w).2 = trace w ++ events main w.
Proof. apply trace_events, monotone_main. Qed.

(** ** Main results *)

(** C28 What a run hands to [installModule] is a used set of the data
    model: no module twice, no built-in module, no name that starts with
    ["./"]; and no name that the manifest declares. *)
Theorem main_installs_used_set w used installed m :
  (getUsedModules w).1 = Ok used →
  used_set (to_install module_exports used installed) ∧
  (m ∈ to_install module_exports used installed →
   m ∈ used ∧ isBuiltInModule (name m) = false ∧
   ¬ js "./" `prefix_of` name m ∧ name m ∉ name_set installed).
Proof.
  intros Hused%(@contract_used_NoDup _ module_exports_contract).
  assert (used_set (to_install module_exports used installed)) as Hset.
  { by apply used_set_diff, used_set_filterRegistryModules. }
  split; [done|]. intros Hm.
  destruct (used_set_elem_of _ _ Hset Hm) as [? ?].
  by destruct (@elem_of_to_install _ module_exports_contract _ _ _ Hm).
Qed.

(** C25 The program changes the files through the commands it runs only:
    a property of the file system that every command keeps holds after a
    run when it held before, in either mode, whatever the registry
    answers, and also when the run throws. *)
Theorem main_keeps_what_commands_keep
    (P : gmap jsstring jsstring → Prop) w :
  (∀ command fsys, P fsys → P (sync_exec command fsys).2) →
  P (files w) → P (files (main w).2).
Proof. intros HP. by apply preserves_files_main. Qed.

(** C14 The helpers of [src/helpers.js] meet the contract of the script:
    the two readers leave the world as it is, the used modules are
    pairwise distinct, the classifier only removes, and [diff] is the
    difference by name.  Their actions return on every module and world
    exactly when secure mode is off or the request of the popularity and
    the parse of its answer do not throw. *)
Theorem helpers_meet_contract :
  Contract module_exports ∧
  (Resilient module_exports ↔
   secureMode = false ∨ popularity_error popularity_url = None).
Proof.
  split; [apply module_exports_contract|].
  split; [|apply module_exports_resilient].
  intros [Hinst _]. specialize (Hinst (mkModule [] false) (mkWorld ∅ [])).
  cbn [module_exports Exports.installModule] in Hinst.
  destruct secureMode eqn:Hsec; [right|by left].
  rewrite run_installModule_secure in Hinst by done.
  by destruct (popularity_error popularity_url).
Qed.

(** When the manifest declares exactly the names in use, a run does
    nothing: no command, no request, no output, and the files are left as
    they are. *)
Theorem main_idempotent w content :
  readable (files w) (glob_sync (files w)) →
  manifest_of (files w) = Some content → content ≠ JNull →
  same_names (used_of (files w)) (declared content) →
  main w = (Ok (), w).
Proof.
  intros Hread Hman Hnull Hsame. rewrite (run_main_plan w content) by done.
  by rewrite plan_reconciled.
Qed.

(** C10 When secure mode is off, a run executes one installation for
    every module in use that the manifest does not declare, then one
    removal for every module declared and not in use, in that order;
    a command that fails stops nothing. *)
Theorem main_open_commands w content :
  secureMode = false →
  readable (files w) (glob_sync (files w)) →
  manifest_of (files w) = Some content → content ≠ JNull →
  (main w).1 = Ok () ∧
  commands (events main w) =
    (npm_command "install" <$> (plan (files w) content).1) ++
    (npm_command "uninstall" <$> (plan (files w) content).2).
Proof. apply commands_main_open. Qed.

(** In secure mode a run executes no installation at all: the
    commands it runs are removals, whatever the registry answers about
    the modules to install. *)
Theorem main_secure_no_install w content :
  secureMode = true →
  readable (files w) (glob_sync (files w)) →
  manifest_of (files w) = Some content → content ≠ JNull →
  commands (events main w) `prefix_of`
    npm_command "uninstall" <$> (plan (files w) content).2.
Proof.
  intros Hsec Hread Hman Hnull. unfold events.
  rewrite (run_main_plan w content) by done.
  destruct (run_install_loop_secure (plan (files w) content).1 w Hsec)
    as ([[]|e] & evs & Hrun & Hevs & _); eff_run Hrun.
  - rewrite run_uninstall_loop. cbn [snd files trace].
    rewrite <-(assoc_L (++)), drop_app_length, commands_app, Hevs.
    unfold uninstall_all.
    by rewrite commands_apply_all by done.
  - cbn [snd trace]. rewrite drop_app_length, Hevs. apply prefix_nil.
Qed.

(** When the manifest cannot be read or parsed, a run throws before
    it has run any command: the world is left as it was. *)
Theorem main_fails_before_acting w :
  readable (files w) (glob_sync (files w)) →
  manifest_of (files w) = None →
  ∃ e, main w = (Throw e, w).
Proof.
  intros Hread Hman. unfold manifest_of in Hman.
  destruct (files w !! js "package.json") as [text|] eqn:Hfile.
  - eapply run_main_bad_manifest; eauto.
  - eexists. by apply run_main_no_manifest.
Qed.

(** C30 The text between the quotes of a call goes into the command line
    as it is: for a file that holds [require(q x q)], where [x] has no
    [")"] and no line terminator, is not a built-in module and does not
    start with ["./"], and a manifest that declares nothing, a run
    executes [npm install x --save]. *)
Theorem main_runs_text_of_source w path q x :
  secureMode = false →
  glob_sync (files w) = [path] →
  files w !! path = Some (call_text (quoted q x)) →
  isTestFile path = false →
  manifest_of (files w) = Some (JObject []) →
  clean (quoted q x) →
  isBuiltInModule x = false → ¬ js "./" `prefix_of` x →
  commands (events main w) = [js "npm install " ++ x ++ js " --save"].
Proof.
  intros Hsec Hglob Hfile Htest Hman Hclean Hbuiltin Hlocal.
  assert (readable (files w) (glob_sync (files w))) as Hread.
  { rewrite Hglob. by repeat constructor. }
  destruct (commands_main_open w (JObject []) Hsec Hread Hman) as [_ ->];
    [done|].
  unfold plan. rewrite (used_of_single_call _ path q x), Htest by done.
  by rewrite diff_nil_r, diff_nil_l.
Qed.
End pipeline.

(** ** Witnesses and the scenarios of the specification *)

Lemma main_idempotent_witness :
  @main (example_env false)
    (example_world (js "require('lodash');require('fs');require('./util')")
       example_manifest) =
  (Ok (),
   example_world (js "require('lodash');require('fs');require('./util')")
     example_manifest).
Proof.
  apply (@main_idempotent (example_env false) _ example_content);
    [decide_by_computation|vm_compute; reflexivity|done|decide_by_computation].
Defined.

Lemma main_open_commands_witness :
  commands (events (@main (example_env false))
    (example_world (js "require('lodash');require('chalk')")
       example_manifest)) =
  [js "npm install chalk --save"].
Proof.
  destruct (@main_open_commands (example_env false)
    (example_world (js "require('lodash');require('chalk')") example_manifest)
    example_content) as [_ ->];
    [done|decide_by_computation|vm_compute; reflexivity|done|].
  vm_compute. reflexivity.
Defined.

Lemma main_secure_no_install_witness :
  commands (events (@main (example_env true))
    (example_world (js "require('lodash');require('chalk')")
       example_manifest)) `prefix_of` [].
Proof.
  refine (@main_secure_no_install (example_env true)
            (example_world (js "require('lodash');require('chalk')")
               example_manifest) example_content _ _ _ _);
    [done|decide_by_computation|vm_compute; reflexivity|done].
Defined.

Lemma main_fails_before_acting_witness :
  ∃ e, @main (example_env false)
         (mkWorld {[ js "index.js" := js "require('chalk')" ]} []) =
       (Throw e, mkWorld {[ js "index.js" := js "require('chalk')" ]} []).
Proof.
  apply (@main_fails_before_acting (example_env false));
    [decide_by_computation|vm_compute; reflexivity].
Defined.

Lemma main_installs_used_set_witness :
  @used_set (@env_builtins (example_env false))
    (to_install (@module_exports (example_env false))
       [mkModule (js "chalk") false] [mkModule (js "lodash") false]).
Proof.
  apply (@main_installs_used_set (example_env false)
           (example_world (js "require('chalk')") example_manifest)
           [mkModule (js "chalk") false] [mkModule (js "lodash") false]
           (mkModule (js "chalk") false)).
  vm_compute. reflexivity.
Defined.

Lemma main_keeps_what_commands_keep_witness :
  files (@main (example_env true)
    (example_world (js "require('chalk')") example_manifest)).2
    !! js "index.js" = Some (js "require('chalk')").
Proof.
  apply (@main_keeps_what_commands_keep (example_env true)
           (λ fsys, fsys !! js "index.js" = Some (js "require('chalk')"))
           (example_world (js "require('chalk')") example_manifest));
    [by intros command fsys|done].
Defined.

Lemma main_runs_text_of_source_witness :
  commands (events (@main (example_env false))
    (example_world (call_text (quoted 39 (js "x; touch /tmp/y"))) (js "{}"))) =
  [js "npm install " ++ js "x; touch /tmp/y" ++ js " --save"].
Proof.
  apply (@main_runs_text_of_source (example_env false) _ (js "index.js")
           39%N (js "x; touch /tmp/y"));
    try decide_by_computation; try done; vm_compute; reflexivity.
Defined.

(** The scenario of the specification: the manifest declares [lodash],
    the file requires [lodash] and [chalk]. *)
Example plan_scenario :
  @plan (example_env false)
    {[ js "index.js" := js "require('lodash');require('chalk')" ]}
    example_content =
  ([mkModule (js "chalk") false], []).
Proof. vm_compute. reflexivity. Qed.

(** The same world in secure mode: [chalk] is refused, as every module
    is. *)
Example main_secure_scenario :
  (@main (example_env true)
     (example_world (js "require('lodash');require('chalk')")
        example_manifest)).2 =
  mkWorld
    (files (example_world (js "require('lodash');require('chalk')")
              example_manifest))
    [ SpinnerStart (js "Installing chalk") (js "green");
      Request popularity_url; SpinnerStop;
      ConsoleLog SymWarning (js "chalk not trusted") ].
Proof. vm_compute. reflexivity. Qed.
