(* ===== verification/Outcome.v ===== *)
(** * The outcome of a run, on every world

    [outcome] is a function of the world that computes, without the
    monad and without the helpers, how a run ends and what it leaves: the
    read error of the first source that cannot be read, the error of the
    manifest, the exception of the popularity request at the first
    module to install in secure mode, or the world after the actions with
    the events of each of them.  [main_outcome] states that [main] is
    this function: the specification of the run is complete, with no
    assumption on the world or on the environment. *)

From S2P Require Import Prelude JsRuntime Modules Dedup Diff Classifier.
From S2P Require Import Validator Extractor World Json Hoare Script Files Manifest.
From S2P Require Import Actions Pipeline.

Section outcome.
Context `{Env}.
Implicit Types (w : World) (m : ModuleRef) (ms : list ModuleRef)
  (fsys : gmap jsstring jsstring) (content : json).

(** ** The reference definitions *)

(** The installations of [ms] in secure mode: how the loop ends and its
    events.  The exception of the request ends the loop at its first
    module; otherwise every module is refused. *)
Definition refuse_all ms : result unit * list event :=
  match ms, popularity_error popularity_url with
  | [], _ => (Ok (), [])
  | m :: _, Some e => (Throw e, refused_events m)
  | _, None => (Ok (), ms ≫= refused_events)
  end.

(** The actions of a run on the files [fsys], whose manifest has the
    value [content]: how they end, the files and the events they
    leave. *)
Definition act fsys content
    : result unit * gmap jsstring jsstring * list event :=
  let '(toInstall, toRemove) := plan fsys content in
  if secureMode then
    match refuse_all toInstall with
    | (Throw e, evs) => (Throw e, fsys, evs)
    | (Ok _, evs) =>
        let '(fsys', evs') := uninstall_all toRemove fsys in
        (Ok (), fsys', evs ++ evs')
    end
  else
    let '(fsys', evs) := install_all toInstall fsys in
    let '(fsys'', evs') := uninstall_all toRemove fsys' in
    (Ok (), fsys'', evs ++ evs').

Definition outcome w : result unit * World :=
  match first_unreadable (files w) (glob_sync (files w)) with
  | Some p => (Throw (ReadError p), w)
  | None =>
      match files w !! js "package.json" with
      | None => (Throw (ReadError (js "package.json")), w)
      | Some text =>
          match JSON_parse text with
          | None => (Throw SyntaxError, w)
          | Some JNull => (Throw TypeError, w)
          | Some content =>
              let '(r, fsys, evs) := act (files w) content in
              (r, mkWorld fsys (trace w ++ evs))
          end
      end
  end.

(** ** Lemmas *)

(** The loop of installations in secure mode. *)
Lemma run_install_loop_refuse ms w :
  secureMode = true →
  for_of ms installModule w =
  ((refuse_all ms).1, mkWorld (files w) (trace w ++ (refuse_all ms).2)).
Proof.
  intros Hsec. unfold refuse_all.
  destruct (popularity_error popularity_url) as [e|] eqn:Herr.
  - destruct ms as [|m ms]; [by rewrite <-(world_app_nil w) at 1|].
    rewrite run_for_of_cons. pose proof (run_installModule_secure m w Hsec) as Hm.
    rewrite Herr in Hm. by eff_run Hm.
  - replace (match ms with [] => _ | _ :: _ => _ end)
      with (Ok (), ms ≫= refused_events) by (by destruct ms).
    revert w. induction ms as [|m ms IH]; intros w;
      [by rewrite <-(world_app_nil w) at 1|].
    rewrite run_for_of_cons. pose proof (run_installModule_secure m w Hsec) as Hm.
    rewrite Herr in Hm. eff_run Hm. rewrite IH. cbn [fst snd files trace].
    by rewrite bind_cons, <-(assoc_L (++)).
Qed.

(** The two loops of a run. *)
Lemma run_loops_act w content :
  (for_of (plan (files w) content).1 installModule;;
   for_of (plan (files w) content).2 uninstallModule) w =
  let '(r, fsys, evs) := act (files w) content in
  (r, mkWorld fsys (trace w ++ evs)).
Proof.
  unfold act. destruct (plan (files w) content) as [toInstall toRemove].
  cbn [fst snd]. destruct secureMode eqn:Hsec.
  - pose proof (run_install_loop_refuse toInstall w Hsec) as Hloop.
    destruct (refuse_all toInstall) as [[[]|e] evs]; cbn [fst snd] in Hloop;
      eff_run Hloop; [|done].
    rewrite run_uninstall_loop. cbn [files trace].
    destruct (uninstall_all toRemove (files w)) as [fsys' evs'].
    by rewrite <-(assoc_L (++)).
  - eff_run (run_install_loop_open toInstall w Hsec).
    rewrite run_uninstall_loop. cbn [files trace].
    destruct (install_all toInstall (files w)) as [fsys' evs]. cbn [fst snd].
    destruct (uninstall_all toRemove fsys') as [fsys'' evs'].
    by rewrite <-(assoc_L (++)).
Qed.

Lemma run_main w : main w = outcome w.
Proof.
  unfold outcome.
  destruct (first_unreadable _ _) as [p|] eqn:Hfirst.
  { apply first_unreadable_Some in Hfirst as (pre & post & ? & ? & ?).
    by eapply run_main_unreadable. }
  apply first_unreadable_None in Hfirst.
  destruct (files w !! js "package.json") as [text|] eqn:Hfile;
    [|by apply run_main_no_manifest].
  assert (manifest_of (files w) = JSON_parse text) as Hman.
  { unfold manifest_of. by rewrite Hfile. }
  destruct (JSON_parse text) as [content|] eqn:Hparse.
  - assert (content = JNull ∨ content ≠ JNull) as [->|Hnull]
      by (destruct content; auto).
    + rewrite main_unfold. eff_run (run_getUsedModules_ok w Hfirst).
      pose proof (run_getInstalledModules_read w text Hfile) as Hrun.
      rewrite Hparse in Hrun. by eff_run Hrun.
    + rewrite (run_main_plan w content), run_loops_act by done.
      by destruct content.
  - rewrite main_unfold. eff_run (run_getUsedModules_ok w Hfirst).
    pose proof (run_getInstalledModules_read w text Hfile) as Hrun.
    rewrite Hparse in Hrun. by eff_run Hrun.
Qed.

(** The events of a run, on every world. *)
Lemma events_main w :
  events main w =
  match first_unreadable (files w) (glob_sync (files w)),
        manifest_of (files w) with
  | None, Some content =>
      match content with JNull => [] | _ => (act (files w) content).2 end
  | _, _ => []
  end.
Proof.
  unfold events. rewrite run_main. unfold outcome, manifest_of.
  destruct (first_unreadable _ _); [apply drop_all|].
  destruct (files w !! js "package.json") as [text|]; [|apply drop_all].
  cbn [mbind option_bind]. destruct (JSON_parse text) as [content|];
    [|apply drop_all].
  destruct content; try apply drop_all;
    destruct (act (files w) _) as [[r fsys] evs]; cbn [snd trace];
    apply drop_app_length.
Qed.

(** No command is run for an installation that is refused. *)
Lemma commands_refused_events m : commands (refused_events m) = [].
Proof. unfold refused_events. by destruct (popularity_error popularity_url). Qed.

Lemma commands_refuse_all ms : commands (refuse_all ms).2 = [].
Proof.
  unfold refuse_all. destruct ms as [|m ms];
    [by destruct (popularity_error popularity_url)|].
  destruct (popularity_error popularity_url) eqn:Herr; cbn [snd];
    [apply commands_refused_events|].
  generalize (m :: ms). intros ks. induction ks as [|k ks IH]; [done|].
  by rewrite bind_cons, commands_app, IH, commands_refused_events.
Qed.

(** The actions run at most one command for each module of the plan. *)
Lemma commands_act_length fsys content :
  length (commands (act fsys content).2) ≤
  length (plan fsys content).1 + length (plan fsys content).2.
Proof.
  unfold act. destruct (plan fsys content) as [toInstall toRemove].
  cbn [fst snd]. destruct secureMode.
  - pose proof (commands_refuse_all toInstall) as Hno.
    destruct (refuse_all toInstall) as [[[]|e] evs]; cbn [snd] in *.
    + pose proof (commands_apply_all "uninstall" (λ m _, uninstall_events m)
        toRemove fsys (λ _ _, eq_refl)) as Hrem.
      fold uninstall_all in Hrem.
      destruct (uninstall_all toRemove fsys) as [fsys' evs']. cbn [snd] in *.
      rewrite commands_app, Hno, Hrem. cbn [app]. rewrite length_fmap. lia.
    + rewrite Hno. simpl. lia.
  - pose proof (commands_apply_all "install" install_events toInstall fsys
      commands_install_events) as Hinst. fold install_all in Hinst.
    destruct (install_all toInstall fsys) as [fsys' evs]. cbn [snd] in *.
    pose proof (commands_apply_all "uninstall" (λ m _, uninstall_events m)
      toRemove fsys' (λ _ _, eq_refl)) as Hrem. fold uninstall_all in Hrem.
    destruct (uninstall_all toRemove fsys') as [fsys'' evs']. cbn [snd] in *.
    by rewrite commands_app, Hinst, Hrem, length_app, !length_fmap.
Qed.

Lemma plan_length fsys content :
  length (plan fsys content).1 ≤ length (scan_files fsys (glob_sync fsys)) ∧
  length (plan fsys content).2 ≤ length (declared content).
Proof.
  unfold plan, used_of. cbn [fst snd]. split.
  - etrans; [apply sublist_length, diff_sublist|].
    etrans; [apply sublist_length, filterRegistryModules_sublist|].
    apply deduplicate_length.
  - apply sublist_length, diff_sublist.
Qed.

(** ** The order of the files

    The differences do not depend on the order in which the files are
    listed, up to the order of the installations. *)

#[global] Instance scan_files_Permutation fsys :
  Proper ((≡ₚ) ==> (≡ₚ)) (scan_files fsys).
Proof. intros ps ps' Hps. unfold scan_files. by rewrite Hps. Qed.

#[global] Instance filterRegistryModules_Permutation :
  Proper ((≡ₚ) ==> (≡ₚ)) filterRegistryModules.
Proof.
  intros ms ms' Hms. unfold filterRegistryModules, removeLocalFiles,
    removeBuiltInModules. by rewrite Hms.
Qed.

#[global] Instance diff_Permutation :
  Proper ((≡ₚ) ==> (=) ==> (≡ₚ)) diff.
Proof. intros ms ms' Hms ks ? <-. unfold diff. by rewrite Hms. Qed.

#[global] Instance name_set_Permutation : Proper ((≡ₚ) ==> (=)) name_set.
Proof.
  intros ms ms' Hms. apply set_eq. intros n.
  rewrite !elem_of_name_set. by setoid_rewrite Hms.
Qed.

(** The registry modules in use in the files [paths] of [fsys];
    [used_of fsys] is [used_in fsys (glob_sync fsys)]. *)
Definition used_in fsys (paths : list jsstring) : list ModuleRef :=
  filterRegistryModules (deduplicate (scan_files fsys paths)).

#[global] Instance used_in_Permutation fsys :
  Proper ((≡ₚ) ==> (≡ₚ)) (used_in fsys).
Proof. intros ps ps' Hps. unfold used_in. by rewrite Hps. Qed.

(** ** Main results *)

(** C11 A run on every world: [main] is the function [outcome].  It
    throws the read error of the first source that cannot be read, else
    the error of the manifest (unreadable, not JSON, or [null]), both
    before anything is printed or run.  Otherwise it installs what is in
    use and not declared and removes what is declared and not in use,
    with the events of each action; in secure mode every installation is
    refused, and the exception of the popularity request, if any, ends
    the run at the first module to install. *)
Theorem main_outcome w : main w = outcome w.
Proof. apply run_main. Qed.

(** C27 A run executes at most one command for every reference to a
    module in the sources and one for every module the manifest
    declares, on every world and in either mode. *)
Theorem main_commands_bound w :
  length (commands (events main w)) ≤
  length (scan_files (files w) (glob_sync (files w))) +
  length (default [] (declared <$> manifest_of (files w))).
Proof.
  rewrite events_main.
  destruct (first_unreadable _ _); [simpl; lia|].
  destruct (manifest_of (files w)) as [content|]; [|simpl; lia].
  pose proof (commands_act_length (files w) content).
  pose proof (plan_length (files w) content) as [??].
  destruct content; simpl in *; lia.
Qed.

(** C34 The order in which the files are listed does not matter: for two
    lists of the same paths, the modules to install are the same up to
    their order, and the modules to remove are the same, in the same
    order. *)
Theorem plan_order_independent fsys (paths paths' : list jsstring)
    (installed : list ModuleRef) :
  paths ≡ₚ paths' →
  diff (used_in fsys paths) installed ≡ₚ
    diff (used_in fsys paths') installed ∧
  diff installed (used_in fsys paths) = diff installed (used_in fsys paths').
Proof.
  intros Hpaths. split; [by rewrite Hpaths|].
  apply diff_same_names. unfold same_names. by rewrite Hpaths.
Qed.
End outcome.

(** ** Witnesses and scenarios *)

(** Two files, listed in either order: [mocha] and [chalk] are to be
    installed, in one order or the other. *)
Definition two_files : gmap jsstring jsstring :=
  {[ js "a.js" := js "require('chalk')";
     js "b.test.js" := js "require('mocha');require('chalk')" ]}.

Lemma plan_order_independent_witness :
  diff (@used_in (example_env false) two_files [js "a.js"; js "b.test.js"]) [] ≡ₚ
  diff (@used_in (example_env false) two_files [js "b.test.js"; js "a.js"]) [].
Proof.
  apply (@plan_order_independent (example_env false) two_files
           [js "a.js"; js "b.test.js"] [js "b.test.js"; js "a.js"] []).
  apply perm_swap.
Defined.

Example used_in_two_files :
  @used_in (example_env false) two_files [js "a.js"; js "b.test.js"] =
  [ mkModule (js "mocha") true; mkModule (js "chalk") true;
    mkModule (js "chalk") false ].
Proof. vm_compute. reflexivity. Qed.


(** Secure mode with a registry that cannot be reached: the run ends at
    the first module to install, and the spinner is left running. *)
Definition unreachable_env : Env := {|
  env_builtins := node_builtins;
  glob_sync fsys := [js "index.js"];
  sync_exec command fsys := (0%Z, fsys);
  sync_request url := RequestThrows;
  argv_secure := true;
|}.

Example outcome_unreachable :
  @outcome unreachable_env
    (example_world (js "require('chalk');require('debug')") example_manifest) =
  (Throw (RequestError popularity_url),
   mkWorld
     (files (example_world (js "require('chalk');require('debug')")
               example_manifest))
     [ SpinnerStart (js "Installing chalk") (js "green");
       Request popularity_url ]).
Proof. vm_compute. reflexivity. Qed.

(** A module required by a source and by a test is installed twice:
    with [--save-dev], then with [--save]. *)
Example outcome_both_partitions :
  commands (events (@main (example_env false))
    (mkWorld
       {[ js "index.js" := js "require('chalk')";
          js "package.json" := js "{}" ]} [])) =
  [js "npm install chalk --save"] ∧
  npm_command "install" <$>
    diff (@used_in (example_env false) two_files [js "a.js"; js "b.test.js"]) [] =
  [ js "npm install mocha --save-dev"; js "npm install chalk --save-dev";
    js "npm install chalk --save" ].
Proof. split; vm_compute; reflexivity. Qed.

Example outcome_no_manifest :
  @outcome (example_env false)
    (mkWorld {[ js "index.js" := js "require('chalk')" ]} []) =
  (Throw (ReadError (js "package.json")),
   mkWorld {[ js "index.js" := js "require('chalk')" ]} []).
Proof. vm_compute. reflexivity. Qed.
