(* ===== verification/Protocol.v ===== *)
(** * The protocol of the spinner and the console

    The helpers of [src/helpers.js] start a spinner before they act and
    stop it before they print.  The events of the trace are read as the
    transitions of a machine with two states ([Idle], [Spinning]): the
    spinner starts when idle and stops when spinning, a command and a
    request run under the spinner, and a line is printed when the spinner
    is idle.  [steps] is the reflexive and transitive closure of [step]
    over a list of events; [follow] is the function that decides it.

    The results: the events of [installModule], [uninstallModule] and
    [reinstall] follow the protocol from [Idle]; so do the events of a
    run, on every world, and a run ends with a spinning spinner exactly
    when the popularity request throws ([main_follows_protocol]). *)

From S2P Require Import Prelude JsRuntime Modules Dedup Diff Classifier.
From S2P Require Import Validator Extractor World Json Hoare Script Files Manifest.
From S2P Require Import Actions Pipeline Outcome.

(** ** The machine *)

Inductive spinner : Type := Idle | Spinning.

#[global] Instance spinner_eq_dec : EqDecision spinner.
Proof. solve_decision. Defined.

Inductive step : spinner → event → spinner → Prop :=
| step_start text color : step Idle (SpinnerStart text color) Spinning
| step_stop : step Spinning SpinnerStop Idle
| step_log sym message : step Idle (ConsoleLog sym message) Idle
| step_exec command : step Spinning (Exec command) Spinning
| step_request url : step Spinning (Request url) Spinning.

Inductive steps : spinner → list event → spinner → Prop :=
| steps_nil st : steps st [] st
| steps_cons st e st' evs st'' :
    step st e st' → steps st' evs st'' → steps st (e :: evs) st''.

(** The state after an event, when the protocol allows it. *)
Definition next (st : spinner) (e : event) : option spinner :=
  match st, e with
  | Idle, SpinnerStart _ _ => Some Spinning
  | Spinning, SpinnerStop => Some Idle
  | Idle, ConsoleLog _ _ => Some Idle
  | Spinning, Exec _ => Some Spinning
  | Spinning, Request _ => Some Spinning
  | _, _ => None
  end.

Fixpoint follow (st : spinner) (evs : list event) : option spinner :=
  match evs with
  | [] => Some st
  | e :: evs' => next st e ≫= λ st', follow st' evs'
  end.

(** The starts and the stops of a trace. *)
Definition starts (evs : list event) : nat :=
  length (List.filter
            (λ e, match e with SpinnerStart _ _ => true | _ => false end) evs).

Definition stops (evs : list event) : nat :=
  length (List.filter
            (λ e, match e with SpinnerStop => true | _ => false end) evs).

(** The spinners that spin in a state. *)
Definition spinning (st : spinner) : nat :=
  match st with Idle => 0 | Spinning => 1 end.

(** ** Lemmas *)

Section machine.
Implicit Types (st : spinner) (e : event) (evs : list event).

Lemma step_next st e st' : step st e st' ↔ next st e = Some st'.
Proof.
  split; [by destruct 1|].
  destruct st, e; intros [= <-]; constructor.
Qed.

Lemma steps_follow st evs st' : steps st evs st' ↔ follow st evs = Some st'.
Proof.
  split.
  - induction 1 as [|st e st' evs st'' Hstep%step_next _ IH]; [done|].
    simpl. by rewrite Hstep.
  - revert st. induction evs as [|e evs IH]; intros st; simpl.
    + intros [= <-]. constructor.
    + destruct (next st e) as [st1|] eqn:Hnext; [|done]. simpl.
      intros ?%IH. econstructor; [by apply step_next|done].
Qed.

#[global] Instance steps_dec st evs st' : Decision (steps st evs st').
Proof.
  refine (cast_if (decide (follow st evs = Some st')));
    by rewrite steps_follow.
Defined.

(** The machine is deterministic. *)
Lemma steps_det st evs st1 st2 :
  steps st evs st1 → steps st evs st2 → st1 = st2.
Proof. rewrite !steps_follow. congruence. Qed.

Lemma steps_app st evs st' evs' st'' :
  steps st evs st' → steps st' evs' st'' → steps st (evs ++ evs') st''.
Proof.
  induction 1 as [|st e st1 evs st' Hstep _ IH]; [done|].
  intros ?%IH. by econstructor.
Qed.

Lemma steps_app_inv st evs evs' st'' :
  steps st (evs ++ evs') st'' →
  ∃ st', steps st evs st' ∧ steps st' evs' st''.
Proof.
  revert st. induction evs as [|e evs IH]; intros st; simpl.
  - intros ?. exists st. split; [constructor|done].
  - inversion_clear 1 as [|? ? st1 ? ? Hstep Hrest].
    apply IH in Hrest as (st' & ? & ?). exists st'.
    split; [by econstructor|done].
Qed.

(** Starts and stops alternate: in a trace that follows the protocol the
    spinner was started as often as it was stopped, once more when it is
    left spinning from idle. *)
Lemma steps_balance st evs st' :
  steps st evs st' →
  starts evs + spinning st = stops evs + spinning st'.
Proof.
  unfold starts, stops.
  induction 1 as [[]|st e st' evs st'' Hstep _ IH]; [done..|].
  destruct Hstep; simpl in *; lia.
Qed.
End machine.

(** ** The helpers follow the protocol *)

Section helpers.
Context `{Env}.
Implicit Types (m : ModuleRef) (ms : list ModuleRef) (w : World)
  (fsys : gmap jsstring jsstring).

Lemma steps_install_events m status :
  steps Idle (install_events m status) Idle.
Proof.
  apply steps_follow. unfold install_events. by case_bool_decide.
Qed.

Lemma steps_uninstall_events m : steps Idle (uninstall_events m) Idle.
Proof. by apply steps_follow. Qed.

(** A refused installation ends idle; the exception of the request
    leaves the spinner spinning. *)
Lemma steps_refused_events m :
  steps Idle (refused_events m)
    (match popularity_error popularity_url with
     | Some _ => Spinning
     | None => Idle
     end).
Proof.
  apply steps_follow. unfold refused_events.
  by destruct (popularity_error popularity_url).
Qed.

Lemma steps_apply_all verb evs ms fsys :
  (∀ m status, steps Idle (evs m status) Idle) →
  steps Idle (apply_all verb evs ms fsys).2 Idle.
Proof.
  intros Hevs. revert fsys. induction ms as [|m ms IH]; intros fsys;
    [constructor|].
  cbn [apply_all]. destruct (sync_exec _ fsys) as [status fsys'].
  specialize (IH fsys'). destruct (apply_all verb evs ms fsys').
  by eapply steps_app.
Qed.

Lemma steps_refuse_all ms :
  steps Idle (refuse_all ms).2
    (match (refuse_all ms).1 with Ok _ => Idle | Throw _ => Spinning end).
Proof.
  unfold refuse_all. pose proof steps_refused_events as Hm.
  destruct ms as [|m ms]; [destruct popularity_error; constructor|].
  destruct (popularity_error popularity_url); [apply Hm|]. cbn [fst snd].
  generalize (m :: ms). intros ks. induction ks as [|k ks IH]; [constructor|].
  rewrite bind_cons. by eapply steps_app.
Qed.

(** The actions of a run. *)
Lemma steps_act fsys content :
  steps Idle (act fsys content).2
    (match (act fsys content).1.1 with Ok _ => Idle | Throw _ => Spinning end).
Proof.
  unfold act. destruct (plan fsys content) as [toInstall toRemove].
  assert (∀ fsys', steps Idle (uninstall_all toRemove fsys').2 Idle) as Hrem.
  { intros fsys'. apply steps_apply_all. intros. apply steps_uninstall_events. }
  destruct secureMode.
  - pose proof (steps_refuse_all toInstall) as Hinst.
    destruct (refuse_all toInstall) as [[[]|e] evs]; [|done].
    specialize (Hrem fsys). destruct (uninstall_all toRemove fsys).
    by eapply steps_app.
  - pose proof (steps_apply_all "install" install_events toInstall fsys
      steps_install_events) as Hinst. fold install_all in Hinst.
    destruct (install_all toInstall fsys) as [fsys' evs].
    specialize (Hrem fsys'). destruct (uninstall_all toRemove fsys').
    by eapply steps_app.
Qed.

(** A run that throws while the spinner spins throws the exception of
    the popularity request. *)
Lemma act_throws fsys content e :
  (act fsys content).1.1 = Throw e →
  secureMode = true ∧ popularity_error popularity_url = Some e.
Proof.
  unfold act, refuse_all. destruct (plan fsys content) as [toInstall toRemove].
  destruct secureMode; [|by repeat destruct (_ _ _)].
  destruct toInstall, (popularity_error popularity_url);
    by repeat destruct (uninstall_all _ _); intros [= ->].
Qed.

(** The events of [reinstall]. *)
Lemma steps_reinstall w : steps Idle (events reinstall w) Idle.
Proof.
  unfold events. rewrite run_reinstall. unfold after_exec. cbn [snd trace].
  rewrite drop_app_length. by apply steps_follow.
Qed.

(** A run adds nothing to the trace, or what its actions add; it then
    ends as they end. *)
Lemma main_act w :
  events main w = [] ∨
  ∃ content, events main w = (act (files w) content).2 ∧
             (main w).1 = (act (files w) content).1.1.
Proof.
  rewrite events_main, run_main. unfold outcome, manifest_of.
  destruct (first_unreadable _ _); [by left|].
  destruct (files w !! js "package.json") as [text|]; [|by left].
  cbn [mbind option_bind]. destruct (JSON_parse text) as [content|];
    [|by left].
  destruct content; try (by left); right; eexists;
    (split; [reflexivity|]); by destruct (act (files w) _) as [[??]?].
Qed.

(** The events of a run follow the protocol. *)
Lemma steps_main w :
  ∃ st, steps Idle (events main w) st ∧
        ((main w).1 = Ok () → st = Idle) ∧
        (st = Spinning →
         secureMode = true ∧
         ∃ e, (main w).1 = Throw e ∧
              popularity_error popularity_url = Some e).
Proof.
  destruct (main_act w) as [->|(content & -> & ->)].
  { exists Idle. split_and!; [constructor|done..]. }
  eexists. split; [apply steps_act|].
  destruct (act (files w) content).1.1 as [[]|e] eqn:Hact; [done|].
  split; [done|]. intros _. apply act_throws in Hact as [??]. eauto.
Qed.

(** ** Main results *)

(** C26 The events of a run follow the protocol of the spinner, from an
    idle spinner, on every world: a command and a request run under the
    spinner, a line is printed when the spinner is idle.  When the run
    returns, the spinner is idle and was stopped as often as started.
    The spinner is left spinning only in secure mode, when the run ends
    with the exception of the popularity request. *)
Theorem main_follows_protocol w :
  ∃ st, steps Idle (events main w) st ∧
        starts (events main w) = stops (events main w) + spinning st ∧
        ((main w).1 = Ok () → st = Idle) ∧
        (st = Spinning →
         secureMode = true ∧
         ∃ e, (main w).1 = Throw e ∧
              popularity_error popularity_url = Some e).
Proof.
  destruct (steps_main w) as (st & Hsteps & Hok & Hthrow).
  exists st. split_and!; [done| |done..].
  apply steps_balance in Hsteps. simpl in Hsteps. lia.
Qed.
End helpers.

(** ** Scenarios *)

(** The trace of an installation whose command fails follows the
    protocol; a line printed under the spinner does not. *)
Example follow_failed_install :
  follow Idle
    [ SpinnerStart (js "Installing chalk") (js "green");
      Exec (js "npm install chalk --save"); SpinnerStop;
      ConsoleLog SymWarning (js "chalk installation failed") ] = Some Idle.
Proof. reflexivity. Qed.

Example follow_log_under_spinner :
  follow Idle
    [ SpinnerStart (js "Installing chalk") (js "green");
      ConsoleLog SymWarning (js "chalk not trusted") ] = None.
Proof. reflexivity. Qed.

(** With a registry that cannot be reached, the run in secure mode leaves
    the spinner spinning. *)
Example follow_unreachable :
  follow Idle
    (events (@main unreachable_env)
       (example_world (js "require('chalk')") example_manifest)) =
  Some Spinning.
Proof. vm_compute. reflexivity. Qed.
