(* ===== verification/Converge.v ===== *)
(** * A run reconciles the manifest with the sources

    The program delegates the change of [package.json] to [npm].  What it
    needs from [npm] is stated as a class of laws on the environment
    ([NpmLaws]): a command leaves the sources alone, a successful
    [npm install] adds the name of the module to the names the manifest
    declares, a successful [npm uninstall] removes it.  Against these laws,
    a run with secure mode off whose commands succeed leaves a world in
    which the manifest declares exactly the names in use, so that a second
    run has nothing to do ([main_converges]).

    [npm_env] is an environment that satisfies the laws: its commands
    are decoded from the command line ([decode_command]), and a command
    reads the manifest with [JSON_parse] and writes the text of the
    names it declares then ([manifest_text], printed as [npm] prints,
    on several lines).  In secure mode a name that is missing stays
    missing, run after run ([main_secure_never_converges]). *)

From S2P Require Import Prelude JsRuntime Modules Dedup Diff Classifier.
From S2P Require Import Validator Extractor World Json JsonSpec JsonPrint.
From S2P Require Import Files Manifest Actions.
From S2P Require Import Pipeline.

(** ** The laws of the package manager *)

Section laws.
Context `{Env}.
Implicit Types (fsys : gmap jsstring jsstring) (m : ModuleRef)
  (ms : list ModuleRef) (X : gset jsstring) (w : World) (content : json).

(** [fsys'] has the sources of [fsys]: the same list of files, with the
    same texts. *)
Definition same_sources fsys fsys' : Prop :=
  glob_sync fsys' = glob_sync fsys ∧
  ∀ path, path ∈ glob_sync fsys → fsys' !! path = fsys !! path.

(** The manifest of [fsys] can be read and declares the names [X]. *)
Definition declares fsys X : Prop :=
  ∃ content, manifest_of fsys = Some content ∧ content ≠ JNull ∧
             name_set (declared content) = X.

Class NpmLaws : Prop := {
  npm_sources command fsys : same_sources fsys (sync_exec command fsys).2;
  npm_install m fsys X :
    declares fsys X →
    (sync_exec (npm_command "install" m) fsys).1 = 0%Z →
    declares (sync_exec (npm_command "install" m) fsys).2 ({[ name m ]} ∪ X);
  npm_uninstall m fsys X :
    declares fsys X →
    (sync_exec (npm_command "uninstall" m) fsys).1 = 0%Z →
    declares (sync_exec (npm_command "uninstall" m) fsys).2 (X ∖ {[ name m ]});
}.

(** Every command succeeds. *)
Definition succeeds : Prop := ∀ command fsys, (sync_exec command fsys).1 = 0%Z.

(** ** Sources *)

#[global] Instance same_sources_preorder : PreOrder same_sources.
Proof.
  split; [done|]. intros f1 f2 f3 [Hg12 Hl12] [Hg23 Hl23]. split.
  - by rewrite Hg23.
  - intros path Hpath. rewrite Hl23 by (by rewrite Hg12). by apply Hl12.
Qed.

Lemma difference_union_difference (U D : gset jsstring) :
  (U ∖ D ∪ D) ∖ (D ∖ U) = U.
Proof.
  apply set_eq. intros n.
  destruct (decide (n ∈ U)), (decide (n ∈ D)); set_solver.
Qed.

Lemma list_bind_ext_in {A B} (f g : A → list B) (l : list A) :
  (∀ x, x ∈ l → f x = g x) → l ≫= f = l ≫= g.
Proof.
  induction l as [|x l IH]; intros Hfg; [done|]. cbn [mbind list_bind].
  rewrite (Hfg x) by left. f_equal. apply IH. intros y Hy. apply Hfg. by right.
Qed.

Lemma scan_files_same_sources fsys fsys' :
  same_sources fsys fsys' →
  scan_files fsys' (glob_sync fsys') = scan_files fsys (glob_sync fsys).
Proof.
  intros [-> Hlook]. unfold scan_files. apply list_bind_ext_in.
  intros path Hpath. by rewrite Hlook.
Qed.

Lemma used_of_same_sources fsys fsys' :
  same_sources fsys fsys' → used_of fsys' = used_of fsys.
Proof. intros Hs. unfold used_of. by rewrite (scan_files_same_sources fsys). Qed.

Lemma readable_same_sources fsys fsys' :
  same_sources fsys fsys' →
  readable fsys (glob_sync fsys) → readable fsys' (glob_sync fsys').
Proof.
  intros [-> Hlook]. unfold readable. rewrite !Forall_forall.
  intros Hread path Hpath. rewrite Hlook by done. by apply Hread.
Qed.

Section lawful.
Context `{!NpmLaws}.

Lemma apply_all_same_sources verb evs ms fsys :
  same_sources fsys (apply_all verb evs ms fsys).1.
Proof.
  revert fsys. induction ms as [|m ms IH]; intros fsys; [done|].
  cbn [apply_all]. pose proof (npm_sources (npm_command verb m) fsys) as Hm.
  destruct (sync_exec _ fsys) as [st fsys']. specialize (IH fsys').
  destruct (apply_all _ _ ms fsys') as [fsys'' rest]. by etrans.
Qed.

Lemma install_all_declares ms fsys X :
  succeeds → declares fsys X →
  declares (install_all ms fsys).1 (name_set ms ∪ X).
Proof.
  intros Hok. revert fsys X. induction ms as [|m ms IH]; intros fsys X HX.
  - by rewrite name_set_nil, (left_id_L ∅ (∪)).
  - unfold install_all in *. cbn [apply_all].
    pose proof (npm_install m fsys X HX (Hok _ _)) as Hm.
    destruct (sync_exec _ fsys) as [st fsys']. specialize (IH fsys' _ Hm).
    destruct (apply_all _ _ ms fsys') as [fsys'' rest].
    rewrite name_set_cons. cbn [fst snd] in *.
    by replace ({[name m]} ∪ name_set ms ∪ X)
      with (name_set ms ∪ ({[name m]} ∪ X)) by set_solver.
Qed.

Lemma uninstall_all_declares ms fsys X :
  succeeds → declares fsys X →
  declares (uninstall_all ms fsys).1 (X ∖ name_set ms).
Proof.
  intros Hok. revert fsys X. induction ms as [|m ms IH]; intros fsys X HX.
  - by rewrite name_set_nil, difference_empty_L.
  - unfold uninstall_all in *. cbn [apply_all].
    pose proof (npm_uninstall m fsys X HX (Hok _ _)) as Hm.
    destruct (sync_exec _ fsys) as [st fsys']. specialize (IH fsys' _ Hm).
    destruct (apply_all _ _ ms fsys') as [fsys'' rest].
    rewrite name_set_cons. cbn [fst snd] in *.
    by replace (X ∖ ({[name m]} ∪ name_set ms))
      with (X ∖ {[name m]} ∖ name_set ms) by set_solver.
Qed.

(** The files after the two loops of a run. *)
Definition reconciled_files fsys content : gmap jsstring jsstring :=
  (uninstall_all (plan fsys content).2
     (install_all (plan fsys content).1 fsys).1).1.

(** After the commands of a run, the manifest declares the names in
    use. *)
Lemma reconciled_declares fsys content :
  succeeds → manifest_of fsys = Some content → content ≠ JNull →
  declares (reconciled_files fsys content) (name_set (used_of fsys)).
Proof.
  intros Hok Hman Hnull. unfold reconciled_files, plan. cbn [fst snd].
  set (used := used_of fsys). set (decl := declared content).
  replace (name_set used)
    with ((name_set (diff used decl) ∪ name_set decl) ∖ name_set (diff decl used)).
  - apply uninstall_all_declares, install_all_declares; [done..|].
    by exists content.
  - rewrite !name_set_diff. apply difference_union_difference.
Qed.

Lemma reconciled_same_sources fsys content :
  same_sources fsys (reconciled_files fsys content).
Proof.
  unfold reconciled_files. etrans; apply apply_all_same_sources.
Qed.

Lemma run_main_reconciles w content :
  secureMode = false → succeeds →
  readable (files w) (glob_sync (files w)) →
  manifest_of (files w) = Some content → content ≠ JNull →
  files (main w).2 = reconciled_files (files w) content ∧
  main (main w).2 = (Ok (), (main w).2).
Proof.
  intros Hsec Hok Hread Hman Hnull.
  rewrite (run_main_open w content) by done. cbn [snd files].
  fold (reconciled_files (files w) content). split; [done|].
  destruct (reconciled_declares (files w) content Hok Hman Hnull)
    as (content' & Hman' & Hnull' & Hnames).
  pose proof (reconciled_same_sources (files w) content) as Hsrc.
  rewrite (run_main_plan _ content'); cbn [files];
    [|by eapply readable_same_sources|done..].
  rewrite plan_reconciled; [done|]. unfold same_names.
  by rewrite (used_of_same_sources (files w)).
Qed.

(** A run leaves the sources alone, in either mode and however it
    ends. *)
Lemma main_same_sources w : same_sources (files w) (files (main w).2).
Proof.
  apply (preserves_files_main (same_sources (files w))); [|done].
  intros command fsys Hsrc. etrans; [done|apply npm_sources].
Qed.

(** [n] is missing in [fsys]: the sources use it, and the manifest can be
    read and does not declare it. *)
Definition missing (n : jsstring) fsys : Prop :=
  readable fsys (glob_sync fsys) ∧ n ∈ name_set (used_of fsys) ∧
  ∃ X, declares fsys X ∧ n ∉ X.

(** A name that is missing stays missing when the files are left as they
    are or as removals leave them. *)
Lemma missing_uninstall_all n ms fsys :
  succeeds → missing n fsys → missing n (uninstall_all ms fsys).1.
Proof.
  intros Hok (Hread & Hused & X & HX & Hn).
  pose proof (apply_all_same_sources "uninstall"
    (λ m _, uninstall_events m) ms fsys) as Hsrc.
  split_and!; [by eapply readable_same_sources| |].
  - by rewrite (used_of_same_sources fsys).
  - exists (X ∖ name_set ms). split; [by apply uninstall_all_declares|].
    set_solver.
Qed.

(** A run in secure mode, from files in which [n] is missing. *)
Lemma run_main_missing n w :
  secureMode = true → succeeds → missing n (files w) →
  missing n (files (main w).2) ∧ trace (main w).2 ≠ trace w.
Proof.
  intros Hsec Hok Hmiss.
  pose proof Hmiss as (Hread & Hused & X & (content & Hman & Hnull & <-) & Hn).
  destruct (run_main_secure w content Hsec Hread Hman Hnull)
    as (evs & Htrace & Hevs & Hfiles).
  split.
  - destruct Hfiles as [-> | ->]; [done|by apply missing_uninstall_all].
  - rewrite Htrace. intros Heq. apply Hevs;
      [|by eapply app_inv_head; rewrite (right_id_L [] (++))].
    intros Hnil. assert (n ∈ name_set (plan (files w) content).1) as Hin.
    { unfold plan. cbn [fst]. rewrite name_set_diff. set_solver. }
    rewrite Hnil, name_set_nil in Hin. set_solver.
Qed.
End lawful.
End laws.

#[global] Arguments NpmLaws _ : clear implicits.
#[global] Arguments succeeds _ : clear implicits.

(** ** An environment that satisfies the laws *)

(** [p] is a prefix of [s]. *)
Fixpoint starts_with (p s : jsstring) : bool :=
  match p, s with
  | [], _ => true
  | c :: p', d :: s' => (c =? d)%N && starts_with p' s'
  | _ :: _, [] => false
  end.

(** The name in the rest of a command line: what precedes [ --save] or
    [ --save-dev]. *)
Definition strip_save (rest : jsstring) : jsstring :=
  let r := reverse rest in
  reverse (drop (if starts_with (js "ved-") r then 11 else 7) r).

(** The verb ([true] for [install]) and the name of a command line. *)
Definition decode_command (command : jsstring) : option (bool * jsstring) :=
  if starts_with (js "npm install ") command
  then Some (true, strip_save (drop 12 command))
  else if starts_with (js "npm uninstall ") command
  then Some (false, strip_save (drop 14 command))
  else None.

(** The manifest that declares [names]. *)
Definition manifest_value (names : list jsstring) : json :=
  JObject
    [(js "dependencies",
      JObject (define_all ((λ n, (n, JString (js "*"))) <$> names)))].

(** Its text, as [npm] writes it. *)
Definition manifest_text (names : list jsstring) : jsstring :=
  print_indented (manifest_value names) ++ [10%N].

(** The names of the manifest after a command on [n]. *)
Definition npm_names (install : bool) (n : jsstring)
    (names : list jsstring) : list jsstring :=
  if install then if bool_decide (n ∈ names) then names else n :: names
  else List.filter (λ n', negb (bool_decide (n' = n))) names.

(** [npm]: the command reads the manifest and writes it with the new
    names. *)
Definition npm_exec (command : jsstring) (fsys : gmap jsstring jsstring)
    : Z * gmap jsstring jsstring :=
  match decode_command command, manifest_of fsys with
  | Some (install, n), Some content =>
      let names := getNamesFromModules (declared content) in
      (0%Z,
       <[js "package.json" := manifest_text (npm_names install n names)]> fsys)
  | _, _ => (0%Z, fsys)
  end.

Definition npm_env_of (secure : bool) : Env := {|
  env_builtins := node_builtins;
  glob_sync fsys := [js "index.js"];
  sync_exec := npm_exec;
  sync_request url := RequestReturns;
  argv_secure := secure;
|}.

Abbreviation npm_env := (npm_env_of false).

Section npm_env.
Implicit Types (m : ModuleRef) (names : list jsstring) (s n : jsstring)
  (fsys : gmap jsstring jsstring) (secure : bool).

Lemma starts_with_app p s : starts_with p (p ++ s) = true.
Proof. induction p as [|c p IH]; [done|]. simpl. by rewrite N.eqb_refl. Qed.

Lemma strip_save_dev n (d : bool) :
  strip_save (n ++ js (if d then " --save-dev" else " --save")) = n.
Proof.
  unfold strip_save. rewrite reverse_app. destruct d.
  - change (reverse (js " --save-dev")) with (js "ved-" ++ js "evas-- ").
    rewrite <-(assoc_L (++)), starts_with_app. cbv iota.
    change 11 with (length (js "ved-" ++ js "evas-- ")).
    by rewrite (assoc_L (++)), drop_app_length, reverse_involutive.
  - change (reverse (js " --save")) with (js "evas-- ").
    change (starts_with _ _) with false. cbv iota.
    change 7 with (length (js "evas-- ")).
    by rewrite drop_app_length, reverse_involutive.
Qed.

Lemma decode_npm_command (verb : string) m :
  verb = "install"%string ∨ verb = "uninstall"%string →
  decode_command (npm_command verb m) =
  Some (bool_decide (verb = "install"%string), name m).
Proof.
  unfold decode_command, npm_command. intros [-> | ->].
  - change (js "npm " ++ js "install" ++ js " " ++ ?t)
      with (js "npm install " ++ t).
    rewrite starts_with_app. change 12 with (length (js "npm install ")).
    by rewrite drop_app_length, strip_save_dev.
  - change (js "npm " ++ js "uninstall" ++ js " " ++ ?t)
      with (js "npm uninstall " ++ t).
    change (starts_with (js "npm install ") _) with false.
    rewrite starts_with_app. change 14 with (length (js "npm uninstall ")).
    by rewrite drop_app_length, strip_save_dev.
Qed.

Lemma well_formed_manifest_value names : well_formed (manifest_value names).
Proof.
  constructor; [by repeat constructor|]. repeat constructor.
  - apply ordered_define_all.
  - apply Forall_define_all, Forall_fmap, Forall_true. constructor.
Qed.

(** Reading the manifest that [npm] wrote. *)
Lemma manifest_of_manifest_text names fsys :
  manifest_of (<[js "package.json" := manifest_text names]> fsys) =
  Some (manifest_value names).
Proof.
  unfold manifest_of. rewrite lookup_insert_eq. cbn [mbind option_bind].
  apply JSON_parse_print_indented, well_formed_manifest_value.
Qed.

Lemma name_set_manifest_value names :
  name_set (declared (manifest_value names)) = list_to_set names.
Proof.
  apply set_eq. intros n. rewrite elem_of_name_set, elem_of_list_to_set.
  unfold manifest_value, declared. cbn [lookup_prop].
  rewrite bool_decide_eq_true_2 by done.
  rewrite bool_decide_eq_false_2 by done. cbn [for_in_keys fmap list_fmap].
  rewrite (right_id_L [] (++)). split.
  - intros (m & (k & -> & Hk)%list_elem_of_fmap & <-).
    rewrite elem_of_keys_define_all, <-list_fmap_compose in Hk.
    by rewrite list_fmap_id in Hk.
  - intros Hn. exists (mkModule n false). split; [|done].
    apply list_elem_of_fmap. exists n. split; [done|].
    rewrite elem_of_keys_define_all, <-list_fmap_compose.
    by rewrite list_fmap_id.
Qed.

(** The manifest after a command. *)
Lemma npm_exec_declares secure (install : bool) m fsys X :
  declares fsys X →
  declares
    (npm_exec (npm_command (if install then "install" else "uninstall") m)
       fsys).2
    (if install then {[name m]} ∪ X else X ∖ {[name m]}).
Proof.
  intros (content & Hman & Hnull & <-). unfold npm_exec.
  rewrite decode_npm_command, Hman by (destruct install; auto). cbn [snd].
  eexists. split_and!; [apply manifest_of_manifest_text|done|].
  rewrite name_set_manifest_value. apply set_eq. intros n.
  unfold npm_names, name_set. destruct install.
  - rewrite bool_decide_eq_true_2 by done. case_bool_decide; set_solver.
  - rewrite bool_decide_eq_false_2 by done.
    rewrite elem_of_list_to_set, elem_of_filterb.
    rewrite negb_true_iff, bool_decide_eq_false. set_solver.
Qed.

#[global] Instance npm_env_lawful secure : NpmLaws (npm_env_of secure).
Proof.
  split.
  - intros command fsys. split; [done|]. intros path ->%list_elem_of_singleton.
    cbn [sync_exec npm_env_of]. unfold npm_exec.
    destruct (decode_command command) as [[install n]|]; [|done].
    destruct (manifest_of fsys) as [content|]; [|done].
    cbn [snd]. by rewrite lookup_insert_ne.
  - intros m fsys X HX _. apply (npm_exec_declares secure true m fsys X HX).
  - intros m fsys X HX _. apply (npm_exec_declares secure false m fsys X HX).
Qed.

Lemma npm_env_succeeds secure : succeeds (npm_env_of secure).
Proof.
  intros command fsys. cbn [sync_exec npm_env_of]. unfold npm_exec.
  destruct (decode_command command) as [[install n]|]; [|done].
  by destruct (manifest_of fsys).
Qed.
End npm_env.

(** ** Main results *)

Section results.
Context `{Env} `{!NpmLaws _}.

(** C12 With secure mode off and a package manager that keeps its laws
    and whose commands succeed, a run leaves a manifest that declares
    exactly the names in use in the sources, and a second run does
    nothing: it runs no command and leaves the world as the first run
    left it. *)
Theorem main_converges (w : World) (content : json) :
  secureMode = false → succeeds _ →
  readable (files w) (glob_sync (files w)) →
  manifest_of (files w) = Some content → content ≠ JNull →
  declares (files (main w).2) (name_set (used_of (files w))) ∧
  main (main w).2 = (Ok (), (main w).2).
Proof.
  intros Hsec Hok Hread Hman Hnull.
  destruct (run_main_reconciles w content) as [-> Hrun]; [done..|].
  split; [by apply reconciled_declares|done].
Qed.

(** C29 Secure mode never reconciles: with a package manager that keeps
    its laws and whose commands succeed, a name that the sources use and
    the manifest does not declare is still missing after any number of
    runs, and every one of these runs prints or asks something again. *)
Theorem main_secure_never_converges (w : World) (n : jsstring) (k : nat) :
  secureMode = true → succeeds _ → missing n (files w) →
  let w' := Nat.iter k (λ w, (main w).2) w in
  missing n (files w') ∧ main w' ≠ (Ok (), w').
Proof.
  intros Hsec Hok Hmiss w'.
  assert (missing n (files w')) as Hmiss'.
  { subst w'. induction k as [|k IH]; [done|].
    by apply run_main_missing. }
  split; [done|]. intros Hrun.
  destruct (run_main_missing n w' Hsec Hok Hmiss') as [_ []].
  by rewrite Hrun.
Qed.
End results.

(** A world of [npm_env]: the sources use [chalk] and [lodash], the
    manifest declares [lodash] and [mocha]. *)
Definition npm_world : World :=
  mkWorld
    {[ js "index.js" := js "require('chalk');require('lodash')";
       js "package.json" := manifest_text [js "lodash"; js "mocha"] ]} [].

Lemma main_converges_witness :
  @main npm_env (@main npm_env npm_world).2 =
  (Ok (), (@main npm_env npm_world).2).
Proof.
  apply (@main_converges npm_env (npm_env_lawful false) npm_world
           (manifest_value [js "lodash"; js "mocha"]));
    [done|apply npm_env_succeeds|decide_by_computation
    |vm_compute; reflexivity|done].
Defined.

Lemma main_secure_never_converges_witness :
  let w' := Nat.iter 3 (λ w, (@main (npm_env_of true) w).2) npm_world in
  @missing (npm_env_of true) (js "chalk") (files w') ∧
  @main (npm_env_of true) w' ≠ (Ok (), w').
Proof.
  apply (@main_secure_never_converges (npm_env_of true) (npm_env_lawful true)
           npm_world (js "chalk") 3); [done|apply npm_env_succeeds|].
  split_and!; [decide_by_computation|decide_by_computation|].
  exists {[ js "lodash"; js "mocha" ]}. split; [|decide_by_computation].
  exists (manifest_value [js "lodash"; js "mocha"]).
  split_and!; [vm_compute; reflexivity|done|decide_by_computation].
Defined.

(** The first run in that world installs [chalk] and removes [mocha];
    the manifest then declares [chalk] and [lodash]. *)
Example npm_world_commands :
  commands (events (@main npm_env) npm_world) =
  [js "npm install chalk --save"; js "npm uninstall mocha --save"].
Proof. vm_compute. reflexivity. Qed.

Example npm_world_manifest :
  manifest_of (files (@main npm_env npm_world).2) =
  Some (manifest_value [js "chalk"; js "lodash"]).
Proof. vm_compute. reflexivity. Qed.
