(* ===== verification/Project.v ===== *)
(** * The program over packages that keep their laws

    The whole program, from the files of a project to its manifest,
    when [glob] and [npm] keep the laws of [Glob.v] and [Converge.v].
    A name is [required] when a scanned file holds a call with it and
    the classifier keeps it.  After a run whose commands succeed, the
    manifest declares exactly the required names
    ([main_declares_required]): what a hidden file or a file inside the
    directory [node_modules] of the project requires is removed from
    the manifest, and what a file inside a [node_modules] further down
    requires is installed.

    The laws leave the order of the files open and nothing else
    ([used_of_glob_list]).

    [project_env] is an environment that keeps both classes of laws:
    [glob.sync] is [glob_list] and [npm] is [npm_exec]. *)

From S2P Require Import Prelude JsRuntime Modules Dedup Diff Classifier.
From S2P Require Import Validator Extractor World Json JsonSpec JsonPrint.
From S2P Require Import Files Glob Manifest Actions Pipeline Outcome Converge.

(** ** The required names *)

Section required.
Context `{Env}.
Implicit Types (fsys : gmap jsstring jsstring) (n path text : jsstring)
  (m : ModuleRef) (w : World) (content : json).

(** [n] is required in [fsys]: a file that is scanned holds a call with
    [n], which is no built-in module and does not start with [./]. *)
Definition required fsys n : Prop :=
  registry_name n = true ∧
  ∃ path text, fsys !! path = Some text ∧ scanned path = true ∧
               n ∈ modulesFromContent text.

Context `{!GlobLaws _}.

(** The names in use are the required names. *)
Lemma elem_of_used_names fsys n :
  readable fsys (glob_sync fsys) →
  n ∈ name_set (used_of fsys) ↔ required fsys n.
Proof.
  intros Hread. unfold used_of, required.
  rewrite elem_of_name_set, filterRegistryModules_as_filter.
  setoid_rewrite elem_of_filterb. setoid_rewrite elem_of_deduplicate.
  setoid_rewrite (elem_of_scan_glob fsys _ Hread).
  setoid_rewrite elem_of_refs_of_file. split.
  - intros (m & [(path & text & ? & ? & ? & _) ?] & <-). eauto 10.
  - intros (Hn & path & text & ? & ? & ?).
    exists (mkModule n (isTestFile path)). eauto 10.
Qed.

(** The modules in use are those of the files of [glob_list], up to
    their order: the differences that a run computes are determined by
    the files of the project ([plan_order_independent]). *)
Lemma used_of_glob_list fsys :
  readable fsys (glob_sync fsys) → NoDup (glob_sync fsys) →
  used_of fsys ≡ₚ used_in fsys (glob_list fsys).
Proof.
  intros Hread Hdup. unfold used_of, used_in.
  by rewrite (glob_sync_glob_list fsys Hread Hdup).
Qed.

Context `{!NpmLaws _}.

(** C13 From the files to the manifest: with a [glob] and an [npm] that
    keep their laws, secure mode off and commands that succeed, a run
    leaves a manifest that declares a name exactly when it is required:
    when a scanned file of the project holds a call with the name, and
    the name is no built-in module and does not start with [./]. *)
Theorem main_declares_required w content :
  secureMode = false → succeeds _ →
  readable (files w) (glob_sync (files w)) →
  manifest_of (files w) = Some content → content ≠ JNull →
  ∃ content', manifest_of (files (main w).2) = Some content' ∧
              content' ≠ JNull ∧
              ∀ n, n ∈ name_set (declared content') ↔ required (files w) n.
Proof.
  intros Hsec Hok Hread Hman Hnull.
  destruct (run_main_reconciles w content) as [-> _]; [done..|].
  destruct (reconciled_declares (files w) content) as (c & ? & ? & Hc);
    [done..|].
  exists c. split_and!; [done..|]. intros n.
  by rewrite Hc, elem_of_used_names.
Qed.
End required.

(** ** An environment that keeps the laws *)

(** [glob.sync] lists the scanned files, [npm] rewrites the manifest. *)
Definition project_env (secure : bool) : Env := {|
  env_builtins := node_builtins;
  glob_sync := glob_list;
  sync_exec := npm_exec;
  sync_request url := RequestReturns;
  argv_secure := secure;
|}.

Lemma project_env_glob secure : GlobLaws (project_env secure).
Proof. split; apply (glob_env_lawful secure). Qed.

Lemma project_env_npm secure : NpmLaws (project_env secure).
Proof.
  split.
  - intros command fsys. cbn [sync_exec project_env]. unfold npm_exec.
    destruct (decode_command command) as [[install n]|]; [|done].
    destruct (manifest_of fsys) as [content|]; [|done]. cbn [snd].
    split; cbn [glob_sync project_env]; [by apply glob_list_insert|].
    intros path [_ Hpath]%elem_of_glob_list.
    apply lookup_insert_ne. by intros <-.
  - intros m fsys X HX _. apply (npm_exec_declares secure true m fsys X HX).
  - intros m fsys X HX _. apply (npm_exec_declares secure false m fsys X HX).
Qed.

Lemma project_env_succeeds secure : succeeds (project_env secure).
Proof. apply (npm_env_succeeds secure). Qed.

(** ** Example *)

(** A project whose manifest declares [lodash] and [eslint]: a source
    file, a test, a configuration file that is hidden, and a
    dependency. *)
Definition project_world : World :=
  mkWorld
    {[ js "index.js" :=
         js "require('chalk');require('lodash');require('fs');require('./util')";
       js "test/index.test.js" := js "require('mocha')";
       js ".eslintrc.js" := js "require('eslint')";
       js "node_modules/chalk/index.js" := js "require('ansi')";
       js "package.json" := manifest_text [js "lodash"; js "eslint"] ]} [].

Lemma main_declares_required_witness :
  ∃ content',
    manifest_of (files (@main (project_env false) project_world).2) =
      Some content' ∧
    content' ≠ JNull ∧
    ∀ n, n ∈ name_set (declared content') ↔
         @required (project_env false) (files project_world) n.
Proof.
  apply (@main_declares_required (project_env false)
           (project_env_glob false) (project_env_npm false) project_world
           (manifest_value [js "lodash"; js "eslint"]));
    [done|apply project_env_succeeds|decide_by_computation
    |vm_compute; reflexivity|done].
Defined.

(** The run installs [chalk] and [mocha] and removes [eslint], which
    the hidden file requires. *)
Example project_world_commands :
  commands (events (@main (project_env false)) project_world) =
  [js "npm install mocha --save-dev"; js "npm install chalk --save";
   js "npm uninstall eslint --save"].
Proof. vm_compute. reflexivity. Qed.

Example project_world_manifest :
  manifest_of (files (@main (project_env false) project_world).2) =
  Some (manifest_value [js "chalk"; js "mocha"; js "lodash"]).
Proof. vm_compute. reflexivity. Qed.

(** Calls with an empty or a short argument: the names are empty, and
    the run executes [npm install] without a name. *)
Example empty_name_commands :
  commands (events (@main (project_env false))
    (mkWorld {[ js "index.js" := js "require(a); require(); require('')";
                js "package.json" := manifest_text [] ]} [])) =
  [js "npm install  --save"].
Proof. vm_compute. reflexivity. Qed.
