(* ===== verification/CodeUnits.v ===== *)
(** * Strings of 16-bit code units: adequacy of the encoding

    A string of the language is a sequence of 16-bit code units; the
    strings of the model are lists of natural numbers, and no definition
    of the other files assumes a bound.  This file justifies the
    encoding: from files and events whose strings are strings of code
    units, a run leaves files and events whose strings are
    ([main_code_units]), so no theorem of the other files is about a
    string that the language does not have.  The file is about the
    model, not about the program.

    - The names in use are pieces of the texts of the files
      ([modulesFromContent_sublist] of [Extractor.v]).
    - The values of [JSON.parse] hold strings of code units when the
      text does ([JSON_parse_units]): what a reader leaves is the end of
      its input, and an escape of four hexadecimal digits is below
      [2 ^ 16] ([hex4_code_unit]).  The printer writes code units
      ([print_at_units]).
    - The commands, the messages and the address of the request are
      built from these names and from literals of the program.
    - The commands themselves belong to the environment: the invariant
      is proved for every environment whose commands keep the files
      strings of code units, and [npm_exec] is one. *)

From S2P Require Import Prelude JsRuntime Modules Dedup Diff Classifier.
From S2P Require Import Validator Extractor World Json JsonSpec Hoare Script.
From S2P Require Import Files Glob Manifest Actions Pipeline Outcome.
From S2P Require Import Converge Project.

(** ** Definitions *)

(** A code unit has 16 bits. *)
Definition code_unit (c : N) : Prop := (c < 65536)%N.

Definition code_units (s : jsstring) : Prop := Forall code_unit s.

#[global] Instance code_unit_dec c : Decision (code_unit c).
Proof. unfold code_unit. apply _. Defined.

#[global] Instance code_units_dec s : Decision (code_units s).
Proof. unfold code_units. apply _. Defined.

#[local] Set Warnings "-register-all".

(** Every string and every key of a value is a string of code units. *)
Inductive json_units : json → Prop :=
| units_null : json_units JNull
| units_bool b : json_units (JBool b)
| units_number m e : json_units (JNumber m e)
| units_string s : code_units s → json_units (JString s)
| units_array xs : Forall json_units xs → json_units (JArray xs)
| units_object props :
    Forall (λ kv, code_units kv.1 ∧ json_units kv.2) props →
    json_units (JObject props).

(** The strings of an event are strings of code units. *)
Definition event_units (e : event) : Prop :=
  match e with
  | SpinnerStart text color => code_units text ∧ code_units color
  | SpinnerStop => True
  | ConsoleLog _ message => code_units message
  | Exec command => code_units command
  | Request url => code_units url
  end.

(** The paths and the texts of the files are strings of code units. *)
Definition files_units (fsys : gmap jsstring jsstring) : Prop :=
  map_Forall (λ path text, code_units path ∧ code_units text) fsys.

Definition world_units (w : World) : Prop :=
  files_units (files w) ∧ Forall event_units (trace w).

#[global] Instance event_units_dec e : Decision (event_units e).
Proof. destruct e; apply _. Defined.

#[global] Instance files_units_dec fsys : Decision (files_units fsys).
Proof. unfold files_units. apply _. Defined.

#[global] Instance world_units_dec w : Decision (world_units w).
Proof. unfold world_units. apply _. Defined.

(** ** Strings *)

Section strings.
Implicit Types (s t rest : jsstring) (c : N).

Lemma code_units_app s t : code_units (s ++ t) ↔ code_units s ∧ code_units t.
Proof. apply Forall_app. Qed.

(** The literals of the program are texts of ASCII characters. *)
Lemma code_units_js (text : string) : code_units (js text).
Proof.
  unfold js. apply Forall_fmap, Forall_true. intros a. unfold code_unit.
  pose proof (Ascii.N_ascii_bounded a). simpl. lia.
Qed.

(** The text of a decimal. *)
Lemma uint_text_units u : code_units (uint_text u).
Proof. induction u; cbn [uint_text]; by constructor. Qed.

Lemma code_units_suffix s t : s `suffix_of` t → code_units t → code_units s.
Proof. intros [pre ->] [_ ?]%code_units_app. done. Qed.
End strings.

(** Proves that a text made of literals and of strings of the context
    is a string of code units. *)
Ltac solve_units :=
  repeat first
    [ apply code_units_js
    | apply code_units_app; split
    | assumption
    | match goal with
      | |- code_units (js (if ?b then _ else _)) => destruct b
      end
    | constructor ].

(** ** The values of [JSON.parse] *)

Section json.
Implicit Types (s str rest k : jsstring) (c u : N) (v : json)
  (props : list (jsstring * json)).

Lemma hex_value_bound c u : hex_value c = Some u → (u < 16)%N.
Proof.
  unfold hex_value. repeat case_match; intros [= <-];
    repeat match goal with
           | H : _ && _ = true |- _ =>
               apply andb_prop in H as [?%N.leb_le ?%N.leb_le]
           end; lia.
Qed.

(** Four hexadecimal digits make a code unit. *)
Lemma hex4_code_unit h1 h2 h3 h4 u :
  hex4 h1 h2 h3 h4 = Some u → code_unit u.
Proof.
  unfold hex4, code_unit. intros. simplify_option_eq.
  repeat match goal with
         | H : hex_value _ = Some _ |- _ => apply hex_value_bound in H
         end.
  lia.
Qed.

Lemma simple_escape_code_unit e u : simple_escape e = Some u → code_unit u.
Proof.
  unfold simple_escape, code_unit. intros.
  repeat case_match; simplify_eq; lia.
Qed.

Lemma read_string_units s str rest :
  read_string s = Some (str, rest) → code_units s →
  code_units str ∧ code_units rest.
Proof.
  revert str rest. induction s as [s IH] using length_ind.
  intros str rest Hread Hs. destruct s as [|c s]; [done|].
  cbn [read_string] in Hread. apply Forall_cons in Hs as [Hc Hs].
  repeat (case_match; try done); simplify_option_eq;
    repeat match goal with
           | p : _ * _ |- _ => destruct p; simplify_eq/=
           | H : Forall code_unit (_ :: _) |- _ =>
               apply Forall_cons in H as [? H]
           end;
    try match goal with
        | H : read_string ?t = Some _ |- _ =>
            apply IH in H as [??]; [|simpl; lia|done]
        end;
    (split; [|done]); try done; constructor;
    eauto using hex4_code_unit, simple_escape_code_unit.
Qed.

Lemma skip_ws_units s t : skip_ws s = t → code_units s → code_units t.
Proof. intros <-. apply code_units_suffix, skip_ws_suffix. Qed.

Lemma token_units c s rest :
  token c s = Some rest → code_units s → code_units rest.
Proof. intros ?%token_suffix. by apply code_units_suffix. Qed.

Lemma strip_prefix_units p s rest :
  strip_prefix p s = Some rest → code_units s → code_units rest.
Proof. intros ?%strip_prefix_suffix. by apply code_units_suffix. Qed.

Lemma read_number_units s m e rest :
  read_number s = Some (m, e, rest) → code_units s → code_units rest.
Proof. intros ?%read_number_suffix. by apply code_units_suffix. Qed.

(** Takes what a reader of the context has read from code units. *)
Ltac units_step IHv IHe IHm :=
  match goal with
  | H : skip_ws _ = _ :: _ |- _ =>
      apply skip_ws_units in H; [|assumption];
      pose proof H as [_ ?]%Forall_cons
  | H : Forall code_unit (_ :: _) |- _ => apply Forall_cons in H as [_ H]
  | H : token _ _ = Some _ |- _ => apply token_units in H; [|assumption]
  | H : strip_prefix _ _ = Some _ |- _ =>
      apply strip_prefix_units in H; [|assumption]
  | H : read_number _ = Some _ |- _ =>
      apply read_number_units in H; [|assumption]
  | H : read_string _ = Some _ |- _ =>
      apply read_string_units in H as [??]; [|assumption]
  | H : read_value _ _ = Some _ |- _ => apply IHv in H as [??]; [|assumption]
  | H : read_elements _ _ = Some _ |- _ =>
      apply IHe in H as [??]; [|assumption]
  | H : read_members _ _ = Some _ |- _ =>
      apply IHm in H as [??]; [|assumption]
  end.

Lemma readers_units f :
  (∀ s v rest, read_value f s = Some (v, rest) → code_units s →
     json_units v ∧ code_units rest) ∧
  (∀ s xs rest, read_elements f s = Some (xs, rest) → code_units s →
     Forall json_units xs ∧ code_units rest) ∧
  (∀ s members rest, read_members f s = Some (members, rest) →
     code_units s →
     Forall (λ kv, code_units kv.1 ∧ json_units kv.2) members ∧
     code_units rest).
Proof.
  induction f as [|f (IHv & IHe & IHm)]; [done|].
  split_and!; intros s ? rest; cbn [read_value read_elements read_members];
    intros Hread Hs;
    repeat first
      [ progress simplify_option_eq
      | case_match
      | match goal with p : _ * _ |- _ => destruct p end ];
    repeat units_step IHv IHe IHm;
    (split; [|done]); repeat constructor; try done.
  by apply Forall_define_all.
Qed.

Lemma JSON_parse_units text v :
  JSON_parse text = Some v → code_units text → json_units v.
Proof.
  unfold JSON_parse. intros Hparse Htext.
  destruct (read_value _ text) as [[v' rest]|] eqn:Hread; [|done].
  apply readers_units in Hread as [??]; [|done].
  cbn [mbind option_bind] in Hparse. by destruct (skip_ws rest); simplify_eq.
Qed.
End json.

(** ** The printer *)

Section printer.
Context (gap : nat → jsstring) (colon : jsstring).
Context (gap_units : ∀ d, code_units (gap d)) (colon_units : code_units colon).
Implicit Types (s : jsstring) (c : N) (v : json) (ts : list jsstring) (d : nat).

Lemma hex_digit_units n : (n < 16)%N → code_unit (hex_digit n).
Proof. unfold hex_digit, code_unit. case_match; lia. Qed.

Lemma escape_units c : code_unit c → code_units (escape c).
Proof.
  intros Hc. unfold escape. repeat case_match; repeat (constructor; try done).
  - apply hex_digit_units, N.Div0.div_lt_upper_bound.
    match goal with H : (_ <? _)%N = true |- _ => apply N.ltb_lt in H end. lia.
  - by apply hex_digit_units, N.mod_lt.
Qed.

Lemma quote_units s : code_units s → code_units (quote s).
Proof.
  intros Hs. unfold quote. constructor; [done|].
  apply code_units_app. split; [|by constructor]. apply Forall_bind.
  eapply Forall_impl; [done|]. apply escape_units.
Qed.

Lemma int_text_units z : code_units (int_text z).
Proof.
  unfold int_text. apply code_units_app.
  split; [by case_match; repeat constructor|apply uint_text_units].
Qed.

Lemma join_units sep ts :
  code_units sep → Forall code_units ts → code_units (join sep ts).
Proof.
  intros Hsep. induction 1 as [|t ts Ht Hts IH]; [constructor|].
  destruct ts; [done|]. cbn [join]. by rewrite !code_units_app.
Qed.

Lemma bracket_units o c d ts :
  code_unit o → code_unit c → Forall code_units ts →
  code_units (bracket gap o c d ts).
Proof.
  intros Ho Hc Hts. unfold bracket. destruct ts; [by repeat constructor|].
  constructor; [done|]. rewrite !code_units_app. split_and!; try done.
  - apply join_units; [|done]. constructor; [done|apply gap_units].
  - by constructor.
Qed.

Lemma print_at_units v :
  json_units v → ∀ d, code_units (print_at gap colon d v).
Proof.
  induction v as [|b|m e|s|xs IH|props IH] using json_ind';
    intros Hv d; cbn [print_at];
    inversion_clear Hv as [| | |? Hs|? Hxs|? Hprops].
  - apply code_units_js.
  - destruct b; apply code_units_js.
  - apply code_units_app. split; [apply int_text_units|].
    constructor; [done|apply int_text_units].
  - by apply quote_units.
  - apply bracket_units; [done..|]. apply Forall_fmap.
    eapply Forall_impl; [exact (Forall_mp _ _ _ IH Hxs)|]. auto.
  - apply bracket_units; [done..|]. apply Forall_fmap, Forall_forall.
    intros [k x] Hkx. rewrite Forall_forall in IH, Hprops.
    destruct (Hprops _ Hkx) as [Hk Hx]. specialize (IH _ Hkx Hx (S d)).
    unfold compose, member_text. cbn [fst snd] in *.
    apply code_units_app. split; [by apply quote_units|].
    constructor; [done|]. by apply code_units_app.
Qed.
End printer.

(** ** The declared modules *)

Section manifest.
Implicit Types (v content : json) (props : list (jsstring * json))
  (m : ModuleRef).

(** The keys that [for in] visits are strings of code units. *)
Lemma for_in_keys_units v :
  json_units v → Forall code_units (for_in_keys (Some v)).
Proof.
  destruct 1 as [| | |s|xs|props Hprops]; cbn [for_in_keys]; try done;
    try (apply Forall_fmap, Forall_true; intros i; apply uint_text_units).
  apply Forall_fmap. eapply Forall_impl; [done|]. by intros kv [??].
Qed.

Lemma declared_units content :
  json_units content → Forall (λ m, code_units (name m)) (declared content).
Proof.
  destruct 1 as [| | | | |props Hprops]; try done. apply Forall_forall.
  intros m Hm%elem_of_declared. revert Hm.
  destruct (lookup_prop _ props) as [v|] eqn:Hv; [|by intros ?%elem_of_nil].
  apply (proj1 (Forall_forall _ _)), for_in_keys_units.
  eapply (lookup_prop_Forall json_units); [|done].
  eapply Forall_impl; [done|]. by intros kv [??].
Qed.
End manifest.

(** ** The events and the files of a run *)

Section world.
Context `{Env}.
Implicit Types (w : World) (m : ModuleRef) (ms : list ModuleRef)
  (fsys : gmap jsstring jsstring) (content : json).

Lemma npm_command_units verb m :
  code_units (name m) → code_units (npm_command verb m).
Proof. intros. unfold npm_command. solve_units. Qed.

Lemma install_events_units m status :
  code_units (name m) → Forall event_units (install_events m status).
Proof.
  intros. pose proof (npm_command_units "install" m).
  unfold install_events.
  case_bool_decide; repeat constructor; simpl; solve_units; auto.
Qed.

Lemma uninstall_events_units m :
  code_units (name m) → Forall event_units (uninstall_events m).
Proof.
  intros. pose proof (npm_command_units "uninstall" m).
  unfold uninstall_events. repeat constructor; simpl; solve_units; auto.
Qed.

Lemma refused_events_units m :
  code_units (name m) → Forall event_units (refused_events m).
Proof.
  intros. unfold refused_events, popularity_url.
  case_match; repeat constructor; simpl; solve_units.
Qed.

(** The names in use are pieces of the texts of the files. *)
Lemma used_of_units fsys :
  files_units fsys → Forall (λ m, code_units (name m)) (used_of fsys).
Proof.
  intros Hfsys. apply Forall_forall. intros m. unfold used_of.
  rewrite elem_of_filterRegistryModules, elem_of_deduplicate.
  rewrite elem_of_scan_files.
  intros [(path & _ & [Hm _]%elem_of_refs_of_file) _].
  apply modulesFromContent_sublist in Hm.
  apply (Forall_sublist _ _ _ Hm).
  destruct (fsys !! path) as [text|] eqn:Hpath; [|constructor].
  by apply (Hfsys path text).
Qed.

Lemma plan_units fsys content :
  files_units fsys → json_units content →
  Forall (λ m, code_units (name m)) (plan fsys content).1 ∧
  Forall (λ m, code_units (name m)) (plan fsys content).2.
Proof.
  intros Hfsys%used_of_units Hcontent%declared_units.
  unfold plan. cbn [fst snd]. rewrite !Forall_forall in *.
  split; intros m [Hm _]%elem_of_diff; auto.
Qed.

Section commands.
(** The commands keep the files strings of code units. *)
Context (exec_units : ∀ command fsys,
  code_units command → files_units fsys →
  files_units (sync_exec command fsys).2).

Lemma apply_all_units verb evs ms fsys :
  (∀ m status, code_units (name m) → Forall event_units (evs m status)) →
  Forall (λ m, code_units (name m)) ms → files_units fsys →
  files_units (apply_all verb evs ms fsys).1 ∧
  Forall event_units (apply_all verb evs ms fsys).2.
Proof.
  intros Hevs Hms. revert fsys.
  induction Hms as [|m ms Hm Hms IH]; intros fsys Hfsys; [by split|].
  cbn [apply_all].
  pose proof (exec_units (npm_command verb m) fsys
                (npm_command_units verb m Hm) Hfsys) as Hexec.
  destruct (sync_exec (npm_command verb m) fsys) as [status fsys'].
  destruct (IH fsys' Hexec) as [? ?].
  destruct (apply_all verb evs ms fsys') as [fsys'' rest].
  split; [done|]. apply Forall_app. auto.
Qed.

Lemma refuse_all_units ms :
  Forall (λ m, code_units (name m)) ms → Forall event_units (refuse_all ms).2.
Proof.
  intros Hms. unfold refuse_all.
  destruct Hms as [|m ms Hm Hms]; [done|].
  case_match; [by apply refused_events_units|]. cbn [snd].
  apply Forall_bind, Forall_cons. split; [by apply refused_events_units|].
  eapply Forall_impl; [done|]. apply refused_events_units.
Qed.

(** The actions of a run. *)
Lemma act_units fsys content :
  files_units fsys → json_units content →
  files_units (act fsys content).1.2 ∧
  Forall event_units (act fsys content).2.
Proof.
  intros Hfsys Hcontent.
  destruct (plan_units fsys content Hfsys Hcontent) as [Hin Hrm].
  unfold act. destruct (plan fsys content) as [toInstall toRemove].
  cbn [fst snd] in *.
  assert (∀ fsys', files_units fsys' →
            files_units (uninstall_all toRemove fsys').1 ∧
            Forall event_units (uninstall_all toRemove fsys').2) as Hun.
  { intros. apply apply_all_units; [|done..].
    intros. by apply uninstall_events_units. }
  destruct secureMode.
  - pose proof (refuse_all_units toInstall Hin) as Href.
    destruct (refuse_all toInstall) as [[[]|e] evs]; [|done].
    destruct (Hun fsys) as [? ?]; [done|].
    destruct (uninstall_all toRemove fsys) as [fsys' evs'].
    split; [done|]. apply Forall_app. auto.
  - destruct (apply_all_units "install" install_events toInstall fsys)
      as [? ?]; [apply install_events_units|done..|].
    fold (install_all toInstall fsys) in *.
    destruct (install_all toInstall fsys) as [fsys' evs].
    destruct (Hun fsys') as [? ?]; [done|].
    destruct (uninstall_all toRemove fsys') as [fsys'' evs'].
    split; [done|]. apply Forall_app. auto.
Qed.
End commands.
End world.

(** ** A package manager that writes code units *)

Section npm.
Implicit Types (command n : jsstring) (names : list jsstring)
  (fsys : gmap jsstring jsstring).

Lemma decode_command_units command install n :
  decode_command command = Some (install, n) → code_units command →
  code_units n.
Proof.
  unfold decode_command, strip_save. intros Hn Hcommand.
  repeat case_match; simplify_eq;
    by apply Forall_reverse, Forall_drop, Forall_reverse, Forall_drop.
Qed.

Lemma manifest_text_units names :
  Forall code_units names → code_units (manifest_text names).
Proof.
  intros Hnames. unfold manifest_text, print_indented.
  apply code_units_app. split; [|by constructor]. apply print_at_units.
  - intros d. constructor; [done|]. by apply Forall_replicate.
  - by constructor.
  - constructor. apply Forall_singleton. split; [apply code_units_js|].
    constructor. apply Forall_define_all, Forall_fmap.
    eapply Forall_impl; [done|]. intros n Hn. split; [done|].
    constructor. apply code_units_js.
Qed.

Lemma npm_names_units install n names :
  code_units n → Forall code_units names →
  Forall code_units (npm_names install n names).
Proof.
  intros Hn Hnames. unfold npm_names. repeat case_match; try done.
  - by constructor.
  - eapply Forall_sublist; [apply filterb_sublist|done].
Qed.

(** [npm_exec] keeps the files strings of code units. *)
Lemma npm_exec_units command fsys :
  code_units command → files_units fsys →
  files_units (npm_exec command fsys).2.
Proof.
  intros Hcommand Hfsys. unfold npm_exec.
  destruct (decode_command command) as [[install n]|] eqn:Hn; [|done].
  destruct (manifest_of fsys) as [content|] eqn:Hcontent; [|done].
  cbn [snd]. apply map_Forall_insert_2; [|done].
  split; [apply code_units_js|]. apply manifest_text_units, npm_names_units.
  - by eapply decode_command_units.
  - unfold manifest_of in Hcontent.
    destruct (fsys !! js "package.json") as [text|] eqn:Htext; [|done].
    apply Forall_fmap, declared_units.
    eapply JSON_parse_units; [done|]. by eapply Hfsys.
Qed.
End npm.

(** ** Adequacy *)

Section results.
Context `{Env}.

(** The strings of the program are strings of the language: when
    the paths and the texts of the files and the strings of the events
    so far are strings of 16-bit code units, and the commands keep the
    files so, they still are after a run, however the run ends.  The
    names come from the texts of the files, as pieces of them, and from
    the keys of the manifest, where an escape of four hexadecimal digits
    is a code unit. *)
Lemma main_code_units :
  (∀ command fsys, code_units command → files_units fsys →
     files_units (sync_exec command fsys).2) →
  preserves world_units main.
Proof.
  intros exec_units w.
  intros [Hfsys Htrace]. rewrite run_main. unfold outcome.
  destruct (first_unreadable _ _); [done|].
  destruct (files w !! js "package.json") as [text|] eqn:Hfile; [|done].
  destruct (JSON_parse text) as [content|] eqn:Hparse; [|done].
  destruct (act_units exec_units (files w) content) as [? ?];
    [done|eapply JSON_parse_units; [done|by eapply Hfsys]|].
  destruct content; try done; destruct (act _ _) as [[r fsys] evs];
    (split; [done|]); apply Forall_app; auto.
Qed.
End results.

Lemma main_code_units_witness :
  world_units (@main (project_env false) project_world).2.
Proof.
  apply (@main_code_units (project_env false) npm_exec_units project_world).
  decide_by_computation.
Defined.
